(* ===== verification/_CoqProject ===== *)
-Q . S2P
Prelude.v
GoString.v
GoTime.v
Json.v
Logging.v
Version.v
Types.v
Demo.v
Names.v
Certificates.v
Request.v
Response.v
Enrollment.v
Api.v
IssuerSpec.v
GoMemory.v
DeepCopy.v
Scheme.v
Manager.v
Metrics.v
Runtime.v
TransactionStore.v
Configuration.v
Digest.v
Workload.v
Reporting.v
LogValues.v
DemoRuntime.v
WorkloadLaws.v
Client.v
ProtocolClient.v
ClientLaws.v
Lifecycle.v
Signer.v
Reconcile.v
SignerTrace.v
History.v
SignerLaws.v
Accounting.v
Collectors.v
Safety.v
Recovery.v
Progress.v
Records.v
Crash.v
