(* ===== verification/Prelude.v ===== *)
(** * cmp-issuer: a verification development

    cmp-issuer is a cert-manager external issuer.  For every approved
    CertificateRequest of a CMPIssuer or CMPClusterIssuer its controller runs a
    CMP enrollment (p10cr, ir or kur) against a CMP server, keeps the state of
    the transaction in a CMPTransaction resource between reconciles, and hands
    the issued, validated chain back to cert-manager.  This library translates
    the Go sources under src/ into executable definitions and proves what makes
    them correct.

    ** The program's parts and the files that model them

    - Go itself.  [Prelude] has the outcome of a Go call ([Ok], [Err] or
      [Panic]), the state monad [M] of a handler and the generic lemmas and
      tactics; [GoString] UTF-8, package strings, strconv and hex; [GoTime]
      durations and RFC 3339 instants; [Json] the part of encoding/json the
      configuration digest uses.
    - internal/logging: [Logging].  internal/version: [Version].
    - internal/protocol (the CMP client).  [Types] has the error type, X.509 and
      CMP data and the request and result types of types.go; [Names] the
      distinguished-name parser and [Certificates] the certificates, keys and
      CSRs of parse.go and certificate.go; [Request] the checks before a message
      is sent (client.go, ir.go, kur.go); [Response] the authentication of an
      answer; [Enrollment] what an authenticated answer means (finishTransaction,
      extractEnrollmentResponse, extractPollRep); [Client] the HTTP exchange and
      the five operations of CMPClient.
    - [ProtocolClient]: the interface [Client] of types.go between controller and
      CMP client, as a class with the laws the controller's theorems use;
      [ClientLaws] proves them of the CMP client.
    - api/v1alpha1: [Api], with the constants and structs the controller reads;
      [DeepCopy], the same types as they lie in memory and the generated
      functions that copy them, over the typed heap of [GoMemory]; [Scheme],
      their registration.
    - internal/controller.  [IssuerSpec] validates and defaults an issuer's spec
      and [Configuration] loads its Secrets (configuration.go); [Workload] selects
      the operation and authorizes workload keys (kur.go, renewal_fallback.go);
      [TransactionStore] is transaction_store.go; [Metrics], [Reporting] and
      [Collectors] are metrics.go of both packages; [LogValues] is logging.go;
      [Signer] is signer.go, one call of [Sign] being one reconcile;
      [Reconcile] names its stages (identify, prepare, exchange) and shows that
      [Sign] is their composition, so that theorems can speak of the world at
      each of them.
    - cmd/main.go and SetupWithManager: [Manager].
    - [Runtime]: the clock, randomness, HTTP and the API server as a class over
      an abstract external state, and the log of what the program did to it.  A
      theorem over [Runtime] holds for every behaviour of the outside.
    - [Demo] and [DemoRuntime]: a concrete instance of every parameter, in which
      the witnesses evaluate whole reconciles.

    The state of a reconcile is [World]: the external state and the log, newest
    event first.  A Go function that touches the outside is a program of [M
    World]; its early returns are [Err], its nil dereferences [Panic].  A pure
    Go function is a Rocq function with the same branches in the same order.
    int32 and int64 arithmetic that can overflow wraps where the source does
    ([wrap32], the duration of a poll answer, [duration_Round]).

    ** What the theorems show

    - Refinement.  [Lifecycle] is an abstract machine of one transaction: what
      may be sent and recorded given the record held.  [SignerTrace] proves that
      every reconcile refines it; [History] derives, by induction on accepted
      traces, that nothing is sent before the record that covers it is stored,
      that a reconcile makes at most one exchange of each kind, and that over
      all reconciles of a transaction the poll counter is exactly the number of
      waits recorded and stays within maximumPolls.  [Recovery]: a reconcile of
      an issued record answers from the record alone and deletes it only when
      it is unusable.  [Records]: a recorded chain reads back unchanged, and the
      wait a record keeps is the one the next reconcile continues.  [Crash]
      follows the stored record over complete and interrupted reconciles: one
      transaction, whose stages only ascend.
    - The result.  [SignerLaws]: a returned bundle is a chain for the CSR's key
      under the CMP trust anchors on every path; which Secrets are read, each
      tied to the credential the issuer names or to the Certificate the API
      server answered with before; when a
      transaction is resumed and when it is removed; all events a reconcile may
      log.  [Enrollment] and [Certificates] prove the same of the client's
      results and of chain ordering.
    - Authentication.  [Response]: which responses are accepted, exactly; strict
      MAC protection; the classification of every status.
    - Workload keys.  [WorkloadLaws]: which Secrets an ir or kur may read, that
      keys and certificates match, when a renewal falls back.
    - Configuration.  [Configuration] and [Digest]: a loaded configuration yields
      only requests the client accepts, and its digest identifies it up to a
      SHA-256 collision and does not depend on map order.
    - Panics and progress.  [Safety]: no reconcile panics unless the server sends
      the one message that makes finishTransaction panic there.  [Progress]: an
      overdue transaction sends nothing more and is deleted by the reconcile
      that comes to its exchange; before its deadline, a reconcile whose client
      returns a chain and a confirmation returns exactly that chain.
    - Accounting.  [Accounting] and [Collectors]: the counters count each outcome
      once, under complete and bounded labels.  [LogValues], [Logging]: logged
      values are printable and bounded.
    - Start-up.  [Manager]: what is registered, in which order and with which
      options, before the manager starts.  [Scheme]: the types its scheme knows.
      [Version]: the reported identity.
    - Memory.  [DeepCopy]: a copy of an API object has its value and shares no
      memory with it.

    ** Parameters and hypotheses

    Code outside the repository is a parameter: [Libs] (crypto/x509,
    encoding/asn1 and pem, net/url, mime, SHA-256, go-pki-cmp and the Unicode
    tables), [Runtime], [CertManager] (the annotation and label keys of
    cert-manager's API),
    [ControllerRuntime] (controller-runtime, issuer-lib, package flag),
    [Renderings] (String methods of net and x509 values), [SchemeRuntime] and
    [MetaV1] with [MetaV1Ops] (apimachinery's schemes and metadata types).  Theorems that need
    more name it: [pem_consumes] (pem.Decode returns a shorter rest),
    [KubeLaws] (the API server answers a write with the object written),
    [ProtocolClient.ClientLaws] (proved of the CMP client), [HarmlessServer]
    (an invariant of the outside under which no error message grants a request),
    [cooperative] and [served] for progress (an API server that accepts the
    record's updates before the deadline, and what the client returns for the
    one request the record asks; met by the CMP client in the witness), [SchemeLaws] and
    [MetaV1Laws] for apimachinery.  Each has an instance
    in a witness.

    ** Fuel

    The PEM loop of ParseCertificates runs with the length of its input plus
    one, which suffices because each block consumes input
    (ParseCertificates_terminates); running out would be [Panic] and is excluded
    by [Safety].  [hexDigits] runs with the bit length of its number, which is at
    least the number of its hexadecimal digits.  Every other recursion
    is structural.

    ** Not modelled

    - The CRD validation markers of the API types, which are comments for the
      API server.  Outside [DeepCopy] and [Configuration], where sharing
      matters, API objects are immutable values.
    - The sinks of log lines and metrics: lines are values, metrics are events;
      histogram buckets are declared but not filled.
    - Context cancellation, which reaches the program as an error of an outside
      call, and the text of error messages, of which only the fixed parts that
      classify a failure are kept. *)

From Stdlib Require Export ZArith Lia Ascii.
From stdpp Require Export base tactics option list strings gmap sorting numbers pretty.

#[export] Set Warnings "-clear-no-such-hyp".

(** ** Go values *)

(** Go strings and byte slices are both sequences of bytes.  Stdlib's
    [string] is a list of 8-bit [ascii], so it serves for both. *)
Abbreviation bytes := string (only parsing).

(** Outcome of a Go call that returns [(A, E)]: a value with a nil error, a
    non-nil error, or a run-time panic (nil dereference, index out of range). *)
Inductive outcome (E A : Type) : Type :=
| Ok (a : A)
| Err (e : E)
| Panic.
Arguments Ok {E A} a.
Arguments Err {E A} e.
Arguments Panic {E A}.

#[global] Instance outcome_ret E : MRet (outcome E) := λ A, Ok.
#[global] Instance outcome_bind E : MBind (outcome E) := λ A B f o,
  match o with Ok a => f a | Err e => Err e | Panic => Panic end.

(** [if err != nil { return wrap(err) }] *)
Definition mapErr {E E' A} (wrap : E → E') (o : outcome E A) : outcome E' A :=
  match o with Ok a => Ok a | Err e => Err (wrap e) | Panic => Panic end.

(** A nil-able pointer that is dereferenced without a check. *)
Definition deref {E A} (p : option A) : outcome E A :=
  match p with Some a => Ok a | None => Panic end.

(** [if cond { return err }] *)
Definition reject_if {E} (cond : bool) (e : E) : outcome E unit :=
  if cond then Err e else Ok tt.

Definition is_ok {E A} (o : outcome E A) : bool :=
  match o with Ok _ => true | _ => false end.

(** ** Stateful Go code: the state and error monad *)

Definition M (S E A : Type) : Type := S → outcome E A * S.

#[global] Instance M_ret S E : MRet (M S E) := λ A a s, (Ok a, s).
#[global] Instance M_bind S E : MBind (M S E) := λ A B f m s,
  match m s with
  | (Ok a, s') => f a s'
  | (Err e, s') => (Err e, s')
  | (Panic, s') => (Panic, s')
  end.

(** A pure Go expression evaluated inside stateful code. *)
Definition lift {S E A} (o : outcome E A) : M S E A := λ s, (o, s).
Definition fail {S E A} (e : E) : M S E A := λ s, (Err e, s).

(** Run [m] and hand its outcome to the caller as a value, the way Go code
    inspects [err] instead of returning at once. A panic still unwinds. *)
Definition try {S E E' A} (m : M S E A) : M S E' (E + A) := λ s,
  match m s with
  | (Ok a, s') => (Ok (inr a), s')
  | (Err e, s') => (Ok (inl e), s')
  | (Panic, s') => (Panic, s')
  end.

(** [if err != nil { return wrap(err) }] around a stateful call. *)
Definition mapErrM {S E E' A} (wrap : E → E') (m : M S E A) : M S E' A := λ s,
  let '(o, s') := m s in (mapErr wrap o, s').

(** A step that cannot fail: a state reader or transformer. *)
Definition gets {S E A} (f : S → A) : M S E A := λ s, (Ok (f s), s).
Definition modify {S E} (f : S → S) : M S E unit := λ s, (Ok tt, f s).
Definition step {S E A} (f : S → A * S) : M S E A := λ s, let '(a, s') := f s in (Ok a, s').

(** *** Hoare-style reasoning: [wp m Q s] holds when running [m] from [s]
    ends in an outcome and a state that satisfy [Q]. *)
Definition wp {S E A} (m : M S E A) (Q : outcome E A → S → Prop) (s : S) : Prop :=
  Q (m s).1 (m s).2.

Section wp_rules.
Context {S E : Type}.
Implicit Types s : S.

Lemma wp_ret {A} (a : A) (Q : outcome E A → S → Prop) s : Q (Ok a) s → wp (mret a) Q s.
Proof. done. Qed.

Lemma wp_lift {A} (o : outcome E A) (Q : outcome E A → S → Prop) s :
  Q o s → wp (lift o) Q s.
Proof. done. Qed.

Lemma wp_fail {A} (e : E) (Q : outcome E A → S → Prop) s : Q (Err e) s → wp (fail e) Q s.
Proof. done. Qed.

Lemma wp_bind {A B} (m : M S E A) (f : A → M S E B) (Q : outcome E B → S → Prop) s :
  wp m (λ o s', match o with
                | Ok a => wp (f a) Q s'
                | Err e => Q (Err e) s'
                | Panic => Q Panic s'
                end) s →
  wp (m ≫= f) Q s.
Proof.
  unfold wp, mbind, M_bind. destruct (m s) as [[a|e|] s']; done.
Qed.

Lemma wp_try {E' A} (m : M S E A) (Q : outcome E' (E + A) → S → Prop) s :
  wp m (λ o s', match o with
                | Ok a => Q (Ok (inr a)) s'
                | Err e => Q (Ok (inl e)) s'
                | Panic => Q Panic s'
                end) s →
  wp (try m) Q s.
Proof. unfold wp, try. destruct (m s) as [[a|e|] s']; done. Qed.

Lemma wp_mapErrM {E' A} (g : E → E') (m : M S E A) (Q : outcome E' A → S → Prop) s :
  wp m (λ o s', Q (mapErr g o) s') s → wp (mapErrM g m) Q s.
Proof. unfold wp, mapErrM. by destruct (m s). Qed.

Lemma wp_step {A} (f : S → A * S) (Q : outcome E A → S → Prop) s :
  Q (Ok (f s).1) (f s).2 → wp (step f) Q s.
Proof. unfold wp, step. by destruct (f s). Qed.

Lemma wp_modify (f : S → S) (Q : outcome E unit → S → Prop) s :
  Q (Ok tt) (f s) → wp (modify f) Q s.
Proof. done. Qed.

Lemma wp_gets {A} (f : S → A) (Q : outcome E A → S → Prop) s :
  Q (Ok (f s)) s → wp (gets f) Q s.
Proof. done. Qed.

Lemma wp_mono {A} (m : M S E A) (Q Q' : outcome E A → S → Prop) s :
  wp m Q s → (∀ o s', Q o s' → Q' o s') → wp m Q' s.
Proof. unfold wp. eauto. Qed.
End wp_rules.

(** *** What a program returns

    [returns m Q]: whatever the state, a regular result of [m] satisfies [Q]. *)
Definition returns {S E A} (m : M S E A) (Q : A → Prop) : Prop :=
  ∀ s a, (m s).1 = Ok a → Q a.

Section returns_rules.
Context {S E : Type}.

Lemma returns_ret {A} (a : A) (Q : A → Prop) : Q a → returns (S:=S) (E:=E) (mret a) Q.
Proof. intros HQ s a' [= <-]. done. Qed.

Lemma returns_lift {A} (o : outcome E A) (Q : A → Prop) : (∀ a, o = Ok a → Q a) → returns (S:=S) (lift o) Q.
Proof. intros HQ s a. apply HQ. Qed.

Lemma returns_fail {A} (e : E) (Q : A → Prop) : returns (S:=S) (fail e) Q.
Proof. by intros s a. Qed.

Lemma returns_bind {A B} (m : M S E A) (f : A → M S E B) (P : A → Prop) (Q : B → Prop) :
  returns m P → (∀ a, P a → returns (f a) Q) → returns (m ≫= f) Q.
Proof.
  intros Hm Hf s b. unfold mbind, M_bind. specialize (Hm s). destruct (m s) as [[a|e|] s'] eqn:Em; [|done..].
  apply (Hf a). by apply Hm.
Qed.

Lemma returns_any {A} (m : M S E A) : returns m (λ _, True).
Proof. done. Qed.

Lemma returns_mono {A} (m : M S E A) (P Q : A → Prop) : returns m P → (∀ a, P a → Q a) → returns m Q.
Proof. unfold returns. eauto. Qed.

Lemma returns_mapErrM {E' A} (g : E → E') (m : M S E A) (Q : A → Prop) : returns m Q → returns (mapErrM g m) Q.
Proof.
  intros Hm s a. unfold mapErrM. specialize (Hm s). destruct (m s) as [[a'|e|] s']; simpl in *; [|done..].
  intros [= ->]. auto.
Qed.

Lemma returns_then {A B} (m : M S E A) (f : A → M S E B) (Q : B → Prop) :
  (∀ a, returns (f a) Q) → returns (m ≫= f) Q.
Proof. intros Hf. eapply returns_bind; [apply returns_any|auto]. Qed.

Lemma returns_try {E' A} (m : M S E A) (Q : A → Prop) :
  returns m Q → returns (try (E':=E') m) (λ r, match r with inr a => Q a | inl _ => True end).
Proof.
  intros Hm s r. unfold try. specialize (Hm s). destruct (m s) as [[a|e|] s']; simpl in *; [|intros [= <-]; done|done].
  intros [= <-]. auto.
Qed.
End returns_rules.

(** *** When a program returns

    The regular runs of a program, step by step. *)
Section run_rules.
Context {S E : Type}.
Implicit Types s : S.

Lemma run_bind {A B} (m : M S E A) (f : A → M S E B) s b s'' :
  (m ≫= f) s = (Ok b, s'') ↔ ∃ a s', m s = (Ok a, s') ∧ f a s' = (Ok b, s'').
Proof. unfold mbind, M_bind. destruct (m s) as [[a|e|] s']; naive_solver. Qed.

Lemma run_lift {A} (o : outcome E A) s a s' : lift o s = (Ok a, s') ↔ o = Ok a ∧ s' = s.
Proof. unfold lift. naive_solver. Qed.

Lemma run_ret {A} (a : A) s a' s' : (mret a : M S E A) s = (Ok a', s') ↔ a' = a ∧ s' = s.
Proof. unfold mret, M_ret. naive_solver. Qed.

Lemma run_mapErrM {E' A} (g : E → E') (m : M S E A) s a s' : mapErrM g m s = (Ok a, s') ↔ m s = (Ok a, s').
Proof. unfold mapErrM. destruct (m s) as [[|e|] t]; simpl; naive_solver. Qed.

(** A regular result is one of a regular run. *)
Lemma run_fst {A} (m : M S E A) s a : (m s).1 = Ok a ↔ ∃ s', m s = (Ok a, s').
Proof. destruct (m s) as [o t]; simpl. naive_solver. Qed.
End run_rules.

(** ** Machine integers, durations and instants *)

Definition int64_min : Z := - 2 ^ 63.
Definition int64_max : Z := 2 ^ 63 - 1.
Definition in_int64 (z : Z) : Prop := (int64_min ≤ z ≤ int64_max)%Z.

(** Two's complement wrap-around of [int64] arithmetic. *)
Definition wrap64 (z : Z) : Z := ((z + 2 ^ 63) mod 2 ^ 64 - 2 ^ 63)%Z.

(** Saturation, which [time.Time.Sub] applies to its [int64] result. *)
Definition sat64 (z : Z) : Z := Z.max int64_min (Z.min int64_max z).

(** [time.Duration]: an [int64] number of nanoseconds. *)
Abbreviation Duration := Z (only parsing).
Definition Nanosecond : Duration := 1%Z.
Definition Second : Duration := 1000000000%Z.
Definition Minute : Duration := (60 * Second)%Z.

(** [time.Duration(n) * time.Second] *)
Definition seconds (n : Z) : Duration := wrap64 (n * Second)%Z.

(** [time.Time]: nanoseconds since the zero time of year 1, so that
    [IsZero] is a comparison with 0. *)
Abbreviation Time := Z (only parsing).
Definition time_zero : Time := 0%Z.
Definition time_IsZero (t : Time) : bool := (t =? 0)%Z.
Definition time_Add (t : Time) (d : Duration) : Time := (t + d)%Z.
Definition time_Sub (t u : Time) : Duration := sat64 (t - u)%Z.
Definition time_Before (t u : Time) : bool := (t <? u)%Z.
Definition time_After (t u : Time) : bool := (u <? t)%Z.
Definition time_Equal (t u : Time) : bool := (t =? u)%Z.
(** [Truncate(time.Second)] rounds down to a multiple of the duration since
    the zero time. *)
Definition time_Truncate (t : Time) (d : Duration) : Time := (t - t mod d)%Z.

Lemma wrap64_range z : in_int64 (wrap64 z).
Proof.
  unfold in_int64, wrap64, int64_min, int64_max.
  pose proof (Z.mod_pos_bound (z + 2 ^ 63) (2 ^ 64) eq_refl). lia.
Qed.

Lemma wrap64_id z : in_int64 z → wrap64 z = z.
Proof.
  unfold in_int64, wrap64, int64_min, int64_max. intros ?.
  rewrite Z.mod_small; lia.
Qed.

(** ** Boolean tests as propositions *)

Create Rewrite HintDb gobool.
#[global] Hint Rewrite bool_decide_eq_true bool_decide_eq_false andb_true_iff andb_false_iff
  orb_true_iff orb_false_iff negb_true_iff negb_false_iff
  Z.ltb_lt Z.ltb_ge Z.leb_le Z.leb_gt Z.eqb_eq Z.eqb_neq
  Nat.ltb_lt Nat.ltb_ge Nat.leb_le Nat.leb_gt Nat.eqb_eq Nat.eqb_neq : gobool.

Ltac simplify_bool := autorewrite with gobool in *.

(** Case analysis on every [match] of the hypotheses and the goal, dropping
    the impossible branches. *)
Ltac go_cases := repeat (case_match; simplify_eq/=).

(** Evaluate the monadic structure of pure outcomes in a hypothesis. *)
Ltac outcome_inv H :=
  repeat (unfold mbind, outcome_bind, mret, outcome_ret, mapErr, deref, reject_if in H;
          simpl in H; first [progress simplify_eq/= | case_match; simplify_eq/=]).

(** *** When a sequence of checks succeeds *)

Lemma bind_ok {E A B} (o : outcome E A) (k : A → outcome E B) b :
  (o ≫= k) = Ok b ↔ ∃ a, o = Ok a ∧ k a = Ok b.
Proof. unfold mbind, outcome_bind. destruct o; naive_solver. Qed.

Lemma bind_unit_ok {E B} (o : outcome E unit) (k : unit → outcome E B) b :
  (o ≫= k) = Ok b ↔ o = Ok tt ∧ k tt = Ok b.
Proof.
  rewrite bind_ok. split; [by intros ([] & ? & ?)|]. intros [? ?]. eauto.
Qed.

Lemma reject_if_ok {E} (b : bool) (e : E) u : reject_if b e = Ok u ↔ b = false.
Proof. destruct b, u; split; done. Qed.

Lemma mapErr_ok {E E' A} (f : E → E') (o : outcome E A) a : mapErr f o = Ok a ↔ o = Ok a.
Proof. destruct o; simpl; split; congruence. Qed.

Lemma deref_ok {E A} (p : option A) (a : A) : deref (E:=E) p = Ok a ↔ p = Some a.
Proof. destruct p; simpl; split; congruence. Qed.

Create Rewrite HintDb outcome.
#[global] Hint Rewrite @bind_unit_ok @reject_if_ok @mapErr_ok @deref_ok : outcome.

(** Run through a monadic program: apply the [wp] rule of its head. *)
Ltac wp_step_tac :=
  match goal with
  | |- wp (mbind _ _) _ _ => apply wp_bind
  | |- wp (mret _) _ _ => apply wp_ret
  | |- wp (lift _) _ _ => apply wp_lift
  | |- wp (fail _) _ _ => apply wp_fail
  | |- wp (try _) _ _ => apply wp_try
  | |- wp (mapErrM _ _) _ _ => apply wp_mapErrM
  | |- wp (step _) _ _ => apply wp_step
  | |- wp (modify _) _ _ => apply wp_modify
  | |- wp (gets _) _ _ => apply wp_gets
  end.

(** ** Rearrangements *)

Lemma map_inj_on {A B} (f : A → B) (l1 l2 : list A) :
  (∀ a1 a2, a1 ∈ l1 → a2 ∈ l2 → f a1 = f a2 → a1 = a2) → map f l1 = map f l2 → l1 = l2.
Proof.
  revert l2. induction l1 as [|x l1 IH]; intros [|y l2] Hf E; simplify_eq/=; [done|].
  f_equal; [apply Hf; [set_solver..|done]|]. apply IH; [|done]. intros. apply Hf; set_solver.
Qed.

(** A function injective on two lists reflects their being rearrangements. *)
Lemma map_Permutation_inj_on {A B} (f : A → B) (l1 l2 : list A) :
  (∀ a1 a2, a1 ∈ l1 → a2 ∈ l2 → f a1 = f a2 → a1 = a2) → map f l1 ≡ₚ map f l2 → l1 ≡ₚ l2.
Proof.
  intros Hf P. apply Permutation_map_inv in P as (l3 & E & P).
  rewrite P. rewrite (map_inj_on f l1 l3); [done| |done].
  intros a1 a2 H1 H2. apply Hf; [done|]. by rewrite P.
Qed.

Lemma map_Permutation_inj {A B} (f : A → B) (l1 l2 : list A) :
  (∀ a1 a2, f a1 = f a2 → a1 = a2) → map f l1 ≡ₚ map f l2 ↔ l1 ≡ₚ l2.
Proof.
  intros Hf. split; [|apply Permutation_map].
  apply map_Permutation_inj_on. eauto.
Qed.

(** ** Sorting strings: [slices.Sort] *)

Definition sort_strings (l : list string) : list string := merge_sort String.le l.

Lemma sort_strings_perm l : sort_strings l ≡ₚ l.
Proof. apply merge_sort_Permutation. Qed.

(** Two slices sort to the same slice exactly when they hold the same strings
    with the same multiplicities. *)
Lemma sort_strings_eq l1 l2 : sort_strings l1 = sort_strings l2 ↔ l1 ≡ₚ l2.
Proof.
  split.
  - intros E. rewrite <- (sort_strings_perm l1), E. apply sort_strings_perm.
  - intros P. apply (StronglySorted_unique String.le).
    + apply (StronglySorted_merge_sort _).
    + apply (StronglySorted_merge_sort _).
    + by rewrite !sort_strings_perm.
Qed.
