(* ===== verification/GoString.v ===== *)
(** * The parts of Go's string handling the program uses

    UTF-8 decoding as [for range] does it, rune encoding as [WriteRune] does
    it, and the functions of packages [strings], [strconv] and [hex] that the
    sources call.  The Unicode tables that are too large to write out (upper
    case mapping and graphic characters outside ASCII) are a parameter. *)

From S2P Require Import Prelude.

Abbreviation rune := N (only parsing).

Definition byte_of_N (n : N) : ascii := ascii_of_N n.
Definition N_of_byte (b : ascii) : N := N_of_ascii b.

(** [utf8.RuneError] *)
Definition RuneError : rune := 65533%N.

Definition in_range (lo hi n : N) : bool := (lo <=? n)%N && (n <=? hi)%N.
Definition continuation (n : N) : bool := in_range 128 191 n.

(** The second byte a three-byte sequence may have, by its first byte. *)
Definition second3 (n0 n1 : N) : bool :=
  if (n0 =? 224)%N then in_range 160 191 n1
  else if (n0 =? 237)%N then in_range 128 159 n1
  else in_range 225 239 n0 && continuation n1.

(** The second byte a four-byte sequence may have, by its first byte. *)
Definition second4 (n0 n1 : N) : bool :=
  if (n0 =? 240)%N then in_range 144 191 n1
  else if (n0 =? 244)%N then in_range 128 143 n1
  else in_range 241 243 n0 && continuation n1.

(** [for index, character := range value]: the runes of a string, each with
    the bytes it was decoded from.  An invalid byte decodes to [RuneError] and
    advances by one byte. *)
Fixpoint decode (s : string) : list (rune * string) :=
  match s with
  | "" => []
  | String b0 r0 =>
      let n0 := N_of_byte b0 in
      let single r := (r, String b0 "") :: decode r0 in
      if (n0 <? 128)%N then single n0 else
      match r0 with
      | "" => single RuneError
      | String b1 r1 =>
          let n1 := N_of_byte b1 in
          if in_range 194 223 n0 && continuation n1
          then (((n0 - 192) * 64 + (n1 - 128))%N, String b0 (String b1 "")) :: decode r1
          else match r1 with
          | "" => single RuneError
          | String b2 r2 =>
              let n2 := N_of_byte b2 in
              if second3 n0 n1 && continuation n2
              then (((n0 - 224) * 4096 + (n1 - 128) * 64 + (n2 - 128))%N,
                    String b0 (String b1 (String b2 ""))) :: decode r2
              else match r2 with
              | "" => single RuneError
              | String b3 r3 =>
                  let n3 := N_of_byte b3 in
                  if second4 n0 n1 && continuation n2 && continuation n3
                  then (((n0 - 240) * 262144 + (n1 - 128) * 4096 + (n2 - 128) * 64 + (n3 - 128))%N,
                        String b0 (String b1 (String b2 (String b3 "")))) :: decode r3
                  else single RuneError
              end
          end
      end
  end%string.

(** A rune that UTF-8 can encode: not a surrogate and at most U+10FFFF. *)
Definition valid_rune (r : rune) : bool :=
  (r <? 55296)%N || ((57344 <=? r)%N && (r <=? 1114111)%N).

(** [utf8.AppendRune]: an invalid rune is written as [RuneError]. *)
Definition encode_rune (r : rune) : string :=
  let b n := String (byte_of_N n) in
  let r := if valid_rune r then r else RuneError in
  (if (r <? 128)%N then b r ""
   else if (r <? 2048)%N then b (192 + r / 64) (b (128 + r mod 64) "")
   else if (r <? 65536)%N then
     b (224 + r / 4096) (b (128 + (r / 64) mod 64) (b (128 + r mod 64) ""))
   else b (240 + r / 262144) (b (128 + (r / 4096) mod 64)
          (b (128 + (r / 64) mod 64) (b (128 + r mod 64) ""))))%N.

Definition string_concat (l : list string) : string := foldr String.append ""%string l.

(** [string([]rune)] and [strings.Builder.WriteRune] in a loop. *)
Definition encode (rs : list rune) : string := string_concat (map encode_rune rs).

Definition runes (s : string) : list rune := map fst (decode s).

(** [utf8.RuneCountInString] *)
Definition rune_count (s : string) : nat := length (decode s).

(** [strings.Map] with a mapping that drops nothing. *)
Definition strings_Map (f : rune → rune) (s : string) : string := encode (map f (runes s)).

(** ** Package unicode *)

(** [unicode.IsSpace]: the White_Space property. *)
Definition IsSpace (r : rune) : bool :=
  in_range 9 13 r || (r =? 32)%N || (r =? 133)%N || (r =? 160)%N || (r =? 5760)%N
  || in_range 8192 8202 r || (r =? 8232)%N || (r =? 8233)%N || (r =? 8239)%N
  || (r =? 8287)%N || (r =? 12288)%N.

(** The Unicode tables outside ASCII. *)
Class UnicodeTables := {
  unicode_upper : rune → rune;
  unicode_graphic : rune → bool
}.

Definition ascii_upper (r : rune) : rune := if in_range 97 122 r then (r - 32)%N else r.

Section unicode.
Context `{UnicodeTables}.

(** [unicode.ToUpper] *)
Definition unicode_ToUpper (r : rune) : rune :=
  if (r <? 128)%N then ascii_upper r else unicode_upper r.

(** [unicode.IsGraphic]: in ASCII the printable characters and the space. *)
Definition IsGraphic (r : rune) : bool :=
  if (r <? 128)%N then in_range 32 126 r else unicode_graphic r.

(** [strings.ToUpper] *)
Definition ToUpper (s : string) : string := strings_Map unicode_ToUpper s.
End unicode.

(** ** Package strings *)

Fixpoint drop_while {A} (f : A → bool) (l : list A) : list A :=
  match l with
  | [] => []
  | x :: l' => if f x then drop_while f l' else l
  end.

Definition drop_while_end {A} (f : A → bool) (l : list A) : list A :=
  reverse (drop_while f (reverse l)).

(** [strings.TrimSpace] *)
Definition TrimSpace (s : string) : string :=
  let space (c : rune * string) := IsSpace c.1 in
  string_concat (map snd (drop_while_end space (drop_while space (decode s)))).

(** [strings.Cut] with a one-byte separator: the text before and after its
    first occurrence. *)
Fixpoint Cut (sep : ascii) (s : string) : option (string * string) :=
  match s with
  | "" => None
  | String c r =>
      if Ascii.eqb c sep then Some (""%string, r)
      else match Cut sep r with
           | Some (before, after) => Some (String c before, after)
           | None => None
           end
  end%string.

(** [strings.Join] *)
Fixpoint strings_Join (l : list string) (sep : string) : string :=
  match l with
  | [] => ""
  | [x] => x
  | x :: l' => x +:+ sep +:+ strings_Join l' sep
  end%string.

(** ** Packages strconv and hex *)

Definition digit (b : ascii) : option Z :=
  let n := N_of_byte b in
  if in_range 48 57 n then Some (Z.of_N n - 48)%Z else None.

Fixpoint digits (s : string) (acc : Z) : option Z :=
  match s with
  | ""%string => Some acc
  | String b r => d ← digit b; digits r (10 * acc + d)%Z
  end.

(** [strconv.Atoi] on a 64-bit platform: an optional sign, at least one
    decimal digit and a value that fits [int]. *)
Definition Atoi (s : string) : option Z :=
  let number (neg : bool) (r : string) :=
    if bool_decide (r = ""%string) then None else
    v ← digits r 0%Z;
    let v := if neg then (- v)%Z else v in
    if (int64_min <=? v)%Z && (v <=? int64_max)%Z then Some v else None in
  match s with
  | String b r =>
      if Ascii.eqb b "-"%char then number true r
      else if Ascii.eqb b "+"%char then number false r
      else number false s
  | ""%string => None
  end.

Definition hex_digit (n : N) : ascii :=
  byte_of_N (if (n <? 10)%N then 48 + n else 87 + n)%N.

(** [hex.EncodeToString] *)
Fixpoint hex_EncodeToString (s : bytes) : string :=
  match s with
  | ""%string => ""%string
  | String b r =>
      String (hex_digit (N_of_byte b / 16)) (String (hex_digit (N_of_byte b mod 16)) (hex_EncodeToString r))
  end.

(** ** Lemmas *)

#[global] Arguments String.append : simpl nomatch.

Lemma string_app_assoc (a b c : string) : ((a +:+ b) +:+ c = a +:+ (b +:+ c))%string.
Proof. induction a as [|x a IH]; simpl; [done|]. by rewrite IH. Qed.

Lemma string_app_nil_r (a : string) : (a +:+ "" = a)%string.
Proof. induction a as [|x a IH]; simpl; [done|]. by rewrite IH. Qed.

Lemma string_concat_app l1 l2 :
  string_concat (l1 ++ l2) = (string_concat l1 +:+ string_concat l2)%string.
Proof.
  induction l1 as [|x l1 IH]; [done|].
  change (x +:+ string_concat (l1 ++ l2) = (x +:+ string_concat l1) +:+ string_concat l2).
  by rewrite IH, string_app_assoc.
Qed.

Lemma N_of_byte_of_N n : (n < 256)%N → N_of_byte (byte_of_N n) = n.
Proof. apply N_ascii_embedding. Qed.

Lemma encode_app rs1 rs2 : encode (rs1 ++ rs2) = (encode rs1 +:+ encode rs2)%string.
Proof. unfold encode. by rewrite map_app, string_concat_app. Qed.

Lemma encode_cons r rs : encode (r :: rs) = (encode_rune r +:+ encode rs)%string.
Proof. done. Qed.

(** One step of the decoder: it takes a non-empty chunk off the front. *)
Lemma decode_step b0 r0 :
  ∃ r chunk rest, decode (String b0 r0) = (r, chunk) :: decode rest ∧
    String b0 r0 = chunk +:+ rest ∧ String.length rest ≤ String.length r0.
Proof.
  cbn [decode]. generalize decode as D. intros D.
  repeat match goal with
  | |- context [if ?b then _ else _] => destruct b
  | |- context [match ?r with "" => _ | String _ _ => _ end] => is_var r; destruct r
  end; do 3 eexists; (split; [reflexivity|]); simpl; split; (reflexivity || lia).
Qed.

(** Decoding loses no byte: the chunks concatenate to the source. *)
Lemma decode_concat s : string_concat (map snd (decode s)) = s.
Proof.
  induction s as [s IH] using (induction_ltof1 _ String.length). unfold ltof in IH.
  destruct s as [|b0 r0]; [done|].
  destruct (decode_step b0 r0) as (r & chunk & rest & -> & Es & Hlen).
  rewrite Es. change (chunk +:+ string_concat (map snd (decode rest)) = chunk +:+ rest).
  rewrite IH; [done|]. simpl. lia.
Qed.

Lemma in_range_spec lo hi n : in_range lo hi n = true ↔ (lo ≤ n ≤ hi)%N.
Proof. unfold in_range. by rewrite andb_true_iff, !N.leb_le. Qed.

Lemma in_range_false lo hi n : ¬ (lo ≤ n ≤ hi)%N → in_range lo hi n = false.
Proof. rewrite <- in_range_spec. by destruct (in_range lo hi n). Qed.

Lemma second3_true n0 n1 :
  (224 ≤ n0 ≤ 239)%N → (128 ≤ n1 ≤ 191)%N → (n0 = 224 → 160 ≤ n1)%N → (n0 = 237 → n1 ≤ 159)%N →
  second3 n0 n1 = true.
Proof.
  intros. unfold second3, continuation.
  destruct (N.eqb_spec n0 224); [apply in_range_spec; lia|].
  destruct (N.eqb_spec n0 237); [apply in_range_spec; lia|].
  rewrite andb_true_iff, !in_range_spec. lia.
Qed.

Lemma second3_false n0 n1 : (240 ≤ n0)%N → second3 n0 n1 = false.
Proof.
  intros. unfold second3.
  destruct (N.eqb_spec n0 224); [lia|]. destruct (N.eqb_spec n0 237); [lia|].
  rewrite in_range_false by lia. done.
Qed.

Lemma second4_true n0 n1 :
  (240 ≤ n0 ≤ 244)%N → (128 ≤ n1 ≤ 191)%N → (n0 = 240 → 144 ≤ n1)%N → (n0 = 244 → n1 ≤ 143)%N →
  second4 n0 n1 = true.
Proof.
  intros. unfold second4, continuation.
  destruct (N.eqb_spec n0 240); [apply in_range_spec; lia|].
  destruct (N.eqb_spec n0 244); [apply in_range_spec; lia|].
  rewrite andb_true_iff, !in_range_spec. lia.
Qed.

Lemma continuation_low n : (n < 64)%N → continuation (128 + n) = true.
Proof. intros. apply in_range_spec. lia. Qed.

(** The defining equation of [decode], to unfold one step only. *)
Lemma decode_unfold b0 r0 :
  decode (String b0 r0) =
  ltac:(let t := eval cbn [decode] in (decode (String b0 r0)) in exact t).
Proof. reflexivity. Qed.

Ltac decode_one := cbn [String.append]; rewrite decode_unfold; generalize decode as D; intros D; cbn iota.

(** The decoder on a two-, three- and four-byte sequence. *)
Lemma decode2 n0 n1 s :
  (194 ≤ n0 ≤ 223)%N → (n1 < 64)%N →
  let c := String (byte_of_N n0) (String (byte_of_N (128 + n1)) "") in
  decode (c +:+ s) = (((n0 - 192) * 64 + n1)%N, c) :: decode s.
Proof.
  intros H0 H1 c. unfold c. decode_one.
  rewrite !N_of_byte_of_N by lia. rewrite (proj2 (N.ltb_ge n0 128)) by lia.
  rewrite (proj2 (in_range_spec 194 223 n0)) by lia. rewrite !continuation_low by lia.
  by replace (128 + n1 - 128)%N with n1 by lia.
Qed.

Lemma decode3 n0 n1 n2 s :
  (224 ≤ n0 ≤ 239)%N → (n1 < 64)%N → (n2 < 64)%N → (n0 = 224 → 32 ≤ n1)%N → (n0 = 237 → n1 < 32)%N →
  let c := String (byte_of_N n0) (String (byte_of_N (128 + n1)) (String (byte_of_N (128 + n2)) "")) in
  decode (c +:+ s) = (((n0 - 224) * 4096 + n1 * 64 + n2)%N, c) :: decode s.
Proof.
  intros H0 H1 H2 H3 H4 c. unfold c. decode_one.
  rewrite !N_of_byte_of_N by lia. rewrite (proj2 (N.ltb_ge n0 128)) by lia.
  rewrite (in_range_false 194 223 n0) by lia. rewrite second3_true by lia.
  rewrite !continuation_low by lia. cbn [andb].
  do 2 f_equal. lia.
Qed.

Lemma decode4 n0 n1 n2 n3 s :
  (240 ≤ n0 ≤ 244)%N → (n1 < 64)%N → (n2 < 64)%N → (n3 < 64)%N →
  (n0 = 240 → 16 ≤ n1)%N → (n0 = 244 → n1 < 16)%N →
  let c := String (byte_of_N n0) (String (byte_of_N (128 + n1))
             (String (byte_of_N (128 + n2)) (String (byte_of_N (128 + n3)) ""))) in
  decode (c +:+ s) = (((n0 - 240) * 262144 + n1 * 4096 + n2 * 64 + n3)%N, c) :: decode s.
Proof.
  intros H0 H1 H2 H3 H4 H5 c. unfold c. decode_one.
  rewrite !N_of_byte_of_N by lia. rewrite (proj2 (N.ltb_ge n0 128)) by lia.
  rewrite (in_range_false 194 223 n0) by lia. rewrite second3_false, second4_true by lia.
  rewrite !continuation_low by lia. cbn [andb].
  do 2 f_equal. lia.
Qed.

Lemma valid_rune_spec r :
  valid_rune r = true ↔ (r < 55296 ∨ 57344 ≤ r ≤ 1114111)%N.
Proof. unfold valid_rune. rewrite orb_true_iff, andb_true_iff, N.ltb_lt, !N.leb_le. done. Qed.

(** The encoding of a valid rune decodes back to it, whatever follows. *)
Lemma decode_encode_rune r s :
  valid_rune r = true → decode (encode_rune r +:+ s) = (r, encode_rune r) :: decode s.
Proof.
  intros Hv. unfold encode_rune. rewrite Hv. apply valid_rune_spec in Hv.
  pose proof (N.mod_lt r 64 ltac:(done)). pose proof (N.mod_lt (r / 64) 64 ltac:(done)).
  pose proof (N.mod_lt (r / 4096) 64 ltac:(done)).
  pose proof (N.div_mod' r 64). pose proof (N.div_mod' (r / 64) 64).
  pose proof (N.div_mod' (r / 4096) 64).
  assert (r / 64 / 64 = r / 4096)%N as E1 by by rewrite N.Div0.div_div.
  assert (r / 4096 / 64 = r / 262144)%N as E2 by by rewrite N.Div0.div_div.
  rewrite E1, E2 in *. clear E1 E2.
  revert H H0 H1 H2 H3 H4.
  generalize ((r / 4096) mod 64)%N. generalize ((r / 64) mod 64)%N. generalize (r mod 64)%N.
  generalize (r / 262144)%N. generalize (r / 4096)%N. generalize (r / 64)%N.
  intros q0 q1 q2 m0 m1 m2 H H0 H1 H2 H3 H4.
  destruct (N.ltb_spec r 128); [|destruct (N.ltb_spec r 2048); [|destruct (N.ltb_spec r 65536)]].
  - cbn [String.append decode]. rewrite N_of_byte_of_N by lia.
    by rewrite (proj2 (N.ltb_lt r 128)).
  - rewrite decode2 by lia. f_equal. f_equal. lia.
  - rewrite decode3 by lia. f_equal. f_equal. lia.
  - rewrite decode4 by lia. f_equal. f_equal. lia.
Qed.

Lemma decode_encode rs : Forall (λ r, valid_rune r = true) rs → decode (encode rs) = map (λ r, (r, encode_rune r)) rs.
Proof. induction 1 as [|r rs Hr _ IH]; [done|]. rewrite encode_cons, decode_encode_rune by done. simpl. by f_equal. Qed.

(** Encoding then decoding a list of valid runes is the identity. *)
Lemma runes_encode rs : Forall (λ r, valid_rune r = true) rs → runes (encode rs) = rs.
Proof.
  induction 1 as [|r rs Hr _ IH]; [done|].
  rewrite encode_cons. unfold runes. rewrite decode_encode_rune by done.
  simpl. by f_equal.
Qed.

Lemma rune_count_encode rs : Forall (λ r, valid_rune r = true) rs → rune_count (encode rs) = length rs.
Proof.
  intros H. unfold rune_count. rewrite <- (length_map fst).
  change (length (runes (encode rs)) = length rs). by rewrite runes_encode.
Qed.

(** *** Every decoded rune is valid *)

Lemma N_of_byte_lt b : (N_of_byte b < 256)%N.
Proof. apply N_ascii_bounded. Qed.

Lemma second3_inv n0 n1 :
  second3 n0 n1 = true →
  (224 ≤ n0 ≤ 239)%N ∧ (128 ≤ n1 ≤ 191)%N ∧ (n0 = 224 → 160 ≤ n1)%N ∧ (n0 = 237 → n1 ≤ 159)%N.
Proof.
  unfold second3, continuation.
  destruct (N.eqb_spec n0 224); [rewrite in_range_spec; lia|].
  destruct (N.eqb_spec n0 237); [rewrite in_range_spec; lia|].
  rewrite andb_true_iff, !in_range_spec. lia.
Qed.

Lemma second4_inv n0 n1 :
  second4 n0 n1 = true →
  (240 ≤ n0 ≤ 244)%N ∧ (128 ≤ n1 ≤ 191)%N ∧ (n0 = 240 → 144 ≤ n1)%N ∧ (n0 = 244 → n1 ≤ 143)%N.
Proof.
  unfold second4, continuation.
  destruct (N.eqb_spec n0 240); [rewrite in_range_spec; lia|].
  destruct (N.eqb_spec n0 244); [rewrite in_range_spec; lia|].
  rewrite andb_true_iff, !in_range_spec. lia.
Qed.

Lemma decode_step_valid b0 r0 :
  ∃ r chunk rest, decode (String b0 r0) = (r, chunk) :: decode rest ∧
    valid_rune r = true ∧ String.length rest ≤ String.length r0.
Proof.
  rewrite decode_unfold. generalize decode as D. intros D.
  destruct (N.ltb_spec (N_of_byte b0) 128).
  { eexists _, _, r0. split; [done|]. rewrite valid_rune_spec. lia. }
  assert (∀ l, l = (RuneError, String b0 "") :: D r0 → ∃ r chunk rest, l = (r, chunk) :: D rest ∧
    valid_rune r = true ∧ String.length rest ≤ String.length r0) as Hbad by (intros l ->; by eexists _, _, r0).
  destruct r0 as [|b1 r1]; [by apply Hbad|].
  destruct (in_range 194 223 (N_of_byte b0) && continuation (N_of_byte b1)) eqn:E2.
  { apply andb_true_iff in E2 as [A1%in_range_spec A2%in_range_spec].
    eexists _, _, r1. split; [done|]. rewrite valid_rune_spec. simpl. lia. }
  destruct r1 as [|b2 r2]; [by apply Hbad|].
  destruct (second3 (N_of_byte b0) (N_of_byte b1) && continuation (N_of_byte b2)) eqn:E3.
  { apply andb_true_iff in E3 as [A1%second3_inv A2%in_range_spec].
    eexists _, _, r2. split; [done|]. rewrite valid_rune_spec. simpl. lia. }
  destruct r2 as [|b3 r3]; [by apply Hbad|].
  destruct (second4 (N_of_byte b0) (N_of_byte b1) && _ && _) eqn:E4; [|by apply Hbad].
  apply andb_true_iff in E4 as [[A1%second4_inv A2%in_range_spec]%andb_true_iff A3%in_range_spec].
  eexists _, _, r3. split; [done|]. rewrite valid_rune_spec. simpl. lia.
Qed.

Lemma runes_valid s : Forall (λ r, valid_rune r = true) (runes s).
Proof.
  unfold runes. induction s as [s IH] using (induction_ltof1 _ String.length). unfold ltof in IH.
  destruct s as [|b0 r0]; [constructor|].
  destruct (decode_step_valid b0 r0) as (r & chunk & rest & -> & Hr & Hlen).
  constructor; [done|]. apply IH. simpl. lia.
Qed.

(** An ASCII string decodes to its own bytes. *)
Definition is_ascii (b : ascii) : bool := (N_of_byte b <? 128)%N.

Lemma decode_ascii_cons b s :
  is_ascii b = true → decode (String b s) = (N_of_byte b, String b "") :: decode s.
Proof. unfold is_ascii. intros Hb. rewrite decode_unfold. by rewrite Hb. Qed.

(** *** Separators: a byte that does not occur in a string *)

Fixpoint free_of (c : ascii) (s : string) : Prop :=
  match s with
  | ""%string => True
  | String b r => b ≠ c ∧ free_of c r
  end.

Lemma free_of_app c s1 s2 : free_of c (s1 +:+ s2) ↔ free_of c s1 ∧ free_of c s2.
Proof. induction s1 as [|b s1 IH]; simpl; [naive_solver|]. rewrite IH. naive_solver. Qed.

(** Cutting at the first separator is unambiguous. *)
Lemma separator_inj c a1 b1 a2 b2 :
  free_of c a1 → free_of c a2 → a1 +:+ String c b1 = a2 +:+ String c b2 → a1 = a2 ∧ b1 = b2.
Proof.
  revert a2. induction a1 as [|x a1 IH]; intros [|y a2] H1 H2 E; simpl in *.
  - by injection E.
  - injection E as -> ?. naive_solver.
  - injection E as -> ?. naive_solver.
  - injection E as -> E. destruct (IH a2) as [-> ->]; naive_solver.
Qed.

Lemma free_of_no_separator c a b s : free_of c s → s ≠ a +:+ String c b.
Proof. intros H ->. apply free_of_app in H as [_ [? _]]. done. Qed.

Lemma Cut_first c before after : free_of c before → Cut c (before +:+ String c after) = Some (before, after).
Proof.
  induction before as [|b before IH]; simpl; intros Hf.
  - by rewrite Ascii.eqb_refl.
  - destruct Hf as [Hb Hf]. rewrite (proj2 (Ascii.eqb_neq b c)) by done. by rewrite IH.
Qed.

(** What [Cut] returns: the parts around the first separator, or the absence of
    one. *)
Lemma Cut_spec c s :
  match Cut c s with
  | Some (before, after) => s = before +:+ String c after ∧ free_of c before
  | None => free_of c s
  end.
Proof.
  induction s as [|b s IH]; simpl; [done|]. destruct (Ascii.eqb_spec b c) as [->|Hb]; [by split|].
  destruct (Cut c s) as [[before after]|]; [|done]. destruct IH as [-> ?]. by repeat split.
Qed.

Lemma Cut_None c s : free_of c s → Cut c s = None.
Proof.
  intros Hf. pose proof (Cut_spec c s) as Hs. destruct (Cut c s) as [[b a]|]; [|done]. destruct Hs as [-> _].
  by destruct (free_of_no_separator c b a _ Hf).
Qed.

Lemma substring_prefix n s : ∃ rest, s = String.substring 0 n s +:+ rest.
Proof.
  revert s. induction n as [|n IH]; intros [|b s]; simpl; [by exists ""%string|by eexists|by exists ""%string|].
  destruct (IH s) as [rest E]. exists rest. by rewrite <- E.
Qed.

Lemma substring_length n s : n ≤ String.length s → String.length (String.substring 0 n s) = n.
Proof. revert s. induction n as [|n IH]; intros [|b s] Hn; simpl in *; [done..|lia|]. f_equal. apply IH. lia. Qed.

Lemma substring_free c n s : free_of c s → free_of c (String.substring 0 n s).
Proof. intros Hf. destruct (substring_prefix n s) as [rest E]. rewrite E in Hf. by apply free_of_app in Hf as [? _]. Qed.

(** Joining separator-free, non-empty strings is injective. *)
Lemma strings_Join_inj (c : ascii) l1 l2 :
  Forall (λ s, free_of c s ∧ s ≠ ""%string) l1 → Forall (λ s, free_of c s ∧ s ≠ ""%string) l2 →
  strings_Join l1 (String c "") = strings_Join l2 (String c "") → l1 = l2.
Proof.
  intros H1. revert l2. induction H1 as [|x l1 [Hx Hx'] H1 IH]; intros l2 H2 E.
  - destruct H2 as [|y [|z l2] [Hy Hy'] _]; [done| |]; by destruct y.
  - destruct H2 as [|y l2 [Hy Hy'] H2].
    + destruct l1; by destruct x.
    + destruct l1 as [|x' l1], l2 as [|y' l2]; simpl in E.
      * by subst.
      * by destruct (free_of_no_separator c y (strings_Join (y' :: l2) (String c "")) x Hx).
      * symmetry in E. by destruct (free_of_no_separator c x (strings_Join (x' :: l1) (String c "")) y Hy).
      * destruct (separator_inj c x (strings_Join (x' :: l1) (String c "")) y (strings_Join (y' :: l2) (String c ""))) as [-> E2]; [done..|].
        f_equal. by apply IH.
Qed.

(** Decimal renderings hold digits only. *)
Definition is_digit (b : ascii) : Prop := in_range 48 57 (N_of_byte b) = true.

Fixpoint all_digits (s : string) : Prop :=
  match s with ""%string => True | String b r => is_digit b ∧ all_digits r end.

Lemma all_digits_free c s : ¬ is_digit c → all_digits s → free_of c s.
Proof.
  intros Hc. induction s as [|b s IH]; simpl; [done|]. intros [Hb Hs]. split; [|auto].
  intros ->. done.
Qed.

Lemma pretty_N_char_digit n : is_digit (pretty_N_char n).
Proof. unfold is_digit, pretty_N_char. by repeat case_match. Qed.

Lemma pretty_N_go_digits n s : all_digits s → all_digits (pretty_N_go n s).
Proof.
  revert s. induction (N.lt_wf_0 n) as [n _ IH]; intros s Hs.
  destruct (decide (0 < n)%N) as [Hn|Hn].
  - rewrite pretty_N_go_step by done. apply IH; [apply N.div_lt; lia|].
    split; [apply pretty_N_char_digit|done].
  - replace n with 0%N by lia. by rewrite pretty_N_go_0.
Qed.

Lemma pretty_N_digits (n : N) : all_digits (pretty n) ∧ pretty n ≠ ""%string.
Proof.
  unfold pretty, pretty_N. case_decide; [split; [|done]; by repeat split|].
  split; [by apply pretty_N_go_digits|].
  destruct (decide (0 < n)%N); [|lia].
  rewrite pretty_N_go_step by done.
  assert (∀ k t, t ≠ ""%string → pretty_N_go k t ≠ ""%string) as Hne; [|by apply Hne].
  intros k. induction (N.lt_wf_0 k) as [k _ IH]; intros t Ht.
  destruct (decide (0 < k)%N).
  - rewrite pretty_N_go_step by done. apply IH; [apply N.div_lt; lia|done].
  - replace k with 0%N by lia. by rewrite pretty_N_go_0.
Qed.

(** *** Hexadecimal encoding is injective *)

Lemma hex_digit_inj a b : (a < 16)%N → (b < 16)%N → hex_digit a = hex_digit b → a = b.
Proof.
  intros Ha Hb E. apply (f_equal N_of_byte) in E. unfold hex_digit in E.
  rewrite !N_of_byte_of_N in E by (repeat case_match; lia).
  destruct (N.ltb_spec a 10), (N.ltb_spec b 10); lia.
Qed.

Lemma N_of_byte_inj a b : N_of_byte a = N_of_byte b → a = b.
Proof. intros E. apply (f_equal ascii_of_N) in E. unfold N_of_byte in E. by rewrite !ascii_N_embedding in E. Qed.

Lemma hex_EncodeToString_inj s1 s2 : hex_EncodeToString s1 = hex_EncodeToString s2 → s1 = s2.
Proof.
  revert s2. induction s1 as [|a s1 IH]; intros [|b s2] E; simpl in E; try done.
  injection E as E1 E2 E3. f_equal; [|by apply IH].
  pose proof (N_of_byte_lt a). pose proof (N_of_byte_lt b).
  apply hex_digit_inj in E1; [|apply N.Div0.div_lt_upper_bound; lia..].
  apply hex_digit_inj in E2; [|apply N.mod_lt; done..].
  apply N_of_byte_inj. rewrite (N.div_mod' (N_of_byte a) 16), (N.div_mod' (N_of_byte b) 16). congruence.
Qed.
