(* ===== verification/GoTime.v ===== *)
(** * Package time: rendering durations and instants

    [Duration.Round], [Duration.String] and [Time.Format(time.RFC3339)] in UTC,
    as the controller's log lines use them. *)

From S2P Require Import Prelude GoString.

Definition Microsecond : Duration := 1000%Z.
Definition Millisecond : Duration := 1000000%Z.

(** ** Durations *)

(** [lessThanHalf] of package time: [x+x < y] on unsigned numbers. *)
Definition lessThanHalf (x y : Duration) : bool := (x + x <? y)%Z.

(** [Duration.Round] to a positive multiple: the nearest multiple, halfway
    values away from zero, saturating at the ends of [int64]. *)
Definition duration_Round (d m : Duration) : Duration :=
  let r := Z.rem d m in
  if (d <? 0)%Z then
    if lessThanHalf (- r) m then (d - r)%Z
    else let d1 := wrap64 (d - m - r) in if (d1 <? d)%Z then d1 else int64_min
  else
    if lessThanHalf r m then (d - r)%Z
    else let d1 := wrap64 (d + m - r) in if (d <? d1)%Z then d1 else int64_max.

(** [n] zeros. *)
Fixpoint zeros (n : nat) : string := match n with 0 => "" | S n => String "0" (zeros n) end%string.

(** A decimal number of at least [width] digits. *)
Definition padded (width : nat) (n : N) : string :=
  let s := pretty n in zeros (width - String.length s) +:+ s.

(** Drop the zeros that end a string of digits. *)
Fixpoint trimZeros (s : string) : string :=
  match s with
  | ""%string => ""%string
  | String c r =>
      match trimZeros r with
      | ""%string => if Ascii.eqb c "0" then ""%string else String c ""
      | r' => String c r'
      end
  end.

(** [fmtFrac]: the fraction of [v] over [10^prec], without trailing zeros and
    without a point when it is zero. *)
Definition fmtFrac (v : Z) (prec : nat) : string :=
  let unit := (10 ^ Z.of_nat prec)%Z in
  match trimZeros (padded prec (Z.to_N (v mod unit))) with
  | ""%string => ""%string
  | fraction => String "." fraction
  end.

Definition fmtInt (v : Z) : string := pretty (Z.to_N v).

(** [Duration.String] *)
Definition duration_String (d : Duration) : string :=
  let u := Z.abs d in
  let fractional (unit : Z) (prec : nat) (suffix : string) := (fmtInt (u / unit)%Z +:+ fmtFrac (u mod unit)%Z prec +:+ suffix)%string in
  let rendered :=
    if (u =? 0)%Z then "0s"%string
    else if (u <? Microsecond)%Z then fractional 1%Z 0 "ns"
    else if (u <? Millisecond)%Z then fractional Microsecond 3 (encode_rune 181 +:+ "s")
    else if (u <? Second)%Z then fractional Millisecond 6 "ms"
    else
      let total := (u / Second)%Z in
      let seconds := (fmtInt (total mod 60)%Z +:+ fmtFrac (u mod Second)%Z 9 +:+ "s")%string in
      let minutes := (total / 60)%Z in
      if (minutes =? 0)%Z then seconds
      else
        let withMinutes := (fmtInt (minutes mod 60)%Z +:+ "m" +:+ seconds)%string in
        let hours := (minutes / 60)%Z in
        if (hours =? 0)%Z then withMinutes else (fmtInt hours +:+ "h" +:+ withMinutes)%string in
  if (d <? 0)%Z then String "-" rendered else rendered.

(** ** Dates *)

(** A day of the proleptic Gregorian calendar, counted from 1 January of year
    1: its year, whether that is a leap year, and the day of the year. *)
Definition yearAndDay (days : Z) : Z * bool * Z :=
  let n400 := (days / 146097)%Z in
  let d := (days mod 146097)%Z in
  let n100 := Z.min 3 (d / 36524) in
  let d := (d - 36524 * n100)%Z in
  let n4 := (d / 1461)%Z in
  let d := (d mod 1461)%Z in
  let n1 := Z.min 3 (d / 365) in
  ((400 * n400 + 100 * n100 + 4 * n4 + n1 + 1)%Z,
   (n1 =? 3)%Z && (negb (n4 =? 24)%Z || (n100 =? 3)%Z),
   (d - 365 * n1)%Z).

Definition monthLengths (leap : bool) : list Z := [31; if leap then 29 else 28; 31; 30; 31; 30; 31; 31; 30; 31; 30; 31]%Z.

(** The month, from 1, and the day in it, from 1. *)
Fixpoint monthAndDay (lengths : list Z) (month day : Z) : Z * Z :=
  match lengths with
  | [] => (month, (day + 1)%Z)
  | l :: rest => if (day <? l)%Z then (month, (day + 1)%Z) else monthAndDay rest (month + 1)%Z (day - l)%Z
  end.

(** [t.UTC().Format(time.RFC3339)] *)
Definition format_RFC3339 (t : Time) : string :=
  let s := (t / Second)%Z in
  let '(year, leap, day) := yearAndDay (s / 86400) in
  let '(month, day) := monthAndDay (monthLengths leap) 1 day in
  let s := (s mod 86400)%Z in
  let field (width : nat) (v : Z) := padded width (Z.to_N v) in
  ((if (year <? 0)%Z then "-" else "") +:+ field 4 (Z.abs year) +:+ "-" +:+ field 2 month +:+ "-" +:+ field 2 day +:+
   "T" +:+ field 2 (s / 3600)%Z +:+ ":" +:+ field 2 (s / 60 mod 60)%Z +:+ ":" +:+ field 2 (s mod 60)%Z +:+ "Z")%string.

(** ** Renderings are printable ASCII *)

Fixpoint printable (s : string) : Prop :=
  match s with ""%string => True | String b r => in_range 32 126 (N_of_byte b) = true ∧ printable r end.

Lemma printable_app s1 s2 : printable s1 → printable s2 → printable (s1 +:+ s2).
Proof. induction s1 as [|b s1 IH]; simpl; [done|]. intros [? ?] ?. auto. Qed.

Lemma digits_printable s : all_digits s → printable s.
Proof.
  induction s as [|b s IH]; simpl; [done|]. intros [Hb Hs]. split; [|auto].
  unfold is_digit in Hb. rewrite in_range_spec in *. lia.
Qed.

Lemma all_digits_app s1 s2 : all_digits s1 → all_digits s2 → all_digits (s1 +:+ s2).
Proof. induction s1 as [|b s1 IH]; simpl; [done|]. intros [? ?] ?. auto. Qed.

Lemma padded_printable width n : printable (padded width n).
Proof.
  apply digits_printable, all_digits_app; [|apply pretty_N_digits].
  induction (width - _) as [|k IH]; simpl; [done|by split].
Qed.

Lemma printable_is_graphic `{UnicodeTables} s : printable s → Forall (λ r, IsGraphic r = true) (runes s).
Proof.
  unfold runes. induction s as [|b s IH]; [done|]. intros [Hb Hs].
  assert (Ha : (N_of_byte b <? 128)%N = true) by (rewrite in_range_spec in Hb; apply N.ltb_lt; lia).
  rewrite decode_ascii_cons by done. constructor; [|auto]. unfold IsGraphic. cbn [fst]. by rewrite Ha.
Qed.

Lemma format_RFC3339_printable t : printable (format_RFC3339 t).
Proof.
  unfold format_RFC3339. destruct (yearAndDay _) as [[year leap] day]. destruct (monthAndDay _ _ _) as [month dayOfMonth].
  repeat first [apply padded_printable | apply printable_app | by repeat split]. by destruct (year <? 0)%Z.
Qed.

Example duration_String_hours : duration_String (duration_Round 5025678900000 Millisecond) = "1h23m45.679s"%string.
Proof. reflexivity. Qed.
Example duration_String_fraction : duration_String 1500000 = "1.5ms"%string.
Proof. reflexivity. Qed.
Example format_leap_day : format_RFC3339 ((738944 * 86400 + 45296) * Second) = "2024-02-29T12:34:56Z"%string.
Proof. reflexivity. Qed.
