(* ===== verification/Json.v ===== *)
(** * encoding/json as runtimeConfigurationDigest uses it

    The encoding of strings and integers by [json.Marshal] with its default
    HTML escaping. *)

From S2P Require Import Prelude GoString.

Module Json.

(** The bytes of the quotation mark and the backslash. *)
Definition quote : ascii := ascii_of_N 34.
Definition escape : ascii := ascii_of_N 92.

Definition hex4 (r : rune) : string :=
  String (hex_digit ((r / 4096) mod 16)) (String (hex_digit ((r / 256) mod 16))
    (String (hex_digit ((r / 16) mod 16)) (String (hex_digit (r mod 16)) ""))).

(** The escape sequence of a character, after the backslash, or [None] when the
    character stands for itself. *)
Definition json_escape (r : rune) : option string :=
  if (r =? 34)%N then Some (String quote "")
  else if (r =? 92)%N then Some (String escape "")
  else if (r =? 8)%N then Some "b"%string
  else if (r =? 12)%N then Some "f"%string
  else if (r =? 10)%N then Some "n"%string
  else if (r =? 13)%N then Some "r"%string
  else if (r =? 9)%N then Some "t"%string
  else if (r <? 32)%N || (r =? 60)%N || (r =? 62)%N || (r =? 38)%N || (r =? 8232)%N || (r =? 8233)%N
  then Some ("u" +:+ hex4 r)
  else None.

(** One character of a string: an invalid byte is written as an escaped
    [RuneError]. *)
Definition json_character (c : rune * string) : string :=
  let '(r, chunk) := c in
  if (r =? RuneError)%N && bool_decide (String.length chunk = 1) then String escape "ufffd"
  else match json_escape r with
       | Some sequence => String escape sequence
       | None => chunk
       end.

Definition json_string (s : string) : string :=
  String quote (string_concat (map json_character (decode s)) +:+ String quote "").

(** [strconv.AppendInt] *)
Definition json_int (z : Z) : string := pretty z.

(** A member of an object: its name and its encoded value. *)
Definition json_member (name value : string) : string := json_string name +:+ ":" +:+ value.
Definition json_object (members : list string) : string := "{" +:+ strings_Join members "," +:+ "}".
Definition json_array (elements : list string) : string := "[" +:+ strings_Join elements "," +:+ "]".

(** ** Encodings are unambiguous

    A prefix code: the encoded value and what follows it can be told apart. *)
Definition prefix_code {A} (P : A → Prop) (enc : A → string) : Prop :=
  ∀ a b s t, P a → P b → enc a +:+ s = enc b +:+ t → a = b ∧ s = t.

Lemma string_app_inv (a s t : string) : a +:+ s = a +:+ t → s = t.
Proof. induction a as [|c a IH]; simpl; [done|]. intros [= ?]. auto. Qed.

(** A well-formed UTF-8 string: it is the encoding of its runes. *)
Definition utf8 (s : string) : Prop := encode (runes s) = s.

(** The encoding of one valid character. *)
Definition json_rune (r : rune) : string :=
  match json_escape r with Some sequence => String escape sequence | None => encode_rune r end.

Lemma json_string_utf8 s : utf8 s → json_string s = String quote (string_concat (map json_rune (runes s)) +:+ String quote "").
Proof.
  unfold utf8, json_string. intros Hs. f_equal. f_equal. rewrite <- Hs at 1. rewrite decode_encode by apply runes_valid.
  rewrite map_map. f_equal. apply map_ext. intros r. unfold json_character, json_rune.
  destruct (N.eqb_spec r RuneError) as [->|]; [done|]. done.
Qed.

Lemma encode_rune_code : prefix_code (λ r, valid_rune r = true) encode_rune.
Proof.
  intros a b s t Ha Hb E. pose proof (f_equal decode E) as D. rewrite !decode_encode_rune in D by done.
  injection D as -> _. split; [done|]. by eapply string_app_inv.
Qed.

(** A character that stands for itself does not start with an escape or a
    quotation mark. *)
Lemma plain_first r c s t :
  valid_rune r = true → json_escape r = None → c = escape ∨ c = quote → encode_rune r +:+ s ≠ String c t.
Proof.
  intros Hv He Hc E. apply (f_equal decode) in E. rewrite decode_encode_rune in E by done.
  destruct Hc as [-> | ->]; rewrite decode_ascii_cons in E by done; injection E as -> _; done.
Qed.

Lemma hex4_inj a b s t : (a < 65536)%N → (b < 65536)%N → hex4 a +:+ s = hex4 b +:+ t → a = b ∧ s = t.
Proof.
  intros Ha Hb. unfold hex4. simpl. intros [= E1 E2 E3 E4 E5]. split; [|done].
  apply hex_digit_inj in E1, E2, E3, E4; try (apply N.mod_lt; done).
  assert (∀ n, n < 65536 → n = ((n / 4096) mod 16) * 4096 + ((n / 256) mod 16) * 256 + ((n / 16) mod 16) * 16 + n mod 16)%N as Hd; [|by rewrite (Hd a Ha), (Hd b Hb), E1, E2, E3, E4].
  intros n Hn. pose proof (N.div_mod' n 16). pose proof (N.div_mod' (n / 16) 16). pose proof (N.div_mod' (n / 256) 16).
  rewrite !N.Div0.div_div in *. change (16 * 16)%N with 256%N in *. change (256 * 16)%N with 4096%N in *.
  rewrite (N.mod_small (n / 4096)); [lia|]. apply N.Div0.div_lt_upper_bound; lia.
Qed.

(** The rune an escape sequence stands for is small. *)
Lemma json_escape_u r sequence :
  json_escape r = Some sequence →
  (sequence = "u" +:+ hex4 r ∧ (r < 65536)%N) ∨
  ∃ c, sequence = String c "" ∧ c ≠ "u"%char ∧ 
    r = (if Ascii.eqb c quote then 34 else if Ascii.eqb c escape then 92 else if Ascii.eqb c "b" then 8
         else if Ascii.eqb c "f" then 12 else if Ascii.eqb c "n" then 10 else if Ascii.eqb c "r" then 13 else 9)%N.
Proof.
  unfold json_escape.
  repeat match goal with
  | |- context [if (r =? ?n)%N then _ else _] => destruct (N.eqb_spec r n) as [->|]; [intros [= <-]; right; eexists; (split; [reflexivity|]); split; [done|reflexivity]|]
  end.
  destruct (_ || _) eqn:E; [|done]. intros [= <-]. left. split; [done|].
  rewrite !orb_true_iff, N.ltb_lt, !N.eqb_eq in E. lia.
Qed.

Lemma json_rune_code : prefix_code (λ r, valid_rune r = true) json_rune.
Proof.
  intros a b s t Ha Hb. unfold json_rune.
  destruct (json_escape a) as [sa|] eqn:Ea, (json_escape b) as [sb|] eqn:Eb.
  - simpl. intros [= E]. destruct (json_escape_u _ _ Ea) as [[-> La]|(ca & -> & Na & Ra)], (json_escape_u _ _ Eb) as [[-> Lb]|(cb & -> & Nb & Rb)]; cbn [String.append] in E.
    + apply hex4_inj; [done..|]. by apply (string_app_inv "u").
    + injection E as E _. congruence.
    + injection E as E _. congruence.
    + injection E as E ->. by rewrite Ra, Rb, E.
  - intros E. symmetry in E. simpl in E. by apply plain_first in E; [|done|done|left].
  - intros E. simpl in E. by apply plain_first in E; [|done|done|left].
  - by apply encode_rune_code.
Qed.

Lemma json_rune_not_quote r s t : valid_rune r = true → json_rune r +:+ s ≠ String quote t.
Proof.
  intros Hv. unfold json_rune. destruct (json_escape r) eqn:E; [done|]. apply plain_first; auto.
Qed.

Lemma json_runes_inj l1 l2 s t :
  Forall (λ r, valid_rune r = true) l1 → Forall (λ r, valid_rune r = true) l2 →
  string_concat (map json_rune l1) +:+ String quote s = string_concat (map json_rune l2) +:+ String quote t → l1 = l2 ∧ s = t.
Proof.
  intros H1. revert l2. induction H1 as [|a l1 Ha H1 IH]; intros l2 H2; destruct H2 as [|b l2 Hb H2]; simpl;
    rewrite ?string_app_assoc; intros E.
  - by injection E.
  - symmetry in E. by apply json_rune_not_quote in E.
  - by apply json_rune_not_quote in E.
  - apply json_rune_code in E as [-> E]; [|done..]. by apply IH in E as [-> ->].
Qed.

Lemma json_string_code : prefix_code utf8 json_string.
Proof.
  intros a b s t Ha Hb. rewrite !json_string_utf8 by done. simpl. intros [= E]. rewrite !string_app_assoc in E. simpl in E.
  apply json_runes_inj in E as [E ->]; [|apply runes_valid..]. split; [|done]. by rewrite <- Ha, <- Hb, E.
Qed.

Lemma json_int_free z c : ¬ is_digit c → c ≠ "-"%char → free_of c (json_int z).
Proof.
  intros Hd Hm. unfold json_int, pretty, pretty_Z. destruct z as [|p|p]; simpl; [by split; [intros <-; apply Hd|]|..].
  - apply all_digits_free; [done|]. apply pretty_N_digits.
  - split; [done|]. apply all_digits_free; [done|]. apply pretty_N_digits.
Qed.

(** An integer ends where a byte that is no part of an integer follows. *)
Lemma json_int_inj c a b s t :
  ¬ is_digit c → c ≠ "-"%char → json_int a +:+ String c s = json_int b +:+ String c t → a = b ∧ s = t.
Proof.
  intros Hd Hm E. apply separator_inj in E as [E ->]; [|by apply json_int_free..]. split; [|done]. by apply (inj pretty) in E.
Qed.
End Json.
