(* ===== verification/Logging.v ===== *)
(** * internal/logging: bounding values that reach a log line *)

From S2P Require Import Prelude GoString.

Module Logging.

Definition MaxTextLength : nat := 256.
Definition MaxListItems : nat := 8.
Definition truncationMark : string := " ...(truncated)".

Section logging.
Context `{UnicodeTables}.

(** The mapping [Text] applies to every character. *)
Definition printableRune (character : rune) : rune :=
  if IsGraphic character then character else 32%N.

(** Text replaces non-printing characters and truncates a value. *)
Definition Text (value : string) : string :=
  let printable := strings_Map printableRune value in
  if rune_count printable <=? MaxTextLength then printable
  else encode (take MaxTextLength (runes printable)) +:+ truncationMark.

(** List bounds every entry of a list and replaces the entries beyond the
    limit with their count. *)
Definition List (values : list string) : list string :=
  match values with
  | [] => []
  | _ =>
      let limit := min (length values) MaxListItems in
      let bounded := map Text (take limit values) in
      if limit <? length values
      then bounded ++ ["(" +:+ pretty (length values - limit) +:+ " more)"]
      else bounded
  end.

(** ** Properties *)

Lemma printableRune_graphic r : IsGraphic (printableRune r) = true.
Proof. unfold printableRune. by destruct (IsGraphic r) eqn:E. Qed.

Lemma printableRune_valid r : valid_rune r = true → valid_rune (printableRune r) = true.
Proof. unfold printableRune. by destruct (IsGraphic r). Qed.

Lemma printable_runes value :
  runes (strings_Map printableRune value) = map printableRune (runes value).
Proof.
  apply runes_encode. apply Forall_map. eapply Forall_impl; [apply runes_valid|].
  intros r. apply printableRune_valid.
Qed.

Lemma rune_count_runes s : rune_count s = length (runes s).
Proof. unfold rune_count, runes. by rewrite length_map. Qed.

(** The runes [Text] returns, by whether the value fits. *)
Lemma Text_runes value :
  runes (Text value) =
  if length (runes value) <=? MaxTextLength then map printableRune (runes value)
  else take MaxTextLength (map printableRune (runes value)) ++ runes truncationMark.
Proof.
  unfold Text. rewrite rune_count_runes, printable_runes, length_map.
  destruct (_ <=? _); [apply printable_runes|].
  replace truncationMark with (encode (runes truncationMark)) at 1 by reflexivity.
  rewrite <- encode_app. apply runes_encode. rewrite Forall_app. split; [|apply runes_valid].
  apply Forall_take, Forall_map. eapply Forall_impl; [apply runes_valid|].
  intros r. apply printableRune_valid.
Qed.

Lemma printable_graphic rs : Forall (λ r, IsGraphic r = true) rs → map printableRune rs = rs.
Proof. induction 1 as [|r rs Hr _ IH]; [done|]. simpl. unfold printableRune at 1. by rewrite Hr, IH. Qed.

Lemma List_length values : length (List values) ≤ S MaxListItems.
Proof.
  unfold List. destruct values as [|v values]; [simpl; lia|]. 
  assert (Hb : length (map Text (take (min (length (v :: values)) MaxListItems) (v :: values))) ≤ MaxListItems)
    by (rewrite length_map, length_take; lia).
  destruct (_ <? _); rewrite ?length_app; simpl length in *; lia.
Qed.

Lemma truncationMark_graphic : Forall (λ r, IsGraphic r = true) (runes truncationMark).
Proof. apply Forall_forall. intros r Hr. vm_compute in Hr. set_solver. Qed.

Lemma Text_is_graphic value : Forall (λ r, IsGraphic r = true) (runes (Text value)).
Proof.
  assert (Hg : Forall (λ r, IsGraphic r = true) (map printableRune (runes value))).
  { apply Forall_map, Forall_true. intros r. apply printableRune_graphic. }
  rewrite Text_runes. destruct (_ <=? _); [done|].
  apply Forall_app. split; [by apply Forall_take|apply truncationMark_graphic].
Qed.

(** A value taken from a certificate or a server answer cannot break or flood a log line: Text returns only
    graphic characters, so no control character or line break, and at most 256 of them before the truncation
    mark; a value of at most 256 graphic characters is kept unchanged; and List bounds a list to eight entries
    and one count. *)
Theorem Text_safe value values :
  Forall (λ r, IsGraphic r = true) (runes (Text value)) ∧
  length (runes (Text value)) ≤ MaxTextLength + length (runes truncationMark) ∧
  (length (runes value) ≤ MaxTextLength → Forall (λ r, IsGraphic r = true) (runes value) → runes (Text value) = runes value) ∧
  length (List values) ≤ S MaxListItems.
Proof.
  split; [apply Text_is_graphic|]. split_and!; [| |apply List_length]; rewrite Text_runes;
    destruct (Nat.leb_spec (length (runes value)) MaxTextLength).
  - rewrite length_map. lia.
  - rewrite length_app, length_take. lia.
  - intros _. apply printable_graphic.
  - lia.
Qed.
End logging.
End Logging.
