(* ===== verification/Version.v ===== *)
(** * The build identity: internal/version/version.go

    The stamped variables, the metadata the Go toolchain embeds and the
    environment are the inputs. *)

From S2P Require Import Prelude GoString Logging.
Import Logging.

Module Version.

Definition developmentVersion : string := "development".
Definition commitLength : nat := 12.
Definition ImageEnvVar : string := "CMP_ISSUER_IMAGE".
Definition ChartEnvVar : string := "CMP_ISSUER_CHART".
Definition ReleaseEnvVar : string := "CMP_ISSUER_RELEASE".
Definition revisionSetting : string := "vcs.revision".
Definition revisionTimeSetting : string := "vcs.time".
Definition modifiedSetting : string := "vcs.modified".

(** Info describes the build the manager was compiled from and the install that
    deployed it. *)
Record Info := {
  info_Version : string;
  GitCommit : string;
  BuildDate : string;
  GoVersion : string;
  Platform : string;
  Image : string;
  Chart : string;
  Release : string
}.

(** The package variables the linker stamps with -X. *)
Record Stamp := { stamp_version : string; stamp_gitCommit : string; stamp_buildDate : string; stamp_image : string }.

(** [debug.BuildInfo]: the main module's version and the settings in order. *)
Record BuildInfo := { Main_Version : string; Settings : list (string * string) }.

(** Package runtime: [runtime.Version()], [GOOS] and [GOARCH]. *)
Record GoRuntime := { runtime_Version : string; GOOS : string; GOARCH : string }.

(** The dash that separates a commit from its suffix. *)
Definition dash : ascii := ascii_of_N 45.

(** The body of shortCommit after [strings.Cut]. *)
Definition shortened (commit name suffix : string) : string :=
  if String.length name <=? commitLength then commit
  else
    let name := String.substring 0 commitLength name in
    if bool_decide (suffix = "") then name else name +:+ String dash suffix.

(** shortCommit trims a full commit hash to the logged length, leaving any other
    form untouched. *)
Definition shortCommit (commit : string) : string :=
  let '(name, suffix) := default (commit, ""%string) (Cut dash commit) in shortened commit name suffix.

(** What the loop over the settings collects. *)
Record vcs := { revision : string; vcs_time : string; modified : bool }.

(** One iteration: [vcs_time] is info.BuildDate, which only the first non-empty
    time fills. *)
Definition applySetting (v : vcs) (setting : string * string) : vcs :=
  let '(key, value) := setting in
  if bool_decide (key = revisionSetting) then {| revision := value; vcs_time := vcs_time v; modified := modified v |}
  else if bool_decide (key = revisionTimeSetting) then
    {| revision := revision v; vcs_time := if bool_decide (vcs_time v = "") then value else vcs_time v; modified := modified v |}
  else if bool_decide (key = modifiedSetting) then
    {| revision := revision v; vcs_time := vcs_time v; modified := bool_decide (value = "true"%string) |}
  else v.

(** applyBuildInfo fills in from the embedded module and version control
    metadata whatever the linker did not stamp. *)
Definition applyBuildInfo (info : Info) (build : BuildInfo) : Info :=
  let version :=
    if bool_decide (info_Version info = "") || bool_decide (info_Version info = developmentVersion) then
      if negb (bool_decide (Main_Version build = "")) && negb (bool_decide (Main_Version build = "(devel)"))
      then Main_Version build else info_Version info
    else info_Version info in
  let v := foldl applySetting {| revision := ""; vcs_time := BuildDate info; modified := false |} (Settings build) in
  let commit :=
    if bool_decide (GitCommit info = "") && negb (bool_decide (revision v = ""))
    then shortCommit (revision v) +:+ (if modified v then "-dirty" else "")
    else GitCommit info in
  {| info_Version := version; GitCommit := commit; BuildDate := vcs_time v; GoVersion := GoVersion info; Platform := Platform info;
     Image := Image info; Chart := Chart info; Release := Release info |}.

Section resolve.
Context `{UnicodeTables}.

(** An install-time value replaces the field only when it is set. *)
Definition bound (lookupEnv : string → option string) (name current : string) : string :=
  match lookupEnv name with
  | Some value => if bool_decide (value = ""%string) then current else Text value
  | None => current
  end.

(** resolve assembles the identity from the stamped values, the embedded build
    metadata and the environment. *)
Definition resolve (stamp : Stamp) (runtime : GoRuntime) (readBuildInfo : option BuildInfo) (lookupEnv : string → option string) : Info :=
  let info := {| info_Version := stamp_version stamp; GitCommit := shortCommit (stamp_gitCommit stamp); BuildDate := stamp_buildDate stamp;
                 GoVersion := runtime_Version runtime; Platform := GOOS runtime +:+ "/" +:+ GOARCH runtime;
                 Image := stamp_image stamp; Chart := ""; Release := "" |} in
  let info := match readBuildInfo with Some build => applyBuildInfo info build | None => info end in
  {| info_Version := if bool_decide (info_Version info = "") then developmentVersion else info_Version info;
     GitCommit := GitCommit info; BuildDate := BuildDate info; GoVersion := GoVersion info; Platform := Platform info;
     Image := bound lookupEnv ImageEnvVar (Image info); Chart := bound lookupEnv ChartEnvVar (Chart info);
     Release := bound lookupEnv ReleaseEnvVar (Release info) |}.

(** Get returns the build and install identity of the running manager. *)
Definition Get (stamp : Stamp) (runtime : GoRuntime) (ReadBuildInfo : option BuildInfo) (LookupEnv : string → option string) : Info :=
  resolve stamp runtime ReadBuildInfo LookupEnv.

(** fields returns the populated entries of the identity in log order. *)
Definition ordered (info : Info) : list (string * string) :=
  [("version", info_Version info); ("gitCommit", GitCommit info); ("buildDate", BuildDate info); ("goVersion", GoVersion info);
   ("platform", Platform info); ("image", Image info); ("chart", Chart info); ("release", Release info)]%string.
Definition fields (info : Info) : list (string * string) :=
  List.filter (λ entry, negb (bool_decide (entry.2 = ""%string))) (ordered info).

(** KeysAndValues renders the identity as structured log fields. *)
Definition KeysAndValues (info : Info) : list string := concat (map (λ entry, [entry.1; entry.2]) (fields info)).

(** String renders the identity as one line per field. *)
Definition info_String (info : Info) : string :=
  strings_Join (map (λ entry, entry.1 +:+ ": " +:+ entry.2) (fields info)) (String (ascii_of_N 10) "").

(** ** Properties *)

Lemma shortened_cases commit name suffix tail :
  free_of dash name → commit = name +:+ tail →
  shortened commit name suffix = commit ∨
  ∃ name' rest, free_of dash name' ∧ String.length name' = commitLength ∧ commit = name' +:+ rest ∧
    (shortened commit name suffix = name' ∨ ∃ suffix', suffix' ≠ ""%string ∧ shortened commit name suffix = name' +:+ String dash suffix').
Proof.
  intros Hf Ht. unfold shortened. destruct (Nat.leb_spec (String.length name) commitLength) as [|Hlen]; [by left|]. right.
  destruct (substring_prefix commitLength name) as [rest E].
  exists (String.substring 0 commitLength name), (rest +:+ tail). split_and!.
  - by apply substring_free.
  - apply substring_length. lia.
  - by rewrite <- string_app_assoc, <- E.
  - case_bool_decide; [by left|right; eauto].
Qed.

(** A commit is left alone, or becomes its first characters with its suffix. *)
Lemma shortCommit_cases commit :
  shortCommit commit = commit ∨
  ∃ name rest, free_of dash name ∧ String.length name = commitLength ∧ commit = name +:+ rest ∧
    (shortCommit commit = name ∨ ∃ suffix, suffix ≠ ""%string ∧ shortCommit commit = name +:+ String dash suffix).
Proof.
  unfold shortCommit. pose proof (Cut_spec dash commit) as Hc. destruct (Cut dash commit) as [[name suffix]|]; cbn [default].
  - destruct Hc as [E Hf]. by apply (shortened_cases commit name suffix (String dash suffix)).
  - apply (shortened_cases commit commit "" ""); [done|]. by rewrite string_app_nil_r.
Qed.

Lemma shortCommit_fixed name rest :
  free_of dash name → String.length name = commitLength → rest = ""%string ∨ (∃ suffix, rest = String dash suffix) →
  shortCommit (name +:+ rest) = name +:+ rest.
Proof.
  intros Hf Hl Hr. unfold shortCommit, shortened. destruct Hr as [-> |[suffix ->]].
  - rewrite string_app_nil_r, Cut_None by done. simpl. by rewrite Hl.
  - rewrite Cut_first by done. simpl. by rewrite Hl.
Qed.

Lemma shortCommit_idempotent commit : shortCommit (shortCommit commit) = shortCommit commit.
Proof.
  destruct (shortCommit_cases commit) as [E|(name & rest & Hf & Hl & _ & [E|(suffix & _ & E)])]; rewrite E; [done| |].
  - pose proof (shortCommit_fixed name "" Hf Hl (or_introl eq_refl)) as Hx. by rewrite string_app_nil_r in Hx.
  - apply shortCommit_fixed; eauto.
Qed.

Lemma shortCommit_nonempty commit : commit ≠ ""%string → shortCommit commit ≠ ""%string.
Proof.
  intros Hne. destruct (shortCommit_cases commit) as [->|(name & rest & _ & Hl & _ & [->|(suffix & _ & ->)])]; [done| |];
    by destruct name.
Qed.

(** An install-time value, when one is set. *)
Definition installed (lookupEnv : string → option string) (name rendered : string) : Prop :=
  ∀ value, lookupEnv name = Some value → value ≠ ""%string → rendered = Text value.

Lemma bound_installed lookupEnv name current : installed lookupEnv name (bound lookupEnv name current).
Proof. intros value E Hne. unfold bound. by rewrite E, bool_decide_false. Qed.

(** The identity the manager logs is complete and safe to print: it always names a version, a commit the
    linker stamped takes precedence over the embedded one and is shortened once and for all, install-time
    values are bounded and printable, and only populated fields are rendered, in the documented order. *)
Theorem resolve_identity stamp runtime build lookupEnv :
  let info := resolve stamp runtime build lookupEnv in
  info_Version info ≠ ""%string ∧
  (stamp_gitCommit stamp ≠ ""%string → GitCommit info = shortCommit (stamp_gitCommit stamp)) ∧
  shortCommit (shortCommit (stamp_gitCommit stamp)) = shortCommit (stamp_gitCommit stamp) ∧
  installed lookupEnv ImageEnvVar (Image info) ∧ installed lookupEnv ChartEnvVar (Chart info) ∧
  installed lookupEnv ReleaseEnvVar (Release info) ∧
  fields info `sublist_of` ordered info ∧ Forall (λ entry, entry.2 ≠ ""%string) (fields info) ∧
  head (fields info) = Some ("version"%string, info_Version info).
Proof.
  intros info. assert (Hv : info_Version info ≠ ""%string) by (unfold info, resolve; simpl; by case_bool_decide).
  split_and!; [done| |apply shortCommit_idempotent|apply bound_installed..| | |].
  - intros Hs. apply shortCommit_nonempty in Hs. unfold info, resolve. destruct build as [b|]; [|done]. simpl.
    by rewrite bool_decide_false.
  - unfold fields. induction (ordered info) as [|e l IH]; [done|]. cbn [List.filter]. by case_match; constructor.
  - unfold fields. apply Forall_forall. intros e [_ He]%list_elem_of_In%List.filter_In. by simplify_bool.
  - unfold fields, ordered. cbn [List.filter]. rewrite bool_decide_false by done. done.
Qed.
End resolve.
End Version.
