(* ===== verification/Types.v ===== *)
(** * Shared data: Go errors, X.509 and CMP data, the libraries' interface and
    the types of internal/protocol/types.go

    The X.509, ASN.1, PEM, URL and MIME parsers and the CMP library
    (github.com/misiektoja/go-pki-cmp) are not part of the repository.  The
    data the sources read from them are records here; their functions are the
    fields of the class [Libs], a parameter of everything that follows. *)

From S2P Require Import Prelude GoString.

(** ** Errors *)

(** [ErrorKind] of internal/protocol/types.go, a string type: any other value
    is [ErrorKindUnknown]. *)
Inductive ErrorKind :=
| ErrorKindPermanent
| ErrorKindRetryable
| ErrorKindPending
| ErrorKindSecurity
| ErrorKindUnknown.

#[global] Instance ErrorKind_eq_dec : EqDecision ErrorKind.
Proof. solve_decision. Defined.

(** A Go [error] value with what [errors.As] can find in it.  Message texts
    are kept without the values formatted into them. *)
Inductive error :=
| Errorf (text : string)                  (* a leaf: fmt.Errorf without %w, or a library's error *)
| Wrapped (text : string) (Err : error)   (* fmt.Errorf with one %w *)
| ProtocolError (Kind : ErrorKind) (Operation Failure : string) (RequeueAfter : Duration) (Err : error)
| ConfigurationError (Permanent : bool) (Operation : string) (Err : error)
| PermanentError (Err : error)            (* issuer-lib signer.PermanentError *)
| PendingError (Err : error) (RequeueAfter : Duration)  (* issuer-lib signer.PendingError *)
| IssuerError (Err : error)               (* issuer-lib signer.IssuerError *)
| APINotFound                             (* apierrors.IsNotFound *)
| APIConflict.                            (* apierrors.IsConflict *)

(** [errors.Unwrap] *)
Definition unwrap (e : error) : option error :=
  match e with
  | Wrapped _ e | ProtocolError _ _ _ _ e | ConfigurationError _ _ e
  | PermanentError e | PendingError e _ | IssuerError e => Some e
  | _ => None
  end.

(** [errors.As]: the first error of the chain that [match_] selects. *)
Fixpoint errors_As {A} (match_ : error → option A) (e : error) : option A :=
  match match_ e with
  | Some a => Some a
  | None =>
      match e with
      | Wrapped _ e | ProtocolError _ _ _ _ e | ConfigurationError _ _ e
      | PermanentError e | PendingError e _ | IssuerError e => errors_As match_ e
      | _ => None
      end
  end.

Definition as_PermanentError (e : error) : option error :=
  match e with PermanentError e => Some e | _ => None end.
Definition as_PendingError (e : error) : option (error * Duration) :=
  match e with PendingError e d => Some (e, d) | _ => None end.

(** The fields of a [*protocol.Error]. *)
Record Error := {
  Kind : ErrorKind;
  Operation : string;
  Failure : string;
  RequeueAfter : Duration;
  Wraps : error
}.
Definition as_Error (e : error) : option Error :=
  match e with
  | ProtocolError k o f r e => Some {| Kind := k; Operation := o; Failure := f; RequeueAfter := r; Wraps := e |}
  | _ => None
  end.
Definition from_Error (e : Error) : error :=
  ProtocolError (Kind e) (Operation e) (Failure e) (RequeueAfter e) (Wraps e).

(** [permanent], [retryable] and [security] of internal/protocol/client.go. *)
Definition permanent (operation failure : string) (err : error) : error :=
  ProtocolError ErrorKindPermanent operation failure 0 err.
Definition retryable (operation failure : string) (err : error) : error :=
  ProtocolError ErrorKindRetryable operation failure 0 err.
Definition security (operation failure : string) (err : error) : error :=
  ProtocolError ErrorKindSecurity operation failure 0 err.

(** ** Cryptographic data *)

(** [crypto.Hash]: zero, the three digests the program accepts, any other. *)
Inductive Hash := HashZero | SHA256 | SHA384 | SHA512 | HashOther (n : N).

#[global] Instance Hash_eq_dec : EqDecision Hash.
Proof. solve_decision. Defined.

(** [Hash.Size]: it panics for an unknown hash. *)
Definition Hash_Size {E} (h : Hash) : outcome E nat :=
  match h with
  | SHA256 => Ok 32 | SHA384 => Ok 48 | SHA512 => Ok 64
  | HashZero | HashOther _ => Panic
  end.

(** A public key by its Go type, with its encoding. *)
Inductive PublicKey :=
| RSAPublicKey (key : bytes)
| ECDSAPublicKey (key : bytes)
| Ed25519PublicKey (key : bytes)
| MLDSAPublicKey (key : bytes)
| OtherPublicKey (key : bytes).

#[global] Instance PublicKey_eq_dec : EqDecision PublicKey.
Proof. solve_decision. Defined.

(** [asn1.ObjectIdentifier] *)
Abbreviation OID := (list N) (only parsing).

(** The value of an attribute, an [any]: a Go string, or another value with
    its [%v] rendering. *)
Inductive AttributeValue := StringValue (s : string) | OtherValue (rendered : string).

Record AttributeTypeAndValue := { atv_Type : OID; atv_Value : AttributeValue }.
Abbreviation RDNSequence := (list (list AttributeTypeAndValue)) (only parsing).

(** [pkix.Name] *)
Record Name := {
  Country : list string;
  Organization : list string;
  OrganizationalUnit : list string;
  Locality : list string;
  Province : list string;
  StreetAddress : list string;
  SerialNumber : string;
  CommonName : string;
  ExtraNames : list AttributeTypeAndValue
}.

Record Extension := { ext_Id : OID; ext_Value : bytes }.

(** [x509.Certificate], the fields the program decides on. *)
Record Certificate := {
  Raw : bytes;
  RawSubject : bytes;
  RawIssuer : bytes;
  Subject : Name;
  cert_PublicKey : PublicKey;
  KeyUsage : N;
  Extensions : list Extension;
  NotBefore : Time;
  NotAfter : Time
}.

(** [x509.CertificateRequest] *)
Record CertificateRequest := {
  csr_Raw : bytes;
  csr_RawSubject : bytes;
  csr_PublicKey : PublicKey;
  csr_Extensions : list Extension
}.

(** [x509.CertPool]: [AddCert] ignores a certificate already present. *)
Abbreviation CertPool := (list Certificate) (only parsing).
Definition AddCert (pool : CertPool) (c : Certificate) : CertPool :=
  if existsb (λ p, bool_decide (Raw p = Raw c)) pool then pool else pool ++ [c].

(** ** CMP data *)

Inductive PKIStatus :=
| StatusAccepted
| StatusGrantedWithMods
| StatusRejection
| StatusWaiting
| StatusOther (n : Z).

#[global] Instance PKIStatus_eq_dec : EqDecision PKIStatus.
Proof. solve_decision. Defined.

(** [pkicmp.PKIFailureInfo]: a set of bits. *)
Abbreviation PKIFailureInfo := N (only parsing).

Record PKIStatusInfo := {
  Status : PKIStatus;
  StatusString : list string;
  FailInfo : PKIFailureInfo
}.

(** The response bodies the program distinguishes. *)
Inductive BodyType :=
| BodyTypeIP | BodyTypeCP | BodyTypeKUP | BodyTypeError | BodyTypePollRep | BodyTypePKIConf
| BodyTypeOther (n : Z).

#[global] Instance BodyType_eq_dec : EqDecision BodyType.
Proof. solve_decision. Defined.

(** A certificate of a CMP message: its encoding. *)
Abbreviation CMPCertificate := bytes (only parsing).

Record CertResponse := {
  cr_CertReqID : Z;
  cr_Status : PKIStatusInfo;
  (* CertifiedKeyPair.CertOrEncCert.Certificate, nil when any part is absent *)
  cr_Certificate : option CMPCertificate
}.

Record CertRepMessage := { CAPubs : list CMPCertificate; Response : list CertResponse }.

Record PollRepItem := { pri_CertReqID : Z; pri_CheckAfter : Z }.

(** The body of a response, seen through the accessors the program calls:
    [Body.Type], [Body.Error], [Body.PollRep] and [Body.IP]/[CP]/[KUP]. *)
Record ResponseBody := {
  Type_ : BodyType;
  body_Error : error + PKIStatusInfo;
  body_PollRep : error + list PollRepItem;
  body_CertRep : error + CertRepMessage
}.

(** [pkicmp.CertTemplate] *)
Record CertTemplate {GN : Type} := {
  tpl_Subject : GN;
  tpl_PublicKey : bytes;
  tpl_Extensions : bytes;
  tpl_NotAfter : option Time
}.
Arguments CertTemplate : clear implicits.

Record CertStatus := {
  cs_CertReqID : Z;
  cs_CertHash : bytes;
  cs_HashAlg : option OID;
  cs_StatusInfo : option PKIStatusInfo
}.

Inductive ProtectionKind := ProtectionSignature | ProtectionMAC.

(** [pkicmp.VerifyOptions] *)
Record VerifyOptions := {
  RequiredProtection : ProtectionKind;
  SharedSecret : bytes;
  TrustPool : option CertPool;
  vo_ExtraCerts : list CMPCertificate;
  vo_SenderKID : bytes;
  TrustedCert : option Certificate;
  MinMACIterationCount : Z;
  MaxMACIterationCount : Z
}.

(** A parsed [url.URL]: what the program reads of it. *)
Record URL := { Scheme : string; Host : string; User : bool; Fragment : string }.

(** A decoded [pem.Block]. *)
Record PEMBlock := { pem_Type : string; pem_Bytes : bytes }.

Record PKIHeader {GN : Type} := {
  PVNO : Z;
  Sender : GN;
  Recipient : GN;
  ProtectionAlg : option OID;
  SenderKID : bytes;
  TransactionID : bytes;
  SenderNonce : bytes;
  RecipNonce : bytes;
  GeneralInfo : list OID
}.
Arguments PKIHeader : clear implicits.

(** A parsed response. [msg_Payload] stands for the encoding that [Verify]
    checks the protection over. *)
Record ResponseMessage {GN P : Type} := {
  Header : PKIHeader GN;
  Body : ResponseBody;
  Protection_ : bytes;
  ExtraCerts : list CMPCertificate;
  msg_Payload : P
}.
Arguments ResponseMessage : clear implicits.

(** [pkicmp.CertReqMsg] with its proof of possession. *)
Record CertReqMsg {GN P : Type} := {
  crm_CertReqID : Z;
  crm_CertTemplate : CertTemplate GN;
  crm_Controls : list bytes;
  crm_POP : option P
}.
Arguments CertReqMsg : clear implicits.

(** The request bodies the program builds. *)
Inductive RequestBody {GN P : Type} :=
| P10CRBody (csr : CertificateRequest)
| IRBody (messages : list (CertReqMsg GN P))
| KURBody (messages : list (CertReqMsg GN P))
| PollReqBody (certReqIDs : list Z)
| CertConfBody (statuses : list CertStatus).
Arguments RequestBody : clear implicits.

(** A request message, before and after [Credentials.Protect]. *)
Record RequestMessage {GN P : Type} := {
  req_Header : PKIHeader GN;
  req_Body : RequestBody GN P;
  req_Protection : bytes;
  req_ExtraCerts : list CMPCertificate
}.
Arguments RequestMessage : clear implicits.

(** [pkicmp.MessageOptions] *)
Record MessageOptions {GN : Type} := {
  mo_Sender : GN;
  mo_Recipient : GN;
  mo_TransactionID : bytes;
  mo_RecipNonce : bytes
}.
Arguments MessageOptions : clear implicits.

Definition PVNO2 : Z := 2.
Definition PVNO3 : Z := 3.

(** ** The libraries the program calls *)

Class Libs := {
  libs_unicode :: UnicodeTables;

  (** crypto/x509 and encoding/asn1, encoding/pem *)
  Signer : Type;
  Public : Signer → PublicKey;
  MarshalPKIXPublicKey : PublicKey → error + bytes;
  ParseCertificate : bytes → error + Certificate;
  ParseCertificateRequest : bytes → error + CertificateRequest;
  CheckSignature : CertificateRequest → option error;
  CheckSignatureFrom : Certificate → Certificate → option error;
  (* Certificate.Verify with ExtKeyUsageAny at an instant: every chain from the
     certificate to a root; a nil pool of roots means the system's roots *)
  x509_Verify : Time → Certificate → option CertPool → CertPool → error + list (list Certificate);
  UnmarshalRDNSequence : bytes → error + (RDNSequence * bytes);
  UnmarshalRawValues : bytes → error + (list bytes * bytes);
  MarshalExtensions : list Extension → error + bytes;
  pem_Decode : bytes → option (PEMBlock * bytes);
  pem_Encode : PEMBlock → bytes;
  (* a parsed private key is a Signer or a key that cannot sign *)
  ParsePKCS8PrivateKey : bytes → error + option Signer;
  ParsePKCS1PrivateKey : bytes → error + Signer;
  ParseECPrivateKey : bytes → error + Signer;
  sha256_Sum256 : bytes → bytes;

  (** net/url and mime *)
  url_Parse : string → error + URL;
  mime_ParseMediaType : string → error + string;

  (** go-pki-cmp *)
  GeneralName : Type;
  GeneralName_zero : GeneralName;
  DirectoryName : GeneralName → RDNSequence;
  NewDirectoryName : Name → GeneralName;
  NewDirectoryNameFromRawDER : bytes → GeneralName;
  ImplicitConfirmOID : OID;
  CMPCertificate_Parse : CMPCertificate → error + Certificate;
  FailBadMessageCheck : PKIFailureInfo;
  FailSignerNotTrusted : PKIFailureInfo;
  FailNotAuthorized : PKIFailureInfo;
  FailBadPOP : PKIFailureInfo;
  FailBadCertTemplate : PKIFailureInfo;
  FailBadAlg : PKIFailureInfo;
  FailTransactionIdInUse : PKIFailureInfo;
  FailBadRequest : PKIFailureInfo;
  FailSystemUnavail : PKIFailureInfo;
  FailSystemFailure : PKIFailureInfo;
  FailureInfo_String : PKIFailureInfo → string;
  StatusInfo_AsError : PKIStatusInfo → error;
  BodyType_String : BodyType → string;
  NewCertStatus : Certificate → Z → error + CertStatus;
  NewOldCertIDControl : Certificate → error + bytes;
  POP : Type;
  Credentials : Type;
  NewMACCredentials : bytes → Hash → Hash → Z → Z → Z → error + Credentials;
  NewSignatureCredentials : Signer → Certificate → list Certificate → error + Credentials;
  WithHash : Credentials → Hash → error + Credentials;
  (* what Verify reads of a message beyond the fields the program reads *)
  MessagePayload : Type;
  pkicmp_Verify : Time → ResponseMessage GeneralName MessagePayload → VerifyOptions → option error;
  ParsePKIMessage : bytes → error + ResponseMessage GeneralName MessagePayload
}.

Section derived_types.
Context `{Libs}.
Definition PKIMessage : Type := ResponseMessage GeneralName MessagePayload.
Definition PKIRequest : Type := RequestMessage GeneralName POP.
End derived_types.

(** ** internal/protocol/types.go *)

Definition OperationP10CR : string := "P10CR".
Definition OperationIR : string := "IR".
Definition OperationKUR : string := "KUR".
Definition ResponseCertReqIDStandard : Z := -1.
Definition ResponseCertReqIDLegacyZero : Z := 0.

Record PasswordProtection := {
  Reference : bytes;
  Secret : bytes;
  IterationCount : Z;
  OWF : Hash;
  MAC : Hash
}.

Section protocol_types.
Context `{Libs}.

Record SignatureProtection := {
  (* the signer and the certificate may be nil *)
  PrivateKey : option Signer;
  sp_Certificate : option Certificate;
  sp_Chain : list Certificate
}.

Record Protection := {
  Password : option PasswordProtection;
  Signature : option SignatureProtection
}.

Record EnrollmentRequest := {
  er_Operation : string;
  EndpointURL : string;
  er_Timeout : Duration;
  MaxResponseSize : Z;
  er_Sender : option Name;
  er_Recipient : Name;
  ImplicitConfirm : bool;
  RejectGrantedMods : bool;
  AllowSignedMACResponse : bool;
  RequireMACIterationFloor : bool;
  ResponseCertReqID : option Z;
  RequireKUPCAPubsAbsent : bool;
  er_TransactionID : bytes;
  CSRDER : bytes;
  RequestedPrivateKey : option Signer;
  SignatureDigest : Hash;
  RequestedNotAfter : Time;
  er_Protection : Protection;
  CMPTrust : option CertPool;
  CMPTrustCertificates : list Certificate;
  CMPResponseCertificates : list Certificate;
  TLSRoots : option CertPool
}.

(** Assignments to a field of an [EnrollmentRequest] value. *)
Definition set_Operation (v : string) (r : EnrollmentRequest) : EnrollmentRequest :=
  {| er_Operation := v; EndpointURL := EndpointURL r; er_Timeout := er_Timeout r; MaxResponseSize := MaxResponseSize r;
     er_Sender := er_Sender r; er_Recipient := er_Recipient r; ImplicitConfirm := ImplicitConfirm r; RejectGrantedMods := RejectGrantedMods r;
     AllowSignedMACResponse := AllowSignedMACResponse r; RequireMACIterationFloor := RequireMACIterationFloor r; ResponseCertReqID := ResponseCertReqID r; RequireKUPCAPubsAbsent := RequireKUPCAPubsAbsent r;
     er_TransactionID := er_TransactionID r; CSRDER := CSRDER r; RequestedPrivateKey := RequestedPrivateKey r; SignatureDigest := SignatureDigest r;
     RequestedNotAfter := RequestedNotAfter r; er_Protection := er_Protection r; CMPTrust := CMPTrust r; CMPTrustCertificates := CMPTrustCertificates r;
     CMPResponseCertificates := CMPResponseCertificates r; TLSRoots := TLSRoots r |}.
Definition set_EndpointURL (v : string) (r : EnrollmentRequest) : EnrollmentRequest :=
  {| er_Operation := er_Operation r; EndpointURL := v; er_Timeout := er_Timeout r; MaxResponseSize := MaxResponseSize r;
     er_Sender := er_Sender r; er_Recipient := er_Recipient r; ImplicitConfirm := ImplicitConfirm r; RejectGrantedMods := RejectGrantedMods r;
     AllowSignedMACResponse := AllowSignedMACResponse r; RequireMACIterationFloor := RequireMACIterationFloor r; ResponseCertReqID := ResponseCertReqID r; RequireKUPCAPubsAbsent := RequireKUPCAPubsAbsent r;
     er_TransactionID := er_TransactionID r; CSRDER := CSRDER r; RequestedPrivateKey := RequestedPrivateKey r; SignatureDigest := SignatureDigest r;
     RequestedNotAfter := RequestedNotAfter r; er_Protection := er_Protection r; CMPTrust := CMPTrust r; CMPTrustCertificates := CMPTrustCertificates r;
     CMPResponseCertificates := CMPResponseCertificates r; TLSRoots := TLSRoots r |}.
Definition set_CSRDER (v : bytes) (r : EnrollmentRequest) : EnrollmentRequest :=
  {| er_Operation := er_Operation r; EndpointURL := EndpointURL r; er_Timeout := er_Timeout r; MaxResponseSize := MaxResponseSize r;
     er_Sender := er_Sender r; er_Recipient := er_Recipient r; ImplicitConfirm := ImplicitConfirm r; RejectGrantedMods := RejectGrantedMods r;
     AllowSignedMACResponse := AllowSignedMACResponse r; RequireMACIterationFloor := RequireMACIterationFloor r; ResponseCertReqID := ResponseCertReqID r; RequireKUPCAPubsAbsent := RequireKUPCAPubsAbsent r;
     er_TransactionID := er_TransactionID r; CSRDER := v; RequestedPrivateKey := RequestedPrivateKey r; SignatureDigest := SignatureDigest r;
     RequestedNotAfter := RequestedNotAfter r; er_Protection := er_Protection r; CMPTrust := CMPTrust r; CMPTrustCertificates := CMPTrustCertificates r;
     CMPResponseCertificates := CMPResponseCertificates r; TLSRoots := TLSRoots r |}.
Definition set_Protection (v : Protection) (r : EnrollmentRequest) : EnrollmentRequest :=
  {| er_Operation := er_Operation r; EndpointURL := EndpointURL r; er_Timeout := er_Timeout r; MaxResponseSize := MaxResponseSize r;
     er_Sender := er_Sender r; er_Recipient := er_Recipient r; ImplicitConfirm := ImplicitConfirm r; RejectGrantedMods := RejectGrantedMods r;
     AllowSignedMACResponse := AllowSignedMACResponse r; RequireMACIterationFloor := RequireMACIterationFloor r; ResponseCertReqID := ResponseCertReqID r; RequireKUPCAPubsAbsent := RequireKUPCAPubsAbsent r;
     er_TransactionID := er_TransactionID r; CSRDER := CSRDER r; RequestedPrivateKey := RequestedPrivateKey r; SignatureDigest := SignatureDigest r;
     RequestedNotAfter := RequestedNotAfter r; er_Protection := v; CMPTrust := CMPTrust r; CMPTrustCertificates := CMPTrustCertificates r;
     CMPResponseCertificates := CMPResponseCertificates r; TLSRoots := TLSRoots r |}.
Definition set_RequestedPrivateKey (v : option Signer) (r : EnrollmentRequest) : EnrollmentRequest :=
  {| er_Operation := er_Operation r; EndpointURL := EndpointURL r; er_Timeout := er_Timeout r; MaxResponseSize := MaxResponseSize r;
     er_Sender := er_Sender r; er_Recipient := er_Recipient r; ImplicitConfirm := ImplicitConfirm r; RejectGrantedMods := RejectGrantedMods r;
     AllowSignedMACResponse := AllowSignedMACResponse r; RequireMACIterationFloor := RequireMACIterationFloor r; ResponseCertReqID := ResponseCertReqID r; RequireKUPCAPubsAbsent := RequireKUPCAPubsAbsent r;
     er_TransactionID := er_TransactionID r; CSRDER := CSRDER r; RequestedPrivateKey := v; SignatureDigest := SignatureDigest r;
     RequestedNotAfter := RequestedNotAfter r; er_Protection := er_Protection r; CMPTrust := CMPTrust r; CMPTrustCertificates := CMPTrustCertificates r;
     CMPResponseCertificates := CMPResponseCertificates r; TLSRoots := TLSRoots r |}.
Definition set_ResponseCertReqID (v : option Z) (r : EnrollmentRequest) : EnrollmentRequest :=
  {| er_Operation := er_Operation r; EndpointURL := EndpointURL r; er_Timeout := er_Timeout r; MaxResponseSize := MaxResponseSize r;
     er_Sender := er_Sender r; er_Recipient := er_Recipient r; ImplicitConfirm := ImplicitConfirm r; RejectGrantedMods := RejectGrantedMods r;
     AllowSignedMACResponse := AllowSignedMACResponse r; RequireMACIterationFloor := RequireMACIterationFloor r; ResponseCertReqID := v; RequireKUPCAPubsAbsent := RequireKUPCAPubsAbsent r;
     er_TransactionID := er_TransactionID r; CSRDER := CSRDER r; RequestedPrivateKey := RequestedPrivateKey r; SignatureDigest := SignatureDigest r;
     RequestedNotAfter := RequestedNotAfter r; er_Protection := er_Protection r; CMPTrust := CMPTrust r; CMPTrustCertificates := CMPTrustCertificates r;
     CMPResponseCertificates := CMPResponseCertificates r; TLSRoots := TLSRoots r |}.
Definition set_TransactionID (v : bytes) (r : EnrollmentRequest) : EnrollmentRequest :=
  {| er_Operation := er_Operation r; EndpointURL := EndpointURL r; er_Timeout := er_Timeout r; MaxResponseSize := MaxResponseSize r;
     er_Sender := er_Sender r; er_Recipient := er_Recipient r; ImplicitConfirm := ImplicitConfirm r; RejectGrantedMods := RejectGrantedMods r;
     AllowSignedMACResponse := AllowSignedMACResponse r; RequireMACIterationFloor := RequireMACIterationFloor r; ResponseCertReqID := ResponseCertReqID r; RequireKUPCAPubsAbsent := RequireKUPCAPubsAbsent r;
     er_TransactionID := v; CSRDER := CSRDER r; RequestedPrivateKey := RequestedPrivateKey r; SignatureDigest := SignatureDigest r;
     RequestedNotAfter := RequestedNotAfter r; er_Protection := er_Protection r; CMPTrust := CMPTrust r; CMPTrustCertificates := CMPTrustCertificates r;
     CMPResponseCertificates := CMPResponseCertificates r; TLSRoots := TLSRoots r |}.
Definition set_RequestedNotAfter (v : Time) (r : EnrollmentRequest) : EnrollmentRequest :=
  {| er_Operation := er_Operation r; EndpointURL := EndpointURL r; er_Timeout := er_Timeout r; MaxResponseSize := MaxResponseSize r;
     er_Sender := er_Sender r; er_Recipient := er_Recipient r; ImplicitConfirm := ImplicitConfirm r; RejectGrantedMods := RejectGrantedMods r;
     AllowSignedMACResponse := AllowSignedMACResponse r; RequireMACIterationFloor := RequireMACIterationFloor r; ResponseCertReqID := ResponseCertReqID r; RequireKUPCAPubsAbsent := RequireKUPCAPubsAbsent r;
     er_TransactionID := er_TransactionID r; CSRDER := CSRDER r; RequestedPrivateKey := RequestedPrivateKey r; SignatureDigest := SignatureDigest r;
     RequestedNotAfter := v; er_Protection := er_Protection r; CMPTrust := CMPTrust r; CMPTrustCertificates := CMPTrustCertificates r;
     CMPResponseCertificates := CMPResponseCertificates r; TLSRoots := TLSRoots r |}.

Record PollRequest := {
  poll_Enrollment : EnrollmentRequest;
  poll_RecipNonce : bytes;
  poll_CertReqID : Z;
  poll_ResponseSigner : option Certificate;
  poll_RequestNonce : bytes
}.

Record ConfirmRequest := {
  cf_Enrollment : EnrollmentRequest;
  cf_Certificate : option Certificate;
  cf_CertReqID : Z;
  cf_RecipNonce : bytes;
  cf_ResponseSigner : option Certificate;
  cf_RequestNonce : bytes
}.
End protocol_types.

Record PendingTransaction := {
  pt_CertReqID : Z;
  pt_RecipNonce : bytes;
  pt_ResponseSigner : option Certificate;
  CheckAfter : Duration;
  pt_RequestNonce : bytes
}.

Record EnrollmentResult := {
  Chain : list Certificate;
  ExtraCertificateCount : nat;
  ExplicitConfirmation : bool;
  res_ResponseCertReqID : Z;
  Pending : option PendingTransaction;
  PendingConfirmation : option PendingTransaction
}.

(** [EnrollmentResult{}] *)
Definition EnrollmentResult_zero : EnrollmentResult :=
  {| Chain := []; ExtraCertificateCount := 0; ExplicitConfirmation := false;
     res_ResponseCertReqID := 0; Pending := None; PendingConfirmation := None |}.
