(* ===== verification/Demo.v ===== *)
(** * A concrete instance of the libraries

    Every library parameter instantiated by a small concrete function, so that
    the hypotheses of the theorems are seen to hold somewhere and the model
    runs.  Certificates are identified by their encoding, a PEM block is the
    byte [P] followed by one byte of content, and a message is looked up by its
    encoding. *)

From S2P Require Import Prelude GoString Types.

Module Demo.

Definition name (cn : string) : Name :=
  {| Country := []; Organization := []; OrganizationalUnit := []; Locality := []; Province := [];
     StreetAddress := []; SerialNumber := ""; CommonName := cn; ExtraNames := [] |}.

Definition mkCert (raw subject issuer key : string) (from to : Time) : Certificate :=
  {| Raw := raw; RawSubject := subject; RawIssuer := issuer; Subject := name subject;
     cert_PublicKey := RSAPublicKey key; KeyUsage := 1; Extensions := []; NotBefore := from; NotAfter := to |}.

Definition root : Certificate := mkCert "R" "CA" "CA" "rootkey" 0 1000.
Definition leaf : Certificate := mkCert "L" "workload" "CA" "newkey" 10 500.
Definition oldLeaf : Certificate := mkCert "O" "workload" "CA" "oldkey" 0 100.
Definition stranger : Certificate := mkCert "S" "stranger" "Other" "strangerkey" 0 1000.

Definition certificates : list Certificate := [root; leaf; oldLeaf; stranger].

Definition findCert (raw : bytes) : error + Certificate :=
  match find (λ c, bool_decide (Raw c = raw)) certificates with
  | Some c => inr c
  | None => inl (Errorf "not a certificate")
  end.

Definition csr : CertificateRequest :=
  {| csr_Raw := "csr"; csr_RawSubject := "workload"; csr_PublicKey := RSAPublicKey "newkey"; csr_Extensions := [] |}.

Definition commonName : OID := [2; 5; 4; 3]%N.
Definition directory (cn : string) : RDNSequence :=
  match cn with
  | ""%string => []
  | _ => [[{| atv_Type := commonName; atv_Value := StringValue cn |}]]
  end.

(** A response from the authority [CA], protected, in transaction [tid] and
    answering the nonce [nonce]. The payload is the verdict of the protection
    check for each required kind: (signature, MAC). *)
Definition mkResponse (sender : string) (tid : bytes) (body : ResponseBody) (extra : list CMPCertificate) (info : list OID) (payload : bool * bool) : ResponseMessage RDNSequence (bool * bool) :=
  {| Header := {| PVNO := 2; Sender := directory sender; Recipient := []; ProtectionAlg := Some [1%N]; SenderKID := "";
                  TransactionID := tid; SenderNonce := "servernonce"; RecipNonce := "nonce"; GeneralInfo := info |};
     Body := body; Protection_ := "mac"; ExtraCerts := extra; msg_Payload := payload |}.

Definition status (s : PKIStatus) : PKIStatusInfo := {| Status := s; StatusString := []; FailInfo := 0 |}.

Definition certRep (type : BodyType) (id : Z) (s : PKIStatus) (certificate : option bytes) : ResponseBody :=
  {| Type_ := type; body_Error := inl (Errorf "not an error"); body_PollRep := inl (Errorf "not a pollRep");
     body_CertRep := inr {| CAPubs := []; Response := [{| cr_CertReqID := id; cr_Status := status s; cr_Certificate := certificate |}] |} |}.

Definition errorBody (s : PKIStatus) : ResponseBody :=
  {| Type_ := BodyTypeError; body_Error := inr (status s); body_PollRep := inl (Errorf "not a pollRep");
     body_CertRep := inl (Errorf "not a CertRep") |}.

Definition pollRepBody (id checkAfter : Z) : ResponseBody :=
  {| Type_ := BodyTypePollRep; body_Error := inl (Errorf "not an error");
     body_PollRep := inr [{| pri_CertReqID := id; pri_CheckAfter := checkAfter |}];
     body_CertRep := inl (Errorf "not a CertRep") |}.

Definition pkiConfBody : ResponseBody :=
  {| Type_ := BodyTypePKIConf; body_Error := inl (Errorf "not an error"); body_PollRep := inl (Errorf "not a pollRep");
     body_CertRep := inl (Errorf "not a CertRep") |}.

Definition tid : bytes := "0123456789abcdef".
Definition okMAC : bool * bool := (false, true).
Definition okSig : bool * bool := (true, false).

(** The messages of the demonstration server, by their encoding. *)
Definition parseMessage (der : bytes) : error + ResponseMessage RDNSequence (bool * bool) :=
  if bool_decide (der = "cp") then inr (mkResponse "CA" tid (certRep BodyTypeCP (-1) StatusAccepted (Some "L"%string)) [] [] okMAC)
  else if bool_decide (der = "cp-implicit") then inr (mkResponse "CA" tid (certRep BodyTypeCP (-1) StatusAccepted (Some "L"%string)) [] [[7%N]] okMAC)
  else if bool_decide (der = "cp-waiting") then inr (mkResponse "CA" tid (certRep BodyTypeCP (-1) StatusWaiting None) [] [] okMAC)
  else if bool_decide (der = "cp-stranger") then inr (mkResponse "CA" tid (certRep BodyTypeCP (-1) StatusAccepted (Some "S"%string)) [] [] okMAC)
  else if bool_decide (der = "pollrep") then inr (mkResponse "CA" tid (pollRepBody (-1) 7) [] [] okMAC)
  else if bool_decide (der = "pkiconf") then inr (mkResponse "CA" tid pkiConfBody [] [] okMAC)
  else if bool_decide (der = "error-accepted") then inr (mkResponse "CA" tid (errorBody StatusAccepted) [] [] okMAC)
  else if bool_decide (der = "cp-signed") then inr (mkResponse "CA" tid (certRep BodyTypeCP (-1) StatusAccepted (Some "L"%string)) ["R"] [] okSig)
  else inl (Errorf "not a PKIMessage").

#[export] Instance demoTables : UnicodeTables := {| unicode_upper := λ r, r; unicode_graphic := λ _, true |}.

#[export] Instance demoLibs : Libs := {|
  libs_unicode := demoTables;
  Signer := string;
  Public := RSAPublicKey;
  MarshalPKIXPublicKey := λ k, match k with
    | RSAPublicKey s => inr ("rsa:" +:+ s)
    | ECDSAPublicKey s => inr ("ecdsa:" +:+ s)
    | Ed25519PublicKey s => inr ("ed25519:" +:+ s)
    | MLDSAPublicKey s => inr ("mldsa:" +:+ s)
    | OtherPublicKey _ => inl (Errorf "unsupported public key type")
    end;
  ParseCertificate := findCert;
  ParseCertificateRequest := λ der, if bool_decide (der = "csr") then inr csr else inl (Errorf "not a CSR");
  CheckSignature := λ _, None;
  CheckSignatureFrom := λ c p, if bool_decide (RawIssuer c = RawSubject p) then None else Some (Errorf "signature mismatch");
  x509_Verify := λ now c roots _,
    match roots with
    | None => inl (Errorf "no system roots")
    | Some roots =>
        match filter (λ r, RawSubject r = RawIssuer c) roots with
        | [] => inl (Errorf "unknown authority")
        | rs => inr (map (λ r, [c; r]) rs)
        end
    end;
  UnmarshalRDNSequence := λ raw, inr (directory raw, "");
  UnmarshalRawValues := λ raw, inr ([raw], "");
  MarshalExtensions := λ _, inr "extensions";
  pem_Decode := λ d, match d with
    | String "P" (String b rest) => Some ({| pem_Type := "CERTIFICATE"; pem_Bytes := String b "" |}, rest)
    | _ => None
    end;
  pem_Encode := λ b, "P" +:+ pem_Bytes b;
  ParsePKCS8PrivateKey := λ d, inr (Some d);
  ParsePKCS1PrivateKey := λ d, inr d;
  ParseECPrivateKey := λ d, inr d;
  sha256_Sum256 := λ d, d;
  url_Parse := λ u, if bool_decide (u = "http://ca") then inr {| Scheme := "http"; Host := "ca"; User := false; Fragment := "" |}
                    else inl (Errorf "unsupported URL");
  mime_ParseMediaType := λ t, inr t;
  GeneralName := RDNSequence;
  GeneralName_zero := [];
  DirectoryName := λ d, d;
  NewDirectoryName := λ n, directory (CommonName n);
  NewDirectoryNameFromRawDER := directory;
  ImplicitConfirmOID := [7%N];
  CMPCertificate_Parse := findCert;
  FailBadMessageCheck := 1; FailSignerNotTrusted := 2; FailNotAuthorized := 4; FailBadPOP := 8;
  FailBadCertTemplate := 16; FailBadAlg := 32; FailTransactionIdInUse := 64; FailBadRequest := 128;
  FailSystemUnavail := 256; FailSystemFailure := 512;
  FailureInfo_String := λ n, "bit" +:+ pretty n;
  StatusInfo_AsError := λ _, Errorf "PKIStatus";
  BodyType_String := λ _, "body";
  NewCertStatus := λ c id, inr {| cs_CertReqID := id; cs_CertHash := Raw c; cs_HashAlg := None; cs_StatusInfo := None |};
  NewOldCertIDControl := λ c, inr (Raw c);
  POP := string;
  Credentials := string;
  NewMACCredentials := λ secret _ _ _ _ _, inr secret;
  NewSignatureCredentials := λ key _ _, inr key;
  WithHash := λ c _, inr c;
  MessagePayload := bool * bool;
  pkicmp_Verify := λ _ m o,
    if match RequiredProtection o with ProtectionSignature => (msg_Payload m).1 | ProtectionMAC => (msg_Payload m).2 end
    then None else Some (Errorf "bad protection");
  ParsePKIMessage := parseMessage
|}.

(** A request of a password-protected issuer that trusts [root]. *)
Definition password : PasswordProtection :=
  {| Reference := "ref"; Secret := "secret"; IterationCount := 1024; OWF := SHA256; MAC := SHA256 |}.

Definition request : EnrollmentRequest :=
  {| er_Operation := OperationP10CR; EndpointURL := "http://ca"; er_Timeout := Second; MaxResponseSize := 1024;
     er_Sender := None; er_Recipient := name "CA"; ImplicitConfirm := false; RejectGrantedMods := true;
     AllowSignedMACResponse := false; RequireMACIterationFloor := true; ResponseCertReqID := None;
     RequireKUPCAPubsAbsent := false; er_TransactionID := tid; CSRDER := "csr"; RequestedPrivateKey := None;
     SignatureDigest := HashZero; RequestedNotAfter := 0;
     er_Protection := {| Password := Some password; Signature := None |};
     CMPTrust := Some [root]; CMPTrustCertificates := [root]; CMPResponseCertificates := []; TLSRoots := None |}.

(** A key update protected by [oldLeaf]. *)
Definition kurRequest : EnrollmentRequest :=
  set_Operation OperationKUR
    (set_RequestedPrivateKey (Some "newkey"%string)
      (set_Protection {| Password := None;
         Signature := Some {| PrivateKey := Some "oldkey"%string; sp_Certificate := Some oldLeaf; sp_Chain := [] |} |} request)).

(** The header of a request in transaction [tid] with the nonce [nonce]. *)
Definition requestHeader : PKIHeader GeneralName :=
  {| PVNO := 2; Sender := []; Recipient := []; ProtectionAlg := None; SenderKID := ""; TransactionID := tid;
     SenderNonce := "nonce"; RecipNonce := ""; GeneralInfo := [] |}.
End Demo.
