(* ===== verification/Names.v ===== *)
(** * Distinguished names: the name parser of internal/protocol/parse.go *)

From S2P Require Import Prelude GoString Types Demo.

Module Names.

Definition oidDomainComponent : OID := [0; 9; 2342; 19200300; 100; 1; 25]%N.
Definition oidUserID : OID := [0; 9; 2342; 19200300; 100; 1; 1]%N.
Definition oidEmailAddress : OID := [1; 2; 840; 113549; 1; 9; 1]%N.

(** [pkix.Name{}] *)
Definition Name_zero : Name :=
  {| Country := []; Organization := []; OrganizationalUnit := []; Locality := []; Province := [];
     StreetAddress := []; SerialNumber := ""; CommonName := ""; ExtraNames := [] |}.

Definition backslash : rune := 92%N.
Definition comma : rune := 44%N.

(** The loop of splitDN over the remaining characters: [current] is
    [value[start:index]] and the result the parts that follow. *)
Fixpoint splitLoop (characters : list (rune * string)) (current : string) (escaped : bool) : outcome error (list string) :=
  match characters with
  | [] => if escaped then Err (Errorf "distinguished name ends with an escape") else Ok [TrimSpace current]
  | (character, chunk) :: rest =>
      if escaped then splitLoop rest (current +:+ chunk) false
      else if (character =? backslash)%N then splitLoop rest (current +:+ chunk) true
      else if (character =? comma)%N then
        parts ← splitLoop rest "" false;
        Ok (TrimSpace current :: parts)
      else splitLoop rest (current +:+ chunk) false
  end.

(** splitDN separates unescaped comma-delimited distinguished name
    components. *)
Definition splitDN (value : string) : outcome error (list string) :=
  if bool_decide (TrimSpace value = "") then Err (Errorf "distinguished name is empty")
  else
    parts ← splitLoop (decode value) "" false;
    if bool_decide (""%string ∈ parts) then Err (Errorf "distinguished name contains an empty component")
    else Ok parts.

(** The loop of unescapeDNValue. *)
Fixpoint unescapeLoop (characters : list rune) (escaped : bool) : outcome error string :=
  match characters with
  | [] => if escaped then Err (Errorf "distinguished name value ends with an escape") else Ok ""
  | character :: rest =>
      if negb escaped && (character =? backslash)%N then unescapeLoop rest true
      else result ← unescapeLoop rest false; Ok (encode_rune character +:+ result)
  end.

(** unescapeDNValue decodes RFC 4514 single-character escapes used by
    configured names. *)
Definition unescapeDNValue (value : string) : outcome error string := unescapeLoop (runes value) false.

Definition withExtraName (oid : OID) (value : string) (name : Name) : Name :=
  {| Country := Country name; Organization := Organization name; OrganizationalUnit := OrganizationalUnit name;
     Locality := Locality name; Province := Province name; StreetAddress := StreetAddress name;
     SerialNumber := SerialNumber name; CommonName := CommonName name;
     ExtraNames := ExtraNames name ++ [{| atv_Type := oid; atv_Value := StringValue value |}] |}.

(** addNameAttribute appends one supported distinguished name attribute. *)
Definition addNameAttribute (name : Name) (key value : string) : outcome error Name :=
  let '(Build_Name c o ou l st street serial cn extra) := name in
  if bool_decide (key = "CN") then Ok (Build_Name c o ou l st street serial value extra)
  else if bool_decide (key = "C") then Ok (Build_Name (c ++ [value]) o ou l st street serial cn extra)
  else if bool_decide (key = "L") then Ok (Build_Name c o ou (l ++ [value]) st street serial cn extra)
  else if bool_decide (key = "ST") then Ok (Build_Name c o ou l (st ++ [value]) street serial cn extra)
  else if bool_decide (key = "STREET") then Ok (Build_Name c o ou l st (street ++ [value]) serial cn extra)
  else if bool_decide (key = "O") then Ok (Build_Name c (o ++ [value]) ou l st street serial cn extra)
  else if bool_decide (key = "OU") then Ok (Build_Name c o (ou ++ [value]) l st street serial cn extra)
  else if bool_decide (key = "SERIALNUMBER") then Ok (Build_Name c o ou l st street value cn extra)
  else if bool_decide (key = "DC") then Ok (withExtraName oidDomainComponent value name)
  else if bool_decide (key = "UID") then Ok (withExtraName oidUserID value name)
  else if bool_decide (key = "EMAILADDRESS") || bool_decide (key = "E")
  then Ok (withExtraName oidEmailAddress value name)
  else Err (Errorf "unsupported distinguished name attribute").

Section names.
Context `{UnicodeTables}.

(** The component loop of ParseDistinguishedName. *)
Fixpoint addComponents (name : Name) (parts : list string) : outcome error Name :=
  match parts with
  | [] => Ok name
  | part :: rest =>
      match Cut "=" part with
      | None => Err (Errorf "distinguished name component lacks '='")
      | Some (key, raw) =>
          decoded ← unescapeDNValue (TrimSpace raw);
          if bool_decide (decoded = ""%string) then Err (Errorf "distinguished name value is empty")
          else name ← addNameAttribute name (ToUpper (TrimSpace key)) decoded; addComponents name rest
      end
  end.

(** ParseDistinguishedName parses the supported RFC 4514 attribute subset
    without accepting empty values. *)
Definition ParseDistinguishedName (value : string) : outcome error Name :=
  parts ← splitDN value;
  addComponents Name_zero parts.

(** ** Printing names *)

Definition supportedKeys : list string :=
  ["CN"; "C"; "L"; "ST"; "STREET"; "O"; "OU"; "SERIALNUMBER"; "DC"; "UID"; "EMAILADDRESS"; "E"].

(** Escape the two characters the parser gives a meaning. *)
Definition escapeRunes (rs : list rune) : list rune :=
  flat_map (λ r, if (r =? comma)%N || (r =? backslash)%N then [backslash; r] else [r]) rs.

Definition formatComponent (attribute : string * list rune) : string :=
  attribute.1 +:+ "=" +:+ encode (escapeRunes attribute.2).
Definition formatDN (attributes : list (string * list rune)) : string :=
  strings_Join (map formatComponent attributes) ",".

(** A printable attribute: a supported key and a non-empty value of valid
    runes without a space at either end. *)
Definition noSpaceEnds (rs : list rune) : Prop :=
  match head rs, last rs with Some r, Some r' => IsSpace r = false ∧ IsSpace r' = false | _, _ => False end.
Definition wellFormed (attribute : string * list rune) : Prop :=
  attribute.1 ∈ supportedKeys ∧ Forall (λ r, valid_rune r = true) attribute.2 ∧ noSpaceEnds attribute.2.

(** The name a list of attributes denotes. *)
Fixpoint denoteDN (name : Name) (attributes : list (string * list rune)) : outcome error Name :=
  match attributes with
  | [] => Ok name
  | (key, value) :: rest => name ← addNameAttribute name key (encode value); denoteDN name rest
  end.

(** *** Trimming *)

Definition chunks (rs : list rune) : list (rune * string) := map (λ r, (r, encode_rune r)) rs.

Lemma decode_chunks rs : Forall (λ r, valid_rune r = true) rs → decode (encode rs) = chunks rs.
Proof. apply decode_encode. Qed.

Lemma drop_while_none {A} (f : A → bool) x l : f x = false → drop_while f (x :: l) = x :: l.
Proof. simpl. by intros ->. Qed.

Lemma TrimSpace_encode rs :
  Forall (λ r, valid_rune r = true) rs → noSpaceEnds rs → TrimSpace (encode rs) = encode rs.
Proof.
  intros Hv Hn. unfold TrimSpace. rewrite decode_chunks by done.
  destruct rs as [|r rs]; [done|]. simpl chunks. unfold noSpaceEnds in Hn. simpl in Hn.
  destruct (last (r :: rs)) as [r'|] eqn:El; [|done]. destruct Hn as [H1 H2].
  rewrite drop_while_none by done. unfold drop_while_end.
  apply last_Some in El as [l El]. change ((r, encode_rune r) :: chunks rs) with (chunks (r :: rs)). rewrite El.
  replace (chunks (l ++ [r'])) with (chunks l ++ [(r', encode_rune r')]) by (unfold chunks; by rewrite map_app).
  rewrite reverse_snoc, drop_while_none by done. rewrite reverse_cons, reverse_involutive.
  unfold encode, chunks. rewrite !map_app, map_map. done.
Qed.

(** *** Splitting *)

(** Runes that leave the splitter outside an escape and contain no separator. *)
Inductive balanced : list rune → Prop :=
| balanced_nil : balanced []
| balanced_plain r rs : r ≠ comma → r ≠ backslash → balanced rs → balanced (r :: rs)
| balanced_escape r rs : balanced rs → balanced (backslash :: r :: rs).

Lemma balanced_app rs1 rs2 : balanced rs1 → balanced rs2 → balanced (rs1 ++ rs2).
Proof. intros H1 H2. induction H1; simpl; [done|by apply balanced_plain|by apply balanced_escape]. Qed.

Lemma escapeRunes_balanced rs : balanced (escapeRunes rs).
Proof.
  induction rs as [|r rs IH]; simpl; [constructor|].
  destruct (N.eqb_spec r comma), (N.eqb_spec r backslash); simpl; by (apply balanced_escape || apply balanced_plain).
Qed.

Lemma escapeRunes_valid rs :
  Forall (λ r, valid_rune r = true) rs → Forall (λ r, valid_rune r = true) (escapeRunes rs).
Proof.
  induction 1 as [|r rs Hr _ IH]; simpl; [constructor|].
  destruct (_ || _); simpl; repeat constructor; done.
Qed.

Lemma escapeRunes_head r rs : ∃ r' rs', escapeRunes (r :: rs) = r' :: rs' ∧ (IsSpace r = false → IsSpace r' = false).
Proof. simpl. destruct (_ || _); simpl; eauto. Qed.

Lemma escapeRunes_app rs1 rs2 : escapeRunes (rs1 ++ rs2) = escapeRunes rs1 ++ escapeRunes rs2.
Proof. apply flat_map_app. Qed.

Lemma escapeRunes_ends rs : noSpaceEnds rs → noSpaceEnds (escapeRunes rs).
Proof.
  unfold noSpaceEnds. destruct rs as [|r rs]; [done|]. intros Hn. simpl head in Hn.
  destruct (last (r :: rs)) as [r'|] eqn:El; [|done]. destruct Hn as [H1 H2].
  destruct (escapeRunes_head r rs) as (x & xs & E & Hx).
  assert (El' : last (escapeRunes (r :: rs)) = Some r').
  { apply last_Some in El as [l ->]. rewrite escapeRunes_app. apply last_Some.
    simpl. destruct (_ || _); simpl; [exists (escapeRunes l ++ [backslash]); by rewrite <- app_assoc|eauto]. }
  rewrite El', E. simpl. auto.
Qed.

Lemma splitLoop_balanced rs rest current :
  balanced rs → splitLoop (chunks rs ++ rest) current false = splitLoop rest (current +:+ encode rs) false.
Proof.
  intros Hb. revert current. induction Hb as [|r rs H1 H2 _ IH|r rs _ IH]; intros current.
  - by rewrite string_app_nil_r.
  - apply N.eqb_neq in H1, H2. simpl. rewrite H1, H2, IH, encode_cons. by rewrite string_app_assoc.
  - simpl. rewrite IH, !encode_cons, !string_app_assoc. done.
Qed.

(** *** One component *)

Definition keyRunes (key : string) : list rune := runes key.

(** A supported key is upper case ASCII: it decodes to its own bytes, is not
    changed by trimming or upper casing, and holds no special character. *)
Lemma supportedKey key :
  key ∈ supportedKeys →
  encode (runes key) = key ∧ balanced (runes key) ∧ free_of "=" key ∧ ToUpper (TrimSpace key) = key ∧
  (∃ r rs, runes key = r :: rs ∧ IsSpace r = false).
Proof.
  intros Hk. unfold supportedKeys in Hk. rewrite !elem_of_cons, elem_of_nil in Hk.
  destruct_or? Hk; subst; (split_and!; [reflexivity|repeat constructor; done|repeat constructor; done|reflexivity|]);
    try done; simpl; eauto.
Qed.

Definition componentRunes (attribute : string * list rune) : list rune :=
  runes attribute.1 ++ [61%N] ++ escapeRunes attribute.2.

Lemma formatComponent_runes attribute :
  attribute.1 ∈ supportedKeys → formatComponent attribute = encode (componentRunes attribute).
Proof.
  intros Hk. unfold formatComponent, componentRunes. rewrite !encode_app.
  by rewrite (proj1 (supportedKey _ Hk)).
Qed.

Lemma componentRunes_ok attribute :
  wellFormed attribute →
  Forall (λ r, valid_rune r = true) (componentRunes attribute) ∧ balanced (componentRunes attribute) ∧
  noSpaceEnds (componentRunes attribute).
Proof.
  intros (Hk & Hv & Hn). destruct (supportedKey _ Hk) as (_ & Hb & _ & _ & r & rs & Hr & Hs).
  unfold componentRunes. split_and!.
  - rewrite !Forall_app. split_and!; [apply runes_valid|by repeat constructor|by apply escapeRunes_valid].
  - apply balanced_app; [done|]. by constructor; [..|apply escapeRunes_balanced].
  - apply escapeRunes_ends in Hn. unfold noSpaceEnds in *. rewrite Hr. simpl head.
    change ((r :: rs) ++ [61%N] ++ escapeRunes attribute.2) with (r :: (rs ++ 61%N :: escapeRunes attribute.2)).
    destruct (head (escapeRunes attribute.2)), (last (escapeRunes attribute.2)) as [l|] eqn:El; [|done..].
    apply last_Some in El as [l' ->].
    replace (last (r :: rs ++ 61%N :: l' ++ [l])) with (Some l); [naive_solver|].
    symmetry. apply last_Some. exists (r :: rs ++ 61%N :: l'). simpl. by rewrite <- app_assoc.
Qed.

Lemma unescapeLoop_escape rs : unescapeLoop (escapeRunes rs) false = Ok (encode rs).
Proof.
  induction rs as [|r rs IH]; simpl; [done|].
  destruct (N.eqb_spec r comma) as [->|Hc]; simpl; [by rewrite IH|].
  destruct (N.eqb_spec r backslash) as [->|Hb]; simpl; [by rewrite IH|].
  destruct (N.eqb_spec r backslash); [done|]. by rewrite IH.
Qed.

Lemma encode_not_empty rs : noSpaceEnds rs → encode rs ≠ ""%string.
Proof.
  unfold noSpaceEnds. destruct rs as [|r rs]; [done|]. intros _. rewrite encode_cons. unfold encode_rune.
  by repeat case_match.
Qed.

Lemma addComponents_format name attributes :
  Forall wellFormed attributes → addComponents name (map formatComponent attributes) = denoteDN name attributes.
Proof.
  intros Hall. revert name. induction Hall as [|[key value] attributes (Hk & Hv & Hn) _ IH]; intros name; [done|].
  destruct (supportedKey _ Hk) as (_ & _ & Hf & Hu & _). simpl in Hk, Hf, Hu.
  cbn [map addComponents denoteDN]. unfold formatComponent. simpl fst. simpl snd.
  change ("=" +:+ encode (escapeRunes value)) with (String "=" (encode (escapeRunes value))).
  rewrite (Cut_first "=" key) by done. unfold unescapeDNValue.
  rewrite TrimSpace_encode by auto using escapeRunes_valid, escapeRunes_ends.
  rewrite runes_encode, unescapeLoop_escape by auto using escapeRunes_valid. cbn [mbind outcome_bind].
  rewrite bool_decide_eq_false_2 by auto using encode_not_empty. rewrite Hu.
  unfold mbind, outcome_bind. destruct (addNameAttribute name key (encode value)); auto.
Qed.

(** *** The whole name *)

Fixpoint joinRunes (components : list (list rune)) : list rune :=
  match components with
  | [] => []
  | [c] => c
  | c :: rest => c ++ comma :: joinRunes rest
  end.

Lemma join_encode components : strings_Join (map encode components) "," = encode (joinRunes components).
Proof.
  induction components as [|c [|c' rest] IH]; [done|done|].
  change (encode c +:+ "," +:+ strings_Join (map encode (c' :: rest)) "," = encode (c ++ [comma] ++ joinRunes (c' :: rest))).
  by rewrite IH, !encode_app.
Qed.

Definition component_ok (c : list rune) : Prop :=
  Forall (λ r, valid_rune r = true) c ∧ balanced c ∧ noSpaceEnds c.

Lemma splitLoop_join components :
  components ≠ [] → Forall component_ok components →
  splitLoop (chunks (joinRunes components)) "" false = Ok (map encode components).
Proof.
  intros Hne Hall. induction Hall as [|c rest (Hv & Hb & Hn) Hall IH]; [done|]. destruct rest as [|c' rest].
  - simpl joinRunes. rewrite <- (app_nil_r (chunks c)), splitLoop_balanced by done. simpl. by rewrite TrimSpace_encode.
  - change (joinRunes (c :: c' :: rest)) with (c ++ comma :: joinRunes (c' :: rest)).
    unfold chunks in *. rewrite map_app. fold (chunks c). rewrite splitLoop_balanced by done. cbn [map].
    cbn [splitLoop]. simpl. change (foldr String.append "" (map encode_rune c)) with (encode c).
    simpl in IH. rewrite IH by done. simpl. by rewrite TrimSpace_encode.
Qed.

Lemma joinRunes_valid components :
  Forall component_ok components → Forall (λ r, valid_rune r = true) (joinRunes components).
Proof.
  induction 1 as [|c [|c' rest] (Hv & _) Hall IH]; [constructor|done|].
  apply Forall_app. split; [done|]. by constructor.
Qed.

Lemma joinRunes_head c rest r : head c = Some r → head (joinRunes (c :: rest)) = Some r.
Proof. destruct c; [done|]. by destruct rest. Qed.

Lemma joinRunes_last components :
  components ≠ [] → Forall component_ok components →
  ∃ r, last (joinRunes components) = Some r ∧ IsSpace r = false.
Proof.
  intros Hne Hall. induction Hall as [|c [|c' rest] (Hv & _ & Hn) Hall IH]; [done| |].
  - unfold noSpaceEnds in Hn. simpl. destruct (head c), (last c); naive_solver.
  - destruct IH as (r & Hr & Hs); [done|]. exists r. split; [|done].
    change (last (c ++ comma :: joinRunes (c' :: rest)) = Some r).
    apply last_Some in Hr as [l ->]. apply last_Some. exists (c ++ comma :: l). by rewrite <- app_assoc.
Qed.

Lemma splitDN_join components :
  components ≠ [] → Forall component_ok components →
  splitDN (encode (joinRunes components)) = Ok (map encode components).
Proof.
  intros Hne Hall. assert (Hends : noSpaceEnds (joinRunes components)).
  { destruct (joinRunes_last components Hne Hall) as (r & Hr & Hs). destruct Hall as [|c rest (_ & _ & Hn) Hall]; [done|].
    unfold noSpaceEnds in Hn |- *. destruct (head c) as [h|] eqn:Hh; [|done].
    rewrite (joinRunes_head c rest h Hh), Hr. destruct (last c); naive_solver. }
  pose proof (joinRunes_valid _ Hall) as Hv.
  unfold splitDN. rewrite TrimSpace_encode, bool_decide_eq_false_2 by auto using encode_not_empty.
  rewrite decode_chunks, splitLoop_join by done. simpl. rewrite bool_decide_eq_false_2; [done|].
  intros (c & Hc & Hin)%list_elem_of_fmap. rewrite Forall_forall in Hall.
  destruct (Hall c Hin) as (_ & _ & Hn). by apply encode_not_empty in Hn.
Qed.

(** C36: Printing a non-empty list of supported attributes as "KEY=value,..." with commas and backslashes escaped
    and parsing the text gives back the name the attributes denote, for every value of valid runes without a
    space at either end. *)
Theorem ParseDistinguishedName_formatDN attributes :
  attributes ≠ [] → Forall wellFormed attributes →
  ParseDistinguishedName (formatDN attributes) = denoteDN Name_zero attributes ∧
  is_ok (denoteDN Name_zero attributes) = true.
Proof.
  intros Hne Hall. split.
  - unfold ParseDistinguishedName, formatDN.
    assert (E : map formatComponent attributes = map encode (map componentRunes attributes)).
    { rewrite map_map. apply map_ext_Forall. eapply Forall_impl; [exact Hall|].
      intros a (Hk & _). by apply formatComponent_runes. }
    rewrite E, join_encode, splitDN_join, <- E.
    + simpl. by apply addComponents_format.
    + by destruct attributes.
    + apply Forall_map. eapply Forall_impl; [exact Hall|]. intros a. apply componentRunes_ok.
  - generalize Name_zero as name. induction Hall as [|[key value] rest (Hk & _) _ IH]; intros name; [done|].
    simpl in *. assert (∃ name', addNameAttribute name key (encode value) = Ok name') as [name' ->].
    { unfold supportedKeys in Hk. rewrite !elem_of_cons, elem_of_nil in Hk.
      destruct name. destruct_or? Hk; subst; simpl; eauto. }
    simpl. destruct rest; [done|]. by apply IH.
Qed.
End names.

#[local] Existing Instance Demo.demoTables.

Lemma ParseDistinguishedName_formatDN_witness :
  let attributes := [("CN"%string, [97; 44; 98]%N); ("O"%string, [233]%N)] in
  ParseDistinguishedName (formatDN attributes) = denoteDN Name_zero attributes ∧
  is_ok (denoteDN Name_zero attributes) = true.
Proof.
  intros attributes. apply (ParseDistinguishedName_formatDN attributes); [done|].
  repeat constructor; simpl; set_solver.
Defined.

(** An escaped space at the end of a component is trimmed before the escape is
    decoded, so the parser refuses the name. *)
Example escaped_trailing_space :
  ParseDistinguishedName "CN=a\ " = Err (Errorf "distinguished name value ends with an escape").
Proof. vm_compute. reflexivity. Qed.
End Names.
