(* ===== verification/Certificates.v ===== *)
(** * Certificates: internal/protocol/certificate.go and the certificate, CSR
    and key handling of internal/protocol/parse.go, kur.go and client.go *)

From S2P Require Import Prelude GoString Types Demo.

Module Certificates.

Definition oidKeyUsage : OID := [2; 5; 29; 15]%N.
Definition oidSubjectAltName : OID := [2; 5; 29; 17]%N.

Definition KeyUsageDigitalSignature : N := 1.
Definition KeyUsageContentCommitment : N := 2.
Definition KeyUsageCertSign : N := 32.
Definition KeyUsageCRLSign : N := 64.

(** certificateHasExtension reports whether a certificate explicitly carries
    one extension. *)
Fixpoint hasExtension (extensions : list Extension) (oid : OID) : bool :=
  match extensions with
  | [] => false
  | extension :: rest =>
      if bool_decide (ext_Id extension = oid) then true else hasExtension rest oid
  end.
Definition certificateHasExtension (certificate : Certificate) (oid : OID) : bool :=
  hasExtension (Extensions certificate) oid.

Definition isMLDSA (key : PublicKey) : bool :=
  match key with MLDSAPublicKey _ => true | _ => false end.

Definition allowedMLDSAUsage : N :=
  N.lor (N.lor (N.lor KeyUsageDigitalSignature KeyUsageContentCommitment) KeyUsageCertSign) KeyUsageCRLSign.

(** ValidateMLDSAKeyUsage enforces RFC 9881 section 5 for an ML-DSA subject
    public key. *)
Definition ValidateMLDSAKeyUsage (certificate : option Certificate) : outcome error unit :=
  match certificate with
  | None => Err (Errorf "certificate is required")
  | Some certificate =>
      if negb (isMLDSA (cert_PublicKey certificate)) || negb (certificateHasExtension certificate oidKeyUsage)
      then Ok tt
      else if bool_decide (KeyUsage certificate = 0%N)
      then Err (Errorf "ML-DSA keyUsage extension must contain a signature usage")
      else if negb (bool_decide (N.ldiff (KeyUsage certificate) allowedMLDSAUsage = 0%N))
      then Err (Errorf "ML-DSA keyUsage extension must not contain encipherment or key agreement usages")
      else Ok tt
  end.

#[global] Arguments ValidateMLDSAKeyUsage : simpl never.

Section certificates.
Context `{Libs}.

(** PublicKeysEqual compares public keys through their canonical
    SubjectPublicKeyInfo encodings. *)
Definition PublicKeysEqual (first second : PublicKey) : bool :=
  match MarshalPKIXPublicKey first, MarshalPKIXPublicKey second with
  | inr firstDER, inr secondDER => bool_decide (firstDER = secondDER)
  | _, _ => false
  end.

(** ValidateSignerCertificate verifies the key pair and the certificate's
    ML-DSA usage constraints. *)
Definition ValidateSignerCertificate (signer : option Signer) (certificate : option Certificate) : outcome error unit :=
  match signer, certificate with
  | Some signer, Some cert =>
      if negb (PublicKeysEqual (Public signer) (cert_PublicKey cert))
      then Err (Errorf "private key does not match certificate public key")
      else ValidateMLDSAKeyUsage certificate
  | _, _ => Err (Errorf "signer and certificate are required")
  end.

(** The inner loop of verifyCertificateChain: the first usage error. *)
Fixpoint chainUsage (chain : list Certificate) : outcome error unit :=
  match chain with
  | [] => Ok tt
  | certificate :: rest => _ ← ValidateMLDSAKeyUsage (Some certificate); chainUsage rest
  end.

(** The outer loop of verifyCertificateChain, with the usage error of the
    chains tried so far. *)
Fixpoint selectChain (chains : list (list Certificate)) (usageErr : option error) : outcome error (list Certificate) :=
  match chains with
  | [] => Err (default (Errorf "certificate verification returned no chain") usageErr)
  | chain :: rest =>
      match chainUsage chain with
      | Ok _ => Ok chain
      | Err e => selectChain rest (Some e)
      | Panic => Panic
      end
  end.

(** verifyCertificateChain selects a trusted chain whose ML-DSA keys satisfy
    RFC 9881. *)
Definition verifyCertificateChain (now : Time) (certificate : Certificate) (roots : option CertPool) (intermediates : CertPool) : outcome error (list Certificate) :=
  match x509_Verify now certificate roots intermediates with
  | inl err => Err err
  | inr chains => selectChain chains None
  end.

(** The intermediates of validateAndOrderChain: every candidate but the leaf. *)
Definition chainIntermediates (leaf : Certificate) (candidates : list Certificate) : CertPool :=
  foldl (λ pool candidate,
    if bool_decide (Raw candidate = Raw leaf) then pool else AddCert pool candidate) [] candidates.

(** A self-signed certificate, which ends the chain that is returned. *)
Definition selfSigned (certificate : Certificate) : bool :=
  bool_decide (RawSubject certificate = RawIssuer certificate) &&
  bool_decide (CheckSignatureFrom certificate certificate = None).

(** The ordering loop of validateAndOrderChain. *)
Fixpoint untilSelfSigned (chain : list Certificate) : list Certificate :=
  match chain with
  | [] => []
  | certificate :: rest =>
      if selfSigned certificate then [] else certificate :: untilSelfSigned rest
  end.

(** validateAndOrderChain verifies trust and returns the leaf followed by
    non-root intermediates. *)
Definition validateAndOrderChain (now : Time) (leaf : Certificate) (candidates : list Certificate) (roots : option CertPool) : outcome error (list Certificate) :=
  verifiedChain ← verifyCertificateChain now leaf roots (chainIntermediates leaf candidates);
  Ok (leaf :: untilSelfSigned (drop 1 verifiedChain)).

(** ValidateIssuedChain checks that a leaf-first chain terminates at one of
    the roots. A chain element is a pointer that may be nil. *)
Definition ValidateIssuedChain (now : Time) (chain : list Certificate) (candidates : list Certificate) (roots : option CertPool) : outcome error (list Certificate) :=
  match chain with
  | [] => Err (Errorf "certificate chain is empty")
  | leaf :: rest =>
      match roots with
      | None => Err (Errorf "CMP trust anchors are absent")
      | Some _ => validateAndOrderChain now leaf (rest ++ candidates) roots
      end
  end.

(** The PEM loop of ParseCertificates: the certificates found and the data
    left.  [fuel] bounds the number of blocks; see [pemLoop_fuel]. *)
Fixpoint pemLoop (fuel : nat) (remaining : bytes) (certificates : list Certificate) : outcome error (list Certificate * bytes) :=
  match fuel with
  | 0 => Panic
  | S fuel =>
      match pem_Decode remaining with
      | None => Ok (certificates, remaining)
      | Some (block, rest) =>
          if negb (bool_decide (pem_Type block = "CERTIFICATE"))
          then pemLoop fuel rest certificates
          else match ParseCertificate (pem_Bytes block) with
               | inl err => Err (Wrapped "parse PEM certificate" err)
               | inr certificate => pemLoop fuel rest (certificates ++ [certificate])
               end
      end
  end.

(** ParseCertificates parses one DER certificate or one or more PEM
    certificates. *)
Definition ParseCertificates (data : bytes) : outcome error (list Certificate) :=
  '(certificates, remaining) ← pemLoop (S (String.length data)) data [];
  if bool_decide (0 < length certificates)
  then if negb (bool_decide (TrimSpace remaining = ""))
       then Err (Errorf "certificate bundle contains trailing non-PEM data")
       else Ok certificates
  else match ParseCertificate data with
       | inl err => Err (Wrapped "parse DER certificate" err)
       | inr certificate => Ok [certificate]
       end.

(** ParseCertificateRequestDER accepts one PEM or DER CSR and returns its
    unchanged DER encoding. *)
Definition ParseCertificateRequestDER (data : bytes) : outcome error bytes :=
  requestDER ← match pem_Decode data with
    | Some (block, rest) =>
        if negb (bool_decide (pem_Type block = "CERTIFICATE REQUEST")) &&
           negb (bool_decide (pem_Type block = "NEW CERTIFICATE REQUEST"))
        then Err (Errorf "PEM block is not a certificate request")
        else if negb (bool_decide (TrimSpace rest = ""))
        then Err (Errorf "certificate request contains trailing data")
        else Ok (pem_Bytes block)
    | None => Ok data
    end;
  match ParseCertificateRequest requestDER with
  | inl err => Err (Wrapped "parse certificate request" err)
  | inr request =>
      match CheckSignature request with
      | Some err => Err (Wrapped "verify certificate request signature" err)
      | None => Ok (csr_Raw request)
      end
  end.

(** The parsers ParseSigner tries, in order: PKCS #8, PKCS #1 and SEC 1. *)
Definition signerParsers : list (bytes → error + option Signer) :=
  [ParsePKCS8PrivateKey;
   λ value, match ParsePKCS1PrivateKey value with inl e => inl e | inr s => inr (Some s) end;
   λ value, match ParseECPrivateKey value with inl e => inl e | inr s => inr (Some s) end].

Fixpoint trySignerParsers (parsers : list (bytes → error + option Signer)) (keyDER : bytes) : outcome error Signer :=
  match parsers with
  | [] => Err (Errorf "parse private key")
  | parser :: rest =>
      match parser keyDER with
      | inl _ => trySignerParsers rest keyDER
      | inr None => Err (Errorf "private key type does not implement crypto.Signer")
      | inr (Some signer) => Ok signer
      end
  end.

(** ParseSigner parses an unencrypted PEM or DER PKCS #1, SEC 1 or PKCS #8
    private key. *)
Definition ParseSigner (data : bytes) : outcome error Signer :=
  keyDER ← match pem_Decode data with
    | Some (block, rest) =>
        if negb (bool_decide (TrimSpace rest = "")) then Err (Errorf "private key contains trailing data")
        else Ok (pem_Bytes block)
    | None => Ok data
    end;
  trySignerParsers signerParsers keyDER.

(** ** What the checks accept *)

(** The keyUsage of an ML-DSA certificate is absent, or holds only signature
    usages and at least one. *)
Definition mldsaUsageOK (c : Certificate) : Prop :=
  isMLDSA (cert_PublicKey c) = true → certificateHasExtension c oidKeyUsage = true →
  KeyUsage c ≠ 0%N ∧ N.ldiff (KeyUsage c) allowedMLDSAUsage = 0%N.

Lemma ValidateMLDSAKeyUsage_ok c : ValidateMLDSAKeyUsage (Some c) = Ok tt ↔ mldsaUsageOK c.
Proof.
  unfold ValidateMLDSAKeyUsage, mldsaUsageOK.
  destruct (isMLDSA _), (certificateHasExtension _ _); simpl; try by split.
  repeat case_bool_decide; simpl; split; intros Hx; try done; destruct (Hx eq_refl eq_refl); done.
Qed.

Lemma ValidateMLDSAKeyUsage_total c : ValidateMLDSAKeyUsage c ≠ Panic.
Proof. unfold ValidateMLDSAKeyUsage. go_cases; done. Qed.

Lemma chainUsage_ok chain : chainUsage chain = Ok tt ↔ Forall mldsaUsageOK chain.
Proof.
  induction chain as [|c chain IH]; simpl; [by split|].
  rewrite Forall_cons, <- IH, <- ValidateMLDSAKeyUsage_ok.
  unfold mbind, outcome_bind. destruct (ValidateMLDSAKeyUsage (Some c)) as [[]|e|].
  - split; [intros Hx; split; done|by intros [_ ?]].
  - split; [done|by intros [? _]].
  - split; [done|by intros [? _]].
Qed.

Lemma chainUsage_total chain : chainUsage chain ≠ Panic.
Proof.
  induction chain as [|c chain IH]; simpl; [done|]. unfold mbind, outcome_bind.
  destruct (ValidateMLDSAKeyUsage (Some c)) eqn:E; [done|done|by destruct (ValidateMLDSAKeyUsage_total (Some c))].
Qed.

Lemma selectChain_ok chains usageErr chain :
  selectChain chains usageErr = Ok chain ↔
  ∃ before after, chains = before ++ chain :: after ∧
    Forall (λ c, ¬ Forall mldsaUsageOK c) before ∧ Forall mldsaUsageOK chain.
Proof.
  revert usageErr. induction chains as [|c chains IH]; intros usageErr; simpl.
  { split; [done|]. intros ([|] & ? & ? & _); done. }
  destruct (chainUsage c) as [[]|e|] eqn:E.
  - apply chainUsage_ok in E. split.
    + intros [= ->]. exists [], chains. by split_and!.
    + intros ([|b before] & after & Heq & Hb & Hc); simplify_eq/=; [done|]. by inversion Hb.
  - assert (¬ Forall mldsaUsageOK c) as Hn by (rewrite <- chainUsage_ok, E; done).
    rewrite IH. split.
    + intros (before & after & -> & Hb & Hc). exists (c :: before), after. split_and!; [done| |done]. by constructor.
    + intros ([|b before] & after & Heq & Hb & Hc); simplify_eq/=; [done|].
      exists before, after. split_and!; [done| |done]. by inversion Hb.
  - by destruct (chainUsage_total c).
Qed.

Lemma selectChain_total chains usageErr : selectChain chains usageErr ≠ Panic.
Proof.
  revert usageErr. induction chains as [|c chains IH]; intros usageErr; simpl; [done|].
  destruct (chainUsage c) eqn:E; [done|done|by destruct (chainUsage_total c)].
Qed.

Lemma verifyCertificateChain_total now c roots ints : verifyCertificateChain now c roots ints ≠ Panic.
Proof. unfold verifyCertificateChain. destruct (x509_Verify _ _ _ _); [done|]. apply selectChain_total. Qed.

(** verifyCertificateChain returns exactly the first chain X.509 verification offers whose every
    ML-DSA certificate satisfies RFC 9881; chains before it contain a violation. *)
Theorem verifyCertificateChain_first_acceptable now c roots ints chain :
  verifyCertificateChain now c roots ints = Ok chain ↔
  ∃ before after, x509_Verify now c roots ints = inr (before ++ chain :: after) ∧
    Forall (λ ch, ¬ Forall mldsaUsageOK ch) before ∧ Forall mldsaUsageOK chain.
Proof.
  unfold verifyCertificateChain. destruct (x509_Verify now c roots ints) as [e|chains].
  - split; [done|]. by intros (?&?&?&_).
  - rewrite selectChain_ok. naive_solver.
Qed.

Lemma untilSelfSigned_spec chain :
  ∃ rest, chain = untilSelfSigned chain ++ rest ∧
    Forall (λ c, selfSigned c = false) (untilSelfSigned chain) ∧
    (rest = [] ∨ ∃ r rest', rest = r :: rest' ∧ selfSigned r = true).
Proof.
  induction chain as [|c chain (rest & IH1 & IH2 & IH3)]; simpl.
  - exists []. by repeat split; auto.
  - destruct (selfSigned c) eqn:E.
    + exists (c :: chain). repeat split; [constructor|]. right. eauto.
    + exists rest. simpl. rewrite <- IH1. repeat split; [|done]. by constructor.
Qed.

(** C34: validateAndOrderChain returns the leaf it was given first, followed by the longest run of
    certificates after the head of the verified chain that are not self-signed, so a root is never
    part of the chain handed to cert-manager. *)
Theorem validateAndOrderChain_leaf_first now leaf candidates roots chain :
  validateAndOrderChain now leaf candidates roots = Ok chain →
  ∃ verified tail rest,
    verifyCertificateChain now leaf roots (chainIntermediates leaf candidates) = Ok verified ∧
    chain = leaf :: tail ∧ drop 1 verified = tail ++ rest ∧
    Forall (λ c, selfSigned c = false) tail ∧
    (rest = [] ∨ ∃ r rest', rest = r :: rest' ∧ selfSigned r = true).
Proof.
  unfold validateAndOrderChain. intros Hc. outcome_inv Hc.
  destruct (untilSelfSigned_spec (drop 1 a)) as (rest & H1 & H2 & H3). eauto 10.
Qed.

Lemma validateAndOrderChain_total now leaf candidates roots :
  validateAndOrderChain now leaf candidates roots ≠ Panic.
Proof.
  unfold validateAndOrderChain, mbind, outcome_bind.
  destruct (verifyCertificateChain _ _ _ _) eqn:E; [done|done|].
  by destruct (verifyCertificateChain_total now leaf roots (chainIntermediates leaf candidates)).
Qed.

Lemma PublicKeysEqual_spec k1 k2 :
  PublicKeysEqual k1 k2 = true ↔ ∃ der, MarshalPKIXPublicKey k1 = inr der ∧ MarshalPKIXPublicKey k2 = inr der.
Proof.
  unfold PublicKeysEqual. destruct (MarshalPKIXPublicKey k1), (MarshalPKIXPublicKey k2);
    rewrite ?bool_decide_eq_true; naive_solver.
Qed.

Lemma PublicKeysEqual_sym k1 k2 : PublicKeysEqual k1 k2 = PublicKeysEqual k2 k1.
Proof.
  apply eq_bool_prop_intro. split; intros Hk%Is_true_true; apply Is_true_true;
    apply PublicKeysEqual_spec in Hk as (d & ? & ?); apply PublicKeysEqual_spec; eauto.
Qed.

(** ** Termination of the PEM loop *)

(** The documented behaviour of [pem.Decode]: the remainder is what follows
    the block it consumed. *)
Definition pem_consumes : Prop :=
  ∀ data block rest, pem_Decode data = Some (block, rest) → String.length rest < String.length data.

Lemma pemLoop_total (Hpem : pem_consumes) fuel data acc :
  String.length data < fuel → pemLoop fuel data acc ≠ Panic.
Proof.
  revert data acc. induction fuel as [|fuel IH]; intros data acc Hlen; simpl; [lia|].
  destruct (pem_Decode data) as [[block rest]|] eqn:E; [|done].
  apply Hpem in E. destruct (negb _); [apply IH; lia|].
  destruct (ParseCertificate _); [done|]. apply IH; lia.
Qed.

(** C37: ParseCertificates always returns: a parse error or a non-empty list of certificates. It relies
    on pem.Decode consuming the block it returns. *)
Theorem ParseCertificates_terminates (Hpem : pem_consumes) data :
  (∃ err, ParseCertificates data = Err err) ∨
  (∃ certificates, ParseCertificates data = Ok certificates ∧ certificates ≠ []).
Proof.
  unfold ParseCertificates, mbind, outcome_bind.
  destruct (pemLoop (S (String.length data)) data []) as [[cs rem]|e|] eqn:E; [|eauto|].
  - destruct cs as [|c cs]; simpl.
    + destruct (ParseCertificate data) as [err|c]; [by left; eexists|]. right. by exists [c].
    + destruct (negb _); [by left; eexists|]. right. by exists (c :: cs).
  - exfalso. eapply pemLoop_total; [done| |done]. lia.
Qed.
End certificates.

#[local] Existing Instance Demo.demoLibs.

(** [Demo] has a PEM decoder that consumes its block, and certificates that
    verify. *)
Lemma demo_pem_consumes : @pem_consumes Demo.demoLibs.
Proof.
  intros data block rest. simpl. destruct data as [|b [|b' data]]; try done.
  - by destruct b as [[] [] [] [] [] [] [] []].
  - destruct b as [[] [] [] [] [] [] [] []]; simpl; intros [= <- <-]; lia.
Qed.

Lemma ParseCertificates_terminates_witness :
  ParseCertificates "PLPR" = Ok [Demo.leaf; Demo.root] ∧
  ((∃ err, ParseCertificates "PLPR" = Err err) ∨
   (∃ certificates, ParseCertificates "PLPR" = Ok certificates ∧ certificates ≠ [])).
Proof. split; [vm_compute; reflexivity|]. apply (ParseCertificates_terminates demo_pem_consumes "PLPR"). Defined.

Lemma validateAndOrderChain_leaf_first_witness :
  ∃ verified tail rest,
    verifyCertificateChain 50 Demo.leaf (Some [Demo.root]) (chainIntermediates Demo.leaf [Demo.root]) = Ok verified ∧
    [Demo.leaf] = Demo.leaf :: tail ∧ drop 1 verified = tail ++ rest ∧
    Forall (λ c, selfSigned c = false) tail ∧
    (rest = [] ∨ ∃ r rest', rest = r :: rest' ∧ selfSigned r = true).
Proof.
  apply (validateAndOrderChain_leaf_first 50 Demo.leaf [Demo.root] (Some [Demo.root]) [Demo.leaf]).
  vm_compute. reflexivity.
Defined.
End Certificates.
