(* ===== verification/Request.v ===== *)
(** * Request validation: the checks internal/protocol makes before any message
    is sent (client.go, ir.go and kur.go) *)

From S2P Require Import Prelude GoString Types Demo Certificates.
Import Certificates.

Module Request.

Definition minPBMIterationCount : Z := 100.
Definition maxPBMIterationCount : Z := 1048575.

(** The hash loop of pbmAlgorithms. *)
Fixpoint supportedHashes (hashes : list Hash) : outcome error unit :=
  match hashes with
  | [] => Ok tt
  | hash :: rest =>
      if negb (bool_decide (hash = SHA256)) && negb (bool_decide (hash = SHA384)) && negb (bool_decide (hash = SHA512))
      then Err (Errorf "PasswordBasedMac requires SHA-256, SHA-384 or SHA-512")
      else supportedHashes rest
  end.

(** pbmAlgorithms applies SHA-256 defaults and rejects unsupported PBM hash
    combinations. *)
Definition pbmAlgorithms (password : PasswordProtection) : outcome error (Hash * Hash) :=
  let owf := if bool_decide (OWF password = HashZero) then SHA256 else OWF password in
  let mac := if bool_decide (MAC password = HashZero) then SHA256 else MAC password in
  _ ← supportedHashes [owf; mac];
  macSize ← Hash_Size mac;
  owfSize ← Hash_Size owf;
  if bool_decide (owfSize < macSize)
  then Err (Errorf "PasswordBasedMac MAC digest must not be longer than the OWF output")
  else Ok (owf, mac).

(** validateSignatureDigest accepts the digests an issuer may pin. *)
Definition validateSignatureDigest (digest : Hash) : outcome error unit :=
  match digest with
  | HashZero | SHA256 | SHA384 | SHA512 => Ok tt
  | HashOther _ => Err (Errorf "signature digest must be SHA-256, SHA-384 or SHA-512")
  end.

(** attributeSet renders every attribute of a distinguished name as a sorted,
    order-independent key list. *)
Definition renderValue (value : AttributeValue) : string :=
  match value with StringValue s => s | OtherValue r => r end.
Definition OID_String (oid : OID) : string := strings_Join (map pretty oid) ".".
Definition renderAttribute (attribute : AttributeTypeAndValue) : string :=
  OID_String (atv_Type attribute) +:+ "=" +:+ renderValue (atv_Value attribute).
Definition attributeSet (sequence : RDNSequence) : list string :=
  sort_strings (map renderAttribute (concat sequence)).

Section request.
Context `{Libs}.

(** signatureDigestFor returns the digest a signature by key uses. *)
Definition signatureDigestFor (key : Signer) (digest : Hash) : Hash :=
  match Public key with
  | RSAPublicKey _ | ECDSAPublicKey _ => digest
  | _ => HashZero
  end.

(** credentialsFor builds CMP credentials from the configured protection
    method. *)
Definition credentialsFor (request : EnrollmentRequest) : outcome error Credentials :=
  let protection := er_Protection request in
  match Password protection with
  | Some password =>
      '(owf, mac) ← pbmAlgorithms password;
      match NewMACCredentials (Secret password) owf mac (IterationCount password)
              minPBMIterationCount maxPBMIterationCount with
      | inl err => Err err
      | inr credentials => Ok credentials
      end
  | None =>
      signature ← deref (Signature protection);
      key ← deref (PrivateKey signature);
      certificate ← deref (sp_Certificate signature);
      match NewSignatureCredentials key certificate (sp_Chain signature) with
      | inl err => Err err
      | inr credentials =>
          let digest := signatureDigestFor key (SignatureDigest request) in
          if bool_decide (digest = HashZero) then Ok credentials
          else match WithHash credentials digest with
               | inl err => Err err
               | inr credentials => Ok credentials
               end
      end
  end.

(** validateEnrollmentRequest rejects unsupported or unsafe transaction
    configurations. *)
Definition validateEnrollmentRequest (request : EnrollmentRequest) : outcome error unit :=
  let operation := if bool_decide (er_Operation request = "") then OperationP10CR else er_Operation request in
  _ ← reject_if (negb (bool_decide (operation = OperationP10CR)) && negb (bool_decide (operation = OperationIR))
                 && negb (bool_decide (operation = OperationKUR)))
        (permanent "validate operation" "badRequest" (Errorf "unsupported enrollment operation"));
  _ ← match url_Parse (EndpointURL request) with
      | inl _ => Err (permanent "validate endpoint" "badRequest" (Errorf "endpoint must be a complete HTTP or HTTPS URL"))
      | inr parsedURL =>
          reject_if (bool_decide (Host parsedURL = "") ||
                     (negb (bool_decide (Scheme parsedURL = "http")) && negb (bool_decide (Scheme parsedURL = "https"))))
            (permanent "validate endpoint" "badRequest" (Errorf "endpoint must be a complete HTTP or HTTPS URL"))
      end;
  _ ← mapErr (permanent "validate signature digest" "badAlg") (validateSignatureDigest (SignatureDigest request));
  _ ← reject_if ((er_Timeout request <=? 0)%Z || (MaxResponseSize request <=? 0)%Z)
        (permanent "validate transport limits" "badRequest" (Errorf "positive timeout and response size are required"));
  _ ← reject_if (bool_decide (CSRDER request = "") || negb (bool_decide (is_Some (CMPTrust request))))
        (permanent "validate request" "badRequest" (Errorf "CSR and CMP trust are required"));
  let protection := er_Protection request in
  _ ← reject_if (bool_decide (bool_decide (is_Some (Password protection)) = bool_decide (is_Some (Signature protection))))
        (permanent "validate protection" "badRequest" (Errorf "exactly one protection mode is required"));
  _ ← match Password protection with
      | None => Ok tt
      | Some password =>
          _ ← reject_if (bool_decide (Reference password = "") || bool_decide (Secret password = ""))
                (permanent "validate PasswordBasedMac" "badRequest" (Errorf "reference and shared secret are required"));
          _ ← reject_if ((IterationCount password <? minPBMIterationCount)%Z || (maxPBMIterationCount <? IterationCount password)%Z)
                (permanent "validate PasswordBasedMac" "badRequest" (Errorf "iteration count is outside supported bounds"));
          _ ← mapErr (permanent "validate PasswordBasedMac" "badRequest") (pbmAlgorithms password);
          Ok tt
      end;
  match Signature protection with
  | None => Ok tt
  | Some signature =>
      mapErr (permanent "validate signature credentials" "badRequest")
        (ValidateSignerCertificate (PrivateKey signature) (sp_Certificate signature))
  end.

(** rawAttributeSet parses and sorts a distinguished name into its exact
    attribute entries. *)
Definition rawAttributeSet (raw : bytes) : outcome error (list string) :=
  match UnmarshalRDNSequence raw with
  | inr (sequence, ""%string) => Ok (attributeSet sequence)
  | _ => Err (Errorf "parse distinguished name")
  end.

(** generalNameSet returns sorted DER encodings of every subject alternative
    name entry. *)
Fixpoint generalNameSet (extensions : list Extension) : outcome error (list string) :=
  match extensions with
  | [] => Ok []
  | extension :: rest =>
      if negb (bool_decide (ext_Id extension = oidSubjectAltName)) then generalNameSet rest
      else match UnmarshalRawValues (ext_Value extension) with
           | inr (names, ""%string) => Ok (sort_strings (map hex_EncodeToString names))
           | _ => Err (Errorf "parse subject alternative names")
           end
  end.

(** sameKURIdentity compares subject attributes and every encoded GeneralName
    without depending on ordering. *)
Definition sameKURIdentity (certificate : Certificate) (csr : CertificateRequest) : bool :=
  match rawAttributeSet (RawSubject certificate), rawAttributeSet (csr_RawSubject csr) with
  | Ok certificateSubject, Ok requestSubject =>
      if negb (bool_decide (certificateSubject = requestSubject)) then false
      else match generalNameSet (Extensions certificate), generalNameSet (csr_Extensions csr) with
           | Ok certificateNames, Ok requestNames => bool_decide (certificateNames = requestNames)
           | _, _ => false
           end
  | _, _ => false
  end.

(** [RequestedPrivateKey == nil || !PublicKeysEqual(...)] *)
Definition requestedKeyMatches (request : EnrollmentRequest) (csr : CertificateRequest) : bool :=
  match RequestedPrivateKey request with
  | None => false
  | Some key => PublicKeysEqual (Public key) (csr_PublicKey csr)
  end.

(** validateKURProofs enforces the existing-certificate and requested-key
    invariants before any network send. *)
Definition validateKURProofs (request : EnrollmentRequest) (csr : CertificateRequest) (now : Time) : outcome error unit :=
  _ ← reject_if (bool_decide (is_Some (Password (er_Protection request))) ||
                 negb (bool_decide (is_Some (Signature (er_Protection request)))))
        (permanent "validate KUR protection" "badRequest" (Errorf "KUR requires signature protection with the certificate being updated"));
  _ ← reject_if (negb (requestedKeyMatches request csr))
        (permanent "validate KUR proof of possession" "badPOP" (Errorf "requested private key does not match the CSR public key"));
  signature ← deref (Signature (er_Protection request));
  certificate ← deref (sp_Certificate signature);
  _ ← reject_if (time_Before now (NotBefore certificate) || negb (time_Before now (NotAfter certificate)))
        (permanent "validate KUR protection certificate" "badTime" (Errorf "certificate being updated is not currently valid"));
  _ ← reject_if (certificateHasExtension certificate oidKeyUsage &&
                 bool_decide (N.land (KeyUsage certificate) KeyUsageDigitalSignature = 0%N))
        (permanent "validate KUR protection certificate" "badAlg" (Errorf "certificate being updated does not permit digital signatures"));
  reject_if (negb (sameKURIdentity certificate csr))
    (permanent "validate KUR certificate identity" "badCertTemplate" (Errorf "CSR subject or subject alternative names differ from the certificate being updated")).

(** Parsing and verifying the CSR, as every operation does first. *)
Definition parsedCSR (request : EnrollmentRequest) : outcome error CertificateRequest :=
  match ParseCertificateRequest (CSRDER request) with
  | inl err => Err (permanent "parse CSR" "badRequest" err)
  | inr csr =>
      match CheckSignature csr with
      | Some err => Err (permanent "verify CSR signature" "badPOP" err)
      | None => Ok csr
      end
  end.

(** ValidateKURRequest verifies both key proofs and the unchanged certificate
    identity without sending CMP traffic. *)
Definition ValidateKURRequest (request : EnrollmentRequest) (now : Time) : outcome error unit :=
  let request := set_Operation OperationKUR request in
  _ ← validateEnrollmentRequest request;
  csr ← parsedCSR request;
  validateKURProofs request csr now.

(** ValidateIRRequest verifies the CSR and the key that proves possession
    without sending CMP traffic. *)
Definition ValidateIRRequest (request : EnrollmentRequest) : outcome error unit :=
  let request := set_Operation OperationIR request in
  _ ← validateEnrollmentRequest request;
  csr ← parsedCSR request;
  reject_if (negb (requestedKeyMatches request csr))
    (permanent "validate IR proof of possession" "badPOP" (Errorf "requested private key does not match the CSR public key")).

(** requestSender returns the configured sender name, else the protection
    certificate subject, else an empty name. *)
Definition certificateSubject (certificate : Certificate) : GeneralName :=
  if bool_decide (RawSubject certificate = "") then NewDirectoryName (Subject certificate)
  else NewDirectoryNameFromRawDER (RawSubject certificate).

Definition requestSender (request : EnrollmentRequest) : outcome error GeneralName :=
  match er_Sender request, Signature (er_Protection request) with
  | Some sender, _ => Ok (NewDirectoryName sender)
  | None, Some signature => certificate ← deref (sp_Certificate signature); Ok (certificateSubject certificate)
  | None, None => Ok GeneralName_zero
  end.

(** certificateTemplate builds the CRMF template of an IR or KUR. *)
Definition certificateTemplate (request : EnrollmentRequest) (csr : CertificateRequest) (subject : GeneralName) : outcome error (CertTemplate GeneralName) :=
  key ← deref (RequestedPrivateKey request);
  publicKey ← match MarshalPKIXPublicKey (Public key) with
              | inl err => Err (permanent "encode requested public key" "badCertTemplate" err)
              | inr publicKey => Ok publicKey
              end;
  extensions ← match csr_Extensions csr with
               | [] => Ok ""
               | extensions =>
                   match MarshalExtensions extensions with
                   | inl err => Err (permanent "encode requested extensions" "badCertTemplate" err)
                   | inr encoded => Ok encoded
                   end
               end;
  Ok {| tpl_Subject := subject; tpl_PublicKey := publicKey; tpl_Extensions := extensions;
        tpl_NotAfter := if time_IsZero (RequestedNotAfter request) then None else Some (RequestedNotAfter request) |}.

(** ** What a valid request is *)

(** A hash the PasswordBasedMac suite supports, zero standing for SHA-256. *)
Definition effectiveHash (h : Hash) : Hash := if bool_decide (h = HashZero) then SHA256 else h.
Definition hashOrder (h : Hash) : nat :=
  match h with SHA256 => 32 | SHA384 => 48 | SHA512 => 64 | _ => 0 end.
Definition supportedHash (h : Hash) : Prop := h = SHA256 ∨ h = SHA384 ∨ h = SHA512.

Lemma supportedHashes_ok hashes : supportedHashes hashes = Ok tt ↔ Forall supportedHash hashes.
Proof.
  induction hashes as [|h hashes IH]; simpl; [by split|].
  rewrite Forall_cons, <- IH. unfold supportedHash.
  destruct h; simpl; naive_solver.
Qed.

Lemma pbmAlgorithms_ok password owf mac :
  pbmAlgorithms password = Ok (owf, mac) ↔
  owf = effectiveHash (OWF password) ∧ mac = effectiveHash (MAC password) ∧
  supportedHash owf ∧ supportedHash mac ∧ hashOrder mac ≤ hashOrder owf.
Proof.
  unfold pbmAlgorithms, effectiveHash, supportedHash.
  destruct (OWF password), (MAC password); simpl; split; intros Hx;
    repeat (unfold mbind, outcome_bind in Hx; simpl in Hx); simplify_eq/=;
    destruct_and?; simplify_eq/=; naive_solver lia.
Qed.

Lemma pbmAlgorithms_total password : pbmAlgorithms password ≠ Panic.
Proof. unfold pbmAlgorithms. by destruct (OWF password), (MAC password). Qed.

Definition passwordOK (password : PasswordProtection) : Prop :=
  Reference password ≠ "" ∧ Secret password ≠ "" ∧
  (minPBMIterationCount ≤ IterationCount password ≤ maxPBMIterationCount)%Z ∧
  supportedHash (effectiveHash (OWF password)) ∧ supportedHash (effectiveHash (MAC password)) ∧
  hashOrder (effectiveHash (MAC password)) ≤ hashOrder (effectiveHash (OWF password)).

Definition signatureOK (signature : SignatureProtection) : Prop :=
  ∃ key certificate, PrivateKey signature = Some key ∧ sp_Certificate signature = Some certificate ∧
    PublicKeysEqual (Public key) (cert_PublicKey certificate) = true ∧ mldsaUsageOK certificate.

(** Exactly one protection mode, with usable credentials. *)
Definition protectionOK (protection : Protection) : Prop :=
  (∃ password, protection = {| Password := Some password; Signature := None |} ∧ passwordOK password) ∨
  (∃ signature, protection = {| Password := None; Signature := Some signature |} ∧ signatureOK signature).

Definition endpointOK (endpoint : string) : Prop :=
  ∃ u, url_Parse endpoint = inr u ∧ Host u ≠ "" ∧ (Scheme u = "http" ∨ Scheme u = "https").

Record requestOK (request : EnrollmentRequest) : Prop := {
  ok_operation : er_Operation request ∈ [""; OperationP10CR; OperationIR; OperationKUR];
  ok_endpoint : endpointOK (EndpointURL request);
  ok_digest : ∀ n, SignatureDigest request ≠ HashOther n;
  ok_timeout : (0 < er_Timeout request)%Z;
  ok_size : (0 < MaxResponseSize request)%Z;
  ok_csr : CSRDER request ≠ "";
  ok_trust : is_Some (CMPTrust request);
  ok_protection : protectionOK (er_Protection request)
}.

Lemma ValidateSignerCertificate_ok signature :
  ValidateSignerCertificate (PrivateKey signature) (sp_Certificate signature) = Ok tt ↔ signatureOK signature.
Proof.
  unfold ValidateSignerCertificate, signatureOK.
  destruct (PrivateKey signature) as [key|], (sp_Certificate signature) as [c|];
    [|split; [done|naive_solver]..].
  destruct (PublicKeysEqual (Public key) (cert_PublicKey c)) eqn:E; simpl.
  - rewrite ValidateMLDSAKeyUsage_ok. naive_solver.
  - split; [done|]. intros (k & c' & [= <-] & [= <-] & ? & ?). congruence.
Qed.

(** The password checks of validateEnrollmentRequest. *)
Lemma passwordOK_iff password :
  passwordOK password ↔
  Reference password ≠ "" ∧ Secret password ≠ "" ∧
  (minPBMIterationCount ≤ IterationCount password ≤ maxPBMIterationCount)%Z ∧ is_ok (pbmAlgorithms password) = true.
Proof.
  assert (is_ok (pbmAlgorithms password) = true ↔
    supportedHash (effectiveHash (OWF password)) ∧ supportedHash (effectiveHash (MAC password)) ∧
    hashOrder (effectiveHash (MAC password)) ≤ hashOrder (effectiveHash (OWF password))) as ->; [|done].
  split.
  - destruct (pbmAlgorithms password) as [[owf mac]|e|] eqn:E; [|done..].
    apply pbmAlgorithms_ok in E as (-> & -> & ? & ? & ?). done.
  - intros (? & ? & ?). by rewrite (proj2 (pbmAlgorithms_ok password _ _) (conj eq_refl (conj eq_refl (conj H0 (conj H1 H2))))).
Qed.

Lemma operation_iff operation :
  let op := if bool_decide (operation = "") then OperationP10CR else operation in
  negb (bool_decide (op = OperationP10CR)) && negb (bool_decide (op = OperationIR)) && negb (bool_decide (op = OperationKUR)) = false ↔
  operation ∈ [""; OperationP10CR; OperationIR; OperationKUR].
Proof.
  intros op. unfold op. rewrite !elem_of_cons, elem_of_nil.
  destruct (decide (operation = "")) as [->|Hne].
  - rewrite bool_decide_eq_true_2 by done. simpl. naive_solver.
  - rewrite (bool_decide_eq_false_2 (operation = "")) by done. simplify_bool. naive_solver.
Qed.

Lemma endpoint_iff endpoint (e : error) :
  match url_Parse endpoint with
  | inl _ => Err e
  | inr u => reject_if (bool_decide (Host u = "") ||
                        (negb (bool_decide (Scheme u = "http")) && negb (bool_decide (Scheme u = "https")))) e
  end = Ok tt ↔ endpointOK endpoint.
Proof.
  unfold endpointOK. destruct (url_Parse endpoint) as [err|u].
  - split; [done|naive_solver].
  - autorewrite with outcome. simplify_bool. naive_solver.
Qed.

Lemma digest_iff digest : validateSignatureDigest digest = Ok tt ↔ ∀ n, digest ≠ HashOther n.
Proof. destruct digest; simpl; naive_solver. Qed.

Lemma password_iff password :
  (_ ← reject_if (bool_decide (Reference password = "") || bool_decide (Secret password = ""))
        (permanent "validate PasswordBasedMac" "badRequest" (Errorf "reference and shared secret are required"));
   _ ← reject_if ((IterationCount password <? minPBMIterationCount)%Z || (maxPBMIterationCount <? IterationCount password)%Z)
        (permanent "validate PasswordBasedMac" "badRequest" (Errorf "iteration count is outside supported bounds"));
   _ ← mapErr (permanent "validate PasswordBasedMac" "badRequest") (pbmAlgorithms password);
   Ok tt) = Ok tt ↔ passwordOK password.
Proof.
  rewrite passwordOK_iff. autorewrite with outcome. rewrite bind_ok. simplify_bool.
  assert ((∃ a, mapErr (permanent "validate PasswordBasedMac" "badRequest") (pbmAlgorithms password) = Ok a ∧ Ok (E:=error) tt = Ok tt)
    ↔ is_ok (pbmAlgorithms password) = true) as ->.
  { destruct (pbmAlgorithms password); simpl; naive_solver. }
  naive_solver.
Qed.

Lemma protection_modes (protection : Protection) :
  bool_decide (bool_decide (is_Some (Password protection)) = bool_decide (is_Some (Signature protection))) = false ↔
  (∃ p, protection = {| Password := Some p; Signature := None |}) ∨
  (∃ s, protection = {| Password := None; Signature := Some s |}).
Proof.
  rewrite bool_decide_eq_false. destruct protection as [[p|] [s|]]; simpl; naive_solver.
Qed.

Lemma protection_iff (protection : Protection) (check : PasswordProtection → outcome error unit) :
  (∀ password, check password = Ok tt ↔ passwordOK password) →
  bool_decide (bool_decide (is_Some (Password protection)) = bool_decide (is_Some (Signature protection))) = false ∧
  match Password protection with None => Ok tt | Some password => check password end = Ok tt ∧
  match Signature protection with
  | None => Ok tt
  | Some signature =>
      mapErr (permanent "validate signature credentials" "badRequest")
        (ValidateSignerCertificate (PrivateKey signature) (sp_Certificate signature))
  end = Ok tt ↔ protectionOK protection.
Proof.
  intros Hcheck. rewrite protection_modes. unfold protectionOK. split.
  - intros ([[p ->]|[s ->]] & Hp & Hs); simpl in *.
    + left. exists p. by rewrite <- Hcheck.
    + right. exists s. by rewrite mapErr_ok, ValidateSignerCertificate_ok in Hs.
  - intros [(p & -> & Hp)|(s & -> & Hs)]; simpl.
    + rewrite Hcheck. eauto.
    + rewrite mapErr_ok, ValidateSignerCertificate_ok. eauto.
Qed.

(** validateEnrollmentRequest accepts exactly the requests with a supported operation, a complete
    HTTP(S) endpoint, positive limits, a CSR, CMP trust and exactly one protection mode whose
    credentials are usable: PasswordBasedMac with reference, secret, an iteration count between 100 and
    1048575 and supported hashes, or a key that matches its certificate. *)
Lemma validateEnrollmentRequest_spec request : validateEnrollmentRequest request = Ok tt ↔ requestOK request.
Proof.
  unfold validateEnrollmentRequest. autorewrite with outcome.
  rewrite operation_iff, endpoint_iff, digest_iff, (protection_iff _ _ password_iff).
  simplify_bool. split.
  - intros (?&?&?&[??]&[??]&?). by constructor.
  - intros []. by split_and!.
Qed.

Lemma requestOK_valid request : requestOK request → validateEnrollmentRequest request = Ok tt.
Proof. apply validateEnrollmentRequest_spec. Qed.

(** ** Names compared without their order *)

Lemma pretty_OID_free c (oid : list N) :
  ¬ is_digit c → Forall (λ s, free_of c s ∧ s ≠ ""%string) (map pretty oid).
Proof.
  intros Hc. apply Forall_map, Forall_true. intros n. simpl. destruct (pretty_N_digits n).
  split; [by apply all_digits_free|done].
Qed.

Lemma OID_String_inj (l1 l2 : list N) : OID_String l1 = OID_String l2 → l1 = l2.
Proof.
  intros E. apply (inj (fmap (M:=list) pretty)).
  apply (strings_Join_inj "."%char); [by apply pretty_OID_free..|done].
Qed.

Lemma OID_String_free (oid : list N) : free_of "="%char (OID_String oid).
Proof.
  unfold OID_String. induction (pretty_OID_free "="%char oid ltac:(done)) as [|x l [Hx _] Hl IH]; [done|].
  destruct l; [done|]. change (free_of "="%char (x +:+ "." +:+ strings_Join (s :: l) ".")).
  rewrite !free_of_app. by repeat split.
Qed.

(** A name all of whose values are strings, which [fmt.Sprintf] renders as they are. *)
Definition stringValued (attribute : AttributeTypeAndValue) : Prop :=
  match atv_Value attribute with StringValue _ => True | OtherValue _ => False end.

Lemma renderAttribute_inj a1 a2 :
  stringValued a1 → stringValued a2 → renderAttribute a1 = renderAttribute a2 → a1 = a2.
Proof.
  destruct a1 as [t1 [v1|]], a2 as [t2 [v2|]]; unfold stringValued, renderAttribute; simpl; try done.
  intros _ _ E. apply (separator_inj "="%char) in E as [E ->]; [|apply OID_String_free..].
  by apply OID_String_inj in E as ->.
Qed.

(** Rendering, then sorting, forgets exactly the order of the attributes. *)
Lemma attributeSet_iff s1 s2 :
  Forall stringValued (concat s1) → Forall stringValued (concat s2) →
  attributeSet s1 = attributeSet s2 ↔ concat s1 ≡ₚ concat s2.
Proof.
  intros H1 H2. unfold attributeSet. rewrite sort_strings_eq.
  split; [|by apply Permutation_map].
  apply map_Permutation_inj_on. intros a1 a2 Ha1 Ha2. rewrite Forall_forall in H1, H2. apply renderAttribute_inj; auto.
Qed.

(** The subject alternative names an extension list carries: those of its
    first SAN extension, none when it has no such extension. *)
Definition subjectAltNames (extensions : list Extension) : option (list bytes) :=
  match find (λ e, bool_decide (ext_Id e = oidSubjectAltName)) extensions with
  | None => Some []
  | Some extension =>
      match UnmarshalRawValues (ext_Value extension) with
      | inr (names, ""%string) => Some names
      | _ => None
      end
  end.

Lemma generalNameSet_spec extensions :
  generalNameSet extensions =
  match subjectAltNames extensions with
  | Some names => Ok (sort_strings (map hex_EncodeToString names))
  | None => Err (Errorf "parse subject alternative names")
  end.
Proof.
  unfold subjectAltNames. induction extensions as [|e rest IH]; simpl; [done|].
  destruct (bool_decide (ext_Id e = oidSubjectAltName)); simpl; [|done].
  by destruct (UnmarshalRawValues (ext_Value e)) as [|[names []]].
Qed.

(** What is compared of an attribute: its type, and its value as [fmt.Sprintf]
    renders it. *)
Definition attributeKey (attribute : AttributeTypeAndValue) : OID * string :=
  (atv_Type attribute, renderValue (atv_Value attribute)).

Lemma renderAttribute_key a1 a2 : renderAttribute a1 = renderAttribute a2 ↔ attributeKey a1 = attributeKey a2.
Proof.
  unfold renderAttribute, attributeKey. split; [|by intros [= -> ->]].
  intros E. apply (separator_inj "="%char) in E as [E ->]; [|apply OID_String_free..]. by apply OID_String_inj in E as ->.
Qed.

Lemma attributeSet_key s1 s2 :
  attributeSet s1 = attributeSet s2 ↔ map attributeKey (concat s1) ≡ₚ map attributeKey (concat s2).
Proof.
  pose (render := λ key : OID * string, OID_String key.1 +:+ "=" +:+ key.2).
  assert (Hr : ∀ l, map renderAttribute l = map render (map attributeKey l)) by (intros l; by rewrite map_map).
  unfold attributeSet. rewrite sort_strings_eq, !Hr. apply map_Permutation_inj.
  intros [t1 v1] [t2 v2] E.
  by apply (proj1 (renderAttribute_key (Build_AttributeTypeAndValue t1 (StringValue v1)) (Build_AttributeTypeAndValue t2 (StringValue v2)))) in E.
Qed.

(** C35: sameKURIdentity accepts a certificate and a CSR exactly when both subjects and both subject alternative
    name extensions decode, the subjects carry, in any order and with the same multiplicities, attributes of
    the same types with the same renderings, and the subject alternative names are the same encoded names in
    any order. When all values are strings, equal renderings mean equal attributes; a value of another type is
    only told apart from a string by its rendering. *)
Theorem sameKURIdentity_iff certificate csr :
  (sameKURIdentity certificate csr = true ↔
   ∃ s1 s2 names1 names2,
     UnmarshalRDNSequence (RawSubject certificate) = inr (s1, ""%string) ∧
     UnmarshalRDNSequence (csr_RawSubject csr) = inr (s2, ""%string) ∧
     map attributeKey (concat s1) ≡ₚ map attributeKey (concat s2) ∧
     subjectAltNames (Extensions certificate) = Some names1 ∧
     subjectAltNames (csr_Extensions csr) = Some names2 ∧ names1 ≡ₚ names2) ∧
  ∀ s1 s2, Forall stringValued (concat s1) → Forall stringValued (concat s2) →
    map attributeKey (concat s1) ≡ₚ map attributeKey (concat s2) ↔ concat s1 ≡ₚ concat s2.
Proof.
  split; [|intros s1 s2 H1 H2; by rewrite <- attributeSet_key, attributeSet_iff].
  unfold sameKURIdentity, rawAttributeSet. rewrite !generalNameSet_spec.
  destruct (UnmarshalRDNSequence (RawSubject certificate)) as [e1|[s1 [|]]]; [naive_solver| |naive_solver].
  destruct (UnmarshalRDNSequence (csr_RawSubject csr)) as [e2|[s2 [|]]]; [naive_solver| |naive_solver].
  destruct (bool_decide (attributeSet s1 = attributeSet s2)) eqn:B; simplify_bool; rewrite attributeSet_key in B; simpl;
    [|split; [done|]; intros (? & ? & ? & ? & [= <-] & [= <-] & ? & _); done].
  destruct (subjectAltNames (Extensions certificate)) as [n1|], (subjectAltNames (csr_Extensions csr)) as [n2|];
    try (split; [done|naive_solver]).
  simplify_bool. rewrite sort_strings_eq, (map_Permutation_inj _ n1 n2 hex_EncodeToString_inj). split; [|naive_solver].
  intros Hn. by exists s1, s2, n1, n2.
Qed.

(** ** The proofs of a key update *)

Record kurProofsOK (request : EnrollmentRequest) (csr : CertificateRequest) (now : Time) : Prop := {
  kur_no_password : Password (er_Protection request) = None;
  kur_certificate : ∃ signature certificate,
    Signature (er_Protection request) = Some signature ∧ sp_Certificate signature = Some certificate ∧
    (NotBefore certificate ≤ now < NotAfter certificate)%Z ∧
    (certificateHasExtension certificate oidKeyUsage = true → N.land (KeyUsage certificate) KeyUsageDigitalSignature ≠ 0%N) ∧
    sameKURIdentity certificate csr = true;
  kur_key : ∃ key, RequestedPrivateKey request = Some key ∧ PublicKeysEqual (Public key) (csr_PublicKey csr) = true
}.

Lemma requestedKeyMatches_iff request csr :
  requestedKeyMatches request csr = true ↔
  ∃ key, RequestedPrivateKey request = Some key ∧ PublicKeysEqual (Public key) (csr_PublicKey csr) = true.
Proof. unfold requestedKeyMatches. destruct (RequestedPrivateKey request); naive_solver. Qed.

(** C28: validateKURProofs accepts exactly the key updates that are protected by a signature alone, whose
    updated certificate is valid at the moment of the request, may sign and names the same identity as the
    CSR, and whose requested private key is the key of the CSR. *)
Theorem validateKURProofs_iff request csr now :
  validateKURProofs request csr now = Ok tt ↔ kurProofsOK request csr now.
Proof.
  unfold validateKURProofs. rewrite bind_unit_ok, bind_unit_ok, !reject_if_ok.
  rewrite bind_ok. setoid_rewrite bind_ok. setoid_rewrite deref_ok.
  setoid_rewrite bind_unit_ok. setoid_rewrite bind_unit_ok. setoid_rewrite reject_if_ok.
  unfold time_Before. split.
  - intros (Hp & Hk & signature & Hs & certificate & Hc & Ht & Hu & Hi).
    simplify_bool. rewrite requestedKeyMatches_iff in Hk. destruct Hp as [Hp _].
    constructor; [by apply eq_None_not_Some| |done].
    exists signature, certificate. split_and!; try done; try lia. intros Hx. destruct Hu; congruence.
  - intros [Hp (signature & certificate & Hs & Hc & Ht & Hu & Hi) Hk].
    rewrite <- requestedKeyMatches_iff in Hk. rewrite Hp, Hs, Hk. simpl. split; [done|]. split; [done|].
    exists signature. split; [done|]. exists certificate. split; [done|]. simplify_bool. split_and!; [lia..| |done].
    destruct (certificateHasExtension certificate oidKeyUsage); naive_solver.
Qed.

(** A valid request never makes the code dereference a nil credential. *)
Lemma credentialsFor_total request : requestOK request → credentialsFor request ≠ Panic.
Proof.
  intros [? ? ? ? ? ? ? [(p & Hp & Hok)|(s & Hs & (key & c & Hk & Hc & ?))]]; unfold credentialsFor;
    [rewrite Hp|rewrite Hs]; simpl.
  - destruct (pbmAlgorithms p) as [[owf mac]|e|] eqn:E; simpl; [by case_match|done|].
    by destruct (pbmAlgorithms_total p).
  - rewrite Hk, Hc. unfold mbind, outcome_bind. simpl. by repeat case_match.
Qed.

Lemma requestSender_total request : requestOK request → is_ok (requestSender request) = true.
Proof.
  intros [? ? ? ? ? ? ? [(p & Hp & Hok)|(s & Hs & (key & c & Hk & Hc & ?))]]; unfold requestSender;
    destruct (er_Sender request); [done| |done|]; [rewrite Hp|rewrite Hs]; [done|]. simpl. by rewrite Hc.
Qed.
End request.

#[local] Existing Instance Demo.demoLibs.

(** An INTEGER 5 and a string 5 are not told apart. *)
Example rendering_collides :
  attributeKey {| atv_Type := [2; 5; 4; 5]%N; atv_Value := OtherValue "5" |} =
  attributeKey {| atv_Type := [2; 5; 4; 5]%N; atv_Value := StringValue "5" |}.
Proof. reflexivity. Qed.

Lemma sameKURIdentity_iff_witness :
  map attributeKey (concat (Demo.directory "workload")) ≡ₚ map attributeKey (concat (Demo.directory "workload")) ↔
  concat (Demo.directory "workload") ≡ₚ concat (Demo.directory "workload").
Proof.
  apply (proj2 (sameKURIdentity_iff Demo.oldLeaf Demo.csr)); repeat constructor.
Defined.
End Request.
