(* ===== verification/Response.v ===== *)
(** * Response authentication and interpretation: the pure half of
    internal/protocol/client.go

    Every check that reads the wall clock inside the X.509 and CMP libraries
    takes the instant of the check as the argument [now]. *)

From S2P Require Import Prelude GoString Logging Types Demo Certificates Request.
Import Certificates Request.

Module Response.

(** acceptableRecipNonce reports whether a response echoes a nonce that links
    it to this transaction. *)
Definition acceptableRecipNonce (recipNonce requestNonce delayedRequestNonce : bytes) : bool :=
  if bool_decide (recipNonce = requestNonce) then true
  else negb (bool_decide (delayedRequestNonce = "")) && bool_decide (recipNonce = delayedRequestNonce).

(** acceptResponseCertReqID enforces the operation-specific certificate
    response identifier. *)
Definition acceptResponseCertReqID (operation : string) (observed : Z) (pinned : option Z) : outcome error unit :=
  if bool_decide (operation = OperationIR) then
    reject_if (negb (bool_decide (observed = 0%Z)))
      (security "validate IP certReqId" "certReqIdMismatch" (Errorf "IR IP certReqId must be 0"))
  else if bool_decide (operation = OperationKUR) then
    reject_if (negb (bool_decide (observed = 0%Z)))
      (security "validate KUP certReqId" "certReqIdMismatch" (Errorf "KUR KUP certReqId must be 0"))
  else match pinned with
  | Some pinned =>
      reject_if (negb (bool_decide (observed = pinned)))
        (security "validate CP certReqId" "certReqIdMismatch" (Errorf "P10CR CP certReqId must be the pinned value"))
  | None =>
      reject_if (negb (bool_decide (observed = ResponseCertReqIDStandard)) && negb (bool_decide (observed = ResponseCertReqIDLegacyZero)))
        (security "validate CP certReqId" "certReqIdUnsupported" (Errorf "P10CR CP certReqId must be -1 or 0"))
  end.

(** sameValidity reports whether two certificates have the same notBefore and
    notAfter. *)
Definition sameValidity (first second : Certificate) : bool :=
  time_Equal (NotBefore first) (NotBefore second) && time_Equal (NotAfter first) (NotAfter second).

Section response.
Context `{Libs}.

(** ** Status classification *)

(** classifiedFailureBitOrder, the most security-relevant bit first. *)
Definition classifiedFailureBitOrder : list PKIFailureInfo :=
  [FailBadMessageCheck; FailSignerNotTrusted; FailNotAuthorized; FailBadPOP; FailBadCertTemplate;
   FailBadAlg; FailTransactionIdInUse; FailBadRequest; FailSystemUnavail; FailSystemFailure].

Fixpoint firstFailureBit (order : list PKIFailureInfo) (failInfo : PKIFailureInfo) : string :=
  match order with
  | [] => "unknownStatus"
  | bit :: rest =>
      if negb (bool_decide (N.land failInfo bit = 0%N)) then FailureInfo_String bit
      else firstFailureBit rest failInfo
  end.

(** boundedFailureName maps peer-chosen failure bits onto one name from a
    fixed vocabulary. *)
Definition boundedFailureName (failInfo : PKIFailureInfo) : string :=
  firstFailureBit classifiedFailureBitOrder failInfo.

(** boundedStatus limits the free text a server attached to a status. *)
Definition boundedStatus (status : PKIStatusInfo) : PKIStatusInfo :=
  match StatusString status with
  | [] => status
  | texts => {| Status := Status status; StatusString := [Logging.Text (strings_Join texts "; ")];
                FailInfo := FailInfo status |}
  end.

Definition permanentBits : PKIFailureInfo :=
  foldl N.lor FailBadPOP
    [FailBadRequest; FailBadCertTemplate; FailNotAuthorized; FailBadAlg; FailBadMessageCheck;
     FailSignerNotTrusted; FailTransactionIdInUse].

(** classifyStatus maps CMP status and failure bits to typed controller
    behavior. [None] is a nil error. *)
Definition classifyStatus (status : PKIStatusInfo) : option error :=
  if bool_decide (Status status = StatusAccepted) || bool_decide (Status status = StatusGrantedWithMods)
  then None
  else
    let statusErr := StatusInfo_AsError (boundedStatus status) in
    if bool_decide (Status status = StatusWaiting)
    then Some (ProtocolError ErrorKindPending "wait for certificate" "waiting" Second statusErr)
    else if negb (bool_decide (N.land (FailInfo status) permanentBits = 0%N))
    then Some (permanent "process PKIStatus" (boundedFailureName (FailInfo status)) statusErr)
    else if negb (bool_decide (N.land (FailInfo status) (N.lor FailSystemUnavail FailSystemFailure) = 0%N))
    then Some (retryable "process PKIStatus" (boundedFailureName (FailInfo status)) statusErr)
    else Some (permanent "process PKIStatus" "unknownStatus" statusErr).

(** ** Authentication *)

(** senderMatchesRecipient reports whether a response is sent by the
    authority the issuer addressed. *)
Definition senderMatchesRecipient (sender : GeneralName) (recipient : Name) : bool :=
  match DirectoryName sender with
  | [] => false
  | senderName =>
      match DirectoryName (NewDirectoryName recipient) with
      | [] => true
      | configured => bool_decide (attributeSet senderName = attributeSet configured)
      end
  end.

(** The verification options that name one trusted certificate. *)
Definition trustedBy (certificate : Certificate) : VerifyOptions :=
  {| RequiredProtection := ProtectionSignature; SharedSecret := ""; TrustPool := None; vo_ExtraCerts := [];
     vo_SenderKID := ""; TrustedCert := Some certificate; MinMACIterationCount := 0; MaxMACIterationCount := 0 |}.

(** The candidates of verifyTrustedSignature that parse. *)
Fixpoint parsedCandidates (candidates : list CMPCertificate) : list Certificate :=
  match candidates with
  | [] => []
  | encoded :: rest =>
      match CMPCertificate_Parse encoded with
      | inl _ => parsedCandidates rest
      | inr certificate => certificate :: parsedCandidates rest
      end
  end.

(** The selection loop of verifyTrustedSignature. *)
Fixpoint firstTrustedSigner (now : Time) (message : PKIMessage) (roots : option CertPool) (intermediates : CertPool) (parsed : list Certificate) : outcome error Certificate :=
  match parsed with
  | [] => Err (Errorf "no response signer has a valid signature and chain")
  | certificate :: rest =>
      match verifyCertificateChain now certificate roots intermediates with
      | Ok _ =>
          match pkicmp_Verify now message (trustedBy certificate) with
          | None => Ok certificate
          | Some _ => firstTrustedSigner now message roots intermediates rest
          end
      | Err _ => firstTrustedSigner now message roots intermediates rest
      | Panic => Panic
      end
  end.

(** verifyTrustedSignature independently verifies a signature signer chain. *)
Definition verifyTrustedSignature (now : Time) (message : PKIMessage) (roots : option CertPool) (candidates : list CMPCertificate) : outcome error Certificate :=
  match roots with
  | None => Err (Errorf "CMP trust anchors are absent")
  | Some _ =>
      let parsed := parsedCandidates candidates in
      firstTrustedSigner now message roots (foldl AddCert [] parsed) parsed
  end.

(** The signer candidates of verifyResponse: the response's certificates, the
    anchors and the configured response certificates. *)
Definition signerCandidates (response : PKIMessage) (request : EnrollmentRequest) : list CMPCertificate :=
  ExtraCerts response ++ map Raw (CMPTrustCertificates request) ++ map Raw (CMPResponseCertificates request).

Definition usesPassword (request : EnrollmentRequest) : bool :=
  bool_decide (is_Some (Password (er_Protection request))).

Definition signatureAccepted (request : EnrollmentRequest) : bool :=
  negb (usesPassword request) || AllowSignedMACResponse request.

(** The options of the first [Verify] call of verifyResponse. *)
Definition responseVerifyOptions (response : PKIMessage) (request : EnrollmentRequest) : VerifyOptions :=
  {| RequiredProtection := if usesPassword request then ProtectionMAC else ProtectionSignature;
     SharedSecret := match Password (er_Protection request) with Some p => Secret p | None => "" end;
     TrustPool := CMPTrust request;
     vo_ExtraCerts := signerCandidates response request;
     vo_SenderKID := SenderKID (Header response);
     TrustedCert := None;
     MinMACIterationCount := if RequireMACIterationFloor request then minPBMIterationCount else 1;
     MaxMACIterationCount := maxPBMIterationCount |}.

(** The protection check of verifyResponse: the validated signature signer,
    [None] for MAC-based protection.  The three attempts are made in the order
    of the code, each only when the previous one left an error. *)
Definition verifyProtection (now : Time) (response : PKIMessage) (request : EnrollmentRequest) (previousSigner : option Certificate) : outcome error (option Certificate) :=
  let candidates := signerCandidates response request in
  let trusted := verifyTrustedSignature now response (CMPTrust request) candidates in
  let first : outcome error (option Certificate) :=
    match pkicmp_Verify now response (responseVerifyOptions response request) with
    | Some err => Err err
    | None =>
        if usesPassword request then Ok None
        else signer ← trusted; Ok (Some signer)
    end in
  let second :=
    match first, previousSigner with
    | Err err, Some signer =>
        if signatureAccepted request && bool_decide (pkicmp_Verify now response (trustedBy signer) = None)
        then Ok (Some signer) else Err err
    | _, _ => first
    end in
  match second with
  | Err err =>
      if signatureAccepted request then
        match trusted with
        | Ok signer => Ok (Some signer)
        | Err _ => Err err
        | Panic => Panic
        end
      else Err err
  | _ => second
  end.

(** verifyResponse authenticates the response and returns its trusted
    signature certificate when present. *)
Definition verifyResponse (now : Time) (requestHeader : PKIHeader GeneralName) (response : PKIMessage) (request : EnrollmentRequest) (previousSigner : option Certificate) (delayedRequestNonce : bytes) : outcome error (option Certificate) :=
  _ ← reject_if (negb (bool_decide (is_Some (ProtectionAlg (Header response)))) || bool_decide (Protection_ response = ""))
        (security "verify response protection" "missingProtection" (Errorf "response has no PKIProtection"));
  responseSigner ← mapErr (security "verify response protection" "badMessageCheck")
                     (verifyProtection now response request previousSigner);
  _ ← match responseSigner with
      | None => Ok tt
      | Some _ => mapErr (security "verify response signer key usage" "badMessageCheck") (ValidateMLDSAKeyUsage responseSigner)
      end;
  _ ← reject_if (negb (bool_decide (TransactionID (Header response) = TransactionID requestHeader)))
        (security "verify transaction ID" "transactionIdMismatch" (Errorf "response transaction ID does not match request"));
  _ ← reject_if (negb (acceptableRecipNonce (RecipNonce (Header response)) (SenderNonce requestHeader) delayedRequestNonce))
        (security "verify recipient nonce" "nonceMismatch" (Errorf "response recipient nonce does not match request sender nonce"));
  _ ← reject_if (negb (bool_decide (PVNO (Header response) = PVNO2)) && negb (bool_decide (PVNO (Header response) = PVNO requestHeader)))
        (permanent "verify protocol version" "unsupportedVersion" (Errorf "response protocol version does not match the request version"));
  _ ← reject_if (negb (senderMatchesRecipient (Sender (Header response)) (er_Recipient request)))
        (security "verify response sender" "wrongAuthority" (Errorf "response sender does not name the configured recipient"));
  Ok responseSigner.

(** ** Properties *)

(** *** Status classification *)

Definition isPermanentBit (bit : PKIFailureInfo) : Prop :=
  bit ∈ [FailBadPOP; FailBadRequest; FailBadCertTemplate; FailNotAuthorized; FailBadAlg; FailBadMessageCheck;
         FailSignerNotTrusted; FailTransactionIdInUse].
Definition isTemporaryBit (bit : PKIFailureInfo) : Prop := bit ∈ [FailSystemUnavail; FailSystemFailure].

(** [failInfo & bit != 0] *)
Definition hasBit (failInfo bit : PKIFailureInfo) : Prop := N.land failInfo bit ≠ 0%N.

Lemma hasBit_lor f a b : hasBit f (N.lor a b) ↔ hasBit f a ∨ hasBit f b.
Proof.
  unfold hasBit. rewrite N.land_lor_distr_r, N.lor_eq_0_iff.
  destruct (decide (N.land f a = 0%N)); tauto.
Qed.

Lemma hasBit_foldl f a l : hasBit f (foldl N.lor a l) ↔ ∃ bit, bit ∈ a :: l ∧ hasBit f bit.
Proof.
  revert a. induction l as [|b l IH]; intros a; simpl.
  - split; [eauto using list_elem_of_here|]. intros (bit & Hb & ?). by apply list_elem_of_singleton in Hb as ->.
  - rewrite IH. setoid_rewrite elem_of_cons. split.
    + intros (bit & [->|Hb] & Hf); [apply hasBit_lor in Hf as [?|?]|]; [exists a|exists b|exists bit];
        split; auto; set_solver.
    + intros (bit & Hin & Hf). rewrite elem_of_cons in Hin.
      destruct Hin as [->|[->|Hin]]; [exists (N.lor a b)|exists (N.lor a b)|exists bit];
        split; auto; apply hasBit_lor; auto.
Qed.

Lemma permanentBits_iff f : N.land f permanentBits ≠ 0%N ↔ ∃ bit, isPermanentBit bit ∧ hasBit f bit.
Proof. apply (hasBit_foldl f). Qed.

Lemma temporaryBits_iff f :
  N.land f (N.lor FailSystemUnavail FailSystemFailure) ≠ 0%N ↔ ∃ bit, isTemporaryBit bit ∧ hasBit f bit.
Proof. apply (hasBit_foldl f FailSystemUnavail [FailSystemFailure]). Qed.

(** The name of the first bit of the order that is set. *)
Lemma firstFailureBit_spec order f :
  (∃ before bit after, order = before ++ bit :: after ∧ hasBit f bit ∧
     Forall (λ b, ¬ hasBit f b) before ∧ firstFailureBit order f = FailureInfo_String bit) ∨
  (Forall (λ b, ¬ hasBit f b) order ∧ firstFailureBit order f = "unknownStatus"%string).
Proof.
  induction order as [|b order IH]; simpl; [by right|].
  destruct (bool_decide (N.land f b = 0%N)) eqn:E; simplify_bool; simpl.
  - assert (¬ hasBit f b) by (unfold hasBit; tauto).
    destruct IH as [(before & bit & after & -> & ? & ? & ?)|[? ?]]; [left|right; auto].
    exists (b :: before), bit, after. auto.
  - left. exists [], b, order. auto.
Qed.

Lemma classified_bit bit : isPermanentBit bit ∨ isTemporaryBit bit ↔ bit ∈ classifiedFailureBitOrder.
Proof. unfold isPermanentBit, isTemporaryBit, classifiedFailureBitOrder. set_solver. Qed.

(** A set of bits with a classified one is named after the first classified
    bit that is set. *)
Lemma boundedFailureName_set f bit :
  bit ∈ classifiedFailureBitOrder → hasBit f bit →
  ∃ before first after, classifiedFailureBitOrder = before ++ first :: after ∧ hasBit f first ∧
     Forall (λ b, ¬ hasBit f b) before ∧ boundedFailureName f = FailureInfo_String first.
Proof.
  intros Hin Hbit. destruct (firstFailureBit_spec classifiedFailureBitOrder f) as [?|[Hall _]]; [done|].
  rewrite Forall_forall in Hall. by destruct (Hall bit Hin).
Qed.

(** What classifyStatus makes of a status that neither grants nor waits. *)
Inductive rejection (f : PKIFailureInfo) (cause : error) : error → Prop :=
| rejected_permanent name :
    (∃ bit, isPermanentBit bit ∧ hasBit f bit) →
    (∃ before first after, classifiedFailureBitOrder = before ++ first :: after ∧ hasBit f first ∧
       Forall (λ b, ¬ hasBit f b) before ∧ name = FailureInfo_String first) →
    rejection f cause (permanent "process PKIStatus" name cause)
| rejected_retryable name :
    (∀ bit, isPermanentBit bit → ¬ hasBit f bit) → (∃ bit, isTemporaryBit bit ∧ hasBit f bit) →
    (∃ before first after, classifiedFailureBitOrder = before ++ first :: after ∧ hasBit f first ∧
       Forall (λ b, ¬ hasBit f b) before ∧ name = FailureInfo_String first) →
    rejection f cause (retryable "process PKIStatus" name cause)
| rejected_unknown :
    (∀ bit, bit ∈ classifiedFailureBitOrder → ¬ hasBit f bit) →
    rejection f cause (permanent "process PKIStatus" "unknownStatus" cause).

(** C30: classifyStatus accepts exactly the two granting statuses, turns waiting into a pending error after one
    second, and otherwise reports a permanent failure when any permanent failure bit is set, a retryable one
    when only unavailability is, and unknownStatus when no known bit is; the failure name is always that of the
    first set bit of the fixed priority list, whatever other bits the peer sends. *)
Theorem classifyStatus_spec status :
  match Status status with
  | StatusAccepted | StatusGrantedWithMods => classifyStatus status = None
  | StatusWaiting =>
      classifyStatus status =
      Some (ProtocolError ErrorKindPending "wait for certificate" "waiting" Second (StatusInfo_AsError (boundedStatus status)))
  | _ => ∃ err, classifyStatus status = Some err ∧
                rejection (FailInfo status) (StatusInfo_AsError (boundedStatus status)) err
  end.
Proof.
  unfold classifyStatus. destruct (Status status) eqn:Est; simpl; try reflexivity;
  (destruct (bool_decide (N.land (FailInfo status) permanentBits = 0%N)) eqn:Ep; simpl; simplify_bool;
   [destruct (bool_decide (N.land (FailInfo status) (N.lor FailSystemUnavail FailSystemFailure) = 0%N)) eqn:Et; simpl; simplify_bool|];
   eexists; (split; [reflexivity|])).
  all: assert (Hnp := permanentBits_iff (FailInfo status)); assert (Hnt := temporaryBits_iff (FailInfo status)).
  all: try apply rejected_unknown; try apply rejected_retryable; try apply rejected_permanent.
  all: try (intros bit [?|?]%classified_bit ?; naive_solver).
  all: try (intros bit ? ?; naive_solver).
  all: try by apply Hnp. all: try by apply Hnt.
  all: first [apply Hnt in Et as (bit & ? & ?)|apply Hnp in Ep as (bit & ? & ?)].
  all: apply (boundedFailureName_set _ bit); [apply classified_bit|]; auto.
Qed.

(** *** Authentication *)

(** A certificate the issuer's configuration makes a response signer: it is
    among the candidates and X.509 verification accepts it under the anchors. *)
Definition chainsToTrust (now : Time) (response : PKIMessage) (request : EnrollmentRequest) (signer : Certificate) : Prop :=
  let parsed := parsedCandidates (signerCandidates response request) in
  is_Some (CMPTrust request) ∧ signer ∈ parsed ∧
  ∃ chain, verifyCertificateChain now signer (CMPTrust request) (foldl AddCert [] parsed) = Ok chain.

(** The ways a response is authenticated. *)
Inductive authenticated (now : Time) (response : PKIMessage) (request : EnrollmentRequest) (previousSigner : option Certificate) : option Certificate → Prop :=
| authenticated_mac :
    usesPassword request = true →
    pkicmp_Verify now response (responseVerifyOptions response request) = None →
    authenticated now response request previousSigner None
| authenticated_signature signer :
    signatureAccepted request = true →
    pkicmp_Verify now response (trustedBy signer) = None →
    previousSigner = Some signer ∨ chainsToTrust now response request signer →
    authenticated now response request previousSigner (Some signer).

Lemma firstTrustedSigner_ok now message roots ints parsed signer :
  firstTrustedSigner now message roots ints parsed = Ok signer →
  signer ∈ parsed ∧ pkicmp_Verify now message (trustedBy signer) = None ∧
  ∃ chain, verifyCertificateChain now signer roots ints = Ok chain.
Proof.
  induction parsed as [|c parsed IH]; simpl; [done|]. intros E.
  destruct (verifyCertificateChain now c roots ints) eqn:Ev; [|destruct IH; set_solver|done].
  destruct (pkicmp_Verify now message (trustedBy c)) eqn:Ep; [destruct IH; set_solver|].
  simplify_eq. split; [set_solver|]. eauto.
Qed.

Lemma firstTrustedSigner_complete now message roots ints parsed signer chain :
  signer ∈ parsed → pkicmp_Verify now message (trustedBy signer) = None →
  verifyCertificateChain now signer roots ints = Ok chain →
  ∃ first, firstTrustedSigner now message roots ints parsed = Ok first.
Proof.
  intros Hin Hp Hv. induction parsed as [|c parsed IH]; simpl; [set_solver|].
  apply elem_of_cons in Hin as [->|Hin].
  - rewrite Hv, Hp. eauto.
  - specialize (IH Hin). destruct (verifyCertificateChain now c roots ints) eqn:Ev;
      [case_match; eauto|done|by destruct (verifyCertificateChain_total now c roots ints)].
Qed.

Lemma firstTrustedSigner_total now message roots ints parsed :
  firstTrustedSigner now message roots ints parsed ≠ Panic.
Proof.
  induction parsed as [|c parsed IH]; simpl; [done|].
  destruct (verifyCertificateChain now c roots ints) eqn:Ev; [by case_match|done|].
  by destruct (verifyCertificateChain_total now c roots ints).
Qed.

(** verifyTrustedSignature finds a signer exactly when a candidate chains to
    trust and verifies the signature. *)
Lemma verifyTrustedSignature_ok now response request signer :
  verifyTrustedSignature now response (CMPTrust request) (signerCandidates response request) = Ok signer →
  chainsToTrust now response request signer ∧ pkicmp_Verify now response (trustedBy signer) = None.
Proof.
  unfold verifyTrustedSignature, chainsToTrust. destruct (CMPTrust request); [|done].
  intros (? & ? & ?)%firstTrustedSigner_ok. eauto.
Qed.

Lemma verifyTrustedSignature_complete now response request signer :
  chainsToTrust now response request signer → pkicmp_Verify now response (trustedBy signer) = None →
  ∃ first, verifyTrustedSignature now response (CMPTrust request) (signerCandidates response request) = Ok first.
Proof.
  intros ([roots Hr] & Hin & chain & Hv) Hp. unfold verifyTrustedSignature. rewrite Hr in *.
  by eapply firstTrustedSigner_complete.
Qed.

Lemma verifyTrustedSignature_total now response roots candidates :
  verifyTrustedSignature now response roots candidates ≠ Panic.
Proof. unfold verifyTrustedSignature. destruct roots; [apply firstTrustedSigner_total|done]. Qed.

Lemma signatureAccepted_no_password request : usesPassword request = false → signatureAccepted request = true.
Proof. unfold signatureAccepted. by intros ->. Qed.

Lemma verifyProtection_sound now response request previousSigner signer :
  verifyProtection now response request previousSigner = Ok signer →
  authenticated now response request previousSigner signer.
Proof.
  unfold verifyProtection, mbind, outcome_bind.
  pose proof (verifyTrustedSignature_ok now response request) as Htrust.
  destruct (verifyTrustedSignature now response (CMPTrust request) (signerCandidates response request)) as [t|e|];
    [destruct (Htrust t eq_refl) as [Hchain Hsig]| |]; clear Htrust;
  destruct (pkicmp_Verify now response (responseVerifyOptions response request)) eqn:Ev;
  destruct (usesPassword request) eqn:Eu; rewrite ?(signatureAccepted_no_password _ Eu);
  destruct previousSigner as [p|]; simpl;
  repeat (case_match; simplify_bool; simplify_eq/=); intros; simplify_eq/=;
  destruct_and?; first [by apply authenticated_mac|
    apply authenticated_signature; auto using signatureAccepted_no_password].
Qed.

Lemma verifyProtection_complete now response request previousSigner signer :
  authenticated now response request previousSigner signer →
  ∃ first, verifyProtection now response request previousSigner = Ok first.
Proof.
  pose proof (verifyTrustedSignature_total now response (CMPTrust request) (signerCandidates response request)) as Hnp.
  intros [Hu Hv|s Ha Hs [->|Hchain]]; unfold verifyProtection, mbind, outcome_bind.
  - rewrite Hv, Hu. eauto.
  - rewrite Ha, (bool_decide_eq_true_2 _ Hs). simpl. repeat (case_match; simplify_eq/=); eauto.
  - destruct (verifyTrustedSignature_complete _ _ _ _ Hchain Hs) as [f Hf]. rewrite Hf, Ha in *. simpl.
    repeat (case_match; simplify_eq/=); eauto.
Qed.

Lemma verifyProtection_total now response request previousSigner :
  verifyProtection now response request previousSigner ≠ Panic.
Proof.
  unfold verifyProtection, mbind, outcome_bind.
  pose proof (verifyTrustedSignature_total now response (CMPTrust request) (signerCandidates response request)).
  repeat (case_match; simplify_eq/=); done.
Qed.

(** The protection check accepts a response exactly when one of its ways of authentication applies: the
    shared secret for a password issuer, or, where signatures are accepted, a signature by the previous signer
    or by a candidate certificate that chains to the trust anchors. *)
Theorem verifyProtection_iff now response request previousSigner :
  (∃ signer, verifyProtection now response request previousSigner = Ok signer) ↔
  (∃ signer, authenticated now response request previousSigner signer).
Proof. split; intros [signer ?]; [eauto using verifyProtection_sound|by eapply verifyProtection_complete]. Qed.

(** What a response must satisfy to be interpreted at all. *)
Record acceptedResponse (now : Time) (requestHeader : PKIHeader GeneralName) (response : PKIMessage) (request : EnrollmentRequest) (previousSigner : option Certificate) (delayedRequestNonce : bytes) (signer : option Certificate) : Prop := {
  acc_protected : is_Some (ProtectionAlg (Header response)) ∧ Protection_ response ≠ "";
  acc_authenticated : authenticated now response request previousSigner signer;
  acc_usage : ∀ certificate, signer = Some certificate → mldsaUsageOK certificate;
  acc_transaction : TransactionID (Header response) = TransactionID requestHeader;
  acc_nonce : RecipNonce (Header response) = SenderNonce requestHeader ∨
              (delayedRequestNonce ≠ "" ∧ RecipNonce (Header response) = delayedRequestNonce);
  acc_version : PVNO (Header response) = PVNO2 ∨ PVNO (Header response) = PVNO requestHeader;
  acc_sender : senderMatchesRecipient (Sender (Header response)) (er_Recipient request) = true
}.

Lemma acceptableRecipNonce_iff recipNonce requestNonce delayed :
  acceptableRecipNonce recipNonce requestNonce delayed = true ↔
  recipNonce = requestNonce ∨ (delayed ≠ "" ∧ recipNonce = delayed).
Proof.
  unfold acceptableRecipNonce. destruct (bool_decide (recipNonce = requestNonce)) eqn:E; simplify_bool; naive_solver.
Qed.

Lemma verifyResponse_ok now requestHeader response request previousSigner delayed signer :
  verifyResponse now requestHeader response request previousSigner delayed = Ok signer →
  acceptedResponse now requestHeader response request previousSigner delayed signer.
Proof.
  unfold verifyResponse. rewrite bind_unit_ok, reject_if_ok, bind_ok. intros (Hp & s & Hs & Hrest).
  rewrite !bind_unit_ok, !reject_if_ok in Hrest. destruct Hrest as (Hu & Ht & Hn & Hv & Hr & [= <-]).
  rewrite mapErr_ok in Hs. simplify_bool. constructor; try done.
  - by apply verifyProtection_sound.
  - intros c ->. rewrite mapErr_ok in Hu. by apply ValidateMLDSAKeyUsage_ok.
  - by apply acceptableRecipNonce_iff.
Qed.

(** C3: verifyResponse accepts a response, returning the signer its protection check chose, exactly when the
    response carries protection verified with the issuer's secret or by a trusted signer whose key usage is
    admissible, belongs to this transaction, echoes the nonce of this request (or the recorded nonce of a
    delayed one), has version 2 or that of the request and is sent by the configured recipient. *)
Theorem verifyResponse_iff now requestHeader response request previousSigner delayed signer :
  verifyResponse now requestHeader response request previousSigner delayed = Ok signer ↔
  acceptedResponse now requestHeader response request previousSigner delayed signer ∧
  verifyProtection now response request previousSigner = Ok signer.
Proof.
  split.
  - intros Hok. split; [by apply verifyResponse_ok|].
    unfold verifyResponse in Hok. rewrite bind_unit_ok, bind_ok in Hok. destruct Hok as (_ & s & Hs & Hrest).
    rewrite !bind_unit_ok in Hrest. destruct Hrest as (_ & _ & _ & _ & _ & [= <-]). by apply mapErr_ok in Hs.
  - intros [[[? ?] _ Hu Ht Hn Hv Hs] Hp]. unfold verifyResponse.
    rewrite bind_unit_ok, reject_if_ok, bind_ok. split; [simplify_bool; auto|].
    exists signer. split; [by apply mapErr_ok|]. rewrite !bind_unit_ok, !reject_if_ok.
    rewrite (proj2 (acceptableRecipNonce_iff _ _ _) Hn), Hs. simplify_bool. split_and!; try done.
    destruct signer as [c|]; [|done]. apply mapErr_ok, ValidateMLDSAKeyUsage_ok. auto.
Qed.

(** C29: With PasswordBasedMac and strict response protection, a response is accepted only when its MAC verifies
    with the shared secret, and never yields a signature signer, whatever certificates it carries. *)
Theorem verifyResponse_strict_mac now requestHeader response request previousSigner delayed signer :
  usesPassword request = true → AllowSignedMACResponse request = false →
  verifyResponse now requestHeader response request previousSigner delayed = Ok signer →
  signer = None ∧ pkicmp_Verify now response (responseVerifyOptions response request) = None ∧
  RequiredProtection (responseVerifyOptions response request) = ProtectionMAC ∧
  TransactionID (Header response) = TransactionID requestHeader.
Proof.
  intros Hu Ha [_ Hauth _ Ht _ _ _]%verifyResponse_ok.
  destruct Hauth as [_ Hv|s Hacc]; [|unfold signatureAccepted in Hacc; by rewrite Hu, Ha in Hacc].
  simpl. by rewrite Hu.
Qed.

(** verifyResponse always returns, and every refusal is a security error except that of an unexpected
    protocol version, which is permanent. *)
Theorem verifyResponse_errors now requestHeader response request previousSigner delayed :
  match verifyResponse now requestHeader response request previousSigner delayed with
  | Ok _ => True
  | Err err => (∃ operation failure cause, err = security operation failure cause) ∨
               (∃ cause, err = permanent "verify protocol version" "unsupportedVersion" cause)
  | Panic => False
  end.
Proof.
  unfold verifyResponse, reject_if, mbind, outcome_bind, mapErr.
  pose proof (verifyProtection_total now response request previousSigner).
  pose proof ValidateMLDSAKeyUsage_total.
  repeat (case_match; simplify_eq/=); eauto; congruence.
Qed.

(** senderMatchesRecipient accepts a response sender exactly when it is a directory name and, if the
    issuer configures a recipient, carries the same attributes in any order and no others. *)
Theorem senderMatchesRecipient_iff sender recipient :
  Forall stringValued (concat (DirectoryName sender)) →
  Forall stringValued (concat (DirectoryName (NewDirectoryName recipient))) →
  senderMatchesRecipient sender recipient = true ↔
  DirectoryName sender ≠ [] ∧
  (DirectoryName (NewDirectoryName recipient) = [] ∨
   concat (DirectoryName sender) ≡ₚ concat (DirectoryName (NewDirectoryName recipient))).
Proof.
  intros H1 H2. unfold senderMatchesRecipient.
  destruct (DirectoryName sender) as [|r s] eqn:Es; [naive_solver|].
  destruct (DirectoryName (NewDirectoryName recipient)) as [|r' c] eqn:Ec; [naive_solver|].
  rewrite bool_decide_eq_true, attributeSet_iff by done. naive_solver.
Qed.
End response.

#[local] Existing Instance Demo.demoLibs.

Definition demoCP : PKIMessage :=
  Demo.mkResponse "CA" Demo.tid (Demo.certRep BodyTypeCP (-1) StatusAccepted (Some "L"%string)) [] [] Demo.okMAC.

Lemma verifyResponse_strict_mac_witness :
  (None : option Certificate) = None ∧ pkicmp_Verify 50 demoCP (responseVerifyOptions demoCP Demo.request) = None ∧
  RequiredProtection (responseVerifyOptions demoCP Demo.request) = ProtectionMAC ∧
  TransactionID (Header demoCP) = TransactionID Demo.requestHeader.
Proof.
  apply (verifyResponse_strict_mac 50 Demo.requestHeader demoCP Demo.request None "" None);
    vm_compute; reflexivity.
Defined.

Lemma senderMatchesRecipient_iff_witness :
  senderMatchesRecipient (Demo.directory "CA") (Demo.name "CA") = true ↔
  DirectoryName (Demo.directory "CA") ≠ [] ∧
  (DirectoryName (NewDirectoryName (Demo.name "CA")) = [] ∨
   concat (DirectoryName (Demo.directory "CA")) ≡ₚ concat (DirectoryName (NewDirectoryName (Demo.name "CA")))).
Proof. apply (@senderMatchesRecipient_iff Demo.demoLibs (Demo.directory "CA") (Demo.name "CA")); repeat constructor. Defined.
End Response.
