(* ===== verification/Enrollment.v ===== *)
(** * Enrollment results: what an authenticated response means
    (internal/protocol/client.go: extractEnrollmentResponse, finishTransaction,
    extractPollRep and confirmationDelay) *)

From S2P Require Import Prelude GoString Types Demo Certificates Request Response.
Import Certificates Request Response.

Module Enrollment.

(** issuedCertificate contains the validated CP contents needed for trust
    validation and confirmation. *)
Record issuedCertificate := {
  ic_Certificate : option Certificate;
  Candidates : list Certificate;
  ic_CertReqID : Z;
  ImplicitGranted : bool;
  GrantedWithMods : bool;
  Waiting : bool
}.

(** refusedCertificate identifies an issued certificate the client refuses
    while the server still expects certConf. *)
Record refusedCertificate := {
  rc_Certificate : Certificate;
  rc_CertReqID : Z;
  rc_RecipNonce : bytes;
  rc_ResponseSigner : option Certificate;
  Reason : string
}.

Section enrollment.
Context `{Libs}.

(** The loops of parseResponseCertificates over the concatenated groups, with
    the encodings already seen. *)
Fixpoint parseUnseen (encodings : list CMPCertificate) (seen : gset string) : outcome error (list Certificate) :=
  match encodings with
  | [] => Ok []
  | encoded :: rest =>
      if bool_decide (encoded ∈ seen) then parseUnseen rest seen
      else match CMPCertificate_Parse encoded with
           | inl err => Err (permanent "parse response certificate" "badDataFormat" err)
           | inr parsed => candidates ← parseUnseen rest ({[encoded]} ∪ seen); Ok (parsed :: candidates)
           end
  end.

(** parseResponseCertificates parses and deduplicates untrusted chain
    candidates from response certificate fields. *)
Definition parseResponseCertificates (groups : list (list CMPCertificate)) : outcome error (list Certificate) :=
  parseUnseen (concat groups) ∅.

(** responseGrantsImplicitConfirm checks for the implicitConfirm OID in the
    response. *)
Definition responseGrantsImplicitConfirm (response : PKIMessage) : bool :=
  existsb (λ information, bool_decide (information = ImplicitConfirmOID)) (GeneralInfo (Header response)).

(** The operation of a request, P10CR when it is empty. *)
Definition effectiveOperation (request : EnrollmentRequest) : string :=
  if bool_decide (er_Operation request = "") then OperationP10CR else er_Operation request.

Definition expectedBody (operation : string) : BodyType :=
  if bool_decide (operation = OperationIR) then BodyTypeIP
  else if bool_decide (operation = OperationKUR) then BodyTypeKUP
  else BodyTypeCP.

(** extractEnrollmentResponse validates a CP, IP or KUP and returns the issued
    certificate with its candidates. *)
Definition extractEnrollmentResponse (response : PKIMessage) (request : EnrollmentRequest) : outcome error issuedCertificate :=
  let body := Body response in
  if bool_decide (Type_ body = BodyTypeError) then
    match body_Error body with
    | inl err => Err (permanent "parse error response" "badDataFormat" err)
    | inr status =>
        match classifyStatus status with
        | Some err => Err err
        (* a nil error with the zero issuedCertificate *)
        | None => Ok {| ic_Certificate := None; Candidates := []; ic_CertReqID := 0; ImplicitGranted := false;
                        GrantedWithMods := false; Waiting := false |}
        end
    end
  else
  let operation := effectiveOperation request in
  let expected := expectedBody operation in
  _ ← reject_if (negb (bool_decide (Type_ body = expected)))
        (permanent "validate response body" "unsupportedBody" (Errorf "unexpected response body"));
  reply ← match body_CertRep body with
          | inl err => Err (permanent ("parse " +:+ BodyType_String expected) "badDataFormat" err)
          | inr reply => Ok reply
          end;
  certificateResponse ← match Response reply with
          | [certificateResponse] => Ok certificateResponse
          | _ => Err (permanent ("validate " +:+ BodyType_String expected) "badRequest" (Errorf "body must contain exactly one CertResponse"))
          end;
  _ ← acceptResponseCertReqID operation (cr_CertReqID certificateResponse) (ResponseCertReqID request);
  if bool_decide (Status (cr_Status certificateResponse) = StatusWaiting)
  then Ok {| ic_Certificate := None; Candidates := []; ic_CertReqID := cr_CertReqID certificateResponse;
             ImplicitGranted := false; GrantedWithMods := false; Waiting := true |}
  else
  _ ← match classifyStatus (cr_Status certificateResponse) with Some err => Err err | None => Ok tt end;
  encoded ← match cr_Certificate certificateResponse with
          | None => Err (permanent "extract certificate" "badDataFormat" (Errorf "body does not contain a plaintext certificate"))
          | Some encoded => Ok encoded
          end;
  certificate ← match CMPCertificate_Parse encoded with
          | inl err => Err (permanent "parse issued certificate" "badDataFormat" err)
          | inr certificate => Ok certificate
          end;
  _ ← reject_if (bool_decide (er_Operation request = OperationKUR) && RequireKUPCAPubsAbsent request &&
                 negb (bool_decide (CAPubs reply = [])))
        (permanent "validate KUP" "badDataFormat" (Errorf "KUP caPubs must be absent"));
  candidates ← parseResponseCertificates [CAPubs reply; ExtraCerts response];
  Ok {| ic_Certificate := Some certificate; Candidates := candidates;
        ic_CertReqID := cr_CertReqID certificateResponse;
        ImplicitGranted := responseGrantsImplicitConfirm response;
        GrantedWithMods := bool_decide (Status (cr_Status certificateResponse) = StatusGrantedWithMods);
        Waiting := false |}.

(** The certificate whose validity a KUR must not keep:
    [request.Protection.Signature.Certificate]. *)
Definition updatedCertificate (request : EnrollmentRequest) : outcome error Certificate :=
  signature ← deref (Signature (er_Protection request));
  deref (sp_Certificate signature).

(** The [refuse] closure of finishTransaction. *)
Definition refuse (request : EnrollmentRequest) (response : PKIMessage) (responseSigner : option Certificate) (issued : issuedCertificate) (certificate : Certificate) (reason : string) : option refusedCertificate :=
  if ImplicitConfirm request && ImplicitGranted issued then None
  else Some {| rc_Certificate := certificate; rc_CertReqID := ic_CertReqID issued;
               rc_RecipNonce := SenderNonce (Header response); rc_ResponseSigner := responseSigner;
               Reason := reason |}.

(** The acceptance checks of finishTransaction on an issued certificate: the
    validated chain, or the refusal reason with the error. *)
Definition acceptIssued (now : Time) (request : EnrollmentRequest) (csr : CertificateRequest) (issued : issuedCertificate) (certificate : Certificate) : outcome (string * error) (list Certificate) :=
  _ ← reject_if (GrantedWithMods issued && RejectGrantedMods request)
        ("granted modifications are not accepted",
         permanent "apply granted modifications policy" "grantedWithMods" (Errorf "server granted the request with modifications"));
  _ ← reject_if (negb (PublicKeysEqual (csr_PublicKey csr) (cert_PublicKey certificate)))
        ("certificate does not certify the requested public key",
         security "validate issued certificate" "publicKeyMismatch" (Errorf "issued certificate public key does not match CSR"));
  chain ← mapErr (λ err, ("certificate validation failed", security "validate issued chain" "signerNotTrusted" err))
        (validateAndOrderChain now certificate (Candidates issued ++ CMPResponseCertificates request) (CMPTrust request));
  kept ← (if bool_decide (er_Operation request = OperationKUR)
          then updated ← mapErr (λ err, (""%string, err)) (updatedCertificate request); Ok (sameValidity certificate updated)
          else Ok false);
  _ ← reject_if kept
        ("certificate keeps the validity of the certificate being updated",
         permanent "validate issued certificate" "validityNotRenewed" (Errorf "server issued the updated certificate with the notBefore and notAfter of the certificate it replaces"));
  Ok chain.

(** finishTransaction turns an authenticated CP into a validated chain, or
    reports that polling continues.  A refusal is returned with the error when
    the issued certificate is refused and the server expects certConf. *)
Definition finishTransaction (now : Time) (request : EnrollmentRequest) (response : PKIMessage) (csr : CertificateRequest) (responseSigner : option Certificate) (delayedRequestNonce : bytes) : outcome error EnrollmentResult * option refusedCertificate :=
  match extractEnrollmentResponse response request with
  | Err err => (Err err, None)
  | Panic => (Panic, None)
  | Ok issued =>
      if Waiting issued then
        (Ok {| Chain := []; ExtraCertificateCount := 0; ExplicitConfirmation := false; res_ResponseCertReqID := 0;
               Pending := Some {| pt_CertReqID := ic_CertReqID issued;
                                  pt_RecipNonce := SenderNonce (Header response);
                                  pt_ResponseSigner := responseSigner;
                                  CheckAfter := 0;
                                  pt_RequestNonce := delayedRequestNonce |};
               PendingConfirmation := None |}, None)
      else match ic_Certificate issued with
      | None => (Panic, None)
      | Some certificate =>
          match acceptIssued now request csr issued certificate with
          | Panic => (Panic, None)
          | Err (reason, err) => (Err err, refuse request response responseSigner issued certificate reason)
          | Ok chain =>
              if ImplicitConfirm request && ImplicitGranted issued then
                (Ok {| Chain := chain; ExtraCertificateCount := length (Candidates issued); ExplicitConfirmation := false;
                       res_ResponseCertReqID := ic_CertReqID issued; Pending := None; PendingConfirmation := None |}, None)
              else
                (Ok {| Chain := chain; ExtraCertificateCount := length (Candidates issued); ExplicitConfirmation := false;
                       res_ResponseCertReqID := ic_CertReqID issued; Pending := None;
                       PendingConfirmation := Some {| pt_CertReqID := ic_CertReqID issued;
                                                      pt_RecipNonce := SenderNonce (Header response);
                                                      pt_ResponseSigner := responseSigner;
                                                      CheckAfter := 0;
                                                      pt_RequestNonce := "" |} |}, None)
          end
      end
  end.

(** extractPollRep validates a pollRep body and returns the state required for
    the next poll. *)
Definition extractPollRep (response : PKIMessage) (expectedCertReqID : Z) (responseSigner : option Certificate) (delayedRequestNonce : bytes) : outcome error PendingTransaction :=
  reply ← match body_PollRep (Body response) with
          | inl err => Err (permanent "parse pollRep" "badDataFormat" err)
          | inr reply => Ok reply
          end;
  item ← match reply with
         | [item] => Ok item
         | _ => Err (permanent "validate pollRep" "badRequest" (Errorf "pollRep must contain exactly one entry"))
         end;
  _ ← reject_if (negb (bool_decide (pri_CertReqID item = expectedCertReqID)))
        (security "validate pollRep certReqId" "certReqIdMismatch" (Errorf "pollRep certReqId does not match the polled request"));
  _ ← reject_if (pri_CheckAfter item <? 0)%Z
        (permanent "validate pollRep" "badRequest" (Errorf "pollRep checkAfter is negative"));
  Ok {| pt_CertReqID := pri_CertReqID item; pt_RecipNonce := SenderNonce (Header response);
        pt_ResponseSigner := responseSigner; CheckAfter := seconds (pri_CheckAfter item);
        pt_RequestNonce := delayedRequestNonce |}.

(** confirmationDelay reports the wait requested by a server that has not yet
    returned pkiConf, and fails when the response is neither a delay nor a
    confirmation. *)
Definition confirmationDelay (response : PKIMessage) : outcome error Duration :=
  match Type_ (Body response) with
  | BodyTypeError =>
      content ← match body_Error (Body response) with
                | inl err => Err (permanent "parse confirmation error" "badDataFormat" err)
                | inr content => Ok content
                end;
      if negb (bool_decide (Status content = StatusWaiting)) then
        match classifyStatus content with
        | Some statusErr => Err statusErr
        | None => Err (permanent "validate confirmation" "unsupportedBody" (Errorf "expected pkiConf response"))
        end
      else Ok 0%Z
  | BodyTypePollRep =>
      reply ← match body_PollRep (Body response) with
              | inl err => Err (permanent "parse confirmation pollRep" "badDataFormat" err)
              | inr reply => Ok reply
              end;
      item ← match reply with
             | [item] => Ok item
             | _ => Err (permanent "validate confirmation pollRep" "badRequest" (Errorf "pollRep must contain exactly one entry"))
             end;
      _ ← reject_if (negb (bool_decide (pri_CertReqID item = ResponseCertReqIDStandard)))
            (security "validate confirmation pollRep certReqId" "certReqIdMismatch" (Errorf "pollRep certReqId does not match the polled confirmation"));
      _ ← reject_if (pri_CheckAfter item <? 0)%Z
            (permanent "validate confirmation pollRep" "badRequest" (Errorf "pollRep checkAfter is negative"));
      Ok (seconds (pri_CheckAfter item))
  | _ => Err (permanent "validate confirmation" "unsupportedBody" (Errorf "expected pkiConf response"))
  end.

(** ** Properties *)

(** *** Certificates carried by a response *)

(** The first occurrence of every encoding, in order. *)
Fixpoint firstOccurrences (encodings : list CMPCertificate) (seen : gset string) : list CMPCertificate :=
  match encodings with
  | [] => []
  | e :: rest => if bool_decide (e ∈ seen) then firstOccurrences rest seen
                 else e :: firstOccurrences rest ({[e]} ∪ seen)
  end.

Lemma elem_of_firstOccurrences e encodings seen :
  e ∈ firstOccurrences encodings seen ↔ e ∈ encodings ∧ e ∉ seen.
Proof.
  revert seen. induction encodings as [|e' rest IH]; intros seen; simpl; [set_solver|].
  destruct (bool_decide (e' ∈ seen)) eqn:B; simplify_bool; rewrite ?elem_of_cons, IH; [set_solver|].
  destruct (decide (e = e')); set_solver.
Qed.

Lemma NoDup_firstOccurrences encodings seen : NoDup (firstOccurrences encodings seen).
Proof.
  revert seen. induction encodings as [|e' rest IH]; intros seen; simpl; [constructor|].
  destruct (bool_decide (e' ∈ seen)); [done|]. constructor; [|done].
  rewrite elem_of_firstOccurrences. set_solver.
Qed.

Lemma parseUnseen_ok encodings seen candidates :
  parseUnseen encodings seen = Ok candidates ↔
  Forall2 (λ e c, CMPCertificate_Parse e = inr c) (firstOccurrences encodings seen) candidates.
Proof.
  revert seen candidates. induction encodings as [|e rest IH]; intros seen candidates; simpl.
  - split; [by intros [= <-]|]. by inversion 1.
  - destruct (bool_decide (e ∈ seen)); [done|].
    destruct (CMPCertificate_Parse e) as [err|c] eqn:Ep.
    + split; [done|]. inversion 1; congruence.
    + rewrite bind_ok. split.
      * intros (cs & Hcs & [= <-]). constructor; [done|]. by apply IH.
      * inversion 1 as [|? c' ? cs Hc Hcs]; simplify_eq. exists cs. split; [by apply IH|]. congruence.
Qed.

Lemma parseUnseen_total encodings seen : parseUnseen encodings seen ≠ Panic.
Proof.
  revert seen. induction encodings as [|e rest IH]; intros seen; simpl; [done|].
  repeat case_match; try done. unfold mbind, outcome_bind.
  pose proof (IH ({[e]} ∪ seen)). by case_match.
Qed.

(** parseResponseCertificates succeeds exactly when every distinct encoding of the groups parses, and
    then returns one certificate per distinct encoding, in the order of the first occurrences. *)
Theorem parseResponseCertificates_iff groups candidates :
  parseResponseCertificates groups = Ok candidates ↔
  ∃ distinct, distinct = firstOccurrences (concat groups) ∅ ∧ NoDup distinct ∧
    (∀ e, e ∈ distinct ↔ ∃ group, group ∈ groups ∧ e ∈ group) ∧
    Forall2 (λ e c, CMPCertificate_Parse e = inr c) distinct candidates.
Proof.
  unfold parseResponseCertificates. rewrite parseUnseen_ok. split; [|by intros (? & -> & _ & _ & ?)].
  intros Hf. eexists. split_and!; [done|apply NoDup_firstOccurrences| |done].
  intros e. rewrite elem_of_firstOccurrences, list_elem_of_In, in_concat. setoid_rewrite <- list_elem_of_In. set_solver.
Qed.

(** *** The result of a transaction *)

(** The confirmation an issued certificate still needs. *)
Definition implicitlyConfirmed (request : EnrollmentRequest) (response : PKIMessage) : bool :=
  ImplicitConfirm request && responseGrantsImplicitConfirm response.

Lemma extract_issued response request issued certificate :
  extractEnrollmentResponse response request = Ok issued → ic_Certificate issued = Some certificate →
  Waiting issued = false ∧ ImplicitGranted issued = responseGrantsImplicitConfirm response ∧
  ∃ reply certificateResponse encoded,
    body_CertRep (Body response) = inr reply ∧ Response reply = [certificateResponse] ∧
    cr_Certificate certificateResponse = Some encoded ∧ CMPCertificate_Parse encoded = inr certificate ∧
    classifyStatus (cr_Status certificateResponse) = None ∧ ic_CertReqID issued = cr_CertReqID certificateResponse ∧
    GrantedWithMods issued = bool_decide (Status (cr_Status certificateResponse) = StatusGrantedWithMods) ∧
    parseResponseCertificates [CAPubs reply; ExtraCerts response] = Ok (Candidates issued) ∧
    acceptResponseCertReqID (effectiveOperation request) (cr_CertReqID certificateResponse) (ResponseCertReqID request) = Ok tt.
Proof.
  unfold extractEnrollmentResponse. intros Hx Hc.
  destruct (bool_decide (Type_ (Body response) = BodyTypeError)).
  { repeat (case_match; simplify_eq/=). }
  rewrite bind_unit_ok, bind_ok in Hx. destruct Hx as (_ & reply & Hreply & Hx).
  rewrite bind_ok in Hx. destruct Hx as (cr & Hcr & Hx). rewrite bind_unit_ok in Hx. destruct Hx as (Hid & Hx).
  destruct (bool_decide (Status (cr_Status cr) = StatusWaiting)); [by simplify_eq/=|].
  rewrite bind_unit_ok, bind_ok in Hx. destruct Hx as (Hst & encoded & Henc & Hx).
  rewrite bind_ok in Hx. destruct Hx as (c & Hparse & Hx).
  rewrite bind_unit_ok, bind_ok in Hx. destruct Hx as (_ & candidates & Hcand & Hx).
  simplify_eq/=. split_and!; [done..|]. exists reply, cr, encoded.
  repeat (case_match; simplify_eq/=); done.
Qed.

(** What finishTransaction promises of a chain it returns. *)
Record issuedOK (now : Time) (request : EnrollmentRequest) (response : PKIMessage) (csr : CertificateRequest) (result : EnrollmentResult) : Prop := {
  iss_chain : ∃ certificate tail, Chain result = certificate :: tail ∧
    PublicKeysEqual (csr_PublicKey csr) (cert_PublicKey certificate) = true ∧
    (∃ candidates, validateAndOrderChain now certificate candidates (CMPTrust request) = Ok (Chain result)) ∧
    (er_Operation request = OperationKUR →
     ∃ updated, updatedCertificate request = Ok updated ∧
       (NotBefore certificate ≠ NotBefore updated ∨ NotAfter certificate ≠ NotAfter updated));
  iss_status : ∃ reply certificateResponse,
    body_CertRep (Body response) = inr reply ∧ Response reply = [certificateResponse] ∧
    (Status (cr_Status certificateResponse) = StatusAccepted ∨
     (Status (cr_Status certificateResponse) = StatusGrantedWithMods ∧ RejectGrantedMods request = false)) ∧
    res_ResponseCertReqID result = cr_CertReqID certificateResponse;
  iss_confirm :
    if implicitlyConfirmed request response then PendingConfirmation result = None
    else ∃ pending, PendingConfirmation result = Some pending ∧
           pt_RecipNonce pending = SenderNonce (Header response) ∧ pt_CertReqID pending = res_ResponseCertReqID result
}.

Lemma validateAndOrderChain_head now leaf candidates roots chain :
  validateAndOrderChain now leaf candidates roots = Ok chain → ∃ tail, chain = leaf :: tail.
Proof. unfold validateAndOrderChain. rewrite bind_ok. intros (v & _ & [= <-]). eauto. Qed.

Lemma acceptIssued_ok now request csr issued certificate chain :
  acceptIssued now request csr issued certificate = Ok chain →
  (GrantedWithMods issued = true → RejectGrantedMods request = false) ∧
  PublicKeysEqual (csr_PublicKey csr) (cert_PublicKey certificate) = true ∧
  validateAndOrderChain now certificate (Candidates issued ++ CMPResponseCertificates request) (CMPTrust request) = Ok chain ∧
  (er_Operation request = OperationKUR →
   ∃ updated, updatedCertificate request = Ok updated ∧
     (NotBefore certificate ≠ NotBefore updated ∨ NotAfter certificate ≠ NotAfter updated)).
Proof.
  unfold acceptIssued. rewrite bind_unit_ok, bind_unit_ok, bind_ok, !reject_if_ok. intros (Hg & Hk & ch & Hch & Hx).
  rewrite bind_ok in Hx. destruct Hx as (kept & Hkept & Hx). rewrite bind_unit_ok, reject_if_ok in Hx.
  destruct Hx as [-> [= ->]]. rewrite mapErr_ok in Hch. simplify_bool. split_and!; [|done..|].
  - intros ?. destruct Hg; congruence.
  - intros Hop. rewrite bool_decide_eq_true_2, bind_ok in Hkept by done.
    destruct Hkept as (u & Hu & Hv). rewrite mapErr_ok in Hu. exists u. split; [done|].
    injection Hv as Hv. unfold sameValidity, time_Equal in Hv. simplify_bool. done.
Qed.

Lemma classifyStatus_granted status :
  classifyStatus status = None → Status status = StatusAccepted ∨ Status status = StatusGrantedWithMods.
Proof.
  unfold classifyStatus. intros Hc. repeat (case_match; simplify_eq/=). simplify_bool. done.
Qed.

(** C4: A transaction that ends with a certificate ends with a chain that starts with it and verifies under the
    issuer's CMP trust, certifies the CSR key, was accepted (or granted with modifications the policy accepts),
    for a key update does not keep the validity of the certificate it replaces, and needs an explicit
    confirmation unless implicit confirmation was both requested and granted; nothing is refused. *)
Theorem finishTransaction_issued now request response csr signer delayed result refusal :
  finishTransaction now request response csr signer delayed = (Ok result, refusal) → Pending result = None →
  refusal = None ∧ issuedOK now request response csr result.
Proof.
  unfold finishTransaction. intros Hf Hp.
  destruct (extractEnrollmentResponse response request) as [issued|e|] eqn:Ex; [|done..].
  destruct (Waiting issued); [by simplify_eq/=|].
  destruct (ic_Certificate issued) as [certificate|] eqn:Ec; [|done].
  destruct (extract_issued _ _ _ _ Ex Ec) as (_ & Hig & reply & cr & enc & Hrep & Hresp & _ & _ & Hst & Hid & Hg & _ & _).
  destruct (acceptIssued now request csr issued certificate) as [chain|[reason e]|] eqn:Ea; [|done..].
  destruct (acceptIssued_ok _ _ _ _ _ _ Ea) as (Hgr & Hk & Hch & Hv).
  destruct (validateAndOrderChain_head _ _ _ _ _ Hch) as [tail ->].
  assert (Hc : implicitlyConfirmed request response = ImplicitConfirm request && ImplicitGranted issued)
    by (unfold implicitlyConfirmed; by rewrite Hig).
  destruct (ImplicitConfirm request && ImplicitGranted issued); simplify_eq/=; split; try done.
  all: constructor; rewrite ?Hc; simpl; eauto 10.
  all: exists reply, cr; split_and!; [done..| |done].
  all: destruct (classifyStatus_granted _ Hst) as [?|Hgm]; [by left|right; split; [done|apply Hgr]].
  all: by rewrite Hg, Hgm.
Qed.

(** A refusal accompanies an error and only when the server still expects a certConf; it names the
    certificate of the response, its certReqId, the nonce to answer and the authenticated signer. *)
Theorem finishTransaction_refusal now request response csr signer delayed o refusal :
  finishTransaction now request response csr signer delayed = (o, Some refusal) →
  (∃ err, o = Err err) ∧ implicitlyConfirmed request response = false ∧
  rc_RecipNonce refusal = SenderNonce (Header response) ∧ rc_ResponseSigner refusal = signer ∧
  ∃ reply certificateResponse encoded,
    body_CertRep (Body response) = inr reply ∧ Response reply = [certificateResponse] ∧
    cr_Certificate certificateResponse = Some encoded ∧
    CMPCertificate_Parse encoded = inr (rc_Certificate refusal) ∧
    rc_CertReqID refusal = cr_CertReqID certificateResponse.
Proof.
  unfold finishTransaction. intros Hf.
  destruct (extractEnrollmentResponse response request) as [issued|e|] eqn:Ex; [|done..].
  destruct (Waiting issued); [done|].
  destruct (ic_Certificate issued) as [certificate|] eqn:Ec; [|done].
  destruct (extract_issued _ _ _ _ Ex Ec) as (_ & Hig & reply & cr & enc & Hrep & Hresp & Henc & Hparse & _ & Hid & _).
  destruct (acceptIssued now request csr issued certificate) as [chain|[reason e]|] eqn:Ea;
    [by case_match|simplify_eq/=|done].
  unfold refuse in *. unfold implicitlyConfirmed. rewrite <- Hig.
  destruct (ImplicitConfirm request && ImplicitGranted issued); simplify_eq/=.
  split_and!; eauto 10.
Qed.

Lemma extract_total response request : extractEnrollmentResponse response request ≠ Panic.
Proof.
  unfold extractEnrollmentResponse, acceptResponseCertReqID, reject_if, mbind, outcome_bind.
  intros Hx. repeat (case_match; simplify_eq/=); by eapply parseUnseen_total.
Qed.

Lemma extract_empty response request issued :
  extractEnrollmentResponse response request = Ok issued → Waiting issued = false → ic_Certificate issued = None →
  Type_ (Body response) = BodyTypeError ∧
  ∃ status, body_Error (Body response) = inr status ∧ classifyStatus status = None.
Proof.
  unfold extractEnrollmentResponse. intros Hx Hw Hc.
  destruct (bool_decide (Type_ (Body response) = BodyTypeError)) eqn:B.
  { simplify_bool. repeat (case_match; simplify_eq/=). eauto. }
  rewrite bind_unit_ok, bind_ok in Hx. destruct Hx as (_ & reply & _ & Hx).
  rewrite bind_ok in Hx. destruct Hx as (cr & _ & Hx). rewrite bind_unit_ok in Hx. destruct Hx as (_ & Hx).
  destruct (bool_decide (Status (cr_Status cr) = StatusWaiting)); [by simplify_eq/=|].
  rewrite bind_unit_ok, bind_ok in Hx. destruct Hx as (_ & encoded & _ & Hx).
  rewrite bind_ok in Hx. destruct Hx as (c & _ & Hx). rewrite bind_unit_ok, bind_ok in Hx.
  destruct Hx as (_ & candidates & _ & Hx). by simplify_eq/=.
Qed.

(** An error message whose status grants the request. *)
Definition grantingError (response : PKIMessage) : Prop :=
  Type_ (Body response) = BodyTypeError ∧ ∃ status, body_Error (Body response) = inr status ∧ classifyStatus status = None.

(** A key update without the certificate being updated. *)
Definition updatesNothing (request : EnrollmentRequest) : Prop :=
  er_Operation request = OperationKUR ∧
  ∀ signature, Signature (er_Protection request) = Some signature → sp_Certificate signature = None.

(** The checks acceptIssued makes before it looks at the updated certificate. *)
Definition acceptable (now : Time) (request : EnrollmentRequest) (csr : CertificateRequest) (issued : issuedCertificate) (certificate : Certificate) : Prop :=
  (GrantedWithMods issued = true → RejectGrantedMods request = false) ∧
  PublicKeysEqual (csr_PublicKey csr) (cert_PublicKey certificate) = true ∧
  ∃ chain, validateAndOrderChain now certificate (Candidates issued ++ CMPResponseCertificates request) (CMPTrust request) = Ok chain.

Lemma updatedCertificate_panic request :
  updatedCertificate request = Panic ↔ ∀ signature, Signature (er_Protection request) = Some signature → sp_Certificate signature = None.
Proof.
  unfold updatedCertificate. destruct (Signature (er_Protection request)) as [signature|]; simpl; [|by split].
  destruct (sp_Certificate signature) eqn:E; simpl; naive_solver.
Qed.

Lemma acceptIssued_panic_iff now request csr issued certificate :
  acceptIssued now request csr issued certificate = Panic ↔
  acceptable now request csr issued certificate ∧ updatesNothing request.
Proof.
  unfold acceptIssued, acceptable, updatesNothing, reject_if, mbind, outcome_bind.
  destruct (GrantedWithMods issued), (RejectGrantedMods request); simpl; try naive_solver;
    (destruct (PublicKeysEqual _ _); simpl; [|naive_solver]);
    pose proof (validateAndOrderChain_total now certificate (Candidates issued ++ CMPResponseCertificates request) (CMPTrust request));
    (destruct (validateAndOrderChain _ _ _ _) as [chain|e|]; simpl; [|naive_solver|done]);
    (destruct (bool_decide (er_Operation request = OperationKUR)) eqn:B; simplify_bool; [|naive_solver]);
    rewrite <- updatedCertificate_panic;
    (destruct (updatedCertificate request); simpl; [destruct (sameValidity _ _); simpl; naive_solver|naive_solver|]);
    (split; [intros _|done]); split_and!; naive_solver.
Qed.

Lemma acceptIssued_total now request csr issued certificate :
  (er_Operation request = OperationKUR → is_ok (updatedCertificate request) = true) →
  acceptIssued now request csr issued certificate ≠ Panic.
Proof.
  intros Hkur [_ [Hop Hn]]%acceptIssued_panic_iff. apply updatedCertificate_panic in Hn. specialize (Hkur Hop). by rewrite Hn in Hkur.
Qed.

(** C31: finishTransaction panics in exactly two cases and otherwise returns a result or an error: on an
    authenticated error message whose status grants the request, which carries no certificate although the
    code goes on to read its public key; and on a key update whose protection names no certificate being
    updated, once the issued certificate has passed the modification policy, the key comparison and the chain
    validation. *)
Theorem finishTransaction_panic_iff now request response csr signer delayed :
  (finishTransaction now request response csr signer delayed).1 = Panic ↔
  grantingError response ∨
  (updatesNothing request ∧ ∃ issued certificate,
     extractEnrollmentResponse response request = Ok issued ∧ ic_Certificate issued = Some certificate ∧
     acceptable now request csr issued certificate).
Proof.
  unfold finishTransaction. split.
  - intros Hf. destruct (extractEnrollmentResponse response request) as [issued|e|] eqn:Ex;
      [|done|by destruct (extract_total response request)].
    destruct (Waiting issued) eqn:Ew; [done|].
    destruct (ic_Certificate issued) as [certificate|] eqn:Ec; [|left; by apply (extract_empty _ _ _ Ex)].
    destruct (acceptIssued now request csr issued certificate) as [chain|[]|] eqn:Ea; [|done|].
    { destruct (_ && _); done. }
    apply acceptIssued_panic_iff in Ea as [??]. right. split; [done|]. by exists issued, certificate.
  - intros [(Ht & status & He & Hs)|(Hu & issued & certificate & Hx & Hc & Ha)].
    + unfold extractEnrollmentResponse. by rewrite bool_decide_eq_true_2, He, Hs by done.
    + destruct (extract_issued _ _ _ _ Hx Hc) as (Hw & _). rewrite Hx, Hw, Hc.
      by rewrite (proj2 (acceptIssued_panic_iff now request csr issued certificate) (conj Ha Hu)).
Qed.

(** *** Poll replies *)

Lemma seconds_exact n : (0 ≤ n)%Z → (n * Second ≤ int64_max)%Z → seconds n = (n * Second)%Z.
Proof. intros. unfold seconds, Second in *. apply wrap64_id. unfold in_int64, int64_min. lia. Qed.

(** extractPollRep accepts exactly a pollRep with one entry, for the polled certReqId and with a
    non-negative checkAfter, keeps the server's nonce for the next poll and the nonce of the delayed request;
    the wait is the announced number of seconds whenever that fits a time.Duration, and always fits int64. *)
Theorem extractPollRep_iff response expected signer delayed pending :
  extractPollRep response expected signer delayed = Ok pending ↔
  ∃ n, body_PollRep (Body response) = inr [{| pri_CertReqID := expected; pri_CheckAfter := n |}] ∧ (0 ≤ n)%Z ∧
    pt_CertReqID pending = expected ∧ pt_RecipNonce pending = SenderNonce (Header response) ∧
    pt_ResponseSigner pending = signer ∧ pt_RequestNonce pending = delayed ∧
    CheckAfter pending = seconds n ∧ in_int64 (CheckAfter pending) ∧
    ((n * Second ≤ int64_max)%Z → CheckAfter pending = (n * Second)%Z).
Proof.
  unfold extractPollRep. destruct (body_PollRep (Body response)) as [e|reply]; simpl; [naive_solver|].
  destruct reply as [|[id n] [|item' rest]]; simpl; [naive_solver| |naive_solver].
  unfold mbind, outcome_bind, reject_if. split.
  - intros Hx. repeat (case_match; simplify_eq/=). simplify_bool. exists n. subst.
    split_and!; eauto using wrap64_range, seconds_exact.
  - intros (m & [= -> ->] & Hn & ? & ? & ? & ? & ? & _ & _). rewrite bool_decide_eq_true_2 by done. simpl.
    destruct (Z.ltb_spec m 0); [lia|]. f_equal. destruct pending; simplify_eq/=. congruence.
Qed.
End enrollment.

#[local] Existing Instance Demo.demoLibs.

Definition demoMessage (der : bytes) : PKIMessage :=
  match ParsePKIMessage der with
  | inr m => m
  | inl _ => Demo.mkResponse "" "" Demo.pkiConfBody [] [] Demo.okMAC
  end.

(** The result and the refusal of the demonstration transactions. *)
Definition demoFinish (request : EnrollmentRequest) (der : bytes) :=
  finishTransaction 50 request (demoMessage der) Demo.csr None "".

Definition demoResult : EnrollmentResult :=
  {| Chain := [Demo.leaf]; ExtraCertificateCount := 0; ExplicitConfirmation := false; res_ResponseCertReqID := -1;
     Pending := None;
     PendingConfirmation := Some {| pt_CertReqID := -1; pt_RecipNonce := "servernonce"; pt_ResponseSigner := None;
                                    CheckAfter := 0; pt_RequestNonce := "" |} |}.

Lemma finishTransaction_issued_witness :
  (None : option refusedCertificate) = None ∧ issuedOK 50 Demo.request (demoMessage "cp") Demo.csr demoResult.
Proof.
  apply (finishTransaction_issued 50 Demo.request (demoMessage "cp") Demo.csr None "" demoResult None);
    vm_compute; reflexivity.
Defined.

Definition demoRefusal : refusedCertificate :=
  {| rc_Certificate := Demo.stranger; rc_CertReqID := -1; rc_RecipNonce := "servernonce"; rc_ResponseSigner := None;
     Reason := "certificate does not certify the requested public key" |}.

Lemma finishTransaction_refusal_witness :
  let o := (demoFinish Demo.request "cp-stranger").1 in
  (∃ err, o = Err err) ∧ implicitlyConfirmed Demo.request (demoMessage "cp-stranger") = false ∧
  rc_RecipNonce demoRefusal = "servernonce" ∧ rc_ResponseSigner demoRefusal = None ∧
  ∃ reply certificateResponse encoded,
    body_CertRep (Body (demoMessage "cp-stranger")) = inr reply ∧ Response reply = [certificateResponse] ∧
    cr_Certificate certificateResponse = Some encoded ∧
    CMPCertificate_Parse encoded = inr (rc_Certificate demoRefusal) ∧
    rc_CertReqID demoRefusal = cr_CertReqID certificateResponse.
Proof.
  intros o. apply (finishTransaction_refusal 50 Demo.request (demoMessage "cp-stranger") Demo.csr None "" o demoRefusal).
  vm_compute. reflexivity.
Defined.

(** Both panics happen: on the granting error message, and on a key update that
    is protected by a password. *)
Definition passwordKUR : EnrollmentRequest := set_Operation OperationKUR Demo.request.
Definition kup : PKIMessage := Demo.mkResponse "CA" Demo.tid (Demo.certRep BodyTypeKUP 0 StatusAccepted (Some "L"%string)) [] [] Demo.okMAC.
Example both_panics :
  (demoFinish Demo.request "error-accepted").1 = Panic ∧ (finishTransaction 50 passwordKUR kup Demo.csr None "").1 = Panic.
Proof. vm_compute. split; reflexivity. Qed.
End Enrollment.
