(* ===== verification/Api.v ===== *)
(** * The Kubernetes resources: api/v1alpha1 and the parts of the cert-manager
    and core resources the controller reads *)

From S2P Require Import Prelude GoString Types.

Module Api.

(** ** Constants of api/v1alpha1/common_types.go and cmptransaction_types.go *)

Definition ProtectionTypePasswordBasedMac : string := "PasswordBasedMac".
Definition ProtectionTypeSignature : string := "Signature".
Definition InitialEnrollmentP10CR : string := "P10CR".
Definition InitialEnrollmentIR : string := "IR".
Definition RenewalP10CR : string := "P10CR".
Definition RenewalKUR : string := "KUR".
Definition RequestedValidityOmit : string := "Omit".
Definition RequestedValidityDuration : string := "Duration".
Definition RenewalFallbackNone : string := "None".
Definition RenewalFallbackInitialEnrollment : string := "InitialEnrollment".
Definition ValidationProfileInteroperable : string := "Interoperable".
Definition ValidationProfileRFC9483 : string := "RFC9483".
Definition KURResponseCAPubsAccept : string := "Accept".
Definition KURResponseCAPubsRequireAbsent : string := "RequireAbsent".
Definition P10CRResponseCertReqIDStandard : Z := -1.
Definition P10CRResponseCertReqIDLegacyZero : Z := 0.
Definition MACResponseProtectionStrict : string := "Strict".
Definition MACResponseProtectionAllowSignature : string := "AllowSignature".
Definition GrantedModificationsReject : string := "Reject".
Definition GrantedModificationsAccept : string := "Accept".
Definition PasswordBasedMacOWFSHA256 : string := "SHA256".
Definition PasswordBasedMacOWFSHA384 : string := "SHA384".
Definition PasswordBasedMacOWFSHA512 : string := "SHA512".
Definition PasswordBasedMacMACHMACSHA256 : string := "HMACSHA256".
Definition PasswordBasedMacMACHMACSHA384 : string := "HMACSHA384".
Definition PasswordBasedMacMACHMACSHA512 : string := "HMACSHA512".
Definition SignatureDigestSHA256 : string := "SHA256".
Definition SignatureDigestSHA384 : string := "SHA384".
Definition SignatureDigestSHA512 : string := "SHA512".
Definition PasswordBasedMacIterationCountDefault : Z := 1024.
Definition PasswordBasedMacIterationCountMinimum : Z := 100.
Definition PasswordBasedMacIterationCountMaximum : Z := 1048575.

Definition TransactionPhaseEnrolling : string := "Enrolling".
Definition TransactionPhasePolling : string := "Polling".
Definition TransactionPhaseConfirming : string := "Confirming".
Definition TransactionPhaseIssued : string := "Issued".
Definition TransactionOperationP10CR : string := "P10CR".
Definition TransactionOperationIR : string := "IR".
Definition TransactionOperationKUR : string := "KUR".
Definition RenewalFallbackCurrentCertificateMissing : string := "CurrentCertificateMissing".
Definition RenewalFallbackCurrentCertificateExpired : string := "CurrentCertificateExpired".
Definition TransactionIssuerKindNamespaced : string := "CMPIssuer".
Definition TransactionIssuerKindCluster : string := "CMPClusterIssuer".
(** [GroupVersion.Group] *)
Definition Group : string := "certmanager.misiektoja.github.io".

(** ** Issuer spec *)

Record LocalSecretReference := { lsr_Name : string }.
Record SecretKeyReference := { skr_Name : string; skr_Key : string }.

Record EndpointSpec := {
  ep_URL : string;
  RenewalURL : string;
  ep_Timeout : Duration;
  ep_MaxResponseSize : Z
}.

Record ProtocolSpec := {
  Version : Z;
  InitialEnrollment : string;
  Renewal : string;
  RequestedValidity : string;
  RenewalFallback : string;
  ValidationProfile : string;
  KURResponseCAPubs : string;
  P10CRResponseCertReqID : option Z;
  MACResponseProtection : string;
  ps_SignatureDigest : string;
  CertProfile : string;
  ps_Sender : string;
  ps_Recipient : string;
  Confirmation : string
}.

Record PasswordBasedMacAlgorithmSpec := {
  pbm_OWF : string;
  pbm_MAC : string;
  pbm_IterationCount : Z
}.

Record PasswordBasedMacSpec := {
  pbm_SecretRef : LocalSecretReference;
  ReferenceKey : string;
  SecretKey : string;
  Algorithm : PasswordBasedMacAlgorithmSpec
}.

Record SignatureProtectionSpec := {
  sig_SecretRef : LocalSecretReference;
  CertificateKey : string;
  PrivateKeyKey : string;
  ChainKey : string
}.

Record ProtectionSpec := {
  prot_Type : string;
  PasswordBasedMac : option PasswordBasedMacSpec;
  prot_Signature : option SignatureProtectionSpec
}.

Record CMPTrustSpec := {
  CASecretRef : SecretKeyReference;
  SignerCertificatesSecretRef : option SecretKeyReference
}.

Record TLSTransportSpec := {
  tls_CASecretRef : option SecretKeyReference;
  ClientCertificateSecretRef : option LocalSecretReference
}.

Record TransportSpec := { TLS : option TLSTransportSpec }.

Record TransactionSpec := {
  MaximumDuration : Duration;
  MinimumPollInterval : Duration;
  MaximumPollInterval : Duration;
  MaximumPolls : Z
}.

Record PolicySpec := { GrantedModifications : string }.

Record CMPIssuerSpec := {
  Endpoint : EndpointSpec;
  Protocol : ProtocolSpec;
  spec_Protection : ProtectionSpec;
  spec_CMPTrust : CMPTrustSpec;
  Transport : TransportSpec;
  Transaction : TransactionSpec;
  Policy : PolicySpec
}.

(** An issuer as issuer-lib hands it to the signer.  [OtherIssuer] is any other
    implementation of its interface. *)
Inductive IssuerKind := CMPIssuer | CMPClusterIssuer | OtherIssuer.
#[global] Instance IssuerKind_eq_dec : EqDecision IssuerKind.
Proof. solve_decision. Defined.

(** A status condition: its observed generation and whether it is True. *)
Record Condition := { ObservedGeneration : Z; condition_True : bool }.

Record Issuer := {
  issuer_Kind : IssuerKind;
  issuer_Namespace : string;
  issuer_Name : string;
  issuer_UID : string;
  issuer_Generation : Z;
  issuer_Spec : CMPIssuerSpec;
  issuer_Ready : option Condition
}.

(** ** CMPTransaction *)

Record TransactionIssuerReference := {
  ref_Name : string;
  ref_Kind : string;
  ref_UID : string;
  ref_Generation : Z
}.

Record CMPTransactionSpec := {
  CertificateRequestName : string;
  CertificateRequestUID : string;
  tx_TransactionID : bytes;
  Deadline : Time;
  CSRDigest : string;
  IssuerRef : option TransactionIssuerReference;
  ConfigurationDigest : string;
  tx_Operation : string;
  tx_RenewalFallback : string;
  ProtocolVersion : Z
}.

Record CMPTransactionStatus := {
  Phase : string;
  IssuedChain : list bytes;
  CompletionTime : Time;
  tx_RecipNonce : bytes;
  tx_RequestNonce : bytes;
  tx_CertReqID : option Z;
  tx_ResponseSigner : bytes;
  Polls : Z;
  LastTransitionTime : Time
}.

Definition CMPTransactionStatus_zero : CMPTransactionStatus :=
  {| Phase := ""; IssuedChain := []; CompletionTime := 0; tx_RecipNonce := ""; tx_RequestNonce := "";
     tx_CertReqID := None; tx_ResponseSigner := ""; Polls := 0; LastTransitionTime := 0 |}.

Record OwnerReference := {
  owner_APIVersion : string;
  owner_Kind : string;
  owner_Name : string;
  owner_UID : string;
  owner_Controller : option bool
}.

Record CMPTransaction := {
  tx_Namespace : string;
  tx_Name : string;
  tx_UID : string;
  tx_ResourceVersion : string;
  tx_CreationTimestamp : Time;
  tx_OwnerReferences : list OwnerReference;
  Spec : CMPTransactionSpec;
  tx_Status : CMPTransactionStatus
}.

Definition set_Status (st : CMPTransactionStatus) (t : CMPTransaction) : CMPTransaction :=
  {| tx_Namespace := tx_Namespace t; tx_Name := tx_Name t; tx_UID := tx_UID t;
     tx_ResourceVersion := tx_ResourceVersion t;
     tx_CreationTimestamp := tx_CreationTimestamp t; tx_OwnerReferences := tx_OwnerReferences t;
     Spec := Spec t; tx_Status := st |}.

(** [transaction.Status.Polls++] on an [int32] field. *)
Definition wrap32 (z : Z) : Z := ((z + 2 ^ 31) mod 2 ^ 32 - 2 ^ 31)%Z.
Definition int32_max : Z := 2 ^ 31 - 1.

Lemma wrap32_id z : (0 ≤ z ≤ int32_max)%Z → wrap32 z = z.
Proof. unfold wrap32, int32_max. intros ?. rewrite Z.mod_small; lia. Qed.

Definition incrementPolls (t : CMPTransaction) : CMPTransaction :=
  let st := tx_Status t in
  set_Status {| Phase := Phase st; IssuedChain := IssuedChain st; CompletionTime := CompletionTime st;
     tx_RecipNonce := tx_RecipNonce st; tx_RequestNonce := tx_RequestNonce st; tx_CertReqID := tx_CertReqID st;
     tx_ResponseSigner := tx_ResponseSigner st; Polls := wrap32 (Polls st + 1); LastTransitionTime := LastTransitionTime st |} t.

(** ** Resources of cert-manager and core the controller reads *)

Definition NamespacedName : Type := string * string.

Record SecretObject := {
  secret_UID : string;
  secret_ResourceVersion : string;
  secret_Labels : gmap string string;
  secret_Annotations : gmap string string;
  secret_OwnerReferences : list OwnerReference;
  Data : gmap string bytes
}.

Record IssuerReference := { ir_Name : string; ir_Kind : string; ir_Group : string }.

(** The cert-manager Certificate that owns a CertificateRequest. *)
Record OwningCertificate := {
  oc_Name : string;
  oc_UID : string;
  oc_DeletionTimestamp : option Time;
  oc_SecretName : string;
  oc_IssuerRef : IssuerReference;
  oc_Revision : option Z;
  oc_NextPrivateKeySecretName : option string
}.

(** A cert-manager CertificateRequest as issuer-lib presents it.
    [req_Details] is the result of [GetCertificateDetails]: the CSR it carries. *)
Record CertificateRequestObject := {
  cro_Namespace : string;
  cro_Name : string;
  cro_UID : string;
  cro_Annotations : gmap string string;
  cro_OwnerReferences : list OwnerReference;
  cro_Details : error + bytes;
  (* None when the object wraps no CertificateRequest *)
  cro_Resource : option (option Duration)
}.
End Api.
