(* ===== verification/IssuerSpec.v ===== *)
(** * Validation of an issuer's spec: the pure half of
    internal/controller/configuration.go, with the operation selectors of
    internal/controller/kur.go it calls *)

From S2P Require Import Prelude GoString Types Demo Api.
Import Api.

Module IssuerSpec.

Definition schemeHTTP : string := "http".
Definition schemeHTTPS : string := "https".

Definition defaultMaximumDuration : Duration := (10 * Minute)%Z.
Definition defaultMinimumPollInterval : Duration := Second.
Definition defaultMaximumPollInterval : Duration := (5 * Minute)%Z.
Definition defaultMaximumPolls : Z := 60.

(** initialOperation returns the configured initial enrollment operation. *)
Definition initialOperation (protocolSpec : ProtocolSpec) : string :=
  if bool_decide (InitialEnrollment protocolSpec = InitialEnrollmentIR) then TransactionOperationIR
  else TransactionOperationP10CR.

(** renewalOperation returns the configured renewal operation, which follows
    initialEnrollment when omitted: P10CR after P10CR and KUR after IR. *)
Definition renewalOperation (protocolSpec : ProtocolSpec) : string :=
  if bool_decide (Renewal protocolSpec = RenewalKUR) then TransactionOperationKUR
  else if bool_decide (Renewal protocolSpec = RenewalP10CR) then TransactionOperationP10CR
  else if bool_decide (InitialEnrollment protocolSpec = InitialEnrollmentIR) then TransactionOperationKUR
  else TransactionOperationP10CR.

(** validateRequestedValidity accepts Duration only when an IR or KUR can carry
    the requested validity. *)
Definition validateRequestedValidity (spec : ProtocolSpec) : outcome error unit :=
  if bool_decide (RequestedValidity spec = "") || bool_decide (RequestedValidity spec = RequestedValidityOmit) then Ok tt
  else if bool_decide (RequestedValidity spec = RequestedValidityDuration) then
    reject_if (negb (bool_decide (InitialEnrollment spec = InitialEnrollmentIR)) &&
               negb (bool_decide (renewalOperation spec = TransactionOperationKUR)))
      (Errorf "requestedValidity Duration needs IR initial enrollment or KUR renewal, because P10CR cannot carry it")
  else Err (Errorf "requestedValidity must be Omit or Duration").

(** validateRenewalFallback accepts InitialEnrollment only for a KUR renewal. *)
Definition validateRenewalFallback (spec : ProtocolSpec) : outcome error unit :=
  if bool_decide (RenewalFallback spec = "") || bool_decide (RenewalFallback spec = RenewalFallbackNone) then Ok tt
  else if bool_decide (RenewalFallback spec = RenewalFallbackInitialEnrollment) then
    reject_if (negb (bool_decide (renewalOperation spec = TransactionOperationKUR)))
      (Errorf "renewalFallback InitialEnrollment needs KUR renewal, because only KUR depends on the current certificate")
  else Err (Errorf "renewalFallback must be None or InitialEnrollment").

(** signatureDigest maps the signatureDigest API value to a hash. *)
Definition signatureDigest (value : string) : outcome error Hash :=
  if bool_decide (value = "") then Ok HashZero
  else if bool_decide (value = SignatureDigestSHA256) then Ok SHA256
  else if bool_decide (value = SignatureDigestSHA384) then Ok SHA384
  else if bool_decide (value = SignatureDigestSHA512) then Ok SHA512
  else Err (Errorf "signatureDigest must be SHA256, SHA384 or SHA512").

(** validateSignatureDigest accepts an omitted signatureDigest or one of the
    supported digests. *)
Definition validateSignatureDigest (spec : ProtocolSpec) : outcome error unit :=
  _ ← signatureDigest (ps_SignatureDigest spec); Ok tt.

(** [cmp.Or] over errors: the first that is not nil.  The arguments are
    evaluated by the caller. *)
Definition cmp_Or (results : list (outcome error unit)) : outcome error unit :=
  foldr (λ r acc, match r with Ok _ => acc | _ => r end) (Ok tt) results.

(** An empty string or one of the two values of an enumeration. *)
Definition notOneOf (value first second : string) : bool :=
  negb (bool_decide (value = "")) && negb (bool_decide (value = first)) && negb (bool_decide (value = second)).

(** [pointer != nil && *pointer != value ...] *)
Definition pinnedOutside (pinned : option Z) (allowed : list Z) : bool :=
  match pinned with None => false | Some v => negb (bool_decide (v ∈ allowed)) end.

(** validateProtocol checks enrollment, renewal, confirmation and response
    validation settings. *)
Definition validateProtocol (spec : ProtocolSpec) : outcome error unit :=
  _ ← reject_if (negb (Version spec =? 2)%Z) (Errorf "only CMPv2 is implemented");
  _ ← reject_if (negb (bool_decide (InitialEnrollment spec = InitialEnrollmentP10CR)) &&
                 negb (bool_decide (InitialEnrollment spec = InitialEnrollmentIR)))
        (Errorf "initialEnrollment must be P10CR or IR");
  _ ← reject_if (negb (bool_decide (CertProfile spec = ""))) (Errorf "certProfile is reserved until its CMP encoding is implemented");
  _ ← reject_if (notOneOf (Renewal spec) RenewalP10CR RenewalKUR) (Errorf "renewal must be P10CR or KUR");
  _ ← cmp_Or [validateRequestedValidity spec; validateRenewalFallback spec; validateSignatureDigest spec];
  _ ← reject_if (notOneOf (ValidationProfile spec) ValidationProfileInteroperable ValidationProfileRFC9483)
        (Errorf "validationProfile must be Interoperable or RFC9483");
  _ ← reject_if (notOneOf (KURResponseCAPubs spec) KURResponseCAPubsAccept KURResponseCAPubsRequireAbsent)
        (Errorf "kurResponseCaPubs must be Accept or RequireAbsent");
  _ ← reject_if (bool_decide (ps_Recipient spec = "") ||
                 (negb (bool_decide (Confirmation spec = "Explicit")) && negb (bool_decide (Confirmation spec = "Implicit"))))
        (Errorf "recipient and a supported confirmation policy are required");
  _ ← reject_if (pinnedOutside (P10CRResponseCertReqID spec) [P10CRResponseCertReqIDStandard; P10CRResponseCertReqIDLegacyZero])
        (Errorf "p10cr response certReqId must be -1 or 0");
  _ ← reject_if (notOneOf (MACResponseProtection spec) MACResponseProtectionStrict MACResponseProtectionAllowSignature)
        (Errorf "macResponseProtection must be Strict or AllowSignature");
  if bool_decide (ValidationProfile spec = ValidationProfileRFC9483) then
    _ ← reject_if (pinnedOutside (P10CRResponseCertReqID spec) [P10CRResponseCertReqIDStandard])
          (Errorf "RFC9483 validation requires p10cr response certReqId -1");
    _ ← reject_if (negb (bool_decide (MACResponseProtection spec = "")) &&
                   negb (bool_decide (MACResponseProtection spec = MACResponseProtectionStrict)))
          (Errorf "RFC9483 validation requires Strict macResponseProtection");
    reject_if (bool_decide (KURResponseCAPubs spec = KURResponseCAPubsAccept))
      (Errorf "RFC9483 validation requires KUP caPubs to be absent")
  else Ok tt.

(** The two lookup tables of passwordBasedMacAlgorithms: a missing key gives the
    zero hash. *)
Definition owfTable (value : string) : Hash :=
  if bool_decide (value = PasswordBasedMacOWFSHA256) then SHA256
  else if bool_decide (value = PasswordBasedMacOWFSHA384) then SHA384
  else if bool_decide (value = PasswordBasedMacOWFSHA512) then SHA512 else HashZero.
Definition macTable (value : string) : Hash :=
  if bool_decide (value = PasswordBasedMacMACHMACSHA256) then SHA256
  else if bool_decide (value = PasswordBasedMacMACHMACSHA384) then SHA384
  else if bool_decide (value = PasswordBasedMacMACHMACSHA512) then SHA512 else HashZero.

(** passwordBasedMacAlgorithms maps supported API values to hashes and enforces
    the library's key length limit. *)
Definition passwordBasedMacAlgorithms (spec : PasswordBasedMacAlgorithmSpec) : outcome error (Hash * Hash) :=
  let owf := owfTable (pbm_OWF spec) in
  let mac := macTable (pbm_MAC spec) in
  let unsupported := Err (Errorf "unsupported passwordBasedMac algorithm combination") in
  if bool_decide (owf = HashZero) || bool_decide (mac = HashZero) then unsupported
  else
    macSize ← Hash_Size mac;
    owfSize ← Hash_Size owf;
    if bool_decide (owfSize < macSize) then unsupported else Ok (owf, mac).

(** validateProtection enforces the selected discriminated protection
    configuration. *)
Definition validateProtection (spec : ProtectionSpec) : outcome error unit :=
  if bool_decide (prot_Type spec = ProtectionTypePasswordBasedMac) then
    match PasswordBasedMac spec, prot_Signature spec with
    | Some password, None =>
        _ ← reject_if (bool_decide (ReferenceKey password = "") || bool_decide (SecretKey password = "") ||
                       bool_decide (ReferenceKey password = SecretKey password))
              (Errorf "passwordBasedMac reference and secret must use separate Secret keys");
        _ ← passwordBasedMacAlgorithms (Algorithm password);
        reject_if ((pbm_IterationCount (Algorithm password) <? PasswordBasedMacIterationCountMinimum)%Z ||
                   (PasswordBasedMacIterationCountMaximum <? pbm_IterationCount (Algorithm password))%Z)
          (Errorf "unsupported passwordBasedMac algorithm parameters")
    | _, _ => Err (Errorf "passwordBasedMac requires only passwordBasedMac configuration")
    end
  else if bool_decide (prot_Type spec = ProtectionTypeSignature) then
    match prot_Signature spec, PasswordBasedMac spec with
    | Some signature, None =>
        reject_if (bool_decide (CertificateKey signature = "") || bool_decide (PrivateKeyKey signature = "") ||
                   bool_decide (CertificateKey signature = PrivateKeyKey signature))
          (Errorf "signature certificate and private key must use separate Secret keys")
    | _, _ => Err (Errorf "signature requires only signature configuration")
    end
  else Err (Errorf "unsupported protection type").

(** validateTransport keeps TLS credentials separate and rejects unimplemented
    mTLS. *)
Definition validateTransport (spec : TransportSpec) (usesHTTPS : bool) : outcome error unit :=
  let clientCertificate := match TLS spec with Some tls => ClientCertificateSecretRef tls | None => None end in
  let ca := match TLS spec with Some tls => tls_CASecretRef tls | None => None end in
  _ ← reject_if (bool_decide (is_Some clientCertificate)) (Errorf "mTLS client certificates are reserved for a later release");
  reject_if (negb usesHTTPS && bool_decide (is_Some ca)) (Errorf "TLS CA trust cannot be configured without an HTTPS endpoint").

Definition transactionOmitted (transaction : TransactionSpec) : bool :=
  (MaximumDuration transaction =? 0)%Z && (MinimumPollInterval transaction =? 0)%Z &&
  (MaximumPollInterval transaction =? 0)%Z && (MaximumPolls transaction =? 0)%Z.

(** validateTransactionAndPolicy enforces transaction bounds and certificate
    modification policy. *)
Definition validateTransactionAndPolicy (transaction : TransactionSpec) (policy : PolicySpec) : outcome error unit :=
  _ ← reject_if (negb (transactionOmitted transaction) &&
                 ((MaximumDuration transaction <=? 0)%Z || (MinimumPollInterval transaction <=? 0)%Z ||
                  (MaximumPollInterval transaction <? MinimumPollInterval transaction)%Z || (MaximumPolls transaction <? 1)%Z))
        (Errorf "transaction limits are invalid");
  reject_if (notOneOf (GrantedModifications policy) GrantedModificationsReject GrantedModificationsAccept)
    (Errorf "granted modifications policy is invalid").

(** transactionLimitsWithDefaults applies the documented polling defaults to an
    omitted transaction block. *)
Definition transactionLimitsWithDefaults (spec : TransactionSpec) : TransactionSpec :=
  let maximumDuration := if (MaximumDuration spec <=? 0)%Z then defaultMaximumDuration else MaximumDuration spec in
  let minimumPoll := if (MinimumPollInterval spec <=? 0)%Z then defaultMinimumPollInterval else MinimumPollInterval spec in
  let maximumPoll := if (MaximumPollInterval spec <? minimumPoll)%Z then defaultMaximumPollInterval else MaximumPollInterval spec in
  let maximumPolls := if (MaximumPolls spec <? 1)%Z then defaultMaximumPolls else MaximumPolls spec in
  {| MaximumDuration := maximumDuration; MinimumPollInterval := minimumPoll;
     MaximumPollInterval := maximumPoll; MaximumPolls := maximumPolls |}.

Section spec.
Context `{Libs}.

(** validateEndpointURL enforces one complete HTTP or HTTPS endpoint URL without
    embedded credentials. *)
Definition validateEndpointURL (value : string) : outcome error URL :=
  match url_Parse value with
  | inl _ => Err (Errorf "endpoint URL must be a complete HTTP or HTTPS URL")
  | inr endpoint =>
      _ ← reject_if (bool_decide (Host endpoint = "") ||
                     (negb (bool_decide (Scheme endpoint = schemeHTTP)) && negb (bool_decide (Scheme endpoint = schemeHTTPS))))
            (Errorf "endpoint URL must be a complete HTTP or HTTPS URL");
      _ ← reject_if (User endpoint || negb (bool_decide (Fragment endpoint = "")))
            (Errorf "endpoint URL user information and fragments are not supported");
      Ok endpoint
  end.

(** validateEndpoint enforces complete bounded HTTP or HTTPS endpoint
    configuration. *)
Definition validateEndpoint (spec : EndpointSpec) : outcome error URL :=
  endpoint ← validateEndpointURL (ep_URL spec);
  _ ← reject_if ((ep_Timeout spec <=? 0)%Z || (ep_MaxResponseSize spec <? 1024)%Z || (10485760 <? ep_MaxResponseSize spec)%Z)
        (Errorf "endpoint timeout or response size is outside supported bounds");
  Ok endpoint.

(** The scheme of the renewal endpoint, empty when none is configured. *)
Definition renewalScheme (wrap : error → error) (spec : EndpointSpec) : outcome error string :=
  if bool_decide (RenewalURL spec = "") then Ok ""%string
  else endpoint ← mapErr wrap (validateEndpointURL (RenewalURL spec)); Ok (Scheme endpoint).

Definition usesHTTPS (endpoint : URL) (renewal : string) : bool :=
  bool_decide (Scheme endpoint = schemeHTTPS) || bool_decide (renewal = schemeHTTPS).

(** validateSpec enforces local protocol, transport and protection constraints. *)
Definition validateSpec (spec : CMPIssuerSpec) : outcome error URL :=
  endpoint ← validateEndpoint (Endpoint spec);
  _ ← validateProtocol (Protocol spec);
  _ ← validateProtection (spec_Protection spec);
  renewal ← renewalScheme (Wrapped "renewal") (Endpoint spec);
  _ ← validateTransport (Transport spec) (usesHTTPS endpoint renewal);
  _ ← validateTransactionAndPolicy (Transaction spec) (Policy spec);
  Ok endpoint.

(** ** Properties *)

(** Limits a transaction can be driven by: a positive duration, an interval of
    poll delays and at least one poll. *)
Record limitsOK (limits : TransactionSpec) : Prop := {
  limits_duration : (0 < MaximumDuration limits)%Z;
  limits_minimum : (0 < MinimumPollInterval limits)%Z;
  limits_interval : (MinimumPollInterval limits ≤ MaximumPollInterval limits)%Z;
  limits_polls : (1 ≤ MaximumPolls limits)%Z
}.

Lemma transaction_limits transaction policy :
  validateTransactionAndPolicy transaction policy = Ok tt →
  limitsOK (transactionLimitsWithDefaults transaction) ∧
  (transactionOmitted transaction = false → transactionLimitsWithDefaults transaction = transaction).
Proof.
  unfold validateTransactionAndPolicy, transactionOmitted, transactionLimitsWithDefaults. rewrite bind_unit_ok, reject_if_ok.
  intros [Hv _]. destruct transaction as [maxd mind maxi polls]; simpl in *.
  destruct (Z.leb_spec maxd 0), (Z.leb_spec mind 0), (Z.ltb_spec polls 1);
    destruct (Z.eqb_spec maxd 0), (Z.eqb_spec mind 0), (Z.eqb_spec maxi 0), (Z.eqb_spec polls 0); simplify_eq/=; try lia;
    repeat match goal with |- context [Z.ltb ?a ?b] => destruct (Z.ltb_spec a b)
           | H : context [Z.ltb ?a ?b] |- _ => destruct (Z.ltb_spec a b) end; simplify_eq/=; try lia;
    (split; [constructor; simpl; unfold defaultMaximumDuration, defaultMinimumPollInterval, defaultMaximumPollInterval,
      defaultMaximumPolls, Minute, Second in *; lia|done]).
Qed.

Lemma validateSpec_parts spec endpoint :
  validateSpec spec = Ok endpoint →
  validateEndpoint (Endpoint spec) = Ok endpoint ∧ validateProtocol (Protocol spec) = Ok tt ∧
  validateProtection (spec_Protection spec) = Ok tt ∧
  validateTransactionAndPolicy (Transaction spec) (Policy spec) = Ok tt ∧
  ∃ renewal, renewalScheme (Wrapped "renewal") (Endpoint spec) = Ok renewal.
Proof.
  unfold validateSpec. rewrite bind_ok. intros (e & He & Hx). rewrite bind_unit_ok, bind_unit_ok, bind_ok in Hx.
  destruct Hx as (Hp & Hprot & renewal & Hr & Hx). rewrite bind_unit_ok, bind_unit_ok in Hx.
  destruct Hx as (_ & Ht & [= <-]). eauto 10.
Qed.

(** Every issuer spec that validateSpec accepts gives well-formed transaction limits once the defaults are
    applied (positive duration and minimum delay, minimum at most maximum, at least one poll), an omitted
    block gives the documented defaults and limits that are given are used unchanged. *)
Theorem validateSpec_limits spec endpoint :
  validateSpec spec = Ok endpoint →
  limitsOK (transactionLimitsWithDefaults (Transaction spec)) ∧
  (if transactionOmitted (Transaction spec)
   then transactionLimitsWithDefaults (Transaction spec) =
        {| MaximumDuration := 10 * Minute; MinimumPollInterval := Second; MaximumPollInterval := 5 * Minute; MaximumPolls := 60 |}
   else transactionLimitsWithDefaults (Transaction spec) = Transaction spec).
Proof.
  intros (_ & _ & _ & Ht & _)%validateSpec_parts. apply transaction_limits in Ht as [Hok Hkeep].
  split; [done|]. destruct (transactionOmitted (Transaction spec)) eqn:Eo; [|auto].
  unfold transactionOmitted in Eo. simplify_bool. destruct Eo as [[[E1 E2] E3] E4].
  unfold transactionLimitsWithDefaults. by rewrite E1, E2, E3, E4.
Qed.

(** validateProtocol accepts the RFC 9483 profile only with settings that do not contradict it: a P10CR
    certReqId of -1 if one is pinned, strict MAC response protection if any is named, and no KUP caPubs. *)
Theorem validateProtocol_RFC9483 spec :
  validateProtocol spec = Ok tt → ValidationProfile spec = ValidationProfileRFC9483 →
  (P10CRResponseCertReqID spec = None ∨ P10CRResponseCertReqID spec = Some P10CRResponseCertReqIDStandard) ∧
  (MACResponseProtection spec = "" ∨ MACResponseProtection spec = MACResponseProtectionStrict) ∧
  (KURResponseCAPubs spec = "" ∨ KURResponseCAPubs spec = KURResponseCAPubsRequireAbsent).
Proof.
  unfold validateProtocol. rewrite !bind_unit_ok, !reject_if_ok. intros Hv Hp.
  destruct Hv as (_ & _ & _ & _ & _ & _ & Hk & _ & _ & _ & Hv). rewrite bool_decide_eq_true_2 in Hv by done.
  rewrite !bind_unit_ok, !reject_if_ok in Hv. destruct Hv as (H1 & H2 & H3).
  unfold pinnedOutside, notOneOf in *. simplify_bool. split_and!.
  - destruct (P10CRResponseCertReqID spec); [|by left]. right. simplify_bool. f_equal. by apply list_elem_of_singleton.
  - done.
  - naive_solver.
Qed.
End spec.

#[local] Existing Instance Demo.demoLibs.

Definition demoProtocol : ProtocolSpec :=
  {| Version := 2; InitialEnrollment := "P10CR"; Renewal := ""; RequestedValidity := ""; RenewalFallback := "";
     ValidationProfile := "RFC9483"; KURResponseCAPubs := ""; P10CRResponseCertReqID := None;
     MACResponseProtection := ""; ps_SignatureDigest := ""; CertProfile := ""; ps_Sender := "";
     ps_Recipient := "CN=CA"; Confirmation := "Explicit" |}.

Definition demoSpec : CMPIssuerSpec :=
  {| Endpoint := {| ep_URL := "http://ca"; RenewalURL := ""; ep_Timeout := Second; ep_MaxResponseSize := 1024 |};
     Protocol := demoProtocol;
     spec_Protection := {| prot_Type := "PasswordBasedMac";
       PasswordBasedMac := Some {| pbm_SecretRef := {| lsr_Name := "mac" |}; ReferenceKey := "reference"; SecretKey := "secret";
         Algorithm := {| pbm_OWF := "SHA256"; pbm_MAC := "HMACSHA256"; pbm_IterationCount := 1024 |} |};
       prot_Signature := None |};
     spec_CMPTrust := {| CASecretRef := {| skr_Name := "trust"; skr_Key := "ca.crt" |}; SignerCertificatesSecretRef := None |};
     Transport := {| TLS := None |};
     Transaction := {| MaximumDuration := 0; MinimumPollInterval := 0; MaximumPollInterval := 0; MaximumPolls := 0 |};
     Policy := {| GrantedModifications := "" |} |}.

Lemma validateSpec_limits_witness :
  limitsOK (transactionLimitsWithDefaults (Transaction demoSpec)) ∧
  transactionLimitsWithDefaults (Transaction demoSpec) =
  {| MaximumDuration := 10 * Minute; MinimumPollInterval := Second; MaximumPollInterval := 5 * Minute; MaximumPolls := 60 |}.
Proof.
  apply (validateSpec_limits demoSpec {| Scheme := "http"; Host := "ca"; User := false; Fragment := "" |}).
  vm_compute. reflexivity.
Defined.

Lemma validateProtocol_RFC9483_witness :
  (P10CRResponseCertReqID demoProtocol = None ∨ P10CRResponseCertReqID demoProtocol = Some P10CRResponseCertReqIDStandard) ∧
  (MACResponseProtection demoProtocol = "" ∨ MACResponseProtection demoProtocol = MACResponseProtectionStrict) ∧
  (KURResponseCAPubs demoProtocol = "" ∨ KURResponseCAPubs demoProtocol = KURResponseCAPubsRequireAbsent).
Proof. apply (validateProtocol_RFC9483 demoProtocol); vm_compute; reflexivity. Defined.
End IssuerSpec.
