(* ===== verification/GoMemory.v ===== *)
(** * Go's memory: typed blocks, pointers and slices

    A heap of blocks, each an array of values of one kind.  A pointer names an
    element of a block, a slice a range of one.  Code that copies what it reads
    is described by the blocks it adds. *)

From S2P Require Import Prelude Types.

Module GoMemory.

Definition loc : Type := positive.

(** [&block[i]], and the header of a slice without its capacity. *)
Record addr := { a_Block : loc; a_Index : nat }.
Record slice := { s_Block : loc; s_Offset : nat; s_Len : nat }.
#[global] Instance addr_eq_dec : EqDecision addr.
Proof. solve_decision. Defined.
#[global] Instance slice_eq_dec : EqDecision slice.
Proof. solve_decision. Defined.

Section memory.
Context {kind : Type} `{EqDecision kind} (contents : kind → Type) (zero : ∀ k, contents k).

(** ** Blocks *)

Definition block : Type := { k : kind & list (contents k) }.
Abbreviation heap := (gmap loc block).
Definition HM (A : Type) : Type := M heap error A.

Definition array (k : kind) (xs : list (contents k)) : block := existT k xs.
Definition typed (k : kind) (b : block) : option (list (contents k)) :=
  match decide (projT1 b = k) with
  | left e => Some (eq_rect _ (λ k, list (contents k)) (projT2 b) _ e)
  | right _ => None
  end.

Lemma typed_same k (l : list (contents k)) : typed k (array k l) = Some l.
Proof. unfold typed. simpl. by rewrite (decide_True_pi (P:=k = k) eq_refl). Qed.

(** What the blocks of a heap hold. *)
Definition blockAt (h : heap) (k : kind) (l : loc) : option (list (contents k)) := h !! l ≫= typed k.
Definition elementAt (h : heap) (k : kind) (p : addr) : option (contents k) := blockAt h k (a_Block p) ≫= lookup (a_Index p).
Definition rangeAt (h : heap) (k : kind) (s : slice) : option (list (contents k)) :=
  xs ← blockAt h k (s_Block s);
  if s_Offset s + s_Len s <=? length xs then Some (take (s_Len s) (drop (s_Offset s) xs)) else None.

(** ** Operations *)

(** [*p]; an address outside a block of the kind does not occur in Go. *)
Definition load (k : kind) (p : addr) : HM (contents k) := λ h,
  (match elementAt h k p with Some x => Ok x | None => Panic end, h).

(** [*p = x] *)
Definition store (k : kind) (p : addr) (x : contents k) : HM unit := λ h,
  match blockAt h k (a_Block p) with
  | Some xs => if a_Index p <? length xs then (Ok tt, <[a_Block p := array k (<[a_Index p := x]> xs)]> h) else (Panic, h)
  | None => (Panic, h)
  end.

(** [make([]T, n)], and [new(T)] for one element. *)
Definition make (k : kind) (n : nat) : HM loc := λ h,
  let l := fresh (dom h) in (Ok l, <[l := array k (replicate n (zero k))]> h).

(** [p = new(T)] and the statements that fill [*p] from [x]. *)
Definition newCopy (k : kind) (copyInto : contents k → HM (contents k)) (p : addr) : HM addr :=
  l ← make k 1;
  x ← load k p;
  x' ← copyInto x;
  _ ← store k {| a_Block := l; a_Index := 0 |} x';
  mret {| a_Block := l; a_Index := 0 |}.

(** [if in != nil { out = new(T); ... }] *)
Definition copyPointer (k : kind) (copyInto : contents k → HM (contents k)) (p : option addr) : HM (option addr) :=
  match p with None => mret None | Some p => q ← newCopy k copyInto p; mret (Some q) end.

(** [for i := range *in { ( *in)[i].DeepCopyInto(&( *out)[i]) }] from index [i] on,
    [n] iterations. *)
Fixpoint copyElements (k : kind) (copyInto : contents k → HM (contents k)) (s : slice) (l : loc) (i n : nat) : HM unit :=
  match n with
  | 0 => mret tt
  | S n =>
      x ← load k {| a_Block := s_Block s; a_Index := s_Offset s + i |};
      x' ← copyInto x;
      _ ← store k {| a_Block := l; a_Index := i |} x';
      copyElements k copyInto s l (S i) n
  end.

(** [if in != nil { *out = make([]T, len( *in)); for ... }] *)
Definition copySlice (k : kind) (copyInto : contents k → HM (contents k)) (s : option slice) : HM (option slice) :=
  match s with
  | None => mret None
  | Some s =>
      l ← make k (s_Len s);
      _ ← copyElements k copyInto s l 0 (s_Len s);
      mret (Some {| s_Block := l; s_Offset := 0; s_Len := s_Len s |})
  end.

(** ** Values

    [sees h x v]: in heap [h], the Go value [x] stands for [v].  A pointer
    stands for what it points to, a slice for the list of its elements. *)
Definition seesPointer {V} (k : kind) (sees : heap → contents k → V → Prop) (h : heap) (p : option addr) (v : option V) : Prop :=
  match p, v with
  | None, None => True
  | Some p, Some v => ∃ x, elementAt h k p = Some x ∧ sees h x v
  | _, _ => False
  end.

Definition seesSlice {V} (k : kind) (sees : heap → contents k → V → Prop) (h : heap) (s : option slice) (v : option (list V)) : Prop :=
  match s, v with
  | None, None => True
  | Some s, Some vs => ∃ xs, rangeAt h k s = Some xs ∧ Forall2 (sees h) xs vs
  | _, _ => False
  end.

(** A value that holds no pointer stands for itself. *)
Definition seesPlain {V} (h : heap) (x v : V) : Prop := x = v.

(** More memory does not change what a value stands for. *)
Class Monotone {T V} (sees : heap → T → V → Prop) : Prop := mono h h' x v : h ⊆ h' → sees h x v → sees h' x v.

#[global] Instance seesPlain_mono {V} : Monotone (@seesPlain V).
Proof. by intros h h' x v _ ->. Qed.

Lemma blockAt_mono h h' k l xs : h ⊆ h' → blockAt h k l = Some xs → blockAt h' k l = Some xs.
Proof.
  unfold blockAt. intros Hsub. destruct (h !! l) as [b|] eqn:E; [|done]. simpl. intros Hb.
  by rewrite (lookup_weaken _ _ _ _ E Hsub).
Qed.

#[global] Instance seesPointer_mono {V} k (sees : heap → contents k → V → Prop) : Monotone sees → Monotone (seesPointer k sees).
Proof.
  intros Hm h h' [p|] [v|] Hsub; simpl; try done. unfold elementAt. intros (x & Hx & Hs).
  destruct (blockAt h k (a_Block p)) as [xs|] eqn:E; [|done]. exists x. rewrite (blockAt_mono _ _ _ _ _ Hsub E).
  split; [done|]. by eapply mono.
Qed.

#[global] Instance seesSlice_mono {V} k (sees : heap → contents k → V → Prop) : Monotone sees → Monotone (seesSlice k sees).
Proof.
  intros Hm h h' [s|] [vs|] Hsub; simpl; try done. unfold rangeAt. intros (xs & Hx & Hs).
  destruct (blockAt h k (s_Block s)) as [ys|] eqn:E; [|done]. exists xs. rewrite (blockAt_mono _ _ _ _ _ Hsub E).
  split; [done|]. eapply Forall2_impl; [done|]. intros. by eapply mono.
Qed.

(** ** Copying

    [copying h m Q]: from heap [h], [m] returns and changes nothing of [h]; its
    result and the blocks it added satisfy [Q]. *)
Definition copying {A} (h : heap) (m : HM A) (Q : heap → A → Prop) : Prop :=
  ∃ a own, m h = (Ok a, h ∪ own) ∧ h ##ₘ own ∧ Q own a.

Lemma copying_ret {A} h (a : A) (Q : heap → A → Prop) : Q ∅ a → copying h (mret a) Q.
Proof. intros HQ. exists a, ∅. rewrite map_union_empty. split_and!; [done|apply map_disjoint_empty_r|done]. Qed.

(** A copy stands for the same value, in the blocks it added alone. *)
Definition copies {T V} (sees : heap → T → V → Prop) (copyInto : T → HM T) : Prop :=
  ∀ h x v, sees h x v → copying h (copyInto x) (λ own x', sees own x' v).

Lemma copies_plain {V} : copies (@seesPlain V) (λ x, mret x).
Proof. intros h x v ->. by apply copying_ret. Qed.

(** *** Copying one field after the other

    [gathers h own m Q]: from [h] and the blocks [own] already added, [m]
    returns and only adds to them. *)
Definition gathers {A} (h own : heap) (m : HM A) (Q : heap → A → Prop) : Prop :=
  ∃ a (own' : heap), m (h ∪ own) = (Ok a, h ∪ own') ∧ h ##ₘ own' ∧ Q own' a.

Lemma gathers_ret {A} (h own : heap) (a : A) (Q : heap → A → Prop) : h ##ₘ own → Q own a → gathers h own (mret a) Q.
Proof. intros. by exists a, own. Qed.

Lemma gathers_field {T V B} (sees : heap → T → V → Prop) (copyInto : T → HM T) h own x v (f : T → HM B) (Q : heap → B → Prop) :
  copies sees copyInto → Monotone sees → sees h x v → h ##ₘ own →
  (∀ (own' : heap) x', own ⊆ own' → h ##ₘ own' → sees own' x' v → gathers h own' (f x') Q) →
  gathers h own (copyInto x ≫= f) Q.
Proof.
  intros Hc Hm Hs Hd Hf. destruct (Hc (h ∪ own) x v) as (x' & added & Hrun & Hd' & Hs').
  { eapply mono; [|exact Hs]. apply map_union_subseteq_l. }
  apply map_disjoint_union_l in Hd' as [Hdh Hdo].
  destruct (Hf (own ∪ added) x') as (b & own' & Hrun' & Hd'' & HQ);
    [apply map_union_subseteq_l|by apply map_disjoint_union_r_2|eapply mono; [by apply map_union_subseteq_r|done]|].
  exists b, own'. unfold mbind, M_bind. by rewrite Hrun, <- map_union_assoc, Hrun'.
Qed.

Lemma copies_gathers {T V} (sees : heap → T → V → Prop) (copyInto : T → HM T) :
  (∀ h x v, sees h x v → gathers h ∅ (copyInto x) (λ own x', sees own x' v)) → copies sees copyInto.
Proof.
  intros Hg h x v Hs. destruct (Hg h x v Hs) as (x' & own & Hrun & Hd & Hs'). rewrite map_union_empty in Hrun. by exists x', own.
Qed.

(** ** Copies behind pointers and slices *)

Section fill.
Context {V : Type} (k : kind) (sees : heap → contents k → V → Prop) `{!Monotone sees} (copyInto : contents k → HM (contents k)).
Context (Hcopy : copies sees copyInto).

Lemma blockAt_new (h own : heap) l (ys : list (contents k)) :
  h !! l = None → blockAt (h ∪ <[l := array k ys]> own) k l = Some ys.
Proof.
  intros Hl. unfold blockAt. rewrite lookup_union_r by done. rewrite lookup_insert_eq. apply typed_same.
Qed.

(** One element: the block at [l] is new, [own] are the blocks of the elements
    already copied. *)
Lemma fill_element (h own : heap) l (ys : list (contents k)) i p x v :
  h !! l = None → own !! l = None → h ##ₘ own → elementAt h k p = Some x → sees h x v → i < length ys →
  ∃ x' (own' : heap), (x ← load k p; x' ← copyInto x; store k {| a_Block := l; a_Index := i |} x') (h ∪ <[l := array k ys]> own) =
      (Ok tt, h ∪ <[l := array k (<[i := x']> ys)]> (own ∪ own')) ∧
    h ##ₘ own ∪ own' ∧ (own ∪ own') !! l = None ∧ sees (own ∪ own') x' v.
Proof.
  intros Hl Hol Hd Hx Hs Hi. pose proof (blockAt_new h own l ys Hl) as Hb.
  remember (h ∪ <[l := array k ys]> own) as H eqn:EH.
  assert (Hsub : h ⊆ H) by (subst H; apply map_union_subseteq_l).
  destruct (Hcopy H x v) as (x' & own' & Hc & Hd' & Hs'); [by eapply mono|].
  assert (Hd2 := Hd'). rewrite EH in Hd2. apply map_disjoint_union_l in Hd2 as [Hdh [Hol' Hdo]%map_disjoint_insert_l].
  exists x', own'. split_and!.
  - unfold mbind, M_bind, load. unfold elementAt in *. destruct (blockAt h k (a_Block p)) as [xs|] eqn:E; [|done].
    rewrite (blockAt_mono _ _ _ _ _ Hsub E). simpl in *. rewrite Hx, Hc. unfold store. simpl.
    rewrite (blockAt_mono H (H ∪ own') k l ys) by (done || apply map_union_subseteq_l).
    rewrite (proj2 (Nat.ltb_lt _ _)) by done. f_equal. rewrite EH. rewrite <- map_union_assoc.
    rewrite insert_union_r by done. by rewrite !insert_union_l, insert_insert_eq.
  - by apply map_disjoint_union_r_2.
  - by apply lookup_union_None_2.
  - eapply mono; [|exact Hs']. apply map_union_subseteq_r. done.
Qed.

(** A range read element by element. *)
Lemma rangeAt_element h s xs i x :
  rangeAt h k s = Some xs → xs !! i = Some x → elementAt h k {| a_Block := s_Block s; a_Index := s_Offset s + i |} = Some x.
Proof.
  unfold rangeAt, elementAt. cbn [a_Block a_Index]. destruct (blockAt h k (s_Block s)) as [ys|]; [|done]. simpl.
  destruct (_ <=? _); [|done]. intros [= <-] Hi. apply lookup_take_Some in Hi as [Hi _]. by rewrite lookup_drop in Hi.
Qed.

Lemma fill_elements h s xs l :
  rangeAt h k s = Some xs → h !! l = None → ∀ vs done rest own ys,
  xs = done ++ rest → Forall2 (sees h) rest vs → length ys = length xs → own !! l = None → h ##ₘ own →
  ∃ zs (own' : heap), copyElements k copyInto s l (length done) (length rest) (h ∪ <[l := array k ys]> own) =
      (Ok tt, h ∪ <[l := array k (take (length done) ys ++ zs)]> (own ∪ own')) ∧
    h ##ₘ own ∪ own' ∧ (own ∪ own') !! l = None ∧ Forall2 (sees (own ∪ own')) zs vs.
Proof.
  intros Hr Hl vs done rest. revert vs done.
  induction rest as [|x rest IH]; intros vs done own ys Hxs Hvs Hlen Hol Hd.
  - apply Forall2_nil_inv_l in Hvs as ->. exists [], ∅. rewrite map_union_empty, app_nil_r. rewrite app_nil_r in Hxs. subst done.
    rewrite take_ge by lia. by split_and!.
  - apply Forall2_cons_inv_l in Hvs as (v & vs' & Hv & Hvs & ->).
    assert (Hx : xs !! length done = Some x) by (by rewrite Hxs, list_lookup_middle).
    assert (Hi : length done < length ys) by (rewrite Hlen; by eapply lookup_lt_Some).
    destruct (fill_element h own l ys (length done) _ x v Hl Hol Hd (rangeAt_element _ _ _ _ _ Hr Hx) Hv Hi)
      as (x' & own1 & Hrun & Hd1 & Hol1 & Hs1).
    destruct (IH vs' (done ++ [x]) (own ∪ own1) (<[length done := x']> ys)) as (zs & own2 & Hrun2 & Hd2 & Hol2 & Hs2);
      [by rewrite Hxs, <- app_assoc|done|by rewrite length_insert|done|done|].
    exists (x' :: zs), (own1 ∪ own2). rewrite map_union_assoc. rewrite length_app, Nat.add_1_r in Hrun2.
    split_and!; [|done..|constructor; [|done]].
    + cbn [length copyElements]. unfold mbind, M_bind in Hrun |- *.
      destruct (load k _ _) as [[y| |] h1]; try done. destruct (copyInto y h1) as [[y'| |] h2]; try done.
      destruct (store k _ _ h2) as [[[]| |] h3]; simplify_eq. rewrite Hrun2. do 4 f_equal.
      rewrite (take_S_r _ _ x') by (by apply list_lookup_insert_eq). rewrite take_insert, decide_False by lia. by rewrite <- app_assoc.
    + eapply mono; [|exact Hs1]. apply map_union_subseteq_l.
Qed.

Lemma rangeAt_length h s xs : rangeAt h k s = Some xs → length xs = s_Len s.
Proof.
  unfold rangeAt. destruct (blockAt h k (s_Block s)) as [ys|]; [|done]. simpl. destruct (Nat.leb_spec (s_Offset s + s_Len s) (length ys)); [|done].
  intros [= <-]. rewrite length_take, length_drop. lia.
Qed.

Lemma fresh_heap (h : heap) : h !! fresh (dom h) = None.
Proof. apply not_elem_of_dom, is_fresh. Qed.

(** make is the first step of a copy: its block is new. *)
Lemma make_new n h : make k n h = (Ok (fresh (dom h)), h ∪ <[fresh (dom h) := array k (replicate n (zero k))]> ∅).
Proof. unfold make. by rewrite <- insert_union_r, map_union_empty by apply fresh_heap. Qed.

Lemma new_disjoint (h own : heap) l b : h !! l = None → h ##ₘ own → h ##ₘ <[l := b]> own.
Proof. intros. by apply map_disjoint_insert_r_2. Qed.

(** The elements of a slice are copied into a new array. *)
Lemma copies_slice : copies (seesSlice k sees) (copySlice k copyInto).
Proof.
  intros h [s|] [vs|] Hs; try done; [|by apply copying_ret].
  destruct Hs as (xs & Hr & Hvs). set (l := fresh (dom h)). pose proof (fresh_heap h) as Hl. fold l in Hl.
  destruct (fill_elements h s xs l Hr Hl vs [] xs ∅ (replicate (s_Len s) (zero k))) as (zs & own & Hrun & Hd & Hol & Hzs);
    [done|done|rewrite length_replicate; by rewrite (rangeAt_length _ _ _ Hr)|done|apply map_disjoint_empty_r|].
  rewrite map_empty_union in *. simpl in Hrun. rewrite (rangeAt_length _ _ _ Hr) in Hrun.
  exists (Some {| s_Block := l; s_Offset := 0; s_Len := s_Len s |}), (<[l := array k zs]> own). split_and!.
  - unfold copySlice, mbind, M_bind. rewrite make_new. fold l. by rewrite Hrun.
  - by apply new_disjoint.
  - exists zs. unfold rangeAt, blockAt. cbn [s_Block s_Offset s_Len]. rewrite lookup_insert_eq. cbn [mbind option_bind]. rewrite typed_same.
    assert (length zs = s_Len s) as Hlen.
    { apply Forall2_length in Hzs, Hvs. rewrite Hzs, <- Hvs. by eapply rangeAt_length. }
    cbn. rewrite Hlen, Nat.leb_refl, drop_0, take_ge by lia. split; [done|].
    eapply Forall2_impl; [done|]. intros. eapply mono; [|done]. by apply insert_subseteq.
Qed.

(** What a pointer points to is copied into a new variable. *)
Lemma copies_pointer : copies (seesPointer k sees) (copyPointer k copyInto).
Proof.
  intros h [p|] [v|] Hs; try done; [|by apply copying_ret].
  destruct Hs as (x & Hx & Hv). set (l := fresh (dom h)). pose proof (fresh_heap h) as Hl. fold l in Hl.
  destruct (fill_element h ∅ l (replicate 1 (zero k)) 0 p x v) as (x' & own & Hrun & Hd & Hol & Hs);
    [done|done|apply map_disjoint_empty_r|done|done|simpl; lia|].
  rewrite map_empty_union in *.
  exists (Some {| a_Block := l; a_Index := 0 |}), (<[l := array k [x']]> own). split_and!.
  - unfold copyPointer, newCopy. unfold mbind, M_bind in *. rewrite make_new. fold l.
    destruct (load k p _) as [[y| |] h1]; try done. destruct (copyInto y h1) as [[y'| |] h2]; try done.
    destruct (store k _ _ h2) as [[[]| |] h3]; by simplify_eq.
  - by apply new_disjoint.
  - exists x'. unfold elementAt, blockAt. cbn [a_Block a_Index]. rewrite lookup_insert_eq. cbn [mbind option_bind]. rewrite typed_same.
    split; [done|]. eapply mono; [|done]. by apply insert_subseteq.
Qed.
End fill.
End memory.
End GoMemory.
