(* ===== verification/DeepCopy.v ===== *)
(** * Deep copies: api/v1alpha1/zz_generated.deepcopy.go

    The API types as they lie in memory, with their pointers and slices, and
    the generated functions that copy them.  A copy stands for the same value
    and shares no memory with the original. *)

From S2P Require Import Prelude Types Api GoMemory.
Import Api GoMemory.

Module DeepCopy.

(** ** The types of k8s.io/apimachinery *)

(** In-memory forms, their values and their zero values; [OtherM] is what else
    the package keeps in memory. *)
Class MetaV1 := {
  TypeMeta : Type; ObjectMetaM : Type; ObjectMetaV : Type; ListMetaM : Type; ListMetaV : Type;
  ConditionM : Type; ConditionV : Type; OtherM : Type;
  zero_TypeMeta : TypeMeta; zero_ObjectMeta : ObjectMetaM; zero_ListMeta : ListMetaM; zero_Condition : ConditionM; zero_Other : OtherM
}.

(** ** The API types

    A struct is declared once, over the representation of what is reached
    through a pointer or slice: by its address in memory, or by its value. *)
Record repr := { ptr : Type → Type; vec : Type → Type; ObjectMeta : Type; ListMeta : Type; ConditionR : Type }.

#[local] Set Implicit Arguments.

Record ProtocolSpecR (R : repr) := {
  r_Version : Z; r_InitialEnrollment : string; r_Renewal : string; r_RequestedValidity : string; r_RenewalFallback : string;
  r_ValidationProfile : string; r_KURResponseCAPubs : string; r_P10CRResponseCertReqID : ptr R Z; r_MACResponseProtection : string;
  r_SignatureDigest : string; r_CertProfile : string; r_Sender : string; r_Recipient : string; r_Confirmation : string
}.
Record ProtectionSpecR (R : repr) := {
  r_Type : string; r_PasswordBasedMac : ptr R PasswordBasedMacSpec; r_Signature : ptr R SignatureProtectionSpec
}.
Record CMPTrustSpecR (R : repr) := { r_CASecretRef : SecretKeyReference; r_SignerCertificatesSecretRef : ptr R SecretKeyReference }.
Record TLSTransportSpecR (R : repr) := {
  r_TLSCASecretRef : ptr R SecretKeyReference; r_ClientCertificateSecretRef : ptr R LocalSecretReference
}.
Record TransportSpecR (R : repr) := { r_TLS : ptr R (TLSTransportSpecR R) }.
Record CMPIssuerSpecR (R : repr) := {
  r_Endpoint : EndpointSpec; r_Protocol : ProtocolSpecR R; r_Protection : ProtectionSpecR R; r_CMPTrust : CMPTrustSpecR R;
  r_Transport : TransportSpecR R; r_Transaction : TransactionSpec; r_Policy : PolicySpec
}.
Record CMPIssuerStatusR (R : repr) := { r_Conditions : vec R (ConditionR R) }.
Record CMPTransactionSpecR (R : repr) := {
  r_CertificateRequestName : string; r_CertificateRequestUID : string; r_TransactionID : vec R ascii; r_Deadline : Time;
  r_CSRDigest : string; r_IssuerRef : ptr R TransactionIssuerReference; r_ConfigurationDigest : string; r_Operation : string;
  r_TxRenewalFallback : string; r_ProtocolVersion : Z
}.
Record CMPTransactionStatusR (R : repr) := {
  r_Phase : string; r_IssuedChain : vec R (vec R ascii); r_CompletionTime : Time; r_RecipNonce : vec R ascii; r_RequestNonce : vec R ascii;
  r_CertReqID : ptr R Z; r_ResponseSigner : vec R ascii; r_Polls : Z; r_LastTransitionTime : Time
}.

Section types.
Context `{MetaV1}.

Record CMPIssuerR (R : repr) := {
  i_TypeMeta : TypeMeta; i_ObjectMeta : ObjectMeta R; i_Spec : CMPIssuerSpecR R; i_Status : CMPIssuerStatusR R
}.
Record CMPClusterIssuerR (R : repr) := {
  c_TypeMeta : TypeMeta; c_ObjectMeta : ObjectMeta R; c_Spec : CMPIssuerSpecR R; c_Status : CMPIssuerStatusR R
}.
Record CMPTransactionR (R : repr) := {
  t_TypeMeta : TypeMeta; t_ObjectMeta : ObjectMeta R; t_Spec : CMPTransactionSpecR R; t_Status : CMPTransactionStatusR R
}.
(** CMPIssuerList, CMPClusterIssuerList and CMPTransactionList over their item. *)
Record CMPIssuerListR (R : repr) := { il_TypeMeta : TypeMeta; il_ListMeta : ListMeta R; il_Items : vec R (CMPIssuerR R) }.
Record CMPClusterIssuerListR (R : repr) := { cl_TypeMeta : TypeMeta; cl_ListMeta : ListMeta R; cl_Items : vec R (CMPClusterIssuerR R) }.
Record CMPTransactionListR (R : repr) := { tl_TypeMeta : TypeMeta; tl_ListMeta : ListMeta R; tl_Items : vec R (CMPTransactionR R) }.

Definition inMemory : repr :=
  {| ptr := λ _, option addr; vec := λ _, option slice; ObjectMeta := ObjectMetaM; ListMeta := ListMetaM; ConditionR := ConditionM |}.
Definition asValue : repr :=
  {| ptr := option; vec := λ T, option (list T); ObjectMeta := ObjectMetaV; ListMeta := ListMetaV; ConditionR := ConditionV |}.
End types.

#[local] Unset Implicit Arguments.

(** ** What a block of memory may hold *)

Inductive kind :=
| KByte | KByteSlice | KInt64 | KCondition | KOther
| KLocalSecretReference | KSecretKeyReference | KEndpointSpec | KPasswordBasedMacAlgorithmSpec | KPasswordBasedMacSpec
| KSignatureProtectionSpec | KTransactionSpec | KPolicySpec | KTransactionIssuerReference
| KProtocolSpec | KProtectionSpec | KCMPTrustSpec | KTLSTransportSpec | KTransportSpec | KCMPIssuerSpec | KCMPIssuerStatus
| KCMPTransactionSpec | KCMPTransactionStatus
| KCMPIssuer | KCMPClusterIssuer | KCMPTransaction | KCMPIssuerList | KCMPClusterIssuerList | KCMPTransactionList.
#[global] Instance kind_eq_dec : EqDecision kind.
Proof. solve_decision. Defined.

(** A value of a kind, over a representation. *)
Definition valueR `{MetaV1} (other : Type) (R : repr) (k : kind) : Type :=
  match k with
  | KByte => ascii | KByteSlice => vec R ascii | KInt64 => Z | KCondition => ConditionR R | KOther => other
  | KLocalSecretReference => LocalSecretReference | KSecretKeyReference => SecretKeyReference | KEndpointSpec => EndpointSpec
  | KPasswordBasedMacAlgorithmSpec => PasswordBasedMacAlgorithmSpec | KPasswordBasedMacSpec => PasswordBasedMacSpec
  | KSignatureProtectionSpec => SignatureProtectionSpec | KTransactionSpec => TransactionSpec | KPolicySpec => PolicySpec
  | KTransactionIssuerReference => TransactionIssuerReference
  | KProtocolSpec => ProtocolSpecR R | KProtectionSpec => ProtectionSpecR R | KCMPTrustSpec => CMPTrustSpecR R
  | KTLSTransportSpec => TLSTransportSpecR R | KTransportSpec => TransportSpecR R | KCMPIssuerSpec => CMPIssuerSpecR R
  | KCMPIssuerStatus => CMPIssuerStatusR R | KCMPTransactionSpec => CMPTransactionSpecR R | KCMPTransactionStatus => CMPTransactionStatusR R
  | KCMPIssuer => CMPIssuerR R | KCMPClusterIssuer => CMPClusterIssuerR R | KCMPTransaction => CMPTransactionR R
  | KCMPIssuerList => CMPIssuerListR R | KCMPClusterIssuerList => CMPClusterIssuerListR R | KCMPTransactionList => CMPTransactionListR R
  end.

Section copy.
Context `{MetaV1}.

Definition contents : kind → Type := valueR OtherM inMemory.

(** ** Zero values, as new and make leave them *)

Definition nil {T} : ptr inMemory T := None.
Definition nilSlice {T} : vec inMemory T := None.

Definition zero_LocalSecretReference : LocalSecretReference := {| lsr_Name := "" |}.
Definition zero_SecretKeyReference : SecretKeyReference := {| skr_Name := ""; skr_Key := "" |}.
Definition zero_Algorithm : PasswordBasedMacAlgorithmSpec := {| pbm_OWF := ""; pbm_MAC := ""; pbm_IterationCount := 0 |}.
Definition zero_TransactionSpec : TransactionSpec :=
  {| MaximumDuration := 0; MinimumPollInterval := 0; MaximumPollInterval := 0; MaximumPolls := 0 |}.
Definition zero_EndpointSpec : EndpointSpec := {| ep_URL := ""; RenewalURL := ""; ep_Timeout := 0; ep_MaxResponseSize := 0 |}.
Definition zero_ProtocolSpec : ProtocolSpecR inMemory :=
  {| r_Version := 0; r_InitialEnrollment := ""; r_Renewal := ""; r_RequestedValidity := ""; r_RenewalFallback := ""; r_ValidationProfile := "";
     r_KURResponseCAPubs := ""; r_P10CRResponseCertReqID := nil; r_MACResponseProtection := ""; r_SignatureDigest := ""; r_CertProfile := "";
     r_Sender := ""; r_Recipient := ""; r_Confirmation := "" |}.
Definition zero_ProtectionSpec : ProtectionSpecR inMemory := {| r_Type := ""; r_PasswordBasedMac := nil; r_Signature := nil |}.
Definition zero_CMPTrustSpec : CMPTrustSpecR inMemory :=
  {| r_CASecretRef := zero_SecretKeyReference; r_SignerCertificatesSecretRef := nil |}.
Definition zero_TLSTransportSpec : TLSTransportSpecR inMemory := {| r_TLSCASecretRef := nil; r_ClientCertificateSecretRef := nil |}.
Definition zero_TransportSpec : TransportSpecR inMemory := {| r_TLS := nil |}.
Definition zero_CMPIssuerSpec : CMPIssuerSpecR inMemory :=
  {| r_Endpoint := zero_EndpointSpec; r_Protocol := zero_ProtocolSpec; r_Protection := zero_ProtectionSpec; r_CMPTrust := zero_CMPTrustSpec;
     r_Transport := zero_TransportSpec; r_Transaction := zero_TransactionSpec; r_Policy := {| GrantedModifications := "" |} |}.
Definition zero_CMPIssuerStatus : CMPIssuerStatusR inMemory := {| r_Conditions := nilSlice |}.
Definition zero_CMPTransactionSpec : CMPTransactionSpecR inMemory :=
  {| r_CertificateRequestName := ""; r_CertificateRequestUID := ""; r_TransactionID := nilSlice; r_Deadline := 0; r_CSRDigest := "";
     r_IssuerRef := nil; r_ConfigurationDigest := ""; r_Operation := ""; r_TxRenewalFallback := ""; r_ProtocolVersion := 0 |}.
Definition zero_CMPTransactionStatus : CMPTransactionStatusR inMemory :=
  {| r_Phase := ""; r_IssuedChain := nilSlice; r_CompletionTime := 0; r_RecipNonce := nilSlice; r_RequestNonce := nilSlice; r_CertReqID := nil;
     r_ResponseSigner := nilSlice; r_Polls := 0; r_LastTransitionTime := 0 |}.

Definition zero (k : kind) : contents k :=
  match k with
  | KByte => Ascii.zero | KByteSlice => None | KInt64 => 0%Z | KCondition => zero_Condition | KOther => zero_Other
  | KLocalSecretReference => zero_LocalSecretReference | KSecretKeyReference => zero_SecretKeyReference | KEndpointSpec => zero_EndpointSpec
  | KPasswordBasedMacAlgorithmSpec => zero_Algorithm
  | KPasswordBasedMacSpec =>
      {| pbm_SecretRef := zero_LocalSecretReference; ReferenceKey := ""; SecretKey := ""; Algorithm := zero_Algorithm |}
  | KSignatureProtectionSpec => {| sig_SecretRef := zero_LocalSecretReference; CertificateKey := ""; PrivateKeyKey := ""; ChainKey := "" |}
  | KTransactionSpec => zero_TransactionSpec | KPolicySpec => {| GrantedModifications := "" |}
  | KTransactionIssuerReference => {| ref_Name := ""; ref_Kind := ""; ref_UID := ""; ref_Generation := 0 |}
  | KProtocolSpec => zero_ProtocolSpec | KProtectionSpec => zero_ProtectionSpec | KCMPTrustSpec => zero_CMPTrustSpec
  | KTLSTransportSpec => zero_TLSTransportSpec | KTransportSpec => zero_TransportSpec | KCMPIssuerSpec => zero_CMPIssuerSpec
  | KCMPIssuerStatus => zero_CMPIssuerStatus | KCMPTransactionSpec => zero_CMPTransactionSpec | KCMPTransactionStatus => zero_CMPTransactionStatus
  | KCMPIssuer =>
      {| i_TypeMeta := zero_TypeMeta; i_ObjectMeta := (zero_ObjectMeta : ObjectMeta inMemory); i_Spec := zero_CMPIssuerSpec; i_Status := zero_CMPIssuerStatus |}
  | KCMPClusterIssuer =>
      {| c_TypeMeta := zero_TypeMeta; c_ObjectMeta := (zero_ObjectMeta : ObjectMeta inMemory); c_Spec := zero_CMPIssuerSpec; c_Status := zero_CMPIssuerStatus |}
  | KCMPTransaction =>
      {| t_TypeMeta := zero_TypeMeta; t_ObjectMeta := (zero_ObjectMeta : ObjectMeta inMemory); t_Spec := zero_CMPTransactionSpec; t_Status := zero_CMPTransactionStatus |}
  | KCMPIssuerList => Build_CMPIssuerListR inMemory zero_TypeMeta zero_ListMeta None
  | KCMPClusterIssuerList => Build_CMPClusterIssuerListR inMemory zero_TypeMeta zero_ListMeta None
  | KCMPTransactionList => Build_CMPTransactionListR inMemory zero_TypeMeta zero_ListMeta None
  end.

Abbreviation heap := (gmap loc (block contents)).
Abbreviation HM := (GoMemory.HM contents).
Abbreviation copyPointer := (GoMemory.copyPointer contents zero).
Abbreviation copySlice := (GoMemory.copySlice contents zero).

(** *** k8s.io/apimachinery: its own DeepCopyInto methods *)
Class MetaV1Ops := {
  sees_ObjectMeta : heap → ObjectMetaM → ObjectMetaV → Prop;
  sees_ListMeta : heap → ListMetaM → ListMetaV → Prop;
  sees_Condition : heap → ConditionM → ConditionV → Prop;
  ObjectMeta_DeepCopyInto : ObjectMetaM → HM ObjectMetaM;
  ListMeta_DeepCopyInto : ListMetaM → HM ListMetaM;
  Condition_DeepCopyInto : ConditionM → HM ConditionM
}.

(** Their documented behaviour: a deep copy. *)
Class MetaV1Laws `{MetaV1Ops} : Prop := {
  ObjectMeta_mono :: Monotone contents sees_ObjectMeta;
  ListMeta_mono :: Monotone contents sees_ListMeta;
  Condition_mono :: Monotone contents sees_Condition;
  ObjectMeta_copies : copies contents sees_ObjectMeta ObjectMeta_DeepCopyInto;
  ListMeta_copies : copies contents sees_ListMeta ListMeta_DeepCopyInto;
  Condition_copies : copies contents sees_Condition Condition_DeepCopyInto
}.
Context `{MetaV1Ops}.

(** ** The copying functions

    [*out = *in] followed by assignments to the fields that hold pointers: the
    result is [*in] with those fields replaced.  metav1.Time and metav1.Duration
    are values. *)

(** [*out = new(T); **out = **in] for a [T] without pointers. *)
Definition plainPointer (k : kind) : option addr → HM (option addr) := copyPointer k (λ x, mret x).

(** [*out = make([]byte, len( *in)); copy( *out, *in)] *)
Definition byteSlice : option slice → HM (option slice) := copySlice KByte (λ x, mret x).

Definition LocalSecretReference_DeepCopyInto (in_ : LocalSecretReference) : HM LocalSecretReference := mret in_.
Definition SecretKeyReference_DeepCopyInto (in_ : SecretKeyReference) : HM SecretKeyReference := mret in_.
Definition EndpointSpec_DeepCopyInto (in_ : EndpointSpec) : HM EndpointSpec := mret in_.
Definition PasswordBasedMacAlgorithmSpec_DeepCopyInto (in_ : PasswordBasedMacAlgorithmSpec) : HM PasswordBasedMacAlgorithmSpec := mret in_.
Definition PasswordBasedMacSpec_DeepCopyInto (in_ : PasswordBasedMacSpec) : HM PasswordBasedMacSpec := mret in_.
Definition SignatureProtectionSpec_DeepCopyInto (in_ : SignatureProtectionSpec) : HM SignatureProtectionSpec := mret in_.
Definition TransactionSpec_DeepCopyInto (in_ : TransactionSpec) : HM TransactionSpec := mret in_.
Definition PolicySpec_DeepCopyInto (in_ : PolicySpec) : HM PolicySpec := mret in_.
Definition TransactionIssuerReference_DeepCopyInto (in_ : TransactionIssuerReference) : HM TransactionIssuerReference := mret in_.

Definition ProtocolSpec_with {R R'} (id : ptr R' Z) (x : ProtocolSpecR R) : ProtocolSpecR R' :=
  {| r_Version := r_Version x; r_InitialEnrollment := r_InitialEnrollment x; r_Renewal := r_Renewal x;
     r_RequestedValidity := r_RequestedValidity x; r_RenewalFallback := r_RenewalFallback x; r_ValidationProfile := r_ValidationProfile x;
     r_KURResponseCAPubs := r_KURResponseCAPubs x; r_P10CRResponseCertReqID := id; r_MACResponseProtection := r_MACResponseProtection x;
     r_SignatureDigest := r_SignatureDigest x; r_CertProfile := r_CertProfile x; r_Sender := r_Sender x; r_Recipient := r_Recipient x;
     r_Confirmation := r_Confirmation x |}.
Definition ProtocolSpec_DeepCopyInto (in_ : ProtocolSpecR inMemory) : HM (ProtocolSpecR inMemory) :=
  id ← plainPointer KInt64 (r_P10CRResponseCertReqID in_); mret (ProtocolSpec_with (R':=inMemory) id in_).

Definition ProtectionSpec_with {R R'} (mac : ptr R' PasswordBasedMacSpec) (signature : ptr R' SignatureProtectionSpec) (x : ProtectionSpecR R) : ProtectionSpecR R' :=
  {| r_Type := r_Type x; r_PasswordBasedMac := mac; r_Signature := signature |}.
Definition ProtectionSpec_DeepCopyInto (in_ : ProtectionSpecR inMemory) : HM (ProtectionSpecR inMemory) :=
  mac ← plainPointer KPasswordBasedMacSpec (r_PasswordBasedMac in_);
  signature ← plainPointer KSignatureProtectionSpec (r_Signature in_);
  mret (ProtectionSpec_with (R':=inMemory) mac signature in_).

Definition CMPTrustSpec_with {R R'} (signers : ptr R' SecretKeyReference) (x : CMPTrustSpecR R) : CMPTrustSpecR R' :=
  {| r_CASecretRef := r_CASecretRef x; r_SignerCertificatesSecretRef := signers |}.
Definition CMPTrustSpec_DeepCopyInto (in_ : CMPTrustSpecR inMemory) : HM (CMPTrustSpecR inMemory) :=
  signers ← plainPointer KSecretKeyReference (r_SignerCertificatesSecretRef in_); mret (CMPTrustSpec_with (R':=inMemory) signers in_).

Definition TLSTransportSpec_DeepCopyInto (in_ : TLSTransportSpecR inMemory) : HM (TLSTransportSpecR inMemory) :=
  ca ← plainPointer KSecretKeyReference (r_TLSCASecretRef in_);
  certificate ← plainPointer KLocalSecretReference (r_ClientCertificateSecretRef in_);
  mret (Build_TLSTransportSpecR inMemory ca certificate).

Definition TransportSpec_DeepCopyInto (in_ : TransportSpecR inMemory) : HM (TransportSpecR inMemory) :=
  tls ← copyPointer KTLSTransportSpec TLSTransportSpec_DeepCopyInto (r_TLS in_); mret (Build_TransportSpecR inMemory tls).

Definition CMPIssuerSpec_with {R R'} (protocol : ProtocolSpecR R') (protection : ProtectionSpecR R') (trust : CMPTrustSpecR R') (transport : TransportSpecR R') (x : CMPIssuerSpecR R) : CMPIssuerSpecR R' :=
  {| r_Endpoint := r_Endpoint x; r_Protocol := protocol; r_Protection := protection; r_CMPTrust := trust; r_Transport := transport;
     r_Transaction := r_Transaction x; r_Policy := r_Policy x |}.
Definition CMPIssuerSpec_DeepCopyInto (in_ : CMPIssuerSpecR inMemory) : HM (CMPIssuerSpecR inMemory) :=
  protocol ← ProtocolSpec_DeepCopyInto (r_Protocol in_);
  protection ← ProtectionSpec_DeepCopyInto (r_Protection in_);
  trust ← CMPTrustSpec_DeepCopyInto (r_CMPTrust in_);
  transport ← TransportSpec_DeepCopyInto (r_Transport in_);
  mret (CMPIssuerSpec_with protocol protection trust transport in_).

Definition CMPIssuerStatus_DeepCopyInto (in_ : CMPIssuerStatusR inMemory) : HM (CMPIssuerStatusR inMemory) :=
  conditions ← copySlice KCondition Condition_DeepCopyInto (r_Conditions in_); mret (Build_CMPIssuerStatusR inMemory conditions).

Definition CMPTransactionSpec_with {R R'} (id : vec R' ascii) (issuerRef : ptr R' TransactionIssuerReference) (x : CMPTransactionSpecR R) : CMPTransactionSpecR R' :=
  {| r_CertificateRequestName := r_CertificateRequestName x; r_CertificateRequestUID := r_CertificateRequestUID x; r_TransactionID := id;
     r_Deadline := r_Deadline x; r_CSRDigest := r_CSRDigest x; r_IssuerRef := issuerRef; r_ConfigurationDigest := r_ConfigurationDigest x;
     r_Operation := r_Operation x; r_TxRenewalFallback := r_TxRenewalFallback x; r_ProtocolVersion := r_ProtocolVersion x |}.
Definition CMPTransactionSpec_DeepCopyInto (in_ : CMPTransactionSpecR inMemory) : HM (CMPTransactionSpecR inMemory) :=
  id ← byteSlice (r_TransactionID in_);
  issuerRef ← plainPointer KTransactionIssuerReference (r_IssuerRef in_);
  mret (CMPTransactionSpec_with (R':=inMemory) id issuerRef in_).

Definition CMPTransactionStatus_with {R R'} (chain : vec R' (vec R' ascii)) (recip request : vec R' ascii) (id : ptr R' Z) (signer : vec R' ascii) (x : CMPTransactionStatusR R) : CMPTransactionStatusR R' :=
  {| r_Phase := r_Phase x; r_IssuedChain := chain; r_CompletionTime := r_CompletionTime x; r_RecipNonce := recip; r_RequestNonce := request;
     r_CertReqID := id; r_ResponseSigner := signer; r_Polls := r_Polls x; r_LastTransitionTime := r_LastTransitionTime x |}.
(** An element of the chain that is nil is left at its zero value, which is nil. *)
Definition CMPTransactionStatus_DeepCopyInto (in_ : CMPTransactionStatusR inMemory) : HM (CMPTransactionStatusR inMemory) :=
  chain ← copySlice KByteSlice byteSlice (r_IssuedChain in_);
  recip ← byteSlice (r_RecipNonce in_);
  request ← byteSlice (r_RequestNonce in_);
  id ← plainPointer KInt64 (r_CertReqID in_);
  signer ← byteSlice (r_ResponseSigner in_);
  mret (CMPTransactionStatus_with (R':=inMemory) chain recip request id signer in_).

Definition CMPIssuer_DeepCopyInto (in_ : CMPIssuerR inMemory) : HM (CMPIssuerR inMemory) :=
  metadata ← ObjectMeta_DeepCopyInto (i_ObjectMeta in_);
  spec ← CMPIssuerSpec_DeepCopyInto (i_Spec in_);
  status ← CMPIssuerStatus_DeepCopyInto (i_Status in_);
  mret (Build_CMPIssuerR (R:=inMemory) (i_TypeMeta in_) metadata spec status).
Definition CMPClusterIssuer_DeepCopyInto (in_ : CMPClusterIssuerR inMemory) : HM (CMPClusterIssuerR inMemory) :=
  metadata ← ObjectMeta_DeepCopyInto (c_ObjectMeta in_);
  spec ← CMPIssuerSpec_DeepCopyInto (c_Spec in_);
  status ← CMPIssuerStatus_DeepCopyInto (c_Status in_);
  mret (Build_CMPClusterIssuerR (R:=inMemory) (c_TypeMeta in_) metadata spec status).
Definition CMPTransaction_DeepCopyInto (in_ : CMPTransactionR inMemory) : HM (CMPTransactionR inMemory) :=
  metadata ← ObjectMeta_DeepCopyInto (t_ObjectMeta in_);
  spec ← CMPTransactionSpec_DeepCopyInto (t_Spec in_);
  status ← CMPTransactionStatus_DeepCopyInto (t_Status in_);
  mret (Build_CMPTransactionR (R:=inMemory) (t_TypeMeta in_) metadata spec status).

Definition CMPIssuerList_DeepCopyInto (in_ : CMPIssuerListR inMemory) : HM (CMPIssuerListR inMemory) :=
  metadata ← ListMeta_DeepCopyInto (il_ListMeta in_);
  items ← copySlice KCMPIssuer CMPIssuer_DeepCopyInto (il_Items in_);
  mret (Build_CMPIssuerListR inMemory (il_TypeMeta in_) metadata items).
Definition CMPClusterIssuerList_DeepCopyInto (in_ : CMPClusterIssuerListR inMemory) : HM (CMPClusterIssuerListR inMemory) :=
  metadata ← ListMeta_DeepCopyInto (cl_ListMeta in_);
  items ← copySlice KCMPClusterIssuer CMPClusterIssuer_DeepCopyInto (cl_Items in_);
  mret (Build_CMPClusterIssuerListR inMemory (cl_TypeMeta in_) metadata items).
Definition CMPTransactionList_DeepCopyInto (in_ : CMPTransactionListR inMemory) : HM (CMPTransactionListR inMemory) :=
  metadata ← ListMeta_DeepCopyInto (tl_ListMeta in_);
  items ← copySlice KCMPTransaction CMPTransaction_DeepCopyInto (tl_Items in_);
  mret (Build_CMPTransactionListR inMemory (tl_TypeMeta in_) metadata items).

(** DeepCopy: nil for nil, otherwise a new variable filled by DeepCopyInto. *)
Definition LocalSecretReference_DeepCopy (in_ : option addr) : HM (option addr) := copyPointer KLocalSecretReference LocalSecretReference_DeepCopyInto in_.
Definition SecretKeyReference_DeepCopy (in_ : option addr) : HM (option addr) := copyPointer KSecretKeyReference SecretKeyReference_DeepCopyInto in_.
Definition EndpointSpec_DeepCopy (in_ : option addr) : HM (option addr) := copyPointer KEndpointSpec EndpointSpec_DeepCopyInto in_.
Definition PasswordBasedMacAlgorithmSpec_DeepCopy (in_ : option addr) : HM (option addr) := copyPointer KPasswordBasedMacAlgorithmSpec PasswordBasedMacAlgorithmSpec_DeepCopyInto in_.
Definition PasswordBasedMacSpec_DeepCopy (in_ : option addr) : HM (option addr) := copyPointer KPasswordBasedMacSpec PasswordBasedMacSpec_DeepCopyInto in_.
Definition SignatureProtectionSpec_DeepCopy (in_ : option addr) : HM (option addr) := copyPointer KSignatureProtectionSpec SignatureProtectionSpec_DeepCopyInto in_.
Definition TransactionSpec_DeepCopy (in_ : option addr) : HM (option addr) := copyPointer KTransactionSpec TransactionSpec_DeepCopyInto in_.
Definition PolicySpec_DeepCopy (in_ : option addr) : HM (option addr) := copyPointer KPolicySpec PolicySpec_DeepCopyInto in_.
Definition TransactionIssuerReference_DeepCopy (in_ : option addr) : HM (option addr) := copyPointer KTransactionIssuerReference TransactionIssuerReference_DeepCopyInto in_.
Definition ProtocolSpec_DeepCopy (in_ : option addr) : HM (option addr) := copyPointer KProtocolSpec ProtocolSpec_DeepCopyInto in_.
Definition ProtectionSpec_DeepCopy (in_ : option addr) : HM (option addr) := copyPointer KProtectionSpec ProtectionSpec_DeepCopyInto in_.
Definition CMPTrustSpec_DeepCopy (in_ : option addr) : HM (option addr) := copyPointer KCMPTrustSpec CMPTrustSpec_DeepCopyInto in_.
Definition TLSTransportSpec_DeepCopy (in_ : option addr) : HM (option addr) := copyPointer KTLSTransportSpec TLSTransportSpec_DeepCopyInto in_.
Definition TransportSpec_DeepCopy (in_ : option addr) : HM (option addr) := copyPointer KTransportSpec TransportSpec_DeepCopyInto in_.
Definition CMPIssuerSpec_DeepCopy (in_ : option addr) : HM (option addr) := copyPointer KCMPIssuerSpec CMPIssuerSpec_DeepCopyInto in_.
Definition CMPIssuerStatus_DeepCopy (in_ : option addr) : HM (option addr) := copyPointer KCMPIssuerStatus CMPIssuerStatus_DeepCopyInto in_.
Definition CMPTransactionSpec_DeepCopy (in_ : option addr) : HM (option addr) := copyPointer KCMPTransactionSpec CMPTransactionSpec_DeepCopyInto in_.
Definition CMPTransactionStatus_DeepCopy (in_ : option addr) : HM (option addr) := copyPointer KCMPTransactionStatus CMPTransactionStatus_DeepCopyInto in_.
Definition CMPIssuer_DeepCopy (in_ : option addr) : HM (option addr) := copyPointer KCMPIssuer CMPIssuer_DeepCopyInto in_.
Definition CMPClusterIssuer_DeepCopy (in_ : option addr) : HM (option addr) := copyPointer KCMPClusterIssuer CMPClusterIssuer_DeepCopyInto in_.
Definition CMPTransaction_DeepCopy (in_ : option addr) : HM (option addr) := copyPointer KCMPTransaction CMPTransaction_DeepCopyInto in_.
Definition CMPIssuerList_DeepCopy (in_ : option addr) : HM (option addr) := copyPointer KCMPIssuerList CMPIssuerList_DeepCopyInto in_.
Definition CMPClusterIssuerList_DeepCopy (in_ : option addr) : HM (option addr) := copyPointer KCMPClusterIssuerList CMPClusterIssuerList_DeepCopyInto in_.
Definition CMPTransactionList_DeepCopy (in_ : option addr) : HM (option addr) := copyPointer KCMPTransactionList CMPTransactionList_DeepCopyInto in_.

(** A value of the interface runtime.Object: nil, or a type with a pointer that
    may itself be nil. *)
Inductive object := NilObject | Object (k : kind) (p : option addr).

(** [if c := in.DeepCopy(); c != nil { return c }; return nil] *)
Definition asObject (k : kind) (c : option addr) : object := match c with Some _ => Object k c | None => NilObject end.
Definition CMPIssuer_DeepCopyObject (in_ : option addr) : HM object := c ← CMPIssuer_DeepCopy in_; mret (asObject KCMPIssuer c).
Definition CMPClusterIssuer_DeepCopyObject (in_ : option addr) : HM object := c ← CMPClusterIssuer_DeepCopy in_; mret (asObject KCMPClusterIssuer c).
Definition CMPTransaction_DeepCopyObject (in_ : option addr) : HM object := c ← CMPTransaction_DeepCopy in_; mret (asObject KCMPTransaction c).
Definition CMPIssuerList_DeepCopyObject (in_ : option addr) : HM object := c ← CMPIssuerList_DeepCopy in_; mret (asObject KCMPIssuerList c).
Definition CMPClusterIssuerList_DeepCopyObject (in_ : option addr) : HM object := c ← CMPClusterIssuerList_DeepCopy in_; mret (asObject KCMPClusterIssuerList c).
Definition CMPTransactionList_DeepCopyObject (in_ : option addr) : HM object := c ← CMPTransactionList_DeepCopy in_; mret (asObject KCMPTransactionList c).

(** The generated methods by type. *)
Definition deepCopy (k : kind) : option (option addr → HM (option addr)) :=
  match k with
  | KLocalSecretReference => Some LocalSecretReference_DeepCopy
  | KSecretKeyReference => Some SecretKeyReference_DeepCopy
  | KEndpointSpec => Some EndpointSpec_DeepCopy
  | KPasswordBasedMacAlgorithmSpec => Some PasswordBasedMacAlgorithmSpec_DeepCopy
  | KPasswordBasedMacSpec => Some PasswordBasedMacSpec_DeepCopy
  | KSignatureProtectionSpec => Some SignatureProtectionSpec_DeepCopy
  | KTransactionSpec => Some TransactionSpec_DeepCopy
  | KPolicySpec => Some PolicySpec_DeepCopy
  | KTransactionIssuerReference => Some TransactionIssuerReference_DeepCopy
  | KProtocolSpec => Some ProtocolSpec_DeepCopy
  | KProtectionSpec => Some ProtectionSpec_DeepCopy
  | KCMPTrustSpec => Some CMPTrustSpec_DeepCopy
  | KTLSTransportSpec => Some TLSTransportSpec_DeepCopy
  | KTransportSpec => Some TransportSpec_DeepCopy
  | KCMPIssuerSpec => Some CMPIssuerSpec_DeepCopy
  | KCMPIssuerStatus => Some CMPIssuerStatus_DeepCopy
  | KCMPTransactionSpec => Some CMPTransactionSpec_DeepCopy
  | KCMPTransactionStatus => Some CMPTransactionStatus_DeepCopy
  | KCMPIssuer => Some CMPIssuer_DeepCopy
  | KCMPClusterIssuer => Some CMPClusterIssuer_DeepCopy
  | KCMPTransaction => Some CMPTransaction_DeepCopy
  | KCMPIssuerList => Some CMPIssuerList_DeepCopy
  | KCMPClusterIssuerList => Some CMPClusterIssuerList_DeepCopy
  | KCMPTransactionList => Some CMPTransactionList_DeepCopy
  | _ => None
  end.
Definition deepCopyObject (k : kind) : option (option addr → HM object) :=
  match k with
  | KCMPIssuer => Some CMPIssuer_DeepCopyObject
  | KCMPClusterIssuer => Some CMPClusterIssuer_DeepCopyObject
  | KCMPTransaction => Some CMPTransaction_DeepCopyObject
  | KCMPIssuerList => Some CMPIssuerList_DeepCopyObject
  | KCMPClusterIssuerList => Some CMPClusterIssuerList_DeepCopyObject
  | KCMPTransactionList => Some CMPTransactionList_DeepCopyObject
  | _ => None
  end.

(** ** What the types stand for *)

Abbreviation seesPlain := (GoMemory.seesPlain contents).
Abbreviation seesPointer := (GoMemory.seesPointer contents).
Abbreviation seesSlice := (GoMemory.seesSlice contents).
Abbreviation Monotone := (GoMemory.Monotone contents).
Abbreviation copies := (GoMemory.copies contents).

Definition sees_bytes : heap → option slice → option (list ascii) → Prop := seesSlice KByte seesPlain.

Definition sees_ProtocolSpec (h : heap) (x : ProtocolSpecR inMemory) (v : ProtocolSpecR asValue) : Prop :=
  ∃ id, seesPointer KInt64 seesPlain h (r_P10CRResponseCertReqID x) id ∧ v = ProtocolSpec_with (R':=asValue) id x.
Definition sees_ProtectionSpec (h : heap) (x : ProtectionSpecR inMemory) (v : ProtectionSpecR asValue) : Prop :=
  ∃ mac signature, seesPointer KPasswordBasedMacSpec seesPlain h (r_PasswordBasedMac x) mac ∧
    seesPointer KSignatureProtectionSpec seesPlain h (r_Signature x) signature ∧ v = ProtectionSpec_with (R':=asValue) mac signature x.
Definition sees_CMPTrustSpec (h : heap) (x : CMPTrustSpecR inMemory) (v : CMPTrustSpecR asValue) : Prop :=
  ∃ signers, seesPointer KSecretKeyReference seesPlain h (r_SignerCertificatesSecretRef x) signers ∧
    v = CMPTrustSpec_with (R':=asValue) signers x.
Definition sees_TLSTransportSpec (h : heap) (x : TLSTransportSpecR inMemory) (v : TLSTransportSpecR asValue) : Prop :=
  ∃ ca certificate, seesPointer KSecretKeyReference seesPlain h (r_TLSCASecretRef x) ca ∧
    seesPointer KLocalSecretReference seesPlain h (r_ClientCertificateSecretRef x) certificate ∧ v = Build_TLSTransportSpecR asValue ca certificate.
Definition sees_TransportSpec (h : heap) (x : TransportSpecR inMemory) (v : TransportSpecR asValue) : Prop :=
  ∃ tls, seesPointer KTLSTransportSpec sees_TLSTransportSpec h (r_TLS x) tls ∧ v = Build_TransportSpecR asValue tls.
Definition sees_CMPIssuerSpec (h : heap) (x : CMPIssuerSpecR inMemory) (v : CMPIssuerSpecR asValue) : Prop :=
  ∃ protocol protection trust transport, sees_ProtocolSpec h (r_Protocol x) protocol ∧ sees_ProtectionSpec h (r_Protection x) protection ∧
    sees_CMPTrustSpec h (r_CMPTrust x) trust ∧ sees_TransportSpec h (r_Transport x) transport ∧
    v = CMPIssuerSpec_with protocol protection trust transport x.
Definition sees_CMPIssuerStatus (h : heap) (x : CMPIssuerStatusR inMemory) (v : CMPIssuerStatusR asValue) : Prop :=
  ∃ conditions, seesSlice KCondition sees_Condition h (r_Conditions x) conditions ∧ v = Build_CMPIssuerStatusR asValue conditions.
Definition sees_CMPTransactionSpec (h : heap) (x : CMPTransactionSpecR inMemory) (v : CMPTransactionSpecR asValue) : Prop :=
  ∃ id issuerRef, sees_bytes h (r_TransactionID x) id ∧ seesPointer KTransactionIssuerReference seesPlain h (r_IssuerRef x) issuerRef ∧
    v = CMPTransactionSpec_with (R':=asValue) id issuerRef x.
Definition sees_CMPTransactionStatus (h : heap) (x : CMPTransactionStatusR inMemory) (v : CMPTransactionStatusR asValue) : Prop :=
  ∃ chain recip request id signer, seesSlice KByteSlice sees_bytes h (r_IssuedChain x) chain ∧ sees_bytes h (r_RecipNonce x) recip ∧
    sees_bytes h (r_RequestNonce x) request ∧ seesPointer KInt64 seesPlain h (r_CertReqID x) id ∧ sees_bytes h (r_ResponseSigner x) signer ∧
    v = CMPTransactionStatus_with (R':=asValue) chain recip request id signer x.
Definition sees_CMPIssuer (h : heap) (x : CMPIssuerR inMemory) (v : CMPIssuerR asValue) : Prop :=
  ∃ metadata spec status, sees_ObjectMeta h (i_ObjectMeta x) metadata ∧ sees_CMPIssuerSpec h (i_Spec x) spec ∧
    sees_CMPIssuerStatus h (i_Status x) status ∧ v = Build_CMPIssuerR (R:=asValue) (i_TypeMeta x) metadata spec status.
Definition sees_CMPClusterIssuer (h : heap) (x : CMPClusterIssuerR inMemory) (v : CMPClusterIssuerR asValue) : Prop :=
  ∃ metadata spec status, sees_ObjectMeta h (c_ObjectMeta x) metadata ∧ sees_CMPIssuerSpec h (c_Spec x) spec ∧
    sees_CMPIssuerStatus h (c_Status x) status ∧ v = Build_CMPClusterIssuerR (R:=asValue) (c_TypeMeta x) metadata spec status.
Definition sees_CMPTransaction (h : heap) (x : CMPTransactionR inMemory) (v : CMPTransactionR asValue) : Prop :=
  ∃ metadata spec status, sees_ObjectMeta h (t_ObjectMeta x) metadata ∧ sees_CMPTransactionSpec h (t_Spec x) spec ∧
    sees_CMPTransactionStatus h (t_Status x) status ∧ v = Build_CMPTransactionR (R:=asValue) (t_TypeMeta x) metadata spec status.
Definition sees_CMPIssuerList (h : heap) (x : CMPIssuerListR inMemory) (v : CMPIssuerListR asValue) : Prop :=
  ∃ metadata items, sees_ListMeta h (il_ListMeta x) metadata ∧ seesSlice KCMPIssuer sees_CMPIssuer h (il_Items x) items ∧
    v = Build_CMPIssuerListR asValue (il_TypeMeta x) metadata items.
Definition sees_CMPClusterIssuerList (h : heap) (x : CMPClusterIssuerListR inMemory) (v : CMPClusterIssuerListR asValue) : Prop :=
  ∃ metadata items, sees_ListMeta h (cl_ListMeta x) metadata ∧ seesSlice KCMPClusterIssuer sees_CMPClusterIssuer h (cl_Items x) items ∧
    v = Build_CMPClusterIssuerListR asValue (cl_TypeMeta x) metadata items.
Definition sees_CMPTransactionList (h : heap) (x : CMPTransactionListR inMemory) (v : CMPTransactionListR asValue) : Prop :=
  ∃ metadata items, sees_ListMeta h (tl_ListMeta x) metadata ∧ seesSlice KCMPTransaction sees_CMPTransaction h (tl_Items x) items ∧
    v = Build_CMPTransactionListR asValue (tl_TypeMeta x) metadata items.

Definition sees (k : kind) : heap → contents k → valueR OtherM asValue k → Prop :=
  match k with
  | KByteSlice => sees_bytes
  | KCondition => sees_Condition
  | KProtocolSpec => sees_ProtocolSpec
  | KProtectionSpec => sees_ProtectionSpec
  | KCMPTrustSpec => sees_CMPTrustSpec
  | KTLSTransportSpec => sees_TLSTransportSpec
  | KTransportSpec => sees_TransportSpec
  | KCMPIssuerSpec => sees_CMPIssuerSpec
  | KCMPIssuerStatus => sees_CMPIssuerStatus
  | KCMPTransactionSpec => sees_CMPTransactionSpec
  | KCMPTransactionStatus => sees_CMPTransactionStatus
  | KCMPIssuer => sees_CMPIssuer
  | KCMPClusterIssuer => sees_CMPClusterIssuer
  | KCMPTransaction => sees_CMPTransaction
  | KCMPIssuerList => sees_CMPIssuerList
  | KCMPClusterIssuerList => sees_CMPClusterIssuerList
  | KCMPTransactionList => sees_CMPTransactionList
  | KByte => seesPlain
  | KInt64 => seesPlain
  | KOther => seesPlain
  | KLocalSecretReference => seesPlain
  | KSecretKeyReference => seesPlain
  | KEndpointSpec => seesPlain
  | KPasswordBasedMacAlgorithmSpec => seesPlain
  | KPasswordBasedMacSpec => seesPlain
  | KSignatureProtectionSpec => seesPlain
  | KTransactionSpec => seesPlain
  | KPolicySpec => seesPlain
  | KTransactionIssuerReference => seesPlain
  end.

(** ** Copies stand for what they copy *)

Context `{!MetaV1Laws}.
Create HintDb copies.

Ltac sees_destruct :=
  repeat match goal with Hs : ∃ _, _ |- _ => destruct Hs | Hs : _ ∧ _ |- _ => destruct Hs end; subst.

Ltac sees_fields := repeat match goal with |- ∃ _, _ => eexists end; split_and?.

(** More memory: every field keeps what it stands for. *)
Ltac mono_fields :=
  intros h h' x v Hsub Hs; red in Hs; sees_destruct; red; sees_fields;
  try (eapply mono; [apply _|exact Hsub|eassumption]); reflexivity.

(** A field copied earlier is still there at the end. *)
Ltac gathered := eapply mono; [apply _| |eassumption]; repeat (eassumption || (etrans; [eassumption|])); done.

(** Copy the fields in their order. *)
Ltac copy_fields :=
  apply copies_gathers; intros h x v Hs; red in Hs; sees_destruct;
  match goal with |- gathers _ _ _ (?f _) _ => unfold f end;
  repeat (eapply gathers_field; [solve [eauto with copies]|apply _|eassumption|by first [assumption|apply map_disjoint_empty_r]|intros ? ? ? ? ?]);
  apply gathers_ret; [assumption|]; red; sees_fields; try gathered; reflexivity.

Lemma plainPointer_copies k : copies (seesPointer k seesPlain) (plainPointer k).
Proof. apply copies_pointer; [apply _|apply copies_plain]. Qed.
Lemma byteSlice_copies : copies sees_bytes byteSlice.
Proof. apply copies_slice; [apply _|apply copies_plain]. Qed.
#[global] Instance sees_bytes_mono : Monotone sees_bytes.
Proof. unfold sees_bytes. apply _. Qed.
#[local] Hint Resolve byteSlice_copies ObjectMeta_copies ListMeta_copies Condition_copies : copies.
#[local] Hint Extern 1 (GoMemory.copies _ _ (plainPointer ?k)) => apply (plainPointer_copies k) : copies.
#[local] Hint Extern 2 (GoMemory.copies _ _ (GoMemory.copyPointer _ _ _ _)) =>
  eapply copies_pointer; [|solve [eauto with copies]]; apply _ : copies.
#[local] Hint Extern 2 (GoMemory.copies _ _ (GoMemory.copySlice _ _ _ _)) =>
  eapply copies_slice; [|solve [eauto with copies]]; apply _ : copies.

#[global] Instance sees_ProtocolSpec_mono : Monotone sees_ProtocolSpec.
Proof. mono_fields. Qed.
Lemma ProtocolSpec_copies : copies sees_ProtocolSpec ProtocolSpec_DeepCopyInto.
Proof. copy_fields. Qed.
#[local] Hint Resolve ProtocolSpec_copies : copies.

#[global] Instance sees_ProtectionSpec_mono : Monotone sees_ProtectionSpec.
Proof. mono_fields. Qed.
Lemma ProtectionSpec_copies : copies sees_ProtectionSpec ProtectionSpec_DeepCopyInto.
Proof. copy_fields. Qed.
#[local] Hint Resolve ProtectionSpec_copies : copies.

#[global] Instance sees_CMPTrustSpec_mono : Monotone sees_CMPTrustSpec.
Proof. mono_fields. Qed.
Lemma CMPTrustSpec_copies : copies sees_CMPTrustSpec CMPTrustSpec_DeepCopyInto.
Proof. copy_fields. Qed.
#[local] Hint Resolve CMPTrustSpec_copies : copies.

#[global] Instance sees_TLSTransportSpec_mono : Monotone sees_TLSTransportSpec.
Proof. mono_fields. Qed.
Lemma TLSTransportSpec_copies : copies sees_TLSTransportSpec TLSTransportSpec_DeepCopyInto.
Proof. copy_fields. Qed.
#[local] Hint Resolve TLSTransportSpec_copies : copies.

#[global] Instance sees_TransportSpec_mono : Monotone sees_TransportSpec.
Proof. mono_fields. Qed.
Lemma TransportSpec_copies : copies sees_TransportSpec TransportSpec_DeepCopyInto.
Proof. copy_fields. Qed.
#[local] Hint Resolve TransportSpec_copies : copies.

#[global] Instance sees_CMPIssuerSpec_mono : Monotone sees_CMPIssuerSpec.
Proof. mono_fields. Qed.
Lemma CMPIssuerSpec_copies : copies sees_CMPIssuerSpec CMPIssuerSpec_DeepCopyInto.
Proof. copy_fields. Qed.
#[local] Hint Resolve CMPIssuerSpec_copies : copies.

#[global] Instance sees_CMPIssuerStatus_mono : Monotone sees_CMPIssuerStatus.
Proof. mono_fields. Qed.
Lemma CMPIssuerStatus_copies : copies sees_CMPIssuerStatus CMPIssuerStatus_DeepCopyInto.
Proof. copy_fields. Qed.
#[local] Hint Resolve CMPIssuerStatus_copies : copies.

#[global] Instance sees_CMPTransactionSpec_mono : Monotone sees_CMPTransactionSpec.
Proof. mono_fields. Qed.
Lemma CMPTransactionSpec_copies : copies sees_CMPTransactionSpec CMPTransactionSpec_DeepCopyInto.
Proof. copy_fields. Qed.
#[local] Hint Resolve CMPTransactionSpec_copies : copies.

#[global] Instance sees_CMPTransactionStatus_mono : Monotone sees_CMPTransactionStatus.
Proof. mono_fields. Qed.
Lemma CMPTransactionStatus_copies : copies sees_CMPTransactionStatus CMPTransactionStatus_DeepCopyInto.
Proof. copy_fields. Qed.
#[local] Hint Resolve CMPTransactionStatus_copies : copies.

#[global] Instance sees_CMPIssuer_mono : Monotone sees_CMPIssuer.
Proof. mono_fields. Qed.
Lemma CMPIssuer_copies : copies sees_CMPIssuer CMPIssuer_DeepCopyInto.
Proof. copy_fields. Qed.
#[local] Hint Resolve CMPIssuer_copies : copies.

#[global] Instance sees_CMPClusterIssuer_mono : Monotone sees_CMPClusterIssuer.
Proof. mono_fields. Qed.
Lemma CMPClusterIssuer_copies : copies sees_CMPClusterIssuer CMPClusterIssuer_DeepCopyInto.
Proof. copy_fields. Qed.
#[local] Hint Resolve CMPClusterIssuer_copies : copies.

#[global] Instance sees_CMPTransaction_mono : Monotone sees_CMPTransaction.
Proof. mono_fields. Qed.
Lemma CMPTransaction_copies : copies sees_CMPTransaction CMPTransaction_DeepCopyInto.
Proof. copy_fields. Qed.
#[local] Hint Resolve CMPTransaction_copies : copies.

#[global] Instance sees_CMPIssuerList_mono : Monotone sees_CMPIssuerList.
Proof. mono_fields. Qed.
Lemma CMPIssuerList_copies : copies sees_CMPIssuerList CMPIssuerList_DeepCopyInto.
Proof. copy_fields. Qed.
#[local] Hint Resolve CMPIssuerList_copies : copies.

#[global] Instance sees_CMPClusterIssuerList_mono : Monotone sees_CMPClusterIssuerList.
Proof. mono_fields. Qed.
Lemma CMPClusterIssuerList_copies : copies sees_CMPClusterIssuerList CMPClusterIssuerList_DeepCopyInto.
Proof. copy_fields. Qed.
#[local] Hint Resolve CMPClusterIssuerList_copies : copies.

#[global] Instance sees_CMPTransactionList_mono : Monotone sees_CMPTransactionList.
Proof. mono_fields. Qed.
Lemma CMPTransactionList_copies : copies sees_CMPTransactionList CMPTransactionList_DeepCopyInto.
Proof. copy_fields. Qed.
#[local] Hint Resolve CMPTransactionList_copies : copies.

(** ** Properties *)

Lemma deepCopy_copies k f : deepCopy k = Some f → copies (seesPointer k (sees k)) f.
Proof.
  destruct k; intros [= <-]; (apply copies_pointer; [apply _|]); simpl; eauto with copies; apply copies_plain.
Qed.

(** Memory that agrees outside the blocks of [h] holds what was added to it. *)
Lemma added_subseteq (h own h2 : heap) :
  h ##ₘ own → (∀ l, h !! l = None → h2 !! l = (h ∪ own) !! l) → own ⊆ h2.
Proof.
  intros Hd Hag. apply map_subseteq_spec. intros l b Hl.
  assert (Hn : h !! l = None) by (by apply (map_disjoint_Some_r _ _ _ _ Hd Hl)).
  by rewrite Hag, lookup_union_r.
Qed.

(** C39: DeepCopy of every API type returns a copy that stands for the same value and is independent of the original:
    no block of memory that existed before is changed, and whatever is later written to those blocks, the copy
    keeps its value.  A nil pointer gives a nil pointer. *)
Theorem DeepCopy_independent k f h p v :
  deepCopy k = Some f → seesPointer k (sees k) h p v →
  ∃ q h', f p h = (Ok q, h') ∧ h ⊆ h' ∧
    ∀ h2 : heap, (∀ l, h !! l = None → h2 !! l = h' !! l) → seesPointer k (sees k) h2 q v.
Proof.
  intros Hf Hp. destruct (deepCopy_copies k f Hf h p v Hp) as (q & own & Hrun & Hd & Hq). exists q, (h ∪ own).
  split_and!; [done|apply map_union_subseteq_l|]. intros h2 Hag. assert (Hsub := added_subseteq h own h2 Hd Hag).
  destruct k; simplify_eq/=; by eapply mono; [apply _|..].
Qed.

(** DeepCopyObject returns the nil interface for a nil pointer, never an interface that holds a nil pointer, and
    otherwise an object of the same type that points to an independent copy. *)
Theorem DeepCopyObject_nil k f g h p v :
  deepCopy k = Some f → deepCopyObject k = Some g → seesPointer k (sees k) h p v →
  ∃ q h', f p h = (Ok q, h') ∧ g p h = (Ok (asObject k q), h') ∧
    (p = None ↔ asObject k q = NilObject) ∧ asObject k q ≠ Object k None.
Proof.
  intros Hf Hg Hp. destruct (deepCopy_copies k f Hf h p v Hp) as (q & own & Hrun & Hd & Hq). exists q, (h ∪ own).
  assert (Hnil : p = None ↔ q = None) by (destruct p, q, v; naive_solver).
  split_and!; [done| | |by destruct q].
  - destruct k; simplify_eq/=; match goal with |- ?g p h = _ => unfold g end; unfold mbind, M_bind; by rewrite Hrun.
  - rewrite Hnil. by destruct q.
Qed.
End copy.

(** ** A concrete memory *)

(** Metadata that is one string of bytes in memory. *)
#[local] Instance demoMeta : MetaV1 := {|
  TypeMeta := string; ObjectMetaM := option slice; ObjectMetaV := option (list ascii); ListMetaM := string; ListMetaV := string;
  ConditionM := string; ConditionV := string; OtherM := unit;
  zero_TypeMeta := ""; zero_ObjectMeta := None; zero_ListMeta := ""; zero_Condition := ""; zero_Other := tt
|}.
#[local] Instance demoOps : MetaV1Ops := {|
  sees_ObjectMeta := sees_bytes; sees_ListMeta := GoMemory.seesPlain contents; sees_Condition := GoMemory.seesPlain contents;
  ObjectMeta_DeepCopyInto := byteSlice; ListMeta_DeepCopyInto := λ x, mret x; Condition_DeepCopyInto := λ x, mret x
|}.
#[local] Instance demoLaws : MetaV1Laws.
Proof. constructor; first [apply byteSlice_copies|apply copies_plain|simpl; apply _]. Qed.

(** A transaction's status with a chain of one certificate, and a nonce that is
    part of the same array. *)
Definition demoStatus : CMPTransactionStatusR inMemory :=
  {| r_Phase := "Confirming"; r_IssuedChain := (Some {| s_Block := 2%positive; s_Offset := 0; s_Len := 1 |} : vec inMemory (vec inMemory ascii));
     r_CompletionTime := 0; r_RecipNonce := (Some {| s_Block := 1%positive; s_Offset := 1; s_Len := 1 |} : vec inMemory ascii);
     r_RequestNonce := (None : vec inMemory ascii); r_CertReqID := (Some {| a_Block := 3%positive; a_Index := 0 |} : ptr inMemory Z);
     r_ResponseSigner := (None : vec inMemory ascii); r_Polls := 1; r_LastTransitionTime := 50 |}.
Definition demoHeap : gmap loc (block contents) :=
  {[ 1%positive := array contents KByte ["L"; "M"]%char;
     2%positive := array contents KByteSlice [Some {| s_Block := 1%positive; s_Offset := 0; s_Len := 2 |}];
     3%positive := array contents KInt64 [(-1)%Z];
     4%positive := array contents KCMPTransactionStatus [demoStatus] ]}.
Definition demoPointer : option addr := Some {| a_Block := 4%positive; a_Index := 0 |}.
Definition demoValue : CMPTransactionStatusR asValue :=
  CMPTransactionStatus_with (R':=asValue) (Some [Some ["L"; "M"]%char]) (Some ["M"]%char) None (Some (-1)%Z) None demoStatus.

Lemma demo_bytes s xs : rangeAt contents demoHeap KByte s = Some xs → sees_bytes demoHeap (Some s) (Some xs).
Proof. intros Hr. exists xs. split; [exact Hr|]. clear Hr. induction xs; constructor; done. Qed.

Lemma demo_sees : seesPointer contents KCMPTransactionStatus (sees KCMPTransactionStatus) demoHeap demoPointer (Some demoValue).
Proof.
  exists demoStatus. split; [vm_compute; reflexivity|]. exists (Some [Some ["L"; "M"]%char]), (Some ["M"]%char), None, (Some (-1)%Z), None.
  split_and!; try done.
  - eexists. split; [vm_compute; reflexivity|]. constructor; [|constructor]. apply demo_bytes. vm_compute. reflexivity.
  - apply demo_bytes. vm_compute. reflexivity.
  - eexists. split; [vm_compute; reflexivity|reflexivity].
Qed.

Lemma DeepCopy_independent_witness :
  ∃ q h', CMPTransactionStatus_DeepCopy demoPointer demoHeap = (Ok q, h') ∧ demoHeap ⊆ h' ∧
    ∀ h2 : gmap loc (block contents), (∀ l, demoHeap !! l = None → h2 !! l = h' !! l) →
      seesPointer contents KCMPTransactionStatus (sees KCMPTransactionStatus) h2 q (Some demoValue).
Proof.
  exact (DeepCopy_independent KCMPTransactionStatus CMPTransactionStatus_DeepCopy demoHeap demoPointer (Some demoValue) eq_refl demo_sees).
Defined.
End DeepCopy.
