(* ===== verification/Scheme.v ===== *)
(** * API registration: api/v1alpha1/groupversion_info.go, the init functions of
    the API types and of cmd/main.go

    The types the manager's scheme knows when it starts. *)

From S2P Require Import Prelude Types Api GoMemory DeepCopy.
Import Api DeepCopy.

Module Scheme.

Record GroupVersion := { gv_Group : string; gv_Version : string }.

Definition SchemeGroupVersion : GroupVersion := {| gv_Group := "certmanager.misiektoja.github.io"; gv_Version := "v1alpha1" |}.
(** GroupVersion is an alias for SchemeGroupVersion. *)
Definition GroupVersion_ : GroupVersion := SchemeGroupVersion.

(** ** k8s.io/apimachinery/pkg/runtime *)

(** Schemes and scheme builders, and the AddToScheme functions of client-go and
    cert-manager. *)
Class SchemeRuntime := {
  Scheme_ : Type;
  NewScheme : Scheme_;
  Recognizes : Scheme_ → GroupVersion → string → bool;
  AddKnownTypes : GroupVersion → list string → M Scheme_ error unit;
  AddToGroupVersion : GroupVersion → M Scheme_ error unit;
  SchemeBuilder_ : Type;
  NewSchemeBuilder : M Scheme_ error unit → SchemeBuilder_;
  Register : M Scheme_ error unit → SchemeBuilder_ → SchemeBuilder_;
  AddToScheme_ : SchemeBuilder_ → M Scheme_ error unit;
  clientgoscheme_AddToScheme : M Scheme_ error unit;
  certmanagerv1_AddToScheme : M Scheme_ error unit
}.

Section registration.
Context `{SchemeRuntime}.

(** ** The package's builder *)

(** The builder's initial value, and the registrations of the init functions. *)
Definition SchemeBuilder : SchemeBuilder_ := NewSchemeBuilder (AddToGroupVersion SchemeGroupVersion).
Definition cmpclusterissuer_init : SchemeBuilder_ → SchemeBuilder_ :=
  Register (AddKnownTypes SchemeGroupVersion ["CMPClusterIssuer"; "CMPClusterIssuerList"]%string).
Definition cmpissuer_init : SchemeBuilder_ → SchemeBuilder_ :=
  Register (AddKnownTypes SchemeGroupVersion ["CMPIssuer"; "CMPIssuerList"]%string).
Definition cmptransaction_init : SchemeBuilder_ → SchemeBuilder_ :=
  Register (AddKnownTypes SchemeGroupVersion ["CMPTransaction"; "CMPTransactionList"]%string).

(** AddToScheme is the method of the package variable, so it runs what the init
    functions, in the order of their file names, registered by then. *)
Definition AddToScheme : M Scheme_ error unit :=
  AddToScheme_ (cmptransaction_init (cmpissuer_init (cmpclusterissuer_init SchemeBuilder))).

(** [utilruntime.Must] *)
Definition Must (m : M Scheme_ error unit) : M Scheme_ error unit := λ s, match m s with (Err _, s') => (Panic, s') | r => r end.

(** init of package main. *)
Definition main_init : M Scheme_ error unit :=
  _ ← Must clientgoscheme_AddToScheme;
  _ ← Must certmanagerv1_AddToScheme;
  Must AddToScheme.

(** ** The methods issuer-lib uses *)

Definition CMPIssuer_GetConditions `{MetaV1} {R} (i : CMPIssuerR R) : vec R (ConditionR R) := r_Conditions (i_Status i).
Definition CMPClusterIssuer_GetConditions `{MetaV1} {R} (i : CMPClusterIssuerR R) : vec R (ConditionR R) := r_Conditions (c_Status i).
Definition CMPIssuer_GetIssuerTypeIdentifier : string := "cmpissuers.certmanager.misiektoja.github.io".
Definition CMPClusterIssuer_GetIssuerTypeIdentifier : string := "cmpclusterissuers.certmanager.misiektoja.github.io".

Definition GetIssuerTypeIdentifier (k : IssuerKind) : option string :=
  match k with
  | CMPIssuer => Some CMPIssuer_GetIssuerTypeIdentifier
  | CMPClusterIssuer => Some CMPClusterIssuer_GetIssuerTypeIdentifier
  | OtherIssuer => None
  end.

(** ** Properties *)

(** A registration that succeeds and forgets nothing. *)
Definition extends (m : M Scheme_ error unit) (known : GroupVersion → string → Prop) : Prop :=
  ∀ s, ∃ s', m s = (Ok tt, s') ∧ (∀ gv kind, Recognizes s gv kind = true → Recognizes s' gv kind = true) ∧
    ∀ gv kind, known gv kind → Recognizes s' gv kind = true.

(** The documented behaviour of the package: a builder applies its functions in
    order, AddKnownTypes registers the types it is given, and no registration
    of the linked packages fails or conflicts. *)
Record SchemeLaws : Prop := {
  builder_new f : AddToScheme_ (NewSchemeBuilder f) = f;
  builder_register f b : AddToScheme_ (Register f b) = (_ ← AddToScheme_ b; f);
  known_types gv kinds : extends (AddKnownTypes gv kinds) (λ gv' kind, gv' = gv ∧ kind ∈ kinds);
  group_version gv : extends (AddToGroupVersion gv) (λ _ _, False);
  clientgo_types : extends clientgoscheme_AddToScheme (λ _ _, False);
  certmanager_types : extends certmanagerv1_AddToScheme (λ _ _, False)
}.

Lemma extends_bind m1 m2 K1 K2 :
  extends m1 K1 → extends m2 K2 → extends (_ ← m1; m2) (λ gv kind, K1 gv kind ∨ K2 gv kind).
Proof.
  intros H1 H2 s. destruct (H1 s) as (s1 & E1 & Hk1 & Hn1). destruct (H2 s1) as (s2 & E2 & Hk2 & Hn2).
  exists s2. unfold mbind, M_bind. rewrite E1. split_and!; [done|eauto|]. intros gv kind [?|?]; eauto.
Qed.

Lemma extends_Must m K : extends m K → extends (Must m) K.
Proof. intros Hm s. destruct (Hm s) as (s' & E & Hk). exists s'. unfold Must. by rewrite E. Qed.

Lemma extends_mono m (K K' : GroupVersion → string → Prop) : extends m K → (∀ gv kind, K' gv kind → K gv kind) → extends m K'.
Proof. intros Hm HK s. destruct (Hm s) as (s' & ? & ? & ?). exists s'. auto. Qed.

(** The resources of the API group, as the CRDs name them. *)
Definition kinds : list string :=
  ["CMPIssuer"; "CMPIssuerList"; "CMPClusterIssuer"; "CMPClusterIssuerList"; "CMPTransaction"; "CMPTransactionList"]%string.

(** The manager's scheme knows every resource of the API group when main starts,
    although AddToScheme was bound before the types registered themselves. *)
Theorem main_init_registers :
  SchemeLaws → ∃ s, main_init NewScheme = (Ok tt, s) ∧ ∀ kind, kind ∈ kinds → Recognizes s SchemeGroupVersion kind = true.
Proof.
  intros [Hnew Hreg Hknown Hgv Hcg Hcm].
  assert (Hall : extends main_init (λ gv kind, gv = SchemeGroupVersion ∧ kind ∈ kinds)).
  { eapply extends_mono.
    - apply extends_bind; [apply extends_Must, Hcg|]. apply extends_bind; [apply extends_Must, Hcm|]. apply extends_Must.
      unfold AddToScheme, cmptransaction_init, cmpissuer_init, cmpclusterissuer_init, SchemeBuilder. rewrite !Hreg, Hnew.
      repeat (apply extends_bind; [|apply Hknown]). apply Hgv.
    - intros gv kind [-> Hk]. unfold kinds in Hk. set_solver. }
  destruct (Hall NewScheme) as (s & E & _ & Hk). exists s. auto.
Qed.
End registration.

(** A scheme as the list of its types. *)
#[local] Instance demoScheme : SchemeRuntime := {|
  Scheme_ := list (GroupVersion * string); NewScheme := [];
  Recognizes := λ s gv kind, existsb (λ e, String.eqb (gv_Group e.1) (gv_Group gv) && String.eqb (gv_Version e.1) (gv_Version gv) && String.eqb e.2 kind) s;
  AddKnownTypes := λ gv kinds, modify (app (map (pair gv) kinds)); AddToGroupVersion := λ _, mret tt;
  SchemeBuilder_ := M (list (GroupVersion * string)) error unit; NewSchemeBuilder := λ f, f; Register := λ f b, (_ ← b; f); AddToScheme_ := λ b, b;
  clientgoscheme_AddToScheme := mret tt; certmanagerv1_AddToScheme := mret tt
|}.

Lemma demo_laws : SchemeLaws.
Proof.
  constructor; try done; intros; intros s; eexists; (split; [reflexivity|]); split; try done; intros gv' kind.
  - simpl. rewrite existsb_app. intros ->. by rewrite orb_true_r.
  - intros [-> Hk]. simpl. rewrite existsb_app. apply orb_true_intro. left. apply existsb_exists. exists (gv, kind).
    split; [apply in_map; by apply list_elem_of_In|]. simpl. by rewrite !String.eqb_refl.
Qed.

Example demo_registers :
  (main_init NewScheme).1 = Ok tt ∧ forallb (Recognizes (main_init NewScheme).2 SchemeGroupVersion) kinds = true.
Proof. split; reflexivity. Qed.
End Scheme.
