(* ===== verification/Manager.v ===== *)
(** * The manager: cmd/main.go and [SetupWithManager] of internal/controller/signer.go

    From the command line to a running manager.  controller-runtime and
    issuer-lib are the class [ControllerRuntime]: constructors and registration
    calls that may fail.  Every such call is logged with its error. *)

From S2P Require Import Prelude GoString Logging Version Types Api.
Import Logging Version Api.

Module Manager.

Definition fieldOwner : string := "cmp-issuer.certmanager.misiektoja.github.io".
Definition leaderElectionID : string := "4f0dc535.misiektoja.github.io".

(** ** Command line *)

(** runConfiguration contains the manager settings populated by command-line
    flags. *)
Record runConfiguration := {
  rc_ClusterResourceNamespace : string;
  rc_WatchNamespace : string;
  EnableLeaderElection : bool;
  MetricsAddress : string;
  MetricsSecure : bool;
  MetricsCertificateDir : string;
  MetricsCertificateName : string;
  MetricsCertificateKey : string;
  ProbeAddress : string
}.

(** The flags [flag.Parse] found on the command line. *)
Record Flags := { flag_Strings : gmap string string; flag_Bools : gmap string bool }.

(** [flag.StringVar] and [flag.BoolVar]: the given value or the default. *)
Definition StringVar (flags : Flags) (name value : string) : string := default value (flag_Strings flags !! name).
Definition BoolVar (flags : Flags) (name : string) (value : bool) : bool := default value (flag_Bools flags !! name).

(** The configuration main builds, with the defaults of its flags. *)
Definition configurationOf (flags : Flags) : runConfiguration :=
  {| rc_ClusterResourceNamespace := StringVar flags "cluster-resource-namespace" "cmp-issuer-system";
     rc_WatchNamespace := StringVar flags "watch-namespace" "";
     EnableLeaderElection := BoolVar flags "leader-elect" true;
     MetricsAddress := StringVar flags "metrics-bind-address" "0";
     MetricsSecure := BoolVar flags "metrics-secure" true;
     MetricsCertificateDir := StringVar flags "metrics-cert-path" "";
     MetricsCertificateName := StringVar flags "metrics-cert-name" "tls.crt";
     MetricsCertificateKey := StringVar flags "metrics-cert-key" "tls.key";
     ProbeAddress := StringVar flags "health-probe-bind-address" ":8081" |}.

(** ** Options *)

(** What the TLS options change of a [tls.Config]. *)
Record tlsConfig := { NextProtos : list string; OtherSettings : string }.
Definition disableHTTP2 (c : tlsConfig) : tlsConfig := {| NextProtos := ["http/1.1"%string]; OtherSettings := OtherSettings c |}.

(** [metricsserver.Options.FilterProvider] *)
Inductive Filter := WithAuthenticationAndAuthorization.

Record MetricsOptions := {
  BindAddress : string;
  SecureServing : bool;
  metrics_TLSOpts : list (tlsConfig → tlsConfig);
  FilterProvider : option Filter;
  CertDir : string;
  CertName : string;
  KeyName : string
}.

(** [ctrl.Options]; [DefaultNamespaces] is nil when the cache covers the whole
    cluster. *)
Record ManagerOptions := {
  Metrics : MetricsOptions;
  webhook_TLSOpts : list (tlsConfig → tlsConfig);
  HealthProbeBindAddress : string;
  LeaderElection : bool;
  LeaderElectionID : string;
  DefaultNamespaces : option (gset string)
}.

Definition metricsOptions (configuration : runConfiguration) : MetricsOptions :=
  let supplied := negb (bool_decide (MetricsCertificateDir configuration = "")) in
  {| BindAddress := MetricsAddress configuration; SecureServing := MetricsSecure configuration;
     metrics_TLSOpts := [disableHTTP2];
     FilterProvider := if MetricsSecure configuration then Some WithAuthenticationAndAuthorization else None;
     CertDir := if supplied then MetricsCertificateDir configuration else "";
     CertName := if supplied then MetricsCertificateName configuration else "";
     KeyName := if supplied then MetricsCertificateKey configuration else "" |}.

Definition managerOptions (configuration : runConfiguration) : ManagerOptions :=
  {| Metrics := metricsOptions configuration; webhook_TLSOpts := [disableHTTP2];
     HealthProbeBindAddress := ProbeAddress configuration; LeaderElection := EnableLeaderElection configuration;
     LeaderElectionID := leaderElectionID;
     DefaultNamespaces := if bool_decide (rc_WatchNamespace configuration = "") then None
                          else Some {[ rc_WatchNamespace configuration ]} |}.

(** ** controller-runtime and issuer-lib *)

Class ControllerRuntime := {
  RT : Type;
  RestConfig : Type;
  ctrlManager : Type;
  Reader : Type;
  Writer : Type;
  EventRecorder : Type;
  protocolClient : Type;
  (* a missing configuration ends the process *)
  GetConfigOrDie : RT → option RestConfig;
  NewManager : RestConfig → ManagerOptions → RT → (error + ctrlManager) * RT;
  GetAPIReader : ctrlManager → Reader;
  GetClient : ctrlManager → Writer;
  GetEventRecorder : ctrlManager → string → EventRecorder;
  NewClient : protocolClient;
  (* the rest of CombinedController.SetupWithManager, AddHealthzCheck,
     AddReadyzCheck and Start *)
  setupCombined : ctrlManager → list IssuerKind → list IssuerKind → RT → option error * RT;
  addHealthzCheck : ctrlManager → string → RT → option error * RT;
  addReadyzCheck : ctrlManager → string → RT → option error * RT;
  startManager : ctrlManager → RT → option error * RT
}.

Section manager.
Context `{ControllerRuntime} `{UnicodeTables}.

Record transactionStore := { reader : Reader; writer : Writer }.

(** Signer loads issuer credentials and delegates protected transactions to a
    project-owned client; a nil field is [None]. *)
Record Signer := {
  KubeClient : option Reader;
  ProtocolClient : option protocolClient;
  signer_EventRecorder : option EventRecorder;
  ClusterResourceNamespace : string;
  WatchNamespace : string;
  transactions : option transactionStore
}.

(** issuer-lib's [CombinedController]; [Check] and [Sign] are methods of
    [combined_Signer]. *)
Record CombinedController := {
  IssuerTypes : list IssuerKind;
  ClusterIssuerTypes : list IssuerKind;
  FieldOwner : string;
  MaxRetryDuration : Duration;
  combined_Signer : Signer;
  combined_EventRecorder : option EventRecorder;
  DisableKubernetesCSRController : bool
}.

(** The calls that build and run the manager. *)
Inductive call :=
| CallNewManager (options : ManagerOptions)
| CallSetup (combined : CombinedController)
| CallHealthz (name : string)
| CallReadyz (name : string)
| CallLog (message : string) (values : list string)
| CallStart.

(** The state: controller-runtime's and the calls made so far with the error
    each returned, in order. *)
Record process := { p_rt : RT; p_calls : list (call * option error) }.

Definition logged {E} (c : call) : M process E unit := modify (λ p, {| p_rt := p_rt p; p_calls := p_calls p ++ [(c, None)] |}).

Definition errorOf {A} (r : error + A) : option error := match r with inl e => Some e | inr _ => None end.

(** Make a call and return its error, wrapped. *)
Definition calling {A} (c : call) (wrap : error → error) (f : RT → (error + A) * RT) : M process error A :=
  r ← Prelude.step (λ p, let '(r, rt) := f (p_rt p) in (r, {| p_rt := rt; p_calls := p_calls p ++ [(c, errorOf r)] |}));
  lift (match r with inl e => Err (wrap e) | inr a => Ok a end).

Definition failing (f : RT → option error * RT) (rt : RT) : (error + unit) * RT :=
  let '(e, rt) := f rt in (match e with Some e => inl e | None => inr tt end, rt).

(** SetupWithManager registers issuer-lib controllers while disabling Kubernetes
    CSR support. *)
Definition SetupWithManager (s : Signer) (manager : ctrlManager) : M process error Signer :=
  let kube := default (GetAPIReader manager) (KubeClient s) in
  let client := default NewClient (ProtocolClient s) in
  let recorder := default (GetEventRecorder manager fieldOwner) (signer_EventRecorder s) in
  _ ← lift (reject_if (bool_decide (ClusterResourceNamespace s = "") && bool_decide (WatchNamespace s = ""))
              (Errorf "cluster resource namespace is required"));
  let store := default {| reader := GetAPIReader manager; writer := GetClient manager |} (transactions s) in
  let s := {| KubeClient := Some kube; ProtocolClient := Some client; signer_EventRecorder := Some recorder;
              ClusterResourceNamespace := ClusterResourceNamespace s; WatchNamespace := WatchNamespace s;
              transactions := Some store |} in
  let combined := {| IssuerTypes := [CMPIssuer];
                     ClusterIssuerTypes := if bool_decide (WatchNamespace s = "") then [CMPClusterIssuer] else [];
                     FieldOwner := fieldOwner; MaxRetryDuration := (2 * Minute)%Z; combined_Signer := s;
                     combined_EventRecorder := signer_EventRecorder s; DisableKubernetesCSRController := true |} in
  _ ← calling (CallSetup combined) id (failing (setupCombined manager (IssuerTypes combined) (ClusterIssuerTypes combined)));
  mret s.

(** The part of run after [ctrl.NewManager]. *)
Definition serve (identity : Info) (configuration : runConfiguration) (manager : ctrlManager) : M process error unit :=
  let signer := {| KubeClient := None; ProtocolClient := None; signer_EventRecorder := None;
                   ClusterResourceNamespace := rc_ClusterResourceNamespace configuration;
                   WatchNamespace := rc_WatchNamespace configuration; transactions := None |} in
  _ ← mapErrM (Wrapped "register CMP signer") (SetupWithManager signer manager);
  _ ← calling (CallHealthz "healthz") (Wrapped "add health check") (failing (addHealthzCheck manager "healthz"));
  _ ← calling (CallReadyz "readyz") (Wrapped "add readiness check") (failing (addReadyzCheck manager "readyz"));
  _ ← logged (CallLog "Starting manager" (KeysAndValues identity));
  calling CallStart (Wrapped "run manager") (failing (startManager manager)).

(** run builds the controller-runtime manager and registers issuer-lib
    controllers. *)
Definition run (identity : Info) (configuration : runConfiguration) : M process error unit :=
  let options := managerOptions configuration in
  _ ← (if bool_decide (MetricsCertificateDir configuration = "") then mret tt
       else logged (CallLog "Serving metrics with the supplied certificate"
              ["path"; MetricsCertificateDir configuration; "certificate"; MetricsCertificateName configuration;
               "key"; MetricsCertificateKey configuration]%string));
  rest ← gets (λ p, GetConfigOrDie (p_rt p));
  config ← lift (deref rest);
  manager ← calling (CallNewManager options) (Wrapped "create manager") (NewManager config options);
  serve identity configuration manager.

(** How the process ends: what it printed and its exit status. *)
Record ended := { printed : option string; status : Z }.

(** main parses controller flags and starts the manager. *)
Definition main (identity : Info) (flags : Flags) : M process error ended :=
  if BoolVar flags "version" false then mret {| printed := Some (info_String identity); status := 0 |}
  else
    r ← try (run identity (configurationOf flags));
    mret {| printed := None; status := match r with inl _ => 1 | inr _ => 0 end |}.
(** ** Properties *)

(** The registrations of a run, without its log lines. *)
Definition isRegistration (c : call * option error) : bool := match c.1 with CallLog _ _ => false | _ => true end.
Definition registrations (p : process) : list (call * option error) := List.filter isRegistration (p_calls p).

(** What [m] registers, given the registrations made before it. *)
Definition registers {A} (m : M process error A) (Q : list (call * option error) → outcome error A → Prop) : Prop :=
  ∀ p, ∃ added, registrations (m p).2 = registrations p ++ added ∧ Q added (m p).1.

Lemma registers_bind {A B} (m : M process error A) (f : A → M process error B) Q :
  registers m (λ l o, match o with
                      | Ok a => registers (f a) (λ l' o', Q (l ++ l') o')
                      | Err e => Q l (Err e)
                      | Panic => Q l Panic
                      end) → registers (m ≫= f) Q.
Proof.
  intros Hm p. destruct (Hm p) as (l & Hl & HQ). unfold mbind, M_bind. destruct (m p) as [[a|e|] p']; simpl in *; [|eauto..].
  destruct (HQ p') as (l' & Hl' & HQ'). exists (l ++ l'). by rewrite Hl', Hl, app_assoc.
Qed.

Lemma registers_gets {A} (f : process → A) (Q : list (call * option error) → outcome error A → Prop) :
  (∀ a, Q [] (Ok a)) → registers (gets f) Q.
Proof. intros HQ p. exists []. split; [by rewrite app_nil_r|apply HQ]. Qed.

Lemma registers_mono {A} (m : M process error A) (Q Q' : list (call * option error) → outcome error A → Prop) :
  registers m Q → (∀ l o, Q l o → Q' l o) → registers m Q'.
Proof. intros Hm HQ p. destruct (Hm p) as (l & Hl & HQl). eauto. Qed.

Lemma registers_lift {A} (o : outcome error A) (Q : list (call * option error) → outcome error A → Prop) : Q [] o → registers (lift o) Q.
Proof. intros HQ p. exists []. by rewrite app_nil_r. Qed.

Lemma registers_mapErrM {A} g (m : M process error A) (Q : list (call * option error) → outcome error A → Prop) :
  registers m (λ l o, Q l (mapErr g o)) → registers (mapErrM g m) Q.
Proof. intros Hm p. destruct (Hm p) as (l & Hl & HQ). exists l. unfold mapErrM. by destruct (m p). Qed.

Lemma registers_logged message values (Q : list (call * option error) → outcome error unit → Prop) :
  Q [] (Ok tt) → registers (logged (CallLog message values)) Q.
Proof.
  intros HQ p. exists []. split; [|done]. unfold logged, modify, registrations. simpl. by rewrite List.filter_app.
Qed.

Lemma registers_calling {A} c wrap (f : RT → (error + A) * RT) (Q : list (call * option error) → outcome error A → Prop) :
  (∀ r, isRegistration (c, r) = true) → (∀ a, Q [(c, None)] (Ok a)) → (∀ e, Q [(c, Some e)] (Err (wrap e))) →
  registers (calling c wrap f) Q.
Proof.
  intros Hc Hok Herr p. unfold calling, mbind, M_bind, Prelude.step, lift. destruct (f (p_rt p)) as [r rt]. simpl.
  exists [(c, errorOf r)]. unfold registrations. simpl. rewrite List.filter_app. cbn [List.filter]. rewrite Hc.
  split; [done|]. destruct r; simpl; auto.
Qed.

(** A manager restricted to a namespace, or serving the cluster. *)
Definition scoped (configuration : runConfiguration) (options : ManagerOptions) (clusterTypes : list IssuerKind) : Prop :=
  let namespace := rc_WatchNamespace configuration in
  (namespace ≠ ""%string ∧ DefaultNamespaces options = Some {[ namespace ]} ∧ clusterTypes = []) ∨
  (namespace = ""%string ∧ DefaultNamespaces options = None ∧ clusterTypes = [CMPClusterIssuer] ∧
   rc_ClusterResourceNamespace configuration ≠ ""%string).

(** A signer whose collaborators are all present. *)
Definition wired (s : Signer) : Prop :=
  is_Some (KubeClient s) ∧ is_Some (ProtocolClient s) ∧ is_Some (signer_EventRecorder s) ∧ is_Some (transactions s).

(** Listeners that never negotiate HTTP/2, and metrics served over HTTPS only
    behind the API server's authentication and authorization. *)
Definition hardened (options : ManagerOptions) : Prop :=
  (∀ c, NextProtos (foldl (λ c f, f c) c (metrics_TLSOpts (Metrics options))) = ["http/1.1"%string]) ∧
  (∀ c, NextProtos (foldl (λ c f, f c) c (webhook_TLSOpts options)) = ["http/1.1"%string]) ∧
  (SecureServing (Metrics options) = true → FilterProvider (Metrics options) = Some WithAuthenticationAndAuthorization).

Lemma managerOptions_hardened configuration : hardened (managerOptions configuration).
Proof. split_and!; [done..|]. simpl. by intros ->. Qed.

(** What a registered controller looks like. *)
Definition registered (configuration : runConfiguration) (combined : CombinedController) : Prop :=
  IssuerTypes combined = [CMPIssuer] ∧ DisableKubernetesCSRController combined = true ∧
  wired (combined_Signer combined) ∧
  ClusterResourceNamespace (combined_Signer combined) = rc_ClusterResourceNamespace configuration ∧
  scoped configuration (managerOptions configuration) (ClusterIssuerTypes combined).

Lemma scoped_types configuration :
  bool_decide (rc_ClusterResourceNamespace configuration = "") && bool_decide (rc_WatchNamespace configuration = "") = false →
  scoped configuration (managerOptions configuration) (if bool_decide (rc_WatchNamespace configuration = "") then [CMPClusterIssuer] else []).
Proof.
  intros Hns. unfold scoped. simpl. destruct (bool_decide (rc_WatchNamespace configuration = "")) eqn:E; simplify_bool; naive_solver.
Qed.

(** A run of calls that all succeeded, or whose last one alone failed. *)
Definition succeeded (l : list call) : list (call * option error) := map (λ c, (c, None)) l.
Definition stopped (l : list call) (c : call) (e : error) : list (call * option error) := succeeded l ++ [(c, Some e)].

(** A manager that serves no namespace of its own and none for the cluster. *)
Definition unscoped (configuration : runConfiguration) : Prop :=
  rc_ClusterResourceNamespace configuration = ""%string ∧ rc_WatchNamespace configuration = ""%string.
Definition namespaceRequired : error := Errorf "cluster resource namespace is required".

Lemma SetupWithManager_registers configuration manager :
  let s := {| KubeClient := None; ProtocolClient := None; signer_EventRecorder := None;
              ClusterResourceNamespace := rc_ClusterResourceNamespace configuration;
              WatchNamespace := rc_WatchNamespace configuration; transactions := None |} in
  registers (SetupWithManager s manager)
    (λ l o, (unscoped configuration ∧ l = [] ∧ o = Err namespaceRequired) ∨
            ∃ combined, registered configuration combined ∧
              ((l = succeeded [CallSetup combined] ∧ ∃ s', o = Ok s') ∨ ∃ e, l = stopped [] (CallSetup combined) e ∧ o = Err e)).
Proof.
  intros s. unfold SetupWithManager. apply registers_bind, registers_lift. unfold reject_if. cbn [WatchNamespace s ClusterResourceNamespace].
  destruct (_ && _) eqn:Hns; [left; simplify_bool; by split_and!|]. apply registers_bind, registers_calling; [done| |].
  - intros _. apply registers_lift. right. eexists. split; [|left; eauto].
    split_and!; [done..| |done|by apply scoped_types]. split_and!; by eexists.
  - intros e. right. eexists. split; [|right; eauto].
    split_and!; [done..| |done|by apply scoped_types]. split_and!; by eexists.
Qed.

(** The calls of [serve], in order. *)
Definition serving (combined : CombinedController) : list call :=
  [CallSetup combined; CallHealthz "healthz"; CallReadyz "readyz"; CallStart].

(** The error run returns for a failed call: what failed, around the call's own
    error. *)
Definition failure (c : call) (e : error) : error :=
  match c with
  | CallNewManager _ => Wrapped "create manager" e
  | CallSetup _ => Wrapped "register CMP signer" e
  | CallHealthz _ => Wrapped "add health check" e
  | CallReadyz _ => Wrapped "add readiness check" e
  | CallStart => Wrapped "run manager" e
  | CallLog _ _ => e
  end.

(** All of [calls] succeeded and so did the program, or one of them failed, was
    the last one made, and its error is returned, wrapped. *)
Definition upToFailure (calls : list call) (l : list (call * option error)) (o : outcome error unit) : Prop :=
  (l = succeeded calls ∧ o = Ok tt) ∨
  ∃ made c rest e, calls = made ++ c :: rest ∧ l = stopped made c e ∧ o = Err (failure c e).

Lemma upToFailure_cons c calls l o : upToFailure calls l o → upToFailure (c :: calls) ((c, None) :: l) o.
Proof.
  intros [[-> ->]|(made & c' & rest & e & -> & -> & Ho)]; [by left|]. right. by exists (c :: made), c', rest, e.
Qed.

Lemma upToFailure_first c calls e : upToFailure (c :: calls) [(c, Some e)] (Err (failure c e)).
Proof. right. by exists [], c, calls, e. Qed.

Lemma registers_last c (f : RT → option error * RT) :
  (∀ r, isRegistration (c, r) = true) → registers (calling c (failure c) (failing f)) (upToFailure [c]).
Proof. intros Hc. apply registers_calling; [done|intros []; by left|intros e; apply upToFailure_first]. Qed.

Lemma registers_next c calls (f : RT → option error * RT) (k : unit → M process error unit) :
  (∀ r, isRegistration (c, r) = true) → registers (k tt) (upToFailure calls) →
  registers (calling c (failure c) (failing f) ≫= k) (upToFailure (c :: calls)).
Proof.
  intros Hc Hk. apply registers_bind, registers_calling; [done| |intros e; apply upToFailure_first].
  intros []. eapply registers_mono; [exact Hk|]. intros l o. apply upToFailure_cons.
Qed.

Lemma serve_registers identity configuration manager :
  registers (serve identity configuration manager) (λ l o,
    (unscoped configuration ∧ l = [] ∧ o = Err (Wrapped "register CMP signer" namespaceRequired)) ∨
    ∃ combined, registered configuration combined ∧ upToFailure (serving combined) l o).
Proof.
  unfold serve. apply registers_bind, registers_mapErrM.
  eapply registers_mono; [apply SetupWithManager_registers|].
  intros l o [(Hu & -> & ->)|(combined & Hr & [[-> [s' ->]]|(e & -> & ->)])]; simpl.
  - by left.
  - eapply registers_mono; [|intros l o Hu; right; exists combined; split; [exact Hr|by apply upToFailure_cons]].
    apply (registers_next (CallHealthz "healthz")); [done|]. apply (registers_next (CallReadyz "readyz")); [done|].
    apply registers_bind, registers_logged. by apply (registers_last CallStart).
  - right. exists combined. split; [done|apply upToFailure_first].
Qed.

(** C38: The manager is started only when it is completely built: run creates it with its options, registers the
    signer's controllers, the health and the readiness probe, in this order, and starts it last; the first call
    that fails is the last one made and run returns that call's error under the message of that call, and run
    succeeds exactly when all of them did. Without a cluster resource namespace and a watched namespace nothing
    is registered and the missing namespace is reported. The registered signer has every collaborator;
    with a watched namespace the cache covers that namespace alone and no cluster issuer is served, without one
    the cluster issuers are served and their credential namespace is named; metrics over HTTPS are always behind
    authentication and authorization, and no listener negotiates HTTP/2. *)
Theorem run_registers identity configuration :
  hardened (managerOptions configuration) ∧
  registers (run identity configuration) (λ l o,
    let created := CallNewManager (managerOptions configuration) in
    (* the process died without a REST configuration *)
    (l = [] ∧ o = Panic) ∨
    (∃ e, l = stopped [] created e ∧ o = Err (failure created e)) ∨
    (unscoped configuration ∧ l = succeeded [created] ∧ o = Err (Wrapped "register CMP signer" namespaceRequired)) ∨
    ∃ combined, registered configuration combined ∧ upToFailure (created :: serving combined) l o).
Proof.
  split; [apply managerOptions_hardened|]. unfold run. apply registers_bind.
  assert (Hlog : ∀ Q : list (call * option error) → outcome error unit → Prop, Q [] (Ok tt) →
    registers (if bool_decide (MetricsCertificateDir configuration = "") then mret tt
      else logged (CallLog "Serving metrics with the supplied certificate"
             ["path"; MetricsCertificateDir configuration; "certificate"; MetricsCertificateName configuration;
              "key"; MetricsCertificateKey configuration]%string)) Q)
    by (intros Q HQ; case_bool_decide; [by apply registers_lift|by apply registers_logged]).
  apply Hlog, registers_bind, registers_gets. intros rest.
  apply registers_bind, registers_lift. destruct rest as [config|]; [|by left]. simpl.
  apply registers_bind, registers_calling; [done| |intros e; right; left; by exists e]. intros manager.
  eapply registers_mono; [apply serve_registers|]. intros l o [(Hu & -> & ->)|(combined & Hr & Hu)].
  - right; right; left. by split_and!.
  - right; right; right. exists combined. split; [done|by apply upToFailure_cons].
Qed.

(** main exits with status 0 exactly when it printed the version or run
    returned without an error. *)
Lemma main_status identity flags p ended :
  (main identity flags p).1 = Ok ended →
  status ended = 0%Z ↔ BoolVar flags "version" false = true ∨ (run identity (configurationOf flags) p).1 = Ok tt.
Proof.
  unfold main. destruct (BoolVar flags "version" false); [intros [= <-]; naive_solver|].
  unfold mbind, M_bind, try. destruct (run identity (configurationOf flags) p) as [[[]|e|] p']; [intros [= <-]..|done]; naive_solver.
Qed.
End manager.
End Manager.
