(* ===== verification/Metrics.v ===== *)
(** * Metric labels: internal/metrics/metrics.go

    The labels every enrollment metric shares and the operations that publish
    a series.  The Prometheus collectors are the log of [Runtime]. *)

From S2P Require Import Prelude GoString.

Module Metrics.

Definition OperationEnrollment : string := "enrollment".
Definition OperationRenewal : string := "renewal".
Definition ResultIssued : string := "issued".
Definition ResultFailed : string := "failed".

(** Labels identify the issuer an enrollment metric belongs to and whether it
    renewed a certificate. *)
Record Labels := { IssuerKind : string; label_Issuer : string; label_Operation : string }.

(** values renders the labels every enrollment metric shares, in the order they
    are declared. *)
Definition values (l : Labels) : list string := [IssuerKind l; label_Issuer l; label_Operation l].

(** complete reports whether the labels identify an issuer, so an unlabelled
    series is never published. *)
Definition complete (l : Labels) : bool :=
  negb (bool_decide (IssuerKind l = "")) && negb (bool_decide (label_Issuer l = "")) && negb (bool_decide (label_Operation l = "")).
End Metrics.
