(* ===== verification/Runtime.v ===== *)
(** * The world outside the program: clock, randomness, HTTP and the Kubernetes
    API, and the log of what the program did to it

    The operations are fields of the class [Runtime] over an abstract external
    state [Ext], so that a theorem holds for every behaviour of the outside.
    Each step the properties speak about is also appended to a log, which the
    program never reads. *)

From S2P Require Import Prelude GoString Types Api Metrics.
Import Api Metrics.

(** The HTTP client newHTTPClient builds, and one exchange with it. *)
Record HTTPClient := {
  hc_Timeout : Duration;
  hc_RootCAs : option CertPool;
  hc_FollowRedirects : bool
}.
Record HTTPRequest := {
  hr_Method : string;
  hr_Endpoint : string;
  hr_ContentType : string;
  hr_Accept : string;
  hr_Body : bytes
}.
(** A response body is the bytes the peer sends and the error that ends the
    stream, or [None] at its regular end. *)
Record HTTPResponse := {
  StatusCode : Z;
  ContentType : string;
  resp_Body : bytes;
  resp_Err : option error
}.

Class Runtime `{Libs} := {
  Ext : Type;
  ext_Now : Ext → Time * Ext;
  ext_Rand : nat → Ext → (error + bytes) * Ext;
  ext_Do : HTTPClient → HTTPRequest → Ext → (error + HTTPResponse) * Ext;

  (** go-pki-cmp functions that draw randomness *)
  ext_NewPKIMessage : RequestBody GeneralName POP → MessageOptions GeneralName → Ext → PKIRequest * Ext;
  ext_Protect : Credentials → PKIRequest → Ext → (error + PKIRequest) * Ext;
  ext_GeneratePOP : CertReqMsg GeneralName POP → Signer → Hash → Ext → (error + CertReqMsg GeneralName POP) * Ext;
  MarshalBinary : PKIRequest → error + bytes;

  (** the Kubernetes API *)
  ext_GetTransaction : NamespacedName → Ext → (error + CMPTransaction) * Ext;
  ext_CreateTransaction : CMPTransaction → Ext → (error + CMPTransaction) * Ext;
  ext_UpdateStatus : CMPTransaction → Ext → (error + CMPTransaction) * Ext;
  (* Delete with an optional UID precondition *)
  ext_DeleteTransaction : NamespacedName → option string → Ext → option error * Ext;
  ext_GetSecret : NamespacedName → Ext → (error + SecretObject) * Ext;
  ext_GetCertificate : NamespacedName → Ext → (error + OwningCertificate) * Ext
}.

(** What the program did.  [EvLoaded] is the record a reconcile starts from;
    [EvCreate] and [EvUpdateStatus] are the writes the API server accepted,
    [EvDelete] the deletions asked for.  [EvReadCertificate] is a read of a
    cert-manager Certificate with the object the API server answered.  The calls of the protocol client are
    logged with their argument before they are made. *)
Inductive event `{Libs} :=
| EvPost (operation endpoint : string) (requestDER : bytes)
| EvLoaded (transaction : option CMPTransaction)
| EvCreate (transaction : CMPTransaction)
| EvUpdateStatus (transaction : CMPTransaction)
| EvDelete (key : NamespacedName) (uid : option string)
| EvReadSecret (key : NamespacedName)
| EvReadCertificate (key : NamespacedName) (certificate : option OwningCertificate)
| EvEnroll (operation : string) (request : EnrollmentRequest)
| EvPoll (request : PollRequest)
| EvConfirm (request : ConfirmRequest)
| EvWarning (reason : string)
| EvOutcome (labels : list string) (result : string) (elapsed : Duration)
| EvFailure (labels : list string) (failure classification : string)
| EvPollWait (labels : list string)
| EvConfirmation (labels : list string) (confirmation : string).

(** The log is newest first. *)
Record World `{Runtime} := mkWorld { w_ext : Ext; w_log : list event }.
Arguments mkWorld {_ _} w_ext w_log.

Section runtime.
Context `{Runtime}.

Definition GoM (E A : Type) : Type := M World E A.

(** Append to the log. *)
Definition emit {E} (ev : event) : M World E unit :=
  modify (λ w, mkWorld (w_ext w) (ev :: w_log w)).

(** Call an operation of the outside. *)
Definition outside {E A} (f : Ext → A * Ext) : M World E A :=
  step (λ w, let '(a, x) := f (w_ext w) in (a, mkWorld x (w_log w))).

(** Call a fallible operation and return its error as the caller's. *)
Definition outside_try {E A} (wrap : error → E) (f : Ext → (error + A) * Ext) : M World E A :=
  r ← outside f; lift (match r with inl e => Err (wrap e) | inr a => Ok a end).

Definition time_Now {E} : M World E Time := outside ext_Now.

Lemma wp_emit {E} ev (Q : outcome E unit → World → Prop) w :
  Q (Ok tt) (mkWorld (w_ext w) (ev :: w_log w)) → wp (emit ev) Q w.
Proof. done. Qed.

(** An outside call changes the external state in some way and logs nothing. *)
Lemma wp_outside {E A} (f : Ext → A * Ext) (Q : outcome E A → World → Prop) w :
  (∀ x, Q (Ok (f (w_ext w)).1) (mkWorld x (w_log w))) → wp (outside f) Q w.
Proof. intros HQ. unfold wp, outside, step. destruct (f (w_ext w)) eqn:E1. apply HQ. Qed.

Lemma run_emit {E} ev w u w' : emit (E:=E) ev w = (Ok u, w') ↔ w' = mkWorld (w_ext w) (ev :: w_log w).
Proof. unfold emit, modify. destruct u. naive_solver. Qed.

Lemma run_outside {E A} (f : Ext → A * Ext) w a w' :
  outside (E:=E) f w = (Ok a, w') ↔ ∃ x, f (w_ext w) = (a, x) ∧ w' = mkWorld x (w_log w).
Proof. unfold outside, step. destruct (f (w_ext w)). naive_solver. Qed.

(** *** What a program adds to the log

    [logs P m]: every event [m] appends satisfies [P], however it ends. *)
Definition logs {E A} (P : event → Prop) (m : M World E A) : Prop :=
  ∀ w, ∃ added, w_log (m w).2 = added ++ w_log w ∧ Forall P added.

Lemma logs_ret {E A} P (a : A) : logs (E:=E) P (mret a).
Proof. intros w. by exists []. Qed.
Lemma logs_lift {E A} P (o : outcome E A) : logs P (lift o).
Proof. intros w. by exists []. Qed.
Lemma logs_fail {E A} P (e : E) : logs (A:=A) P (fail e).
Proof. intros w. by exists []. Qed.
Lemma logs_outside {E A} P (f : Ext → A * Ext) : logs (E:=E) P (outside f).
Proof. intros w. exists []. unfold outside, step. by destruct (f (w_ext w)). Qed.
Lemma logs_emit {E} (P : event → Prop) ev : P ev → logs (E:=E) P (emit ev).
Proof. intros HP w. exists [ev]. by repeat constructor. Qed.

Lemma logs_bind {E A B} P (m : M World E A) (f : A → M World E B) :
  logs P m → (∀ a, logs P (f a)) → logs P (m ≫= f).
Proof.
  intros Hm Hf w. destruct (Hm w) as (l & Hl & Pl). unfold mbind, M_bind.
  destruct (m w) as [[a|e|] w']; simpl in *; eauto.
  destruct (Hf a w') as (l' & Hl' & Pl'). exists (l' ++ l). rewrite Hl', Hl, app_assoc.
  split; [done|]. by apply Forall_app.
Qed.

Lemma logs_bind_returns {E A B} P (R : A → Prop) (m : M World E A) (f : A → M World E B) :
  logs P m → returns m R → (∀ a, R a → logs P (f a)) → logs P (m ≫= f).
Proof.
  intros Hm HR Hf w. destruct (Hm w) as (l & Hl & Pl). specialize (HR w). unfold mbind, M_bind.
  destruct (m w) as [[a|e|] w']; simpl in *; eauto.
  destruct (Hf a (HR a eq_refl) w') as (l' & Hl' & Pl'). exists (l' ++ l). rewrite Hl', Hl, app_assoc.
  split; [done|]. by apply Forall_app.
Qed.

Lemma logs_try {E E' A} P (m : M World E A) : logs P m → logs (E:=E') P (try m).
Proof. intros Hm w. destruct (Hm w) as (l & Hl & Pl). exists l. unfold try. by destruct (m w) as [[] ?]. Qed.

Lemma logs_mapErrM {E E' A} P (g : E → E') (m : M World E A) : logs P m → logs P (mapErrM g m).
Proof. intros Hm w. destruct (Hm w) as (l & Hl & Pl). exists l. unfold mapErrM. by destruct (m w). Qed.

Lemma logs_mono {E A} (P Q : event → Prop) (m : M World E A) : logs P m → (∀ ev, P ev → Q ev) → logs Q m.
Proof.
  intros Hm HPQ w. destruct (Hm w) as (l & Hl & Pl). exists l. split; [done|]. by eapply Forall_impl.
Qed.

(** [adds P m]: the events [m] appends, newest first, satisfy [P] together. *)
Definition adds {E A} (P : list event → Prop) (m : M World E A) : Prop :=
  ∀ w, ∃ added, w_log (m w).2 = added ++ w_log w ∧ P added.

(** A program that appends nothing. *)
Definition quiet {E A} (m : M World E A) : Prop := logs (λ _, False) m.

Lemma adds_quiet {E A} (P : list event → Prop) (m : M World E A) : quiet m → P [] → adds P m.
Proof. intros Hm HP w. destruct (Hm w) as ([|ev l] & Hl & Pl); [eauto|by inversion Pl]. Qed.

Lemma quiet_log {E A} (m : M World E A) w : quiet m → w_log (m w).2 = w_log w.
Proof. intros Hm. destruct (Hm w) as ([|ev l] & Hl & Pl); [done|by inversion Pl]. Qed.

Lemma emit_then_quiet {E A} ev (f : unit → M World E A) w :
  (∀ u, quiet (f u)) → w_log ((emit ev ≫= f) w).2 = ev :: w_log w.
Proof. intros Hf. exact (quiet_log (f tt) (mkWorld (w_ext w) (ev :: w_log w)) (Hf tt)). Qed.

Lemma adds_emit {E} (P : list event → Prop) ev : P [ev] → adds P (emit (E:=E) ev).
Proof. intros HP w. by exists [ev]. Qed.

Lemma adds_bind {E A B} (P1 P2 P : list event → Prop) (m : M World E A) (f : A → M World E B) :
  adds P1 m → (∀ a, adds P2 (f a)) → (∀ l, P1 l → P l) → (∀ l1 l2, P1 l1 → P2 l2 → P (l2 ++ l1)) →
  adds P (m ≫= f).
Proof.
  intros Hm Hf H1 H12 w. destruct (Hm w) as (l & Hl & Pl). unfold mbind, M_bind.
  destruct (m w) as [[a|e|] w']; simpl in *; eauto.
  destruct (Hf a w') as (l' & Hl' & Pl'). exists (l' ++ l). rewrite Hl', Hl, app_assoc. eauto.
Qed.

Lemma adds_bind_quiet {E A B} (P : list event → Prop) (m : M World E A) (f : A → M World E B) :
  quiet m → P [] → (∀ a, adds P (f a)) → adds P (m ≫= f).
Proof.
  intros Hm HP Hf. eapply (adds_bind (λ l, l = []) P); [by apply adds_quiet|done|by intros ? ->|].
  intros ? l -> ?. by rewrite app_nil_r.
Qed.

Lemma adds_bind_last {E A B} (P : list event → Prop) (m : M World E A) (f : A → M World E B) :
  adds P m → (∀ a, quiet (f a)) → adds P (m ≫= f).
Proof.
  intros Hm Hf. eapply (adds_bind P (λ l, l = [])); [done|intros a; by apply adds_quiet|done|].
  by intros l1 l2 ? ->.
Qed.

Lemma adds_try {E E' A} (P : list event → Prop) (m : M World E A) : adds P m → adds P (try (E':=E') m).
Proof. intros Hm w. destruct (Hm w) as (l & Hl & Pl). exists l. unfold try. by destruct (m w) as [[] ?]. Qed.

Lemma adds_mono {E A} (P Q : list event → Prop) (m : M World E A) : adds P m → (∀ l, P l → Q l) → adds Q m.
Proof. intros Hm HPQ w. destruct (Hm w) as (l & Hl & Pl). eauto. Qed.

(** The same from one given world. *)
Definition addsAt {E A} (P : list event → Prop) (m : M World E A) (w : World) : Prop :=
  ∃ added, w_log (m w).2 = added ++ w_log w ∧ P added.

Lemma addsAt_lift {E A B} (P : list event → Prop) (o : outcome E A) (f : A → M World E B) w :
  P [] → (∀ a, o = Ok a → addsAt P (f a) w) → addsAt P (lift o ≫= f) w.
Proof. intros HP Hf. unfold addsAt, mbind, M_bind, lift. destruct o as [a|e|]; [by apply Hf|by exists []..]. Qed.

Lemma addsAt_quiet {E A B} (P : list event → Prop) (m : M World E A) (f : A → M World E B) w :
  quiet m → P [] → (∀ a w', m w = (Ok a, w') → w_log w' = w_log w → addsAt P (f a) w') → addsAt P (m ≫= f) w.
Proof.
  intros Hm HP Hf. pose proof (quiet_log m w Hm) as Hl. unfold addsAt, mbind, M_bind.
  destruct (m w) as [[a|e|] w'] eqn:Em; simpl in *; [|by exists []..].
  rewrite <- Hl. by apply (Hf a w').
Qed.

Lemma addsAt_last {E A B} (P : list event → Prop) (m : M World E A) (f : A → M World E B) w :
  addsAt P m w → (∀ a, quiet (f a)) → addsAt P (m ≫= f) w.
Proof.
  intros (l & Hl & Pl) Hf. exists l. split; [|done]. unfold mbind, M_bind. destruct (m w) as [[a|e|] w']; simpl in *; [|done..].
  by rewrite (quiet_log (f a) w' (Hf a)).
Qed.

Lemma addsAt_mono {E A} (P Q : list event → Prop) (m : M World E A) w : addsAt P m w → (∀ l, P l → Q l) → addsAt Q m w.
Proof. intros (l & Hl & Pl) HPQ. exists l. auto. Qed.

(** *** What precedes an event

    [ordered P l]: every event of [l], newest first, satisfies [P] together with
    the events before it. *)
Fixpoint ordered (P : list event → event → Prop) (l : list event) : Prop :=
  match l with [] => True | ev :: before => P before ev ∧ ordered P before end.

(** A permission that earlier events cannot take away. *)
Definition stable (P : list event → event → Prop) : Prop := ∀ before earlier ev, P before ev → P (before ++ earlier) ev.

Section ordered.
Context (P : list event → event → Prop) (HP : stable P).

Lemma ordered_app l1 l2 : ordered P l1 → ordered P l2 → ordered P (l2 ++ l1).
Proof. intros Hl1. induction l2 as [|ev l2 IH]; simpl; [done|]. intros [Hev Hl2]. split; [by apply HP|auto]. Qed.

Lemma orderly_logs {E A} (P0 : event → Prop) (m : M World E A) :
  logs P0 m → (∀ before ev, P0 ev → P before ev) → adds (ordered P) m.
Proof.
  intros Hm HP0 w. destruct (Hm w) as (l & Hl & Pl). exists l. split; [done|].
  clear Hl. induction Pl; simpl; auto.
Qed.

Lemma orderly_bind {E A B} (m : M World E A) (f : A → M World E B) :
  adds (ordered P) m → (∀ a, adds (ordered P) (f a)) → adds (ordered P) (m ≫= f).
Proof. intros Hm Hf. eapply (adds_bind (ordered P) (ordered P)); [done|done|done|]. apply ordered_app. Qed.
End ordered.

Lemma ordered_mono (P Q : list event → event → Prop) l : (∀ before ev, P before ev → Q before ev) → ordered P l → ordered Q l.
Proof. intros HPQ. induction l; simpl; naive_solver. Qed.

Lemma ordered_logs {E A} (P : list event → event → Prop) (P0 : event → Prop) (m : M World E A) :
  adds (ordered P) m → (∀ before ev, P before ev → P0 ev) → logs P0 m.
Proof.
  intros Hm HP0 w. destruct (Hm w) as (l & Hl & Pl). exists l. split; [done|].
  clear Hl. induction l as [|ev l IH]; simpl in Pl; constructor; naive_solver.
Qed.

Lemma ordered_split (P : list event → event → Prop) l after ev before : l = after ++ ev :: before → ordered P l → P before ev.
Proof. intros ->. induction after as [|e after IH]; simpl; tauto. Qed.

Lemma adds_mapErrM {E E' A} (P : list event → Prop) (g : E → E') (m : M World E A) : adds P m → adds P (mapErrM g m).
Proof. intros Hm w. destruct (Hm w) as (l & Hl & Pl). exists l. unfold mapErrM. by destruct (m w). Qed.
End runtime.

Create HintDb logs.
#[global] Hint Resolve logs_ret logs_lift logs_fail logs_outside : logs.

(** Decompose a program down to its events. *)
Ltac logs_step :=
  match goal with
  | |- logs _ (mbind _ _) => apply logs_bind; [|intros ?]
  | |- logs _ (try _) => apply logs_try
  | |- logs _ (mapErrM _ _) => apply logs_mapErrM
  | |- logs _ (emit _) => apply logs_emit
  | |- logs _ (outside_try _ _) => unfold outside_try
  | |- logs _ time_Now => apply logs_outside
  | |- logs _ _ => solve [auto with logs]
  | |- logs _ (match ?x with _ => _ end) => destruct x
  | |- logs _ (let '(_, _) := ?x in _) => destruct x
  end.
Ltac logs_tac := repeat logs_step.
Ltac quiet_tac := unfold quiet in *; logs_tac.
