(* ===== verification/TransactionStore.v ===== *)
(** * The transaction store: internal/controller/transaction_store.go *)

From S2P Require Import Prelude GoString Types Api Runtime.
Import Api.

Module TransactionStore.

Definition certificateRequestAPIVersion : string := "cert-manager.io/v1".
Definition certificateRequestKind : string := "CertificateRequest".
Definition transactionIDLength : nat := 16.

(** transactionDetail describes the request a transaction enrolls. *)
Record transactionDetail := {
  td_CSRDigest : string;
  td_IssuerRef : TransactionIssuerReference;
  td_ConfigurationDigest : string;
  td_Operation : string;
  td_ProtocolVersion : Z;
  td_RenewalFallback : string
}.

(** encodeChain renders a leaf-first chain as the DER elements stored in a
    transaction record. *)
Definition encodeChain (chain : list Certificate) : list bytes := map Raw chain.

(** deletePreconditions binds a delete to the exact record that was read. *)
Definition deletePreconditions (transaction : CMPTransaction) : option string :=
  if bool_decide (tx_UID transaction = "") then None else Some (tx_UID transaction).

Definition transactionKey (transaction : CMPTransaction) : NamespacedName := (tx_Namespace transaction, tx_Name transaction).

(** The record create writes first, before the API server fills in its
    metadata. *)
Definition newTransaction (namespace name uid : string) (transactionID : bytes) (deadline : Time) (detail : transactionDetail) : CMPTransaction :=
  {| tx_Namespace := namespace; tx_Name := name; tx_UID := ""; tx_ResourceVersion := ""; tx_CreationTimestamp := time_zero;
     tx_OwnerReferences := [{| owner_APIVersion := certificateRequestAPIVersion; owner_Kind := certificateRequestKind;
                               owner_Name := name; owner_UID := uid; owner_Controller := None |}];
     Spec := {| CertificateRequestName := name; CertificateRequestUID := uid; tx_TransactionID := transactionID;
                Deadline := deadline; CSRDigest := td_CSRDigest detail; IssuerRef := Some (td_IssuerRef detail);
                ConfigurationDigest := td_ConfigurationDigest detail; tx_Operation := td_Operation detail;
                tx_RenewalFallback := td_RenewalFallback detail; ProtocolVersion := td_ProtocolVersion detail |};
     tx_Status := CMPTransactionStatus_zero |}.

(** The status assignments of create, recordPending, recordConfirming and
    recordIssued. *)
Definition enrollingStatus (now : Time) (st : CMPTransactionStatus) : CMPTransactionStatus :=
  {| Phase := TransactionPhaseEnrolling; IssuedChain := IssuedChain st; CompletionTime := CompletionTime st;
     tx_RecipNonce := tx_RecipNonce st; tx_RequestNonce := tx_RequestNonce st; tx_CertReqID := tx_CertReqID st;
     tx_ResponseSigner := tx_ResponseSigner st; Polls := Polls st; LastTransitionTime := now |}.

(** [if pending.ResponseSigner != nil { ... }] *)
Definition keptSigner (pending : PendingTransaction) (st : CMPTransactionStatus) : bytes :=
  match pt_ResponseSigner pending with Some signer => Raw signer | None => tx_ResponseSigner st end.

Definition pendingStatus (now : Time) (pending : PendingTransaction) (st : CMPTransactionStatus) : CMPTransactionStatus :=
  {| Phase := TransactionPhasePolling; IssuedChain := IssuedChain st; CompletionTime := CompletionTime st;
     tx_RecipNonce := pt_RecipNonce pending;
     tx_RequestNonce := if bool_decide (pt_RequestNonce pending = "") then tx_RequestNonce st else pt_RequestNonce pending;
     tx_CertReqID := Some (pt_CertReqID pending); tx_ResponseSigner := keptSigner pending st;
     Polls := Polls st; LastTransitionTime := now |}.

Definition confirmingStatus (now : Time) (chain : list Certificate) (pending : PendingTransaction) (st : CMPTransactionStatus) : CMPTransactionStatus :=
  {| Phase := TransactionPhaseConfirming; IssuedChain := encodeChain chain; CompletionTime := CompletionTime st;
     tx_RecipNonce := pt_RecipNonce pending; tx_RequestNonce := pt_RequestNonce pending;
     tx_CertReqID := Some (pt_CertReqID pending); tx_ResponseSigner := keptSigner pending st;
     Polls := Polls st; LastTransitionTime := now |}.

Definition issuedStatus (now : Time) (chain : list Certificate) (st : CMPTransactionStatus) : CMPTransactionStatus :=
  {| Phase := TransactionPhaseIssued; IssuedChain := encodeChain chain; CompletionTime := now;
     tx_RecipNonce := tx_RecipNonce st; tx_RequestNonce := tx_RequestNonce st; tx_CertReqID := tx_CertReqID st;
     tx_ResponseSigner := tx_ResponseSigner st; Polls := Polls st; LastTransitionTime := now |}.

Section store.
Context `{Runtime}.

(** [writer.Delete(ctx, transaction, deletePreconditions(transaction)...)]: a
    nil error or the API server's. *)
Definition deleteTransaction (transaction : CMPTransaction) : M World error (option error) :=
  _ ← emit (EvDelete (transactionKey transaction) (deletePreconditions transaction));
  outside (ext_DeleteTransaction (transactionKey transaction) (deletePreconditions transaction)).

(** [writer.Status().Update(ctx, transaction)], which replaces [*transaction]
    with the API server's answer. *)
Definition updateStatus (label : string) (transaction : CMPTransaction) : M World error CMPTransaction :=
  stored ← outside_try (Wrapped label) (ext_UpdateStatus transaction);
  _ ← emit (EvUpdateStatus transaction);
  mret stored.

(** load returns the stored transaction of a CertificateRequest, or nil when
    none is recorded. *)
Definition load (namespace name uid : string) : M World error (option CMPTransaction) :=
  r ← outside (ext_GetTransaction (namespace, name));
  match r with
  | inl APINotFound => _ ← emit (EvLoaded None); mret None
  | inl err => fail (Wrapped "read CMP transaction state" err)
  | inr transaction =>
      if negb (bool_decide (CertificateRequestUID (Spec transaction) = uid)) then
        deleted ← deleteTransaction transaction;
        match deleted with
        | None | Some APINotFound => _ ← emit (EvLoaded None); mret None
        | Some err => fail (Wrapped "remove stale CMP transaction state" err)
        end
      else _ ← emit (EvLoaded (Some transaction)); mret (Some transaction)
  end.

(** create records a transaction before its first message is sent so that a
    crash cannot hide it. *)
Definition create (namespace name uid : string) (deadline : Time) (detail : transactionDetail) : M World error CMPTransaction :=
  transactionID ← outside_try (Wrapped "generate CMP transaction ID") (ext_Rand transactionIDLength);
  let transaction := newTransaction namespace name uid transactionID deadline detail in
  stored ← outside_try (Wrapped "record CMP transaction state") (ext_CreateTransaction transaction);
  _ ← emit (EvCreate transaction);
  now ← time_Now;
  updateStatus "record CMP transaction phase" (set_Status (enrollingStatus now (tx_Status stored)) stored).

(** recordConfirming stores the validated chain before certConf is sent,
    together with the state that resumes a confirmation the server delays. *)
Definition recordConfirming (transaction : CMPTransaction) (chain : list Certificate) (pending : PendingTransaction) : M World error CMPTransaction :=
  now ← time_Now;
  updateStatus "record CMP confirmation state"
    (set_Status (confirmingStatus now chain pending (tx_Status transaction)) transaction).

(** recordIssued marks a confirmed transaction complete. *)
Definition recordIssued (transaction : CMPTransaction) (chain : list Certificate) : M World error CMPTransaction :=
  now ← time_Now;
  updateStatus "record issued CMP certificate chain"
    (set_Status (issuedStatus now chain (tx_Status transaction)) transaction).

(** recordPending stores the state required to send the next poll of a
    transaction. *)
Definition recordPending (transaction : CMPTransaction) (pending : PendingTransaction) : M World error CMPTransaction :=
  now ← time_Now;
  updateStatus "record CMP poll state" (set_Status (pendingStatus now pending (tx_Status transaction)) transaction).

(** remove deletes transaction state once the transaction reached a terminal
    outcome. *)
Definition remove (transaction : CMPTransaction) : M World error unit :=
  deleted ← deleteTransaction transaction;
  match deleted with
  | None | Some APINotFound | Some APIConflict => mret tt
  | Some err => fail (Wrapped "remove CMP transaction state" err)
  end.
End store.
End TransactionStore.
