(* ===== verification/Configuration.v ===== *)
(** * Loading an issuer's configuration: the Secret-reading half of
    internal/controller/configuration.go

    The [secrets] map that [secretGetter]'s closure shares with its caller is
    the second half of the state of [SecretM]. *)

From S2P Require Import Prelude GoString Json Types Demo Names Certificates Request Api IssuerSpec Runtime.
Import Json Names Certificates Request Api IssuerSpec.

Module Configuration.

(** configurationError distinguishes immutable spec failures from retryable
    Secret state. *)
Record configurationError := { ce_Permanent : bool; ce_Operation : string; ce_Err : error }.

(** A [*configurationError] used as an [error]. *)
Definition configurationErr (e : configurationError) : error :=
  ConfigurationError (ce_Permanent e) (ce_Operation e) (ce_Err e).

Definition permanentConfiguration (operation : string) (err : error) : configurationError :=
  {| ce_Permanent := true; ce_Operation := operation; ce_Err := err |}.
Definition retryableConfiguration (operation : string) (err : error) : configurationError :=
  {| ce_Permanent := false; ce_Operation := operation; ce_Err := err |}.

(** secretFingerprint identifies the version of one Secret a transaction
    depends on. *)
Record secretFingerprint := { fp_UID : string; fp_ResourceVersion : string; fp_DataDigest : string }.

Abbreviation SecretMap := (gmap (string * string) SecretObject) (only parsing).
Abbreviation Fingerprints := (gmap (string * string) secretFingerprint) (only parsing).

(** credentialFingerprints identifies credential Secrets by their UID and
    resourceVersion. *)
Definition credentialFingerprints (secrets : SecretMap) : Fingerprints :=
  (λ secret, {| fp_UID := secret_UID secret; fp_ResourceVersion := secret_ResourceVersion secret; fp_DataDigest := "" |}) <$> secrets.

(** issuerReference describes the issuer serving a transaction. *)
Definition issuerReference (issuer : Issuer) : TransactionIssuerReference :=
  {| ref_Name := issuer_Name issuer;
     ref_Kind := match issuer_Kind issuer with CMPClusterIssuer => TransactionIssuerKindCluster | _ => TransactionIssuerKindNamespaced end;
     ref_UID := issuer_UID issuer;
     ref_Generation := issuer_Generation issuer |}.

(** ** The configuration digest *)

(** The json encoding of a TransactionIssuerReference: uid and generation are
    [omitempty]. *)
Definition json_issuer (ref : TransactionIssuerReference) : string :=
  json_object
    ([json_member "name" (json_string (ref_Name ref)); json_member "kind" (json_string (ref_Kind ref))] ++
     (if bool_decide (ref_UID ref = "") then [] else [json_member "uid" (json_string (ref_UID ref))]) ++
     (if (ref_Generation ref =? 0)%Z then [] else [json_member "generation" (json_int (ref_Generation ref))])).

(** secretIdentity, with dataDigest [omitempty]. *)
Definition json_identity (identity : (string * string) * secretFingerprint) : string :=
  let '((namespace, name), fingerprint) := identity in
  json_object
    ([json_member "namespace" (json_string namespace); json_member "name" (json_string name);
      json_member "uid" (json_string (fp_UID fingerprint));
      json_member "resourceVersion" (json_string (fp_ResourceVersion fingerprint))] ++
     (if bool_decide (fp_DataDigest fingerprint = "") then []
      else [json_member "dataDigest" (json_string (fp_DataDigest fingerprint))])).

(** The comparison of [slices.SortFunc]: by namespace, then by name. *)
Definition identity_le (a b : (string * string) * secretFingerprint) : Prop :=
  (a.1.1 ≠ b.1.1 ∧ String.le a.1.1 b.1.1) ∨ (a.1.1 = b.1.1 ∧ String.le a.1.2 b.1.2).
#[global] Instance identity_le_dec a b : Decision (identity_le a b).
Proof. unfold identity_le. apply _. Defined.

Definition json_configuration (issuerRef : TransactionIssuerReference) (identities : list ((string * string) * secretFingerprint)) : string :=
  json_object
    [json_member "issuer" (json_issuer issuerRef);
     json_member "secrets" (json_array (map json_identity (merge_sort identity_le identities)))].

Section configuration.
Context `{Runtime}.

(** runtimeConfigurationDigest identifies the issuer generation and the Secret
    versions used by a transaction, here over the entries of the map in the
    order a [range] loop happens to visit them. *)
Definition runtimeConfigurationDigest_entries (issuerRef : TransactionIssuerReference) (entries : list ((string * string) * secretFingerprint)) : string :=
  hex_EncodeToString (sha256_Sum256 (json_configuration issuerRef entries)).
Definition runtimeConfigurationDigest (issuerRef : TransactionIssuerReference) (secrets : Fingerprints) : string :=
  runtimeConfigurationDigest_entries issuerRef (map_to_list secrets).

(** ** Reading Secrets *)

Definition SecretM (A : Type) : Type := M (World * SecretMap) configurationError A.

(** secretGetter's reader: each Secret is read once and kept. *)
Definition getSecret (namespace : string) (reference : LocalSecretReference) : SecretM SecretObject := λ st,
  let '(w, secrets) := st in
  let key := (namespace, lsr_Name reference) in
  match secrets !! key with
  | Some secret => (Ok secret, (w, secrets))
  | None =>
      match ext_GetSecret key (w_ext w) with
      | (inr secret, x) => (Ok secret, (mkWorld x (EvReadSecret key :: w_log w), <[key := secret]> secrets))
      | (inl APINotFound, x) =>
          (Err (retryableConfiguration "read credential Secret" (Errorf "referenced Secret is not available")),
           (mkWorld x (EvReadSecret key :: w_log w), secrets))
      | (inl err, x) =>
          (Err (retryableConfiguration "read credential Secret" err), (mkWorld x (EvReadSecret key :: w_log w), secrets))
      end
  end.

(** requiredSecretValue returns a copied non-empty Secret value. *)
Definition requiredSecretValue (secret : SecretObject) (key : string) : outcome error bytes :=
  match Data secret !! key with
  | Some value => if bool_decide (value = ""%string) then Err (Errorf "required key is absent or empty") else Ok value
  | None => Err (Errorf "required key is absent or empty")
  end.

(** Read one key of a Secret and parse the certificates it holds. *)
Definition secretCertificates (secret : SecretObject) (key what : string) : outcome configurationError (list Certificate) :=
  data ← mapErr (retryableConfiguration ("read " +:+ what)) (requiredSecretValue secret key);
  mapErr (retryableConfiguration ("parse " +:+ what)) (ParseCertificates data).

(** loadTrustPool retains the configured anchors for chain validation and
    response signer discovery. *)
Definition loadTrustPool (namespace : string) (reference : SecretKeyReference) : SecretM (CertPool * list Certificate) :=
  secret ← getSecret namespace {| lsr_Name := skr_Name reference |};
  certificates ← lift (secretCertificates secret (skr_Key reference) "CMP trust");
  mret (foldl AddCert [] certificates, certificates).

(** loadResponseCertificates reads optional response verification candidates
    without adding trust anchors. *)
Definition loadResponseCertificates (namespace : string) (reference : option SecretKeyReference) : SecretM (list Certificate) :=
  match reference with
  | None => mret []
  | Some reference =>
      _ ← lift (reject_if (bool_decide (skr_Name reference = "") || bool_decide (skr_Key reference = ""))
                  (permanentConfiguration "validate CMP response signer reference" (Errorf "name and key are required")));
      secret ← getSecret namespace {| lsr_Name := skr_Name reference |};
      lift (secretCertificates secret (skr_Key reference) "CMP response signers")
  end.

(** loadTLSRoots parses optional HTTPS trust anchors. *)
Definition loadTLSRoots (namespace : string) (spec : CMPIssuerSpec) (usesHTTPS : bool) : SecretM (option CertPool) :=
  match usesHTTPS, TLS (Transport spec) with
  | true, Some {| tls_CASecretRef := Some reference |} =>
      secret ← getSecret namespace {| lsr_Name := skr_Name reference |};
      certificates ← lift (secretCertificates secret (skr_Key reference) "TLS trust");
      mret (Some (foldl AddCert [] certificates))
  | _, _ => mret None
  end.

(** loadProtection parses the selected CMP protection credential Secret. *)
Definition loadProtection (namespace : string) (configured : ProtectionSpec) : SecretM Protection :=
  match PasswordBasedMac configured with
  | Some password =>
      secret ← getSecret namespace (pbm_SecretRef password);
      reference ← lift (mapErr (retryableConfiguration "read PasswordBasedMac reference") (requiredSecretValue secret (ReferenceKey password)));
      sharedSecret ← lift (mapErr (retryableConfiguration "read PasswordBasedMac secret") (requiredSecretValue secret (SecretKey password)));
      '(owf, mac) ← lift (mapErr (permanentConfiguration "validate PasswordBasedMac algorithms") (passwordBasedMacAlgorithms (Algorithm password)));
      mret {| Password := Some {| Reference := reference; Secret := sharedSecret;
                                  IterationCount := pbm_IterationCount (Algorithm password); OWF := owf; MAC := mac |};
              Signature := None |}
  | None =>
      signature ← lift (deref (prot_Signature configured));
      secret ← getSecret namespace (sig_SecretRef signature);
      certificateData ← lift (mapErr (retryableConfiguration "read bootstrap certificate") (requiredSecretValue secret (CertificateKey signature)));
      certificate ← lift (certificates ← mapErr (retryableConfiguration "parse bootstrap certificate") (ParseCertificates certificateData);
                          match certificates with
                          | [certificate] => Ok certificate
                          | _ => Err (retryableConfiguration "parse bootstrap certificate" (Errorf "bootstrap certificate key must contain exactly one certificate"))
                          end);
      privateKeyData ← lift (mapErr (retryableConfiguration "read bootstrap private key") (requiredSecretValue secret (PrivateKeyKey signature)));
      privateKey ← lift (mapErr (retryableConfiguration "parse bootstrap private key") (ParseSigner privateKeyData));
      _ ← lift (mapErr (retryableConfiguration "validate bootstrap key pair") (ValidateSignerCertificate (Some privateKey) (Some certificate)));
      chain ← lift (if bool_decide (ChainKey signature = "") then Ok []
                    else chainData ← mapErr (retryableConfiguration "read bootstrap chain") (requiredSecretValue secret (ChainKey signature));
                         mapErr (retryableConfiguration "parse bootstrap chain") (ParseCertificates chainData));
      mret {| Password := None;
              Signature := Some {| PrivateKey := Some privateKey; sp_Certificate := Some certificate; sp_Chain := chain |} |}
  end.

(** ** The runtime configuration *)

(** runtimeConfiguration contains locally validated data for one issuer
    generation. *)
Record runtimeConfiguration := {
  EndpointScheme : string;
  RenewalEndpointURL : string;
  rc_EnrollmentRequest : EnrollmentRequest;
  rc_Transaction : TransactionSpec;
  rc_ConfigurationDigest : string;
  ConfigurationSecrets : Fingerprints;
  rc_RequestedValidity : string
}.

(** issuerSpecAndNamespace returns the common spec and the only permitted
    credential namespace. *)
Definition issuerSpecAndNamespace (ClusterResourceNamespace : string) (issuer : Issuer) : outcome error (CMPIssuerSpec * string) :=
  match issuer_Kind issuer with
  | CMPIssuer =>
      _ ← reject_if (bool_decide (issuer_Namespace issuer = "")) (Errorf "CMPIssuer namespace is empty");
      Ok (issuer_Spec issuer, issuer_Namespace issuer)
  | CMPClusterIssuer =>
      _ ← reject_if (bool_decide (ClusterResourceNamespace = "")) (Errorf "cluster resource namespace is empty");
      Ok (issuer_Spec issuer, ClusterResourceNamespace)
  | OtherIssuer => Err (Errorf "unsupported issuer type")
  end.

Definition strictRFC9483 (spec : CMPIssuerSpec) : bool :=
  bool_decide (ValidationProfile (Protocol spec) = ValidationProfileRFC9483).

(** Strict MAC responses must use the shared secret and at least the iteration
    floor of a request. *)
Definition strictMACResponses (spec : CMPIssuerSpec) : bool :=
  strictRFC9483 spec || bool_decide (MACResponseProtection (Protocol spec) = MACResponseProtectionStrict).

Definition configuredResponseCertReqID (spec : CMPIssuerSpec) : option Z :=
  match P10CRResponseCertReqID (Protocol spec) with
  | Some pinned => Some pinned
  | None => if strictRFC9483 spec then Some P10CRResponseCertReqIDStandard else None
  end.

(** The [protocol.EnrollmentRequest] literal of loadRuntimeConfiguration. *)
Definition configuredRequest (spec : CMPIssuerSpec) (digest : Hash) (recipient : Name) (sender : option Name) (protection : Protection) (trust : CertPool * list Certificate) (responseCertificates : list Certificate) (tlsRoots : option CertPool) : EnrollmentRequest :=
  {| er_Operation := "";
     EndpointURL := ep_URL (Endpoint spec);
     er_Timeout := ep_Timeout (Endpoint spec);
     MaxResponseSize := ep_MaxResponseSize (Endpoint spec);
     er_Sender := sender;
     er_Recipient := recipient;
     ImplicitConfirm := bool_decide (Confirmation (Protocol spec) = "Implicit");
     RejectGrantedMods := negb (bool_decide (GrantedModifications (Policy spec) = GrantedModificationsAccept));
     AllowSignedMACResponse := negb (strictMACResponses spec);
     RequireMACIterationFloor := strictMACResponses spec;
     ResponseCertReqID := configuredResponseCertReqID spec;
     RequireKUPCAPubsAbsent := strictRFC9483 spec || bool_decide (KURResponseCAPubs (Protocol spec) = KURResponseCAPubsRequireAbsent);
     er_TransactionID := "";
     CSRDER := "";
     RequestedPrivateKey := None;
     SignatureDigest := digest;
     RequestedNotAfter := time_zero;
     er_Protection := protection;
     CMPTrust := Some trust.1;
     CMPTrustCertificates := trust.2;
     CMPResponseCertificates := responseCertificates;
     TLSRoots := tlsRoots |}.

(** The part of loadRuntimeConfiguration that reads Secrets. *)
Definition loadCredentials (issuer : Issuer) (spec : CMPIssuerSpec) (namespace : string) (endpoint : URL) : SecretM runtimeConfiguration :=
  trust ← loadTrustPool namespace (CASecretRef (spec_CMPTrust spec));
  responseCertificates ← loadResponseCertificates namespace (SignerCertificatesSecretRef (spec_CMPTrust spec));
  renewal ← lift (mapErr (permanentConfiguration "validate renewal endpoint") (renewalScheme (λ e, e) (Endpoint spec)));
  tlsRoots ← loadTLSRoots namespace spec (usesHTTPS endpoint renewal);
  protection ← loadProtection namespace (spec_Protection spec);
  recipient ← lift (mapErr (permanentConfiguration "parse protocol recipient") (ParseDistinguishedName (ps_Recipient (Protocol spec))));
  sender ← lift (if bool_decide (ps_Sender (Protocol spec) = "") then Ok None
                 else parsedSender ← mapErr (permanentConfiguration "parse protocol sender") (ParseDistinguishedName (ps_Sender (Protocol spec)));
                      Ok (Some parsedSender));
  digest ← lift (mapErr (permanentConfiguration "validate protocol signatureDigest") (signatureDigest (ps_SignatureDigest (Protocol spec))));
  fingerprints ← gets (λ st, credentialFingerprints st.2);
  mret {| EndpointScheme := if bool_decide (renewal = schemeHTTP) then schemeHTTP else Scheme endpoint;
          RenewalEndpointURL := RenewalURL (Endpoint spec);
          rc_EnrollmentRequest := configuredRequest spec digest recipient sender protection trust responseCertificates tlsRoots;
          rc_Transaction := transactionLimitsWithDefaults (Transaction spec);
          rc_ConfigurationDigest := runtimeConfigurationDigest (issuerReference issuer) fingerprints;
          ConfigurationSecrets := fingerprints;
          rc_RequestedValidity := RequestedValidity (Protocol spec) |}.

(** Run a reader of Secrets from an empty [secrets] map. *)
Definition withSecrets {A} (m : SecretM A) : M World configurationError A := λ w,
  let '(o, (w', _)) := m (w, ∅) in (o, w').

(** loadRuntimeConfiguration resolves issuer scope, validates fields and reads
    only referenced credential Secrets. *)
Definition loadRuntimeConfiguration (ClusterResourceNamespace : string) (issuer : Issuer) : M World configurationError runtimeConfiguration :=
  '(spec, namespace) ← lift (mapErr (permanentConfiguration "resolve issuer") (issuerSpecAndNamespace ClusterResourceNamespace issuer));
  endpoint ← lift (mapErr (permanentConfiguration "validate issuer spec") (validateSpec spec));
  withSecrets (loadCredentials issuer spec namespace endpoint).

(** loadCMPTrust reads the CMP trust anchors and the configured response signer
    certificates of an issuer without touching its credentials. *)
Definition loadCMPTrust (ClusterResourceNamespace : string) (issuer : Issuer) : M World configurationError (CertPool * list Certificate) :=
  '(spec, namespace) ← lift (mapErr (permanentConfiguration "resolve issuer") (issuerSpecAndNamespace ClusterResourceNamespace issuer));
  withSecrets (
    '(roots, anchors) ← loadTrustPool namespace (CASecretRef (spec_CMPTrust spec));
    responseCertificates ← loadResponseCertificates namespace (SignerCertificatesSecretRef (spec_CMPTrust spec));
    mret (roots, anchors ++ responseCertificates)).

(** ** Properties *)

Lemma passwordBasedMacAlgorithms_ok spec owf mac :
  passwordBasedMacAlgorithms spec = Ok (owf, mac) → supportedHash owf ∧ supportedHash mac ∧ hashOrder mac ≤ hashOrder owf.
Proof.
  unfold passwordBasedMacAlgorithms, supportedHash, owfTable, macTable. intros Hx.
  repeat (case_match; simplify_eq/=); unfold mbind, outcome_bind in *; simplify_eq/=; auto 10 with lia.
Qed.

Lemma effectiveHash_supported h : supportedHash h → effectiveHash h = h.
Proof. by intros [->|[->| ->]]. Qed.

(** *** Reading Secrets

    [reads P m]: every event [m] appends satisfies [P], and the readers keep
    nothing in the [secrets] map but answers of the API server. *)
Definition cacheOK (secrets : SecretMap) : Prop :=
  ∀ key secret, secrets !! key = Some secret → ∃ x, (ext_GetSecret key x).1 = inr secret.

Definition reads {A} (P : event → Prop) (m : SecretM A) (Q : A → Prop) : Prop :=
  ∀ w secrets, cacheOK secrets →
    (∃ added, w_log (m (w, secrets)).2.1 = added ++ w_log w ∧ Forall P added) ∧
    cacheOK (m (w, secrets)).2.2 ∧ ∀ a, (m (w, secrets)).1 = Ok a → Q a.

Lemma reads_ret {A} (P : event → Prop) (a : A) (Q : A → Prop) : Q a → reads P (mret a) Q.
Proof. intros HQ w secrets Hc. split_and!; [by exists []|done|by intros ? [= <-]]. Qed.

Lemma reads_lift {A} (P : event → Prop) (o : outcome configurationError A) (Q : A → Prop) : (∀ a, o = Ok a → Q a) → reads P (lift o) Q.
Proof. intros HQ w secrets Hc. split_and!; [by exists []|done|apply HQ]. Qed.

Lemma reads_gets {A} (P : event → Prop) (f : World * SecretMap → A) (Q : A → Prop) : (∀ st, Q (f st)) → reads P (gets f) Q.
Proof. intros HQ w secrets Hc. split_and!; [by exists []|done|by intros ? [= <-]]. Qed.

Lemma reads_bind {A B} (P : event → Prop) (m : SecretM A) (f : A → SecretM B) (R : A → Prop) (Q : B → Prop) :
  reads P m R → (∀ a, R a → reads P (f a) Q) → reads P (m ≫= f) Q.
Proof.
  intros Hm Hf w secrets Hc. destruct (Hm w secrets Hc) as ((l & Hl & Pl) & Hc' & HR). unfold mbind, M_bind.
  destruct (m (w, secrets)) as [[a|e|] [w' secrets']]; simpl in *; [|split_and!; [by exists l|done|done]..].
  destruct (Hf a (HR a eq_refl) w' secrets' Hc') as ((l' & Hl' & Pl') & Hc'' & HQ).
  split_and!; [|done|done]. exists (l' ++ l). rewrite Hl', Hl, app_assoc. split; [done|]. by apply Forall_app.
Qed.

Lemma reads_mono {A} (P : event → Prop) (m : SecretM A) (R Q : A → Prop) :
  reads P m R → (∀ a, R a → Q a) → reads P m Q.
Proof. intros Hm HRQ w secrets Hc. destruct (Hm w secrets Hc) as (? & ? & ?). eauto. Qed.

Lemma reads_getSecret (P : event → Prop) namespace reference :
  P (EvReadSecret (namespace, lsr_Name reference)) →
  reads P (getSecret namespace reference)
    (λ secret, ∃ x, (ext_GetSecret (namespace, lsr_Name reference) x).1 = inr secret).
Proof.
  intros HP w secrets Hc. unfold getSecret. destruct (secrets !! (namespace, lsr_Name reference)) as [secret|] eqn:Es.
  { split_and!; [by exists []|done|]. intros ? [= <-]. by apply Hc. }
  destruct (ext_GetSecret (namespace, lsr_Name reference) (w_ext w)) as [r x] eqn:Eg.
  assert (Hlog : ∃ added, EvReadSecret (namespace, lsr_Name reference) :: w_log w = added ++ w_log w ∧ Forall P added).
  { eexists [_]. by repeat constructor. }
  destruct r as [err|secret]; simpl; [destruct err; split_and!; done|].
  assert (Hread : ∃ x, (ext_GetSecret (namespace, lsr_Name reference) x).1 = inr secret) by (exists (w_ext w); by rewrite Eg).
  split_and!; [done| |by intros ? [= <-]]. intros k s. rewrite lookup_insert_Some. intros [[<- <-]|[_ ?]]; eauto.
Qed.

Lemma reads_withSecrets {A} (P : event → Prop) (m : SecretM A) (Q : A → Prop) :
  reads P m Q → logs P (withSecrets m) ∧ returns (withSecrets m) Q.
Proof.
  intros Hm. split; [intros w|intros w a]; destruct (Hm w ∅) as ((l & Hl & Pl) & _ & HQ);
    try (intros ?; by rewrite ?lookup_empty); unfold withSecrets; destruct (m (w, ∅)) as [o [w' s']]; simpl in *; eauto.
Qed.

(** The CMP trust of an issuer: the certificates its trust Secret holds. *)
Definition issuerTrust (ClusterResourceNamespace : string) (issuer : Issuer) (roots : CertPool) : Prop :=
  ∃ spec namespace secret x certificates,
    issuerSpecAndNamespace ClusterResourceNamespace issuer = Ok (spec, namespace) ∧
    (ext_GetSecret (namespace, skr_Name (CASecretRef (spec_CMPTrust spec))) x).1 = inr secret ∧
    secretCertificates secret (skr_Key (CASecretRef (spec_CMPTrust spec))) "CMP trust" = Ok certificates ∧
    roots = foldl AddCert [] certificates.

(** The Secrets a spec names: the CMP trust, the response signers, the TLS trust
    and the protection credential. *)
Definition trustSecrets (spec : CMPIssuerSpec) : list string :=
  skr_Name (CASecretRef (spec_CMPTrust spec)) ::
  match SignerCertificatesSecretRef (spec_CMPTrust spec) with Some reference => [skr_Name reference] | None => [] end.
Definition tlsSecrets (spec : CMPIssuerSpec) : list string :=
  match TLS (Transport spec) with Some {| tls_CASecretRef := Some reference |} => [skr_Name reference] | _ => [] end.
Definition protectionSecrets (configured : ProtectionSpec) : list string :=
  match PasswordBasedMac configured with
  | Some password => [lsr_Name (pbm_SecretRef password)]
  | None => match prot_Signature configured with Some signature => [lsr_Name (sig_SecretRef signature)] | None => [] end
  end.
Definition credentialSecrets (spec : CMPIssuerSpec) : list string :=
  trustSecrets spec ++ tlsSecrets spec ++ protectionSecrets (spec_Protection spec).

Section loading.
Context (namespace : string) (P : event → Prop).

Lemma reads_loadTrustPool reference :
  P (EvReadSecret (namespace, skr_Name reference)) →
  reads P (loadTrustPool namespace reference)
    (λ r, ∃ secret x, (ext_GetSecret (namespace, skr_Name reference) x).1 = inr secret ∧
       secretCertificates secret (skr_Key reference) "CMP trust" = Ok r.2 ∧ r.1 = foldl AddCert [] r.2).
Proof.
  intros HP. unfold loadTrustPool. eapply reads_bind; [by apply reads_getSecret|]. intros secret [x Hx].
  eapply (reads_bind _ _ _ (λ certificates, secretCertificates secret (skr_Key reference) "CMP trust" = Ok certificates));
    [by apply reads_lift|]. intros certificates Hc. apply reads_ret. eauto.
Qed.

Lemma reads_loadResponseCertificates reference :
  (∀ r, reference = Some r → P (EvReadSecret (namespace, skr_Name r))) →
  reads P (loadResponseCertificates namespace reference) (λ _, True).
Proof.
  intros HP. unfold loadResponseCertificates. destruct reference; [|by apply reads_ret].
  eapply (reads_bind _ _ _ (λ _, True)); [by apply reads_lift|]. intros _ _.
  eapply reads_bind; [by apply reads_getSecret, HP|]. intros secret _. by apply reads_lift.
Qed.

Lemma reads_loadTLSRoots spec https :
  (∀ name, name ∈ tlsSecrets spec → P (EvReadSecret (namespace, name))) →
  reads P (loadTLSRoots namespace spec https) (λ _, True).
Proof.
  intros HP. unfold loadTLSRoots, tlsSecrets in *. destruct https, (TLS (Transport spec)) as [[[reference|] c]|]; try by apply reads_ret.
  eapply reads_bind; [apply reads_getSecret, HP; set_solver|]. intros secret _.
  eapply (reads_bind _ _ _ (λ _, True)); [by apply reads_lift|]. intros certificates _. by apply reads_ret.
Qed.

(** A loaded protection is one the enrollment request validation accepts. *)
Lemma reads_loadProtection configured :
  (∀ name, name ∈ protectionSecrets configured → P (EvReadSecret (namespace, name))) →
  validateProtection configured = Ok tt → reads P (loadProtection namespace configured) protectionOK.
Proof.
  unfold validateProtection, loadProtection, protectionSecrets. intros HP Hv. destruct (PasswordBasedMac configured) as [password|] eqn:Ep.
  - eapply reads_bind; [apply reads_getSecret, HP; set_solver|]. intros secret _.
    assert (Hkey : ∀ label key, reads P (lift (mapErr label (requiredSecretValue secret key))) (λ v, v ≠ ""%string)).
    { intros label k. apply reads_lift. intros v. rewrite mapErr_ok. unfold requiredSecretValue.
      repeat case_match; simplify_bool; congruence. }
    eapply reads_bind; [apply Hkey|]. intros reference Href. eapply reads_bind; [apply Hkey|]. intros shared Hshared.
    eapply (reads_bind _ _ _ (λ r, passwordBasedMacAlgorithms (Algorithm password) = Ok r));
      [apply reads_lift; intros r; by rewrite mapErr_ok|]. intros [owf mac] Halg. apply reads_ret. left.
    eexists. split; [done|]. unfold passwordOK. simpl.
    assert (Hcount : (100 ≤ pbm_IterationCount (Algorithm password) ≤ 1048575)%Z).
    { destruct (bool_decide (prot_Type configured = ProtectionTypePasswordBasedMac)); [|by repeat case_match].
      destruct (prot_Signature configured); [done|]. rewrite bind_unit_ok, bind_ok in Hv.
      destruct Hv as (_ & ? & _ & Hv). rewrite reject_if_ok in Hv. simplify_bool.
      unfold PasswordBasedMacIterationCountMinimum, PasswordBasedMacIterationCountMaximum in Hv. lia. }
    apply passwordBasedMacAlgorithms_ok in Halg as (? & ? & ?). rewrite !effectiveHash_supported by done.
    unfold minPBMIterationCount, maxPBMIterationCount. split_and!; done || lia.
  - eapply (reads_bind _ _ _ (λ signature, prot_Signature configured = Some signature));
      [apply reads_lift; intros signature; by rewrite deref_ok|]. intros signature Hsig. rewrite Hsig in HP.
    eapply reads_bind; [apply reads_getSecret, HP; set_solver|]. intros secret _.
    do 3 (eapply (reads_bind _ _ _ (λ _, True)); [by apply reads_lift|]; intros ? _).
    eapply (reads_bind _ _ _ (λ _, True)); [by apply reads_lift|]. intros key _.
    eapply (reads_bind _ _ _ (λ _, ValidateSignerCertificate (Some key) (Some a0) = Ok tt));
      [apply reads_lift; intros []; by rewrite mapErr_ok|]. intros _ Hpair.
    eapply (reads_bind _ _ _ (λ _, True)); [by apply reads_lift|]. intros chain _. apply reads_ret. right.
    eexists. split; [done|]. by apply ValidateSignerCertificate_ok.
Qed.
End loading.

(** *** The loaded configuration *)

Record configurationOK (ClusterResourceNamespace : string) (issuer : Issuer) (c : runtimeConfiguration) : Prop := {
  conf_requests operation csr :
    operation ∈ [""%string; OperationP10CR; OperationIR; OperationKUR] → csr ≠ ""%string →
    requestOK (set_Operation operation (set_CSRDER csr (rc_EnrollmentRequest c)));
  conf_renewal : RenewalEndpointURL c ≠ ""%string → endpointOK (RenewalEndpointURL c);
  conf_trust : ∃ roots, CMPTrust (rc_EnrollmentRequest c) = Some roots ∧ issuerTrust ClusterResourceNamespace issuer roots;
  conf_limits : rc_Transaction c = transactionLimitsWithDefaults (Transaction (issuer_Spec issuer)) ∧ limitsOK (rc_Transaction c);
  conf_strict :
    strictMACResponses (issuer_Spec issuer) = true →
    AllowSignedMACResponse (rc_EnrollmentRequest c) = false ∧ RequireMACIterationFloor (rc_EnrollmentRequest c) = true;
  conf_digest : rc_ConfigurationDigest c = runtimeConfigurationDigest (issuerReference issuer) (ConfigurationSecrets c)
}.

Lemma endpointURL_ok value endpoint : validateEndpointURL value = Ok endpoint → endpointOK value.
Proof.
  unfold validateEndpointURL, endpointOK. destruct (url_Parse value) as [e|u]; [done|].
  rewrite !bind_unit_ok, !reject_if_ok. intros (Hu & _ & _). simplify_bool. exists u.
  split_and!; [done|naive_solver|]. unfold schemeHTTP, schemeHTTPS in Hu. naive_solver.
Qed.

Lemma signatureDigest_ok value digest : signatureDigest value = Ok digest → ∀ n, digest ≠ HashOther n.
Proof. unfold signatureDigest. intros Hd n ->. by repeat case_match. Qed.

Lemma configuredRequest_ok spec endpoint digest recipient sender protection trust responses tls :
  validateEndpoint (Endpoint spec) = Ok endpoint → (∀ n, digest ≠ HashOther n) → protectionOK protection →
  ∀ operation csr, operation ∈ [""%string; OperationP10CR; OperationIR; OperationKUR] → csr ≠ ""%string →
  requestOK (set_Operation operation (set_CSRDER csr (configuredRequest spec digest recipient sender protection trust responses tls))).
Proof.
  unfold validateEndpoint. rewrite bind_ok. intros (e & He & Hb) Hd Hp operation csr Hop Hcsr.
  rewrite bind_unit_ok, reject_if_ok in Hb. destruct Hb as [Hb _]. simplify_bool.
  constructor; simpl; [done|by eapply endpointURL_ok|done|lia|lia|done|eauto|done].
Qed.

Lemma renewalScheme_ok wrap spec renewal :
  renewalScheme wrap spec = Ok renewal → RenewalURL spec ≠ ""%string → endpointOK (RenewalURL spec).
Proof.
  unfold renewalScheme. intros Hr Hne. rewrite bool_decide_eq_false_2, bind_ok in Hr by done.
  destruct Hr as (u & Hu & _). rewrite mapErr_ok in Hu. by eapply endpointURL_ok.
Qed.

Lemma reads_loadCredentials (P : event → Prop) cluster issuer spec namespace endpoint :
  (∀ name, name ∈ credentialSecrets spec → P (EvReadSecret (namespace, name))) →
  issuerSpecAndNamespace cluster issuer = Ok (spec, namespace) → spec = issuer_Spec issuer →
  validateSpec spec = Ok endpoint →
  reads P (loadCredentials issuer spec namespace endpoint) (configurationOK cluster issuer).
Proof.
  intros HP Hns Hspec Hv. destruct (validateSpec_parts _ _ Hv) as (He & _ & Hprot & Ht & _).
  unfold credentialSecrets, trustSecrets in HP. unfold loadCredentials.
  eapply reads_bind; [apply reads_loadTrustPool, HP; set_solver|]. intros trust (secret & x & Hx & Hc & Hroots).
  eapply reads_bind; [apply reads_loadResponseCertificates; intros r Hr; apply HP; rewrite Hr; set_solver|]. intros responses _.
  eapply (reads_bind _ _ _ (λ renewal, renewalScheme (λ e, e) (Endpoint spec) = Ok renewal));
    [apply reads_lift; intros r; by rewrite mapErr_ok|]. intros renewal Hr.
  eapply reads_bind; [apply reads_loadTLSRoots; intros name Hname; apply HP; set_solver|]. intros tls _.
  eapply reads_bind; [apply reads_loadProtection; [intros name Hname; apply HP; set_solver|done]|]. intros protection Hp.
  do 2 (eapply (reads_bind _ _ _ (λ _, True)); [by apply reads_lift|]; intros ? _).
  eapply (reads_bind _ _ _ (λ digest, signatureDigest (ps_SignatureDigest (Protocol spec)) = Ok digest));
    [apply reads_lift; intros r; by rewrite mapErr_ok|]. intros digest Hd.
  eapply (reads_bind _ _ _ (λ _, True)); [by apply reads_gets|]. intros fingerprints _.
  apply reads_ret. constructor; simpl.
  - apply (configuredRequest_ok spec endpoint); eauto using signatureDigest_ok.
  - eauto using renewalScheme_ok.
  - exists trust.1. split; [done|]. exists spec, namespace, secret, x, trust.2. done.
  - subst spec. split; [done|]. by apply transaction_limits in Ht as [? _].
  - subst spec. intros ->. done.
  - done.
Qed.

Lemma issuerSpecAndNamespace_spec cluster issuer spec namespace :
  issuerSpecAndNamespace cluster issuer = Ok (spec, namespace) →
  spec = issuer_Spec issuer ∧ namespace ≠ ""%string ∧
  namespace = match issuer_Kind issuer with CMPClusterIssuer => cluster | _ => issuer_Namespace issuer end.
Proof.
  unfold issuerSpecAndNamespace. destruct (issuer_Kind issuer); [| |done]; rewrite bind_unit_ok, reject_if_ok;
    intros [? [= <- <-]]; simplify_bool; done.
Qed.

Lemma loadRuntimeConfiguration_spec cluster issuer :
  returns (loadRuntimeConfiguration cluster issuer) (configurationOK cluster issuer).
Proof.
  unfold loadRuntimeConfiguration.
  eapply (returns_bind _ _ (λ r, issuerSpecAndNamespace cluster issuer = Ok r));
    [apply returns_lift; intros r; by rewrite mapErr_ok|]. intros [spec namespace] Hns.
  eapply (returns_bind _ _ (λ endpoint, validateSpec spec = Ok endpoint));
    [apply returns_lift; intros r; by rewrite mapErr_ok|]. intros endpoint Hv.
  destruct (issuerSpecAndNamespace_spec _ _ _ _ Hns) as (? & _ & _).
  by refine (proj2 (reads_withSecrets _ _ _ (reads_loadCredentials (λ _, True) cluster issuer spec namespace endpoint _ Hns _ Hv))).
Qed.

(** The namespace an issuer's credentials may come from. *)
Definition credentialNamespace (cluster : string) (issuer : Issuer) : string :=
  match issuer_Kind issuer with CMPClusterIssuer => cluster | _ => issuer_Namespace issuer end.

(** A read of a Secret the issuer's spec names, in the issuer's credential
    namespace. *)
Definition readsCredential (cluster : string) (issuer : Issuer) (ev : event) : Prop :=
  ∃ name, ev = EvReadSecret (credentialNamespace cluster issuer, name) ∧ name ∈ credentialSecrets (issuer_Spec issuer).

Lemma loadRuntimeConfiguration_reads cluster issuer :
  logs (readsCredential cluster issuer) (loadRuntimeConfiguration cluster issuer).
Proof.
  unfold loadRuntimeConfiguration. intros w. unfold mbind, M_bind, lift.
  destruct (issuerSpecAndNamespace cluster issuer) as [[spec namespace]|e|] eqn:Hns; [|by exists []..]. simpl.
  destruct (validateSpec spec) as [endpoint|e|] eqn:Hv; [|by exists []..]. simpl.
  destruct (issuerSpecAndNamespace_spec _ _ _ _ Hns) as (Hs & _ & Hn).
  refine (proj1 (reads_withSecrets _ _ _ (reads_loadCredentials _ cluster issuer spec namespace endpoint _ Hns _ Hv)) w);
    [|done]. intros name Hname. exists name. unfold credentialNamespace. by rewrite Hn, <- Hs.
Qed.

Lemma loadCMPTrust_spec cluster issuer :
  logs (readsCredential cluster issuer) (loadCMPTrust cluster issuer) ∧
  returns (loadCMPTrust cluster issuer) (λ r, issuerTrust cluster issuer r.1).
Proof.
  assert (Hm : ∀ spec namespace, issuerSpecAndNamespace cluster issuer = Ok (spec, namespace) →
    reads (readsCredential cluster issuer)
      ('(roots, anchors) ← loadTrustPool namespace (CASecretRef (spec_CMPTrust spec));
       responseCertificates ← loadResponseCertificates namespace (SignerCertificatesSecretRef (spec_CMPTrust spec));
       mret (roots, anchors ++ responseCertificates)) (λ r, issuerTrust cluster issuer r.1)).
  { intros spec namespace Hns. destruct (issuerSpecAndNamespace_spec _ _ _ _ Hns) as (Hs & _ & Hn).
    assert (HP : ∀ name, name ∈ trustSecrets spec → readsCredential cluster issuer (EvReadSecret (namespace, name))).
    { intros name Hname. exists name. unfold credentialNamespace, credentialSecrets. rewrite Hn, <- Hs. split; [done|]. set_solver. }
    unfold trustSecrets in HP. eapply reads_bind; [apply reads_loadTrustPool, HP; set_solver|]. intros [roots anchors] (secret & x & Hx & Hc & Hr). simpl in Hc, Hr.
    eapply reads_bind; [apply reads_loadResponseCertificates; intros r Href; apply HP; rewrite Href; set_solver|]. intros responses _.
    apply reads_ret. by exists spec, namespace, secret, x, anchors. }
  unfold loadCMPTrust. split; [intros w|intros w a]; unfold mbind, M_bind, lift;
    (destruct (issuerSpecAndNamespace cluster issuer) as [[spec namespace]|e|] eqn:Hns; simpl; [|by try exists []..]);
    [exact (proj1 (reads_withSecrets _ _ _ (Hm spec namespace eq_refl)) w)|exact (proj2 (reads_withSecrets _ _ _ (Hm spec namespace eq_refl)) w a)].
Qed.

(** C25: A configuration that loads gives only enrollment requests the CMP client's own validation accepts, for
    every operation and CSR, with the issuer's trust anchors as CMP trust, well-formed transaction limits and,
    for a strict issuer, MAC responses required. *)
Theorem loadRuntimeConfiguration_ok cluster issuer :
  returns (loadRuntimeConfiguration cluster issuer)
    (λ c, configurationOK cluster issuer c ∧
       ∀ operation csr, operation ∈ [""%string; OperationP10CR; OperationIR; OperationKUR] → csr ≠ ""%string →
         validateEnrollmentRequest (set_Operation operation (set_CSRDER csr (rc_EnrollmentRequest c))) = Ok tt).
Proof.
  eapply returns_mono; [apply loadRuntimeConfiguration_spec|]. intros c Hc. split; [done|].
  intros operation csr Hop Hcsr. by apply requestOK_valid, (conf_requests _ _ _ Hc).
Qed.

(** Loading an issuer's configuration does nothing to the outside but read Secrets its spec names, all of them in
    the one namespace the issuer may take credentials from: its own, or the cluster resource namespace for a
    cluster issuer; the same holds for reading its trust anchors alone. *)
Theorem configuration_reads_own_namespace cluster issuer :
  logs (readsCredential cluster issuer) (loadRuntimeConfiguration cluster issuer) ∧
  logs (readsCredential cluster issuer) (loadCMPTrust cluster issuer).
Proof. split; [apply loadRuntimeConfiguration_reads|apply loadCMPTrust_spec]. Qed.
End configuration.
End Configuration.
