(* ===== verification/Digest.v ===== *)
(** * The configuration digest identifies a configuration

    [runtimeConfigurationDigest] hashes the JSON of the issuer reference and
    the Secret fingerprints.  The encoding does not depend on the order in
    which a map is visited and is injective, so that two configurations with
    the same digest are the same or exhibit a SHA-256 collision. *)

From S2P Require Import Prelude GoString Json Types Demo Api Runtime Configuration.
Import Json Api Configuration.

Module Digest.

Abbreviation identity := ((string * string) * secretFingerprint)%type.

(** ** Sorting *)

#[local] Instance identity_le_total : Total identity_le.
Proof.
  intros [[na a] fa] [[nb b] fb]. unfold identity_le. simpl. destruct (decide (na = nb)) as [->|].
  - destruct (total String.le a b); auto.
  - destruct (total String.le na nb); auto.
Qed.

#[local] Instance identity_le_trans : Transitive identity_le.
Proof.
  intros [[na a] fa] [[nb b] fb] [[nc c] fc]. unfold identity_le. simpl.
  intros [[? ?]|[-> ?]] [[? ?]|[-> ?]]; [|by auto..|].
  - left. split; [|by etrans]. intros ->. by destruct (anti_symm String.le nc nb).
  - right. split; [done|]. by etrans.
Qed.

Lemma identity_le_antisymm a b : identity_le a b → identity_le b a → a.1 = b.1.
Proof.
  destruct a as [[na a] fa], b as [[nb b] fb]. unfold identity_le. simpl.
  intros [[? ?]|[-> ?]] [[? ?]|[? ?]]; try done.
  - exfalso. by destruct (anti_symm String.le na nb).
  - f_equal. by apply (anti_symm String.le).
Qed.

(** Two visits of the same map sort to the same list. *)
Lemma sort_identities_eq (l1 l2 : list identity) :
  NoDup l1.*1 → l1 ≡ₚ l2 → merge_sort identity_le l1 = merge_sort identity_le l2.
Proof.
  intros Hnd P. apply (StronglySorted_unique_strong identity_le).
  - intros x1 x2 H1 H2 L1 L2. rewrite !merge_sort_Permutation in H1, H2. rewrite <- P in H2.
    pose proof (identity_le_antisymm _ _ L1 L2) as E. destruct x1 as [k v], x2 as [k' v']; simpl in E; subst k'.
    pose proof (elem_of_list_to_map_1 (M:=gmap (string * string)) l1 k v Hnd H1).
    pose proof (elem_of_list_to_map_1 (M:=gmap (string * string)) l1 k v' Hnd H2). congruence.
  - apply (StronglySorted_merge_sort _).
  - apply (StronglySorted_merge_sort _).
  - by rewrite !merge_sort_Permutation.
Qed.

(** ** The encoding is injective *)

Definition utf8Fingerprint (f : secretFingerprint) : Prop := utf8 (fp_UID f) ∧ utf8 (fp_ResourceVersion f) ∧ utf8 (fp_DataDigest f).
Definition utf8Identity (i : identity) : Prop := utf8 i.1.1 ∧ utf8 i.1.2 ∧ utf8Fingerprint i.2.
Definition utf8Reference (ref : TransactionIssuerReference) : Prop := utf8 (ref_Name ref) ∧ utf8 (ref_Kind ref) ∧ utf8 (ref_UID ref).

(** Take equal parts off the front of both sides of an equation. *)
Ltac strip E :=
  rewrite ?string_app_assoc in E;
  repeat match type of E with
  | ?a +:+ _ = ?a +:+ _ => apply string_app_inv in E
  | json_string _ +:+ _ = json_string _ +:+ _ => apply json_string_code in E as [? E]; [|done..]
  end.

Definition optional (name value : string) : string :=
  if bool_decide (value = "") then "" else "," +:+ json_string name +:+ ":" +:+ json_string value.

Lemma string_app_nil_l (s : string) : "" +:+ s = s.
Proof. done. Qed.

Lemma json_identity_eq namespace name f :
  json_identity ((namespace, name), f) =
    "{" +:+ json_string "namespace" +:+ ":" +:+ json_string namespace +:+ "," +:+ json_string "name" +:+ ":" +:+ json_string name +:+
    "," +:+ json_string "uid" +:+ ":" +:+ json_string (fp_UID f) +:+ "," +:+ json_string "resourceVersion" +:+ ":" +:+
    json_string (fp_ResourceVersion f) +:+ optional "dataDigest" (fp_DataDigest f) +:+ "}".
Proof.
  unfold json_identity, json_object, optional. case_bool_decide; cbn [Datatypes.app strings_Join]; unfold json_member;
    rewrite ?string_app_assoc, ?string_app_nil_l; reflexivity.
Qed.

Lemma optional_inj name a b s t :
  utf8 a → utf8 b → optional name a +:+ "}" +:+ s = optional name b +:+ "}" +:+ t → a = b ∧ s = t.
Proof.
  intros Ha Hb E. unfold optional in E. do 2 case_bool_decide; subst; [|done..|].
  - strip E. by split.
  - strip E. by split.
Qed.

Lemma json_identity_code : prefix_code utf8Identity json_identity.
Proof.
  intros [[na a] [ua ra da]] [[nb b] [ub rb db]] s t (? & ? & ? & ? & ?) (? & ? & ? & ? & ?) E.
  rewrite !json_identity_eq in E. cbn [fst snd fp_UID fp_ResourceVersion fp_DataDigest] in *. strip E.
  apply optional_inj in E as [? ?]; [|done..]. by subst.
Qed.

Lemma json_identities_inj l1 l2 s t :
  Forall utf8Identity l1 → Forall utf8Identity l2 →
  strings_Join (map json_identity l1) "," +:+ "]" +:+ s = strings_Join (map json_identity l2) "," +:+ "]" +:+ t → l1 = l2.
Proof.
  intros H1. revert l2. induction H1 as [|a l1 Ha H1 IH]; intros l2 H2 E; destruct H2 as [|b l2 Hb H2]; [done| | |].
  - exfalso. destruct b as [[? ?] ?]. cbn [map strings_Join] in E. rewrite json_identity_eq in E. by destruct l2.
  - exfalso. destruct a as [[? ?] ?]. cbn [map strings_Join] in E. rewrite json_identity_eq in E. by destruct l1.
  - assert (Hsplit : ∀ c l, strings_Join (map json_identity (c :: l)) "," =
      json_identity c +:+ (if bool_decide (l = []) then "" else "," +:+ strings_Join (map json_identity l) ",")).
    { intros c [|d l]; simpl; [by rewrite string_app_nil_r|done]. }
    rewrite !Hsplit, !string_app_assoc in E. apply json_identity_code in E as [-> E]; [|done..]. f_equal.
    do 2 case_bool_decide; subst; try done. strip E. by apply IH.
Qed.

Definition generation (ref : TransactionIssuerReference) : string :=
  if (ref_Generation ref =? 0)%Z then "" else "," +:+ json_string "generation" +:+ ":" +:+ json_int (ref_Generation ref).

Lemma json_issuer_eq ref :
  json_issuer ref =
    "{" +:+ json_string "name" +:+ ":" +:+ json_string (ref_Name ref) +:+ "," +:+ json_string "kind" +:+ ":" +:+
    json_string (ref_Kind ref) +:+ optional "uid" (ref_UID ref) +:+ generation ref +:+ "}".
Proof.
  unfold json_issuer, json_object, optional, generation. case_bool_decide; destruct (_ =? _)%Z;
    cbn [Datatypes.app strings_Join]; unfold json_member; rewrite ?string_app_assoc, ?string_app_nil_l; reflexivity.
Qed.

Lemma generation_inj a b s t : generation a +:+ "}" +:+ s = generation b +:+ "}" +:+ t → ref_Generation a = ref_Generation b ∧ s = t.
Proof.
  unfold generation. intros E. destruct (Z.eqb_spec (ref_Generation a) 0) as [Ha|], (Z.eqb_spec (ref_Generation b) 0) as [Hb|]; [|done..|].
  - rewrite Ha, Hb. by strip E.
  - strip E. by apply json_int_inj in E.
Qed.

Lemma optional_generation_inj a b s t :
  utf8 (ref_UID a) → utf8 (ref_UID b) →
  optional "uid" (ref_UID a) +:+ generation a +:+ "}" +:+ s = optional "uid" (ref_UID b) +:+ generation b +:+ "}" +:+ t →
  ref_UID a = ref_UID b ∧ ref_Generation a = ref_Generation b ∧ s = t.
Proof.
  intros Ha Hb E. unfold optional in E. do 2 case_bool_decide.
  - apply generation_inj in E as [? ?]. split; [congruence|done].
  - exfalso. unfold generation at 1 in E. by destruct (_ =? _)%Z.
  - exfalso. unfold generation at 2 in E. by destruct (ref_Generation b =? _)%Z.
  - strip E. by apply generation_inj in E as [? ?].
Qed.

Lemma json_issuer_code : prefix_code utf8Reference json_issuer.
Proof.
  intros a b s t (? & ? & ?) (? & ? & ?) E. rewrite !json_issuer_eq in E. strip E.
  apply optional_generation_inj in E as (? & ? & ?); [|done..]. destruct a, b; simpl in *. by subst.
Qed.

Lemma json_configuration_inj ref1 ref2 l1 l2 :
  utf8Reference ref1 → utf8Reference ref2 → Forall utf8Identity l1 → Forall utf8Identity l2 →
  json_configuration ref1 l1 = json_configuration ref2 l2 → ref1 = ref2 ∧ l1 ≡ₚ l2.
Proof.
  intros Hr1 Hr2 Hl1 Hl2 E. unfold json_configuration, json_object, json_member, json_array in E. cbn [strings_Join] in E. strip E.
  apply json_issuer_code in E as [-> E]; [|done..]. split; [done|]. strip E.
  apply json_identities_inj in E; [|by rewrite merge_sort_Permutation..].
  by rewrite <- (merge_sort_Permutation identity_le l1), E, merge_sort_Permutation.
Qed.

(** ** The digest *)

Section digest.
Context `{Runtime}.

(** C33: The configuration digest does not depend on the order in which Go visits the map of Secrets, so a resumed
    transaction computes the digest it recorded whenever the configuration is unchanged. *)
Theorem runtimeConfigurationDigest_order ref secrets entries :
  entries ≡ₚ map_to_list secrets → runtimeConfigurationDigest_entries ref entries = runtimeConfigurationDigest ref secrets.
Proof.
  intros P. unfold runtimeConfigurationDigest, runtimeConfigurationDigest_entries, json_configuration.
  rewrite (sort_identities_eq entries (map_to_list secrets)); [done| |done]. rewrite P. apply NoDup_fst_map_to_list.
Qed.

(** C21: Equal configuration digests mean equal configurations: the same issuer reference, generation included,
    and the same UID, resourceVersion and data digest of every Secret, unless the two encodings collide under
    SHA-256. *)
Theorem runtimeConfigurationDigest_identifies ref1 ref2 secrets1 secrets2 :
  utf8Reference ref1 → utf8Reference ref2 →
  map_Forall (λ key f, utf8Identity (key, f)) secrets1 → map_Forall (λ key f, utf8Identity (key, f)) secrets2 →
  runtimeConfigurationDigest ref1 secrets1 = runtimeConfigurationDigest ref2 secrets2 →
  let message1 := json_configuration ref1 (map_to_list secrets1) in
  let message2 := json_configuration ref2 (map_to_list secrets2) in
  (ref1 = ref2 ∧ secrets1 = secrets2) ∨ (message1 ≠ message2 ∧ sha256_Sum256 message1 = sha256_Sum256 message2).
Proof.
  intros Hr1 Hr2 Hs1 Hs2 E. unfold runtimeConfigurationDigest, runtimeConfigurationDigest_entries in E.
  apply hex_EncodeToString_inj in E. simpl.
  destruct (decide (json_configuration ref1 (map_to_list secrets1) = json_configuration ref2 (map_to_list secrets2))) as [Ej|]; [|eauto].
  left. apply json_configuration_inj in Ej as [-> P];
    [split; [done|by apply map_to_list_inj]|done|done|..]; apply Forall_forall; intros [key f] Hf%elem_of_map_to_list; auto.
Qed.
End digest.

#[local] Existing Instance Demo.demoLibs.

Definition demoRef : TransactionIssuerReference := {| ref_Name := "issuer"; ref_Kind := "CMPIssuer"; ref_UID := "u"; ref_Generation := 3 |}.
Definition demoFingerprint (v : string) : secretFingerprint := {| fp_UID := "s"; fp_ResourceVersion := v; fp_DataDigest := "" |}.
Definition demoSecrets : gmap (string * string) secretFingerprint :=
  list_to_map [(("ns", "mac"), demoFingerprint "1"); (("ns", "trust"), demoFingerprint "2")]%string.

Lemma runtimeConfigurationDigest_order_witness :
  runtimeConfigurationDigest_entries demoRef (reverse (map_to_list demoSecrets)) = runtimeConfigurationDigest demoRef demoSecrets.
Proof. apply (runtimeConfigurationDigest_order demoRef demoSecrets (reverse (map_to_list demoSecrets))). apply reverse_Permutation. Defined.

(** The same two Secrets entered in the other order. *)
Definition demoSecrets' : gmap (string * string) secretFingerprint :=
  <[ ("ns", "trust")%string := demoFingerprint "2" ]> {[ ("ns", "mac")%string := demoFingerprint "1" ]}.

Lemma runtimeConfigurationDigest_identifies_witness :
  let message1 := json_configuration demoRef (map_to_list demoSecrets) in
  let message2 := json_configuration demoRef (map_to_list demoSecrets') in
  (demoRef = demoRef ∧ demoSecrets = demoSecrets') ∨ (message1 ≠ message2 ∧ sha256_Sum256 message1 = sha256_Sum256 message2).
Proof.
  apply (runtimeConfigurationDigest_identifies demoRef demoRef demoSecrets demoSecrets').
  - repeat split; reflexivity.
  - repeat split; reflexivity.
  - repeat (apply map_Forall_insert_2; [repeat split; reflexivity|]). apply map_Forall_empty.
  - repeat (apply map_Forall_insert_2; [repeat split; reflexivity|]). apply map_Forall_empty.
  - vm_compute. reflexivity.
Defined.
End Digest.
