(* ===== verification/Workload.v ===== *)
(** * Workload keys: internal/controller/kur.go and renewal_fallback.go

    Which CMP operation a CertificateRequest uses, and the authorization of the
    owning Certificate and its Secrets before a workload key is read. *)

From S2P Require Import Prelude GoString Types Demo Certificates Request Api IssuerSpec Runtime Configuration.
Import Certificates Request Api IssuerSpec Configuration.

Module Workload.

(** The names cert-manager's API package fixes. *)
Class CertManager := {
  CertificateRequestRevisionAnnotationKey : string;
  CertificateRequestPrivateKeyAnnotationKey : string;
  IsNextPrivateKeySecretLabelKey : string;
  CertificateNameKey : string;
  SchemeGroupVersion : string
}.

(** [corev1.TLSCertKey] and [corev1.TLSPrivateKeyKey] *)
Definition TLSCertKey : string := "tls.crt".
Definition TLSPrivateKeyKey : string := "tls.key".

Definition certificateKind : string := "Certificate".

(** A Go map read: the zero value for an absent key. *)
Definition mapGet (m : gmap string string) (key : string) : string := default ""%string (m !! key).

Definition isController (owner : OwnerReference) : bool :=
  match owner_Controller owner with Some true => true | _ => false end.

(** cmpIssuerSpec returns the spec of a CMPIssuer or CMPClusterIssuer. *)
Definition cmpIssuerSpec (issuer : Issuer) : outcome error CMPIssuerSpec :=
  match issuer_Kind issuer with
  | CMPIssuer | CMPClusterIssuer => Ok (issuer_Spec issuer)
  | OtherIssuer => Err (Errorf "unsupported issuer type")
  end.

(** renewalFallbackOperation returns the initial enrollment operation an issuer
    falls back to, empty when it has no fallback. *)
Definition renewalFallbackOperation (issuer : Issuer) : string :=
  match cmpIssuerSpec issuer with
  | Ok spec =>
      if negb (bool_decide (RenewalFallback (Protocol spec) = RenewalFallbackInitialEnrollment)) ||
         negb (bool_decide (renewalOperation (Protocol spec) = TransactionOperationKUR))
      then "" else initialOperation (Protocol spec)
  | _ => ""
  end.

(** certificateIssuerMatches binds the owning Certificate to the issuer serving
    this request. *)
Definition certificateIssuerMatches (certificate : OwningCertificate) (issuer : Issuer) : bool :=
  let expectedKind := match issuer_Kind issuer with CMPClusterIssuer => TransactionIssuerKindCluster | _ => TransactionIssuerKindNamespaced end in
  let reference := oc_IssuerRef certificate in
  bool_decide (ir_Name reference = issuer_Name issuer) && bool_decide (ir_Group reference = Group) &&
  bool_decide (ir_Kind reference = expectedKind).

Section workload.
Context `{Runtime} `{CertManager}.

(** certificateRequestRevision parses cert-manager's immutable revision
    annotation. *)
Definition certificateRequestRevision (request : CertificateRequestObject) : outcome error Z :=
  match Atoi (mapGet (cro_Annotations request) CertificateRequestRevisionAnnotationKey) with
  | Some revision => Ok revision
  | None => Err (Errorf "certificate revision annotation is absent or invalid")
  end.

(** selectedTransactionOperation chooses the initial enrollment operation for
    the first cert-manager revision and the renewal operation for later ones. *)
Definition selectedTransactionOperation (issuer : Issuer) (request : CertificateRequestObject) : outcome error string :=
  spec ← cmpIssuerSpec issuer;
  let initial := initialOperation (Protocol spec) in
  let renewal := renewalOperation (Protocol spec) in
  if bool_decide (initial = TransactionOperationP10CR) && bool_decide (renewal = TransactionOperationP10CR)
  then Ok TransactionOperationP10CR
  else if bool_decide (mapGet (cro_Annotations request) CertificateRequestRevisionAnnotationKey = "") then
    if bool_decide (initial = TransactionOperationIR)
    then Err (Errorf "select enrollment operation: IR needs a CertificateRequest that cert-manager created for a Certificate")
    else Ok TransactionOperationP10CR
  else
    revision ← mapErr (Wrapped "select enrollment operation") (certificateRequestRevision request);
    _ ← reject_if (revision <? 1)%Z (Wrapped "select enrollment operation" (Errorf "certificate revision annotation must be positive"));
    Ok (if (1 <? revision)%Z then renewal else initial).

(** The loop of certificateOwnerReference. *)
Fixpoint controllingOwner (owners : list OwnerReference) (owner : option OwnerReference) : outcome error (option OwnerReference) :=
  match owners with
  | [] => Ok owner
  | candidate :: rest =>
      if negb (isController candidate) then controllingOwner rest owner
      else match owner with
           | Some _ => Err (Errorf "CertificateRequest has more than one controlling owner")
           | None => controllingOwner rest (Some candidate)
           end
  end.

(** certificateOwnerReference returns the single controlling cert-manager
    Certificate owner. *)
Definition certificateOwnerReference (request : CertificateRequestObject) : outcome error OwnerReference :=
  owner ← controllingOwner (cro_OwnerReferences request) None;
  let refused := Err (Errorf "CertificateRequest is not controlled by a cert-manager.io/v1 Certificate") in
  match owner with
  | None => refused
  | Some owner =>
      if negb (bool_decide (owner_APIVersion owner = SchemeGroupVersion)) || negb (bool_decide (owner_Kind owner = certificateKind)) ||
         bool_decide (owner_Name owner = "") || bool_decide (owner_UID owner = "")
      then refused else Ok owner
  end.

(** secretControlledByCertificate verifies the exact controller owner name and
    UID on a staged key Secret. *)
Definition ownedBy (certificate : OwningCertificate) (owner : OwnerReference) : bool :=
  bool_decide (owner_APIVersion owner = SchemeGroupVersion) && bool_decide (owner_Kind owner = certificateKind) &&
  bool_decide (owner_Name owner = oc_Name certificate) && bool_decide (owner_UID owner = oc_UID certificate).
Definition secretControlledByCertificate (secret : SecretObject) (certificate : OwningCertificate) : bool :=
  existsb (λ owner, isController owner && ownedBy certificate owner) (secret_OwnerReferences secret).

(** currentSecretIssuedForCertificate verifies cert-manager wrote the current
    output Secret for the owning Certificate. *)
Definition currentSecretIssuedForCertificate (secret : SecretObject) (certificate : OwningCertificate) : outcome error unit :=
  match secret_Annotations secret !! CertificateNameKey with
  | None => Err (Errorf "current certificate Secret carries no certificate name annotation")
  | Some name =>
      _ ← reject_if (negb (bool_decide (name = oc_Name certificate))) (Errorf "current certificate Secret was written for another Certificate");
      reject_if (existsb (λ owner, isController owner && negb (ownedBy certificate owner)) (secret_OwnerReferences secret))
        (Errorf "current certificate Secret is controlled by another resource")
  end.

(** readOwningCertificate reads the controlling Certificate and confirms it is
    the recorded live owner. *)
Definition readOwningCertificate (key : NamespacedName) (owner : OwnerReference) (operation : string) : M World configurationError OwningCertificate :=
  r ← outside (ext_GetCertificate key);
  _ ← emit (EvReadCertificate key (match r with inr certificate => Some certificate | inl _ => None end));
  lift (match r with
        | inl APINotFound => Err (permanentConfiguration "read owning Certificate" APINotFound)
        | inl err => Err (retryableConfiguration "read owning Certificate" err)
        | inr certificate =>
            if bool_decide (oc_UID certificate = "") || negb (bool_decide (owner_UID owner = oc_UID certificate)) ||
               bool_decide (is_Some (oc_DeletionTimestamp certificate))
            then Err (permanentConfiguration ("authorize " +:+ operation +:+ " CertificateRequest")
                        (Errorf "certificate owner identity is absent, deleted or mismatched"))
            else Ok certificate
        end).

(** authorizeOwningCertificate returns the live controlling Certificate of an IR
    or KUR request after checking that the request is its next revision and that
    it names the issuer serving the request. *)
Definition authorizeOwningCertificate (request : CertificateRequestObject) (issuer : Issuer) (operation : string) (renewal : bool) : M World configurationError OwningCertificate :=
  let authorization := "authorize " +:+ operation +:+ " CertificateRequest" in
  revision ← lift (mapErr (permanentConfiguration authorization)
    (revision ← certificateRequestRevision request;
     _ ← reject_if (negb renewal && negb (revision =? 1)%Z) (Errorf "operation requires the first certificate revision");
     _ ← reject_if (renewal && (revision <? 2)%Z) (Errorf "renewal requires a certificate revision greater than one");
     Ok revision));
  owner ← lift (mapErr (permanentConfiguration authorization) (certificateOwnerReference request));
  certificate ← readOwningCertificate (cro_Namespace request, owner_Name owner) owner operation;
  let previous := default 0%Z (oc_Revision certificate) in
  _ ← lift (reject_if (negb (previous =? wrap64 (revision - 1))%Z)
              (permanentConfiguration authorization (Errorf "CertificateRequest revision does not immediately follow the current Certificate revision")));
  _ ← lift (reject_if (negb (certificateIssuerMatches certificate issuer))
              (permanentConfiguration authorization (Errorf "owning Certificate refers to a different issuer")));
  mret certificate.

(** authorizedStagedKeyName returns the staged private-key Secret name of a
    request once it matches the name the owning Certificate records. *)
Definition authorizedStagedKeyName (request : CertificateRequestObject) (certificate : OwningCertificate) (operation : string) : outcome configurationError string :=
  let stagedName := mapGet (cro_Annotations request) CertificateRequestPrivateKeyAnnotationKey in
  _ ← reject_if (bool_decide (stagedName = "") || negb (bool_decide (oc_NextPrivateKeySecretName certificate = Some stagedName)))
        (permanentConfiguration ("authorize " +:+ operation +:+ " staged private key")
           (Errorf "CertificateRequest private-key annotation does not match Certificate status.nextPrivateKeySecretName"));
  Ok stagedName.

(** readWorkloadSecret reads one exact workload Secret and treats cert-manager
    creation races as retryable. *)
Definition readWorkloadSecret (key : NamespacedName) (description : string) : M World configurationError SecretObject :=
  _ ← emit (EvReadSecret key);
  r ← outside (ext_GetSecret key);
  lift (match r with
        | inr secret => Ok secret
        | inl APINotFound => Err (retryableConfiguration ("read " +:+ description) (Errorf "secret is not available"))
        | inl err => Err (retryableConfiguration ("read " +:+ description) err)
        end).

(** readCurrentSecret reads the current certificate Secret of a Certificate and
    returns nil without an error when the API server reports it absent. *)
Definition readCurrentSecret (key : NamespacedName) : M World configurationError (option SecretObject) :=
  _ ← emit (EvReadSecret key);
  r ← outside (ext_GetSecret key);
  lift (match r with
        | inr secret => Ok (Some secret)
        | inl APINotFound => Ok None
        | inl err => Err (retryableConfiguration "read current certificate Secret" err)
        end).

(** parseSecretSigner reads one non-empty Secret key as an unencrypted signing
    key. *)
Definition parseSecretSigner (secret : SecretObject) (key : string) : outcome error Signer :=
  match Data secret !! key with
  | Some data => if bool_decide (data = ""%string) then Err (Errorf "required key is absent or empty") else ParseSigner data
  | None => Err (Errorf "required key is absent or empty")
  end.

(** loadStagedKey reads the staged private key cert-manager generated for the
    Certificate's next revision and checks that it is the key of the CSR. *)
Definition loadStagedKey (key : NamespacedName) (certificate : OwningCertificate) (csrDER : bytes) (operation : string) : M World configurationError (SecretObject * Signer) :=
  stagedSecret ← readWorkloadSecret key "staged private-key Secret";
  _ ← lift (reject_if (negb (secretControlledByCertificate stagedSecret certificate) ||
                       negb (bool_decide (mapGet (secret_Labels stagedSecret) IsNextPrivateKeySecretLabelKey = "true")))
              (permanentConfiguration ("authorize " +:+ operation +:+ " staged private key")
                 (Errorf "staged private-key Secret is not the cert-manager-owned next key for the Certificate")));
  requestedKey ← lift (mapErr (retryableConfiguration ("parse " +:+ operation +:+ " staged private key"))
                         (parseSecretSigner stagedSecret TLSPrivateKeyKey));
  _ ← lift (match ParseCertificateRequest csrDER with
            | inl err => Err (permanentConfiguration ("validate " +:+ operation +:+ " staged private key") err)
            | inr csr =>
                reject_if (negb (PublicKeysEqual (Public requestedKey) (csr_PublicKey csr)))
                  (permanentConfiguration ("validate " +:+ operation +:+ " staged private key")
                     (Errorf "staged private key does not match the CertificateRequest CSR"))
            end);
  mret (stagedSecret, requestedKey).

(** [secret.Data[key]] *)
Definition secretData (secret : SecretObject) (key : string) : bytes := default ""%string (Data secret !! key).

(** workloadSecretFingerprint identifies a workload Secret by its UID and the
    data keys IR or KUR consumes. *)
Definition workloadSecretFingerprint (secret : SecretObject) (keys : list string) : secretFingerprint :=
  {| fp_UID := secret_UID secret; fp_ResourceVersion := "";
     fp_DataDigest := hex_EncodeToString (sha256_Sum256
       (string_concat (map (λ key, key +:+ String (ascii_of_N 0) (sha256_Sum256 (secretData secret key))) keys))) |}.

(** workloadKeyMaterial contains the authorized workload key proofs of an IR or
    KUR and their Secret identities. *)
Record workloadKeyMaterial := {
  wm_Protection : option Protection;
  wm_RequestedPrivateKey : Signer;
  wm_Secrets : Fingerprints
}.

(** loadIRMaterial authorizes the CertificateRequest owner chain before reading
    the staged workload key. *)
Definition loadIRMaterial (request : CertificateRequestObject) (issuer : Issuer) (csrDER : bytes) (renewalFallbackReason : string) : M World configurationError workloadKeyMaterial :=
  let renewal := negb (bool_decide (renewalFallbackReason = "")) in
  _ ← lift (reject_if (renewal && negb (bool_decide (renewalFallbackOperation issuer = TransactionOperationIR)))
              (permanentConfiguration "authorize IR CertificateRequest" (Errorf "issuer does not fall back from KUR to IR")));
  certificate ← authorizeOwningCertificate request issuer TransactionOperationIR renewal;
  stagedName ← lift (authorizedStagedKeyName request certificate TransactionOperationIR);
  let stagedKey := (cro_Namespace request, stagedName) in
  '(stagedSecret, requestedKey) ← loadStagedKey stagedKey certificate csrDER TransactionOperationIR;
  mret {| wm_Protection := None; wm_RequestedPrivateKey := requestedKey;
          wm_Secrets := {[ stagedKey := workloadSecretFingerprint stagedSecret [TLSPrivateKeyKey] ]} |}.

(** currentCertificateUnavailable explains a KUR that has no current certificate
    to authenticate with. *)
Definition currentCertificateUnavailable : error := Errorf "current certificate Secret cannot authenticate KUR".

(** loadKURMaterial authorizes the CertificateRequest owner chain before reading
    current and staged workload keys. *)
Definition loadKURMaterial (request : CertificateRequestObject) (issuer : Issuer) (csrDER : bytes) : M World configurationError workloadKeyMaterial :=
  certificate ← authorizeOwningCertificate request issuer TransactionOperationKUR true;
  stagedName ← lift (authorizedStagedKeyName request certificate TransactionOperationKUR);
  _ ← lift (reject_if (bool_decide (oc_SecretName certificate = "") || bool_decide (oc_SecretName certificate = stagedName))
              (permanentConfiguration "authorize KUR current certificate" (Errorf "certificate current and staged Secret names must be distinct")));
  let currentKey := (cro_Namespace request, oc_SecretName certificate) in
  currentSecret ← readCurrentSecret currentKey;
  currentSecret ← lift (match currentSecret with
                        | None => Err (permanentConfiguration "read current certificate Secret" currentCertificateUnavailable)
                        | Some secret => Ok secret
                        end);
  _ ← lift (mapErr (permanentConfiguration "authorize KUR current certificate") (currentSecretIssuedForCertificate currentSecret certificate));
  let stagedKey := (cro_Namespace request, stagedName) in
  '(stagedSecret, requestedKey) ← loadStagedKey stagedKey certificate csrDER TransactionOperationKUR;
  _ ← lift (reject_if (bool_decide (secretData currentSecret TLSCertKey = ""))
              (permanentConfiguration "parse KUR current certificate" currentCertificateUnavailable));
  certificates ← lift (mapErr (retryableConfiguration "parse KUR current certificate") (ParseCertificates (secretData currentSecret TLSCertKey)));
  '(current, chain) ← lift (match certificates with
                            | [] => Err (retryableConfiguration "parse KUR current certificate" (Errorf "current certificate Secret contains no certificate"))
                            | current :: chain => Ok (current, chain)
                            end);
  oldKey ← lift (mapErr (retryableConfiguration "parse KUR current private key") (parseSecretSigner currentSecret TLSPrivateKeyKey));
  _ ← lift (mapErr (permanentConfiguration "validate KUR current key pair") (ValidateSignerCertificate (Some oldKey) (Some current)));
  mret {| wm_Protection := Some {| Password := None;
            Signature := Some {| PrivateKey := Some oldKey; sp_Certificate := Some current; sp_Chain := chain |} |};
          wm_RequestedPrivateKey := requestedKey;
          (* a map literal: the staged entry is written last *)
          wm_Secrets := <[ stagedKey := workloadSecretFingerprint stagedSecret [TLSPrivateKeyKey] ]>
            {[ currentKey := workloadSecretFingerprint currentSecret [TLSCertKey; TLSPrivateKeyKey] ]} |}.

(** renewalFallback describes why a KUR renewal uses the initial enrollment
    operation instead. *)
Record renewalFallback := {
  rf_Reason : string;
  rf_Certificate : string;
  rf_Secret : string;
  rf_Expired : option Certificate
}.

(** classifyRenewalFallback decides whether a KUR renewal falls back to the
    initial enrollment operation. *)
Definition classifyRenewalFallback (request : CertificateRequestObject) (issuer : Issuer) (now : Time) : M World configurationError (option renewalFallback) :=
  certificate ← authorizeOwningCertificate request issuer TransactionOperationKUR true;
  if bool_decide (oc_SecretName certificate = "") ||
     bool_decide (oc_SecretName certificate = mapGet (cro_Annotations request) CertificateRequestPrivateKeyAnnotationKey)
  then mret None
  else
    let key := (cro_Namespace request, oc_SecretName certificate) in
    let fallback reason expired := {| rf_Reason := reason; rf_Certificate := oc_Name certificate; rf_Secret := key.2; rf_Expired := expired |} in
    secret ← readCurrentSecret key;
    mret match secret with
    | None => Some (fallback RenewalFallbackCurrentCertificateMissing None)
    | Some secret =>
        match currentSecretIssuedForCertificate secret certificate with
        | Ok _ =>
            let data := secretData secret TLSCertKey in
            if bool_decide (data = ""%string) then Some (fallback RenewalFallbackCurrentCertificateMissing None)
            else match ParseCertificates data with
                 | Ok (current :: _) =>
                     if time_Before now (NotAfter current) then None
                     else Some (fallback RenewalFallbackCurrentCertificateExpired (Some current))
                 | _ => None
                 end
        | _ => None
        end
    end.
End workload.
End Workload.
