(* ===== verification/Reporting.v ===== *)
(** * Outcome metrics: internal/controller/metrics.go and the recording half of
    internal/metrics/metrics.go *)

From S2P Require Import Prelude GoString Types Api Metrics Runtime Configuration Workload.
Import Api Metrics Configuration Workload.

Module Reporting.

Definition issuerKindNamespaced : string := "CMPIssuer".
Definition issuerKindCluster : string := "CMPClusterIssuer".
Definition failureIssuerConfiguration : string := "issuerConfiguration".
Definition failureUnclassified : string := "unclassified".
Definition classificationUnknown : string := "Unknown".
Definition confirmationExplicit : string := "Explicit".
Definition confirmationImplicit : string := "Implicit".

(** [string(protocolError.Kind)] *)
Definition kindString (k : ErrorKind) : string :=
  match k with
  | ErrorKindPermanent => "Permanent"
  | ErrorKindRetryable => "Retryable"
  | ErrorKindPending => "Pending"
  | ErrorKindSecurity => "Security"
  | ErrorKindUnknown => ""
  end.

(** configurationClassification names the retry behavior of an issuer
    configuration failure. *)
Definition configurationClassification (permanent : bool) : string :=
  if permanent then kindString ErrorKindPermanent else kindString ErrorKindRetryable.

Definition as_configurationError (e : error) : option bool :=
  match e with ConfigurationError permanent _ _ => Some permanent | _ => None end.

(** failureLabels names the CMP failure that ended an enrollment and whether
    that failure is retried. *)
Definition failureLabels (err : error) : string * string :=
  match errors_As as_Error err with
  | Some protocolError => (Failure protocolError, kindString (Kind protocolError))
  | None =>
      match errors_As as_configurationError err with
      | Some permanent => (failureIssuerConfiguration, configurationClassification permanent)
      | None => (failureUnclassified, classificationUnknown)
      end
  end.

Section reporting.
Context `{Runtime} `{CertManager}.

(** RecordOutcome counts one completed enrollment attempt and observes how long
    it took to reach that outcome. *)
Definition RecordOutcome (labels : Labels) (result : string) (elapsed : Duration) : M World error unit :=
  if complete labels then emit (EvOutcome (values labels) result elapsed) else mret tt.

(** RecordFailure counts one enrollment failure under the CMP failure name and
    retry classification behind it. *)
Definition RecordFailure (labels : Labels) (failure classification : string) : M World error unit :=
  if complete labels then emit (EvFailure (values labels) failure classification) else mret tt.

(** RecordPoll counts one wait for a CMP server that has not answered yet. *)
Definition RecordPoll (labels : Labels) : M World error unit :=
  if complete labels then emit (EvPollWait (values labels)) else mret tt.

(** RecordConfirmation counts one enrollment completed under the given CMP
    confirmation type. *)
Definition RecordConfirmation (labels : Labels) (confirmation : string) : M World error unit :=
  if complete labels then emit (EvConfirmation (values labels) confirmation) else mret tt.

(** enrollmentOperation reports whether cert-manager raised this request to
    renew a certificate it already holds. *)
Definition enrollmentOperation (request : CertificateRequestObject) : string :=
  match Atoi (mapGet (cro_Annotations request) CertificateRequestRevisionAnnotationKey) with
  | Some revision => if (1 <? revision)%Z then OperationRenewal else OperationEnrollment
  | None => OperationEnrollment
  end.

(** enrollmentMetricLabels names the issuer serving an enrollment and whether it
    renews a certificate. *)
Definition enrollmentMetricLabels (issuer : Issuer) (request : CertificateRequestObject) : Labels :=
  match issuer_Kind issuer with
  | CMPClusterIssuer =>
      {| IssuerKind := issuerKindCluster; label_Issuer := issuer_Name issuer; label_Operation := enrollmentOperation request |}
  | _ =>
      {| IssuerKind := issuerKindNamespaced; label_Issuer := issuer_Namespace issuer +:+ "/" +:+ issuer_Name issuer;
         label_Operation := enrollmentOperation request |}
  end.

(** recordIssuedEnrollment records an enrollment attempt that returned a
    certificate and how it was confirmed. *)
Definition recordIssuedEnrollment (labels : Labels) (confirmation : string) (started : Time) : M World error unit :=
  now ← time_Now;
  _ ← RecordOutcome labels ResultIssued (time_Sub now started);
  RecordConfirmation labels confirmation.

(** recordFailedEnrollment records an enrollment attempt that ended in a failure
    rather than a certificate. *)
Definition recordFailedEnrollment (labels : Labels) (err : option error) (started : Time) : M World error unit :=
  match err with
  | None => mret tt
  | Some err =>
      match errors_As as_PendingError err with
      | Some _ => mret tt
      | None =>
          now ← time_Now;
          _ ← RecordOutcome labels ResultFailed (time_Sub now started);
          let '(failure, classification) := failureLabels err in
          RecordFailure labels failure classification
      end
  end.

(** recordEnrollmentPoll records one wait for a CMP server that has accepted a
    request but not answered it. *)
Definition recordEnrollmentPoll (labels : Labels) : M World error unit := RecordPoll labels.
End reporting.
End Reporting.
