(* ===== verification/LogValues.v ===== *)
(** * Log lines: internal/controller/logging.go and the log lines of
    internal/controller/signer.go and renewal_fallback.go

    A log line is a value; no program reads the log.  The renderings of
    crypto/x509, net and net/url are parameters. *)

From S2P Require Import Prelude GoString GoTime Logging Types Demo Api Metrics Runtime Configuration Workload Reporting.
Import Logging Api Metrics Configuration Workload Reporting.

Module LogValues.

Definition unknownKeyType : string := "Unknown".

(** A structured value of a log line. *)
Inductive logValue := LogString (s : string) | LogInt (z : Z) | LogStrings (l : list string).
Abbreviation logValues := (list (string * logValue)) (only parsing).

(** A line: its verbosity, the error it reports, its message and its values. *)
Record logLine := { verbosity : Z; line_Error : option error; message : string; line_Values : logValues }.

(** What the log reads of a certificate and a key beyond the fields the program
    decides on. *)
Class Renderings := {
  Subject_String : Certificate → string;
  Issuer_String : Certificate → string;
  cert_SerialNumber : Certificate → option Z;
  SignatureAlgorithm_String : Certificate → string;
  DNSNames : Certificate → list string;
  IPAddresses : Certificate → list string;
  URIs : Certificate → list string;
  EmailAddresses : Certificate → list string;
  rsa_BitLen : bytes → Z;
  curve_BitSize : bytes → Z;
  mldsa_Parameters : bytes → string;
  mldsa_Bytes : bytes → bytes
}.

(** [big.Int.Text(16)] *)
Fixpoint hexDigits (fuel : nat) (n : N) (acc : string) : string :=
  match fuel with
  | 0 => acc
  | S fuel =>
      let acc := String (hex_digit (n mod 16)) acc in
      if (n <? 16)%N then acc else hexDigits fuel (n / 16) acc
  end.
Definition big_Text16 (z : Z) : string :=
  let n := Z.to_N (Z.abs z) in
  let digits := hexDigits (S (N.to_nat (N.log2 n))) n "" in
  if (z <? 0)%Z then String "-" digits else digits.

Section values.
Context `{Libs} `{CertManager} `{Renderings}.

(** issuerLogValue names the issuer serving a transaction as one greppable
    value. *)
Definition issuerLogValue (issuer : Issuer) : string :=
  match issuer_Kind issuer with
  | CMPClusterIssuer => issuerKindCluster +:+ "/" +:+ issuer_Name issuer
  | _ => issuerKindNamespaced +:+ "/" +:+ issuer_Namespace issuer +:+ "/" +:+ issuer_Name issuer
  end.

(** requestLogValues identifies the issuer serving a request, whether the
    request issues the first certificate or renews it, and the cert-manager
    Certificate revision it issues. *)
Definition requestLogValues (issuer : Issuer) (request : CertificateRequestObject) : logValues :=
  [("issuer"%string, LogString (issuerLogValue issuer)); ("lifecycle"%string, LogString (enrollmentOperation request))] ++
  match certificateRequestRevision request with
  | Ok revision => if (0 <? revision)%Z then [("certificateRevision"%string, LogInt revision)] else []
  | _ => []
  end.

(** transactionIDLogValue renders a CMP transaction identifier the way CMP
    servers report it. *)
Definition transactionIDLogValue (transactionID : bytes) : string := hex_EncodeToString transactionID.

(** timestampLogValue renders a point in time in the format the rest of the log
    uses. *)
Definition timestampLogValue (moment : Time) : string := format_RFC3339 moment.

(** durationLogValue renders an elapsed time without spurious sub-millisecond
    precision. *)
Definition durationLogValue (elapsed : Duration) : string := duration_String (duration_Round elapsed Millisecond).

(** serialNumberLogValue renders a certificate serial number as the hexadecimal
    form certificate tools print. *)
Definition serialNumberLogValue (certificate : Certificate) : string :=
  match cert_SerialNumber certificate with None => ""%string | Some serial => big_Text16 serial end.

(** [if len(l) > 0 { values = append(values, key, l) }] *)
Definition listValue (key : string) (l : list string) : logValues :=
  match l with [] => [] | _ => [(key, LogStrings l)] end.

(** subjectAlternativeNameLogValues renders the bounded subject alternative
    names an issued certificate carries. *)
Definition subjectAlternativeNameLogValues (certificate : Certificate) : logValues :=
  listValue "dnsNames" (List (DNSNames certificate)) ++
  (if bool_decide (IPAddresses certificate = []) then [] else [("ipAddresses"%string, LogStrings (List (IPAddresses certificate)))]) ++
  (if bool_decide (URIs certificate = []) then [] else [("uris"%string, LogStrings (List (URIs certificate)))]) ++
  listValue "emailAddresses" (List (EmailAddresses certificate)).

(** publicKeyDescription names the algorithm and size in bits of an issued
    public key. *)
Definition publicKeyDescription (key : PublicKey) : string * Z :=
  match key with
  | RSAPublicKey key => ("RSA"%string, rsa_BitLen key)
  | ECDSAPublicKey key => ("ECDSA"%string, curve_BitSize key)
  | Ed25519PublicKey key => ("Ed25519"%string, (Z.of_nat (String.length key) * 8)%Z)
  | MLDSAPublicKey key => (mldsa_Parameters key, (Z.of_nat (String.length (mldsa_Bytes key)) * 8)%Z)
  | OtherPublicKey _ => (unknownKeyType, 0%Z)
  end.

(** certificateLogValues describes an issued chain with the detail needed to
    identify a certificate without reading its Secret. *)
Definition certificateLogValues (chain : list Certificate) : logValues :=
  match chain with
  | [] => []
  | leaf :: _ =>
      let '(keyType, keySize) := publicKeyDescription (cert_PublicKey leaf) in
      [("subject", LogString (Text (Subject_String leaf)));
       ("serialNumber", LogString (serialNumberLogValue leaf));
       ("notBefore", LogString (timestampLogValue (NotBefore leaf)));
       ("notAfter", LogString (timestampLogValue (NotAfter leaf)));
       ("issuingCA", LogString (Text (Issuer_String leaf)));
       ("keyType", LogString keyType);
       ("keySize", LogInt keySize);
       ("signatureAlgorithm", LogString (SignatureAlgorithm_String leaf));
       ("chainLength", LogInt (Z.of_nat (length chain)))]%string ++
      subjectAlternativeNameLogValues leaf
  end.

(** logResumedTransaction reports that this reconcile continued a CMP
    transaction an earlier attempt recorded. *)
Definition logResumedTransaction (transaction : CMPTransaction) (now : Time) : logLine :=
  let values :=
    [("phase", LogString (Phase (tx_Status transaction))); ("polls", LogInt (Polls (tx_Status transaction)));
     ("deadline", LogString (timestampLogValue (Deadline (Spec transaction))))]%string ++
    (if time_IsZero (tx_CreationTimestamp transaction) then []
     else [("age"%string, LogString (durationLogValue (time_Sub now (tx_CreationTimestamp transaction))))]) in
  {| verbosity := if bool_decide (Phase (tx_Status transaction) = TransactionPhasePolling) ||
                     bool_decide (Phase (tx_Status transaction) = TransactionPhaseIssued) then 1 else 0;
     line_Error := None; message := "Resumed CMP transaction"; line_Values := values |}.

(** logIssuedCertificate reports the outcome of a completed enrollment, the CMP
    operation that obtained it and how long it took. *)
Definition logIssuedCertificate (transaction : CMPTransaction) (chain : list Certificate) (confirmation : string) (started now : Time) : logLine :=
  {| verbosity := 0; line_Error := None; message := "Issued certificate";
     line_Values := [("operation"%string, LogString (tx_Operation (Spec transaction)))] ++ certificateLogValues chain ++
       [("confirmation", LogString confirmation); ("polls", LogInt (Polls (tx_Status transaction)));
        ("duration", LogString (durationLogValue (time_Sub now started)))]%string |}.

(** The configuration error of a chain, with its operation. *)
Definition as_configurationFailure (e : error) : option (bool * string) :=
  match e with ConfigurationError permanent operation _ => Some (permanent, operation) | _ => None end.

Definition failureLine (err : error) (values : logValues) : logLine :=
  {| verbosity := 0; line_Error := Some err; message := "CMP enrollment failed"; line_Values := values |}.

(** logEnrollmentFailure reports a failed enrollment together with the typed CMP
    failure behind it. *)
Definition logEnrollmentFailure (err : option error) : option logLine :=
  match err with
  | None => None
  | Some err =>
      match errors_As as_PendingError err with
      | Some _ => None
      | None =>
          Some match errors_As as_Error err with
          | Some protocolError =>
              failureLine err [("operation", LogString (Operation protocolError)); ("failure", LogString (Failure protocolError));
                               ("classification", LogString (kindString (Kind protocolError)))]%string
          | None =>
              match errors_As as_configurationFailure err with
              | Some (permanent, operation) =>
                  failureLine err [("operation", LogString operation); ("failure", LogString "issuerConfiguration");
                                   ("classification", LogString (configurationClassification permanent))]%string
              | None => failureLine err []
              end
          end
      end
  end.

(** enrollmentDeadlineValues describes the polling budget left for a transaction
    that is still open. *)
Definition enrollmentDeadlineValues (transaction : CMPTransaction) (limits : TransactionSpec) (delay : Duration) : logValues :=
  [("polls", LogInt (Polls (tx_Status transaction))); ("maximumPolls", LogInt (MaximumPolls limits));
   ("retryAfter", LogString (durationLogValue delay)); ("deadline", LogString (timestampLogValue (Deadline (Spec transaction))))]%string.

(** enrollmentLogValue names the CMP operation a transaction record describes. *)
Definition enrollmentLogValue (transaction : CMPTransaction) : string :=
  tx_Operation (Spec transaction) +:+ " v" +:+ pretty (ProtocolVersion (Spec transaction)).

(** The line of reportRenewalFallback. *)
Definition renewalFallbackLine (operation : string) (fallback : renewalFallback) : logLine :=
  {| verbosity := 0; line_Error := None; message := "Renewing with the initial enrollment operation instead of KUR";
     line_Values := [("operation", LogString operation); ("reason", LogString (rf_Reason fallback));
                     ("certificate", LogString (Text (rf_Certificate fallback))); ("secret", LogString (Text (rf_Secret fallback)))]%string ++
       match rf_Expired fallback with
       | None => []
       | Some expired => [("serialNumber", LogString (serialNumberLogValue expired)); ("notAfter", LogString (timestampLogValue (NotAfter expired)))]%string
       end |}.
(** ** Properties *)

(** A value that cannot break a log line: only graphic characters, and no more
    list entries than the bound and its count. *)
Definition graphic (s : string) : Prop := Forall (λ r, IsGraphic r = true) (runes s).
Definition safeValue (v : logValue) : Prop :=
  match v with
  | LogString s => graphic s
  | LogInt _ => True
  | LogStrings l => length l ≤ S MaxListItems ∧ Forall graphic l
  end.

Lemma Text_graphic value : graphic (Text value).
Proof. apply Text_is_graphic. Qed.

Lemma List_graphic values : Forall graphic (List values).
Proof.
  unfold List. destruct values as [|v values]; [constructor|].
  assert (Hb : ∀ l, Forall graphic (map Text l)) by (intros l; apply Forall_map, Forall_true; apply Text_graphic).
  destruct (_ <? _); [|apply Hb]. apply Forall_app. split; [apply Hb|]. apply Forall_singleton, printable_is_graphic.
  apply (printable_app "("); [done|]. apply printable_app; [|by repeat split].
  apply digits_printable. destruct (length _ - _); apply pretty_N_digits.
Qed.

Lemma List_safe key l : Forall (safeValue ∘ snd) (listValue key (List l)).
Proof.
  unfold listValue. pose proof (List_length l). pose proof (List_graphic l).
  destruct (List l); [constructor|]. by apply Forall_singleton.
Qed.

Lemma hex_digit_printable n : (n < 16)%N → in_range 32 126 (N_of_byte (hex_digit n)) = true.
Proof.
  intros Hn. unfold hex_digit. rewrite N_of_byte_of_N by (case_match; lia). rewrite in_range_spec. case_match; simplify_bool; lia.
Qed.

Lemma big_Text16_printable z : printable (big_Text16 z).
Proof.
  unfold big_Text16. assert (Hd : ∀ fuel n acc, printable acc → printable (hexDigits fuel n acc)).
  { intros fuel. induction fuel as [|fuel IH]; intros n acc Ha; simpl; [done|].
    assert (printable (String (hex_digit (n mod 16)) acc)) by (split; [by apply hex_digit_printable, N.mod_lt|done]).
    case_match; auto. }
  case_match; [split; [done|]|]; by apply Hd.
Qed.

Lemma subjectAlternativeNames_safe certificate : Forall (safeValue ∘ snd) (subjectAlternativeNameLogValues certificate).
Proof.
  unfold subjectAlternativeNameLogValues. repeat rewrite Forall_app.
  split_and!; try apply List_safe; case_match; solve [constructor | apply Forall_singleton; split; auto using List_length, List_graphic].
Qed.

(** C40: What a certificate carries cannot break or flood the log line of its issuance: every name, address and
    serial number the line renders holds graphic characters only, every list at most eight entries and a
    count, provided the algorithm names of the libraries are printable. *)
Theorem certificateLogValues_safe chain :
  (∀ certificate, printable (SignatureAlgorithm_String certificate)) → (∀ key, printable (mldsa_Parameters key)) →
  Forall (safeValue ∘ snd) (certificateLogValues chain).
Proof.
  intros Halg Hpar. unfold certificateLogValues. destruct chain as [|leaf chain]; [constructor|].
  destruct (publicKeyDescription (cert_PublicKey leaf)) as [keyType keySize] eqn:Ek.
  assert (Hk : printable keyType) by (unfold publicKeyDescription in Ek; destruct (cert_PublicKey leaf); simplify_eq; try apply Hpar; by repeat split).
  apply Forall_app. split; [|apply subjectAlternativeNames_safe].
  repeat constructor; simpl; try apply Text_graphic; apply printable_is_graphic;
    try (apply format_RFC3339_printable); try done; try apply Halg.
  unfold serialNumberLogValue. case_match; [apply big_Text16_printable|done].
Qed.

(** The label a failure line gives, if any. *)
Definition lineFailure (line : logLine) : option (logValue * logValue) :=
  match line_Values line with
  | [_; ("failure"%string, failure); ("classification"%string, classification)] => Some (failure, classification)
  | _ => None
  end.

Lemma as_configuration_same e :
  errors_As as_configurationError e = fst <$> errors_As as_configurationFailure e.
Proof. induction e; simpl; auto. Qed.

(** The log and the metrics tell the same story about a reconcile: the request's line names the issuer and
    the lifecycle of its metric labels; a failure line is written exactly when a failure is counted, and it
    carries the failure and classification labels of that count, or none when the failure is unclassified. *)
Theorem log_matches_metrics issuer request err :
  (∃ rest, requestLogValues issuer request =
     ("issuer"%string, LogString (IssuerKind (enrollmentMetricLabels issuer request) +:+ "/" +:+ label_Issuer (enrollmentMetricLabels issuer request))) ::
     ("lifecycle"%string, LogString (label_Operation (enrollmentMetricLabels issuer request))) :: rest) ∧
  (logEnrollmentFailure (Some err) = None ↔ is_Some (errors_As as_PendingError err)) ∧
  (∀ line, logEnrollmentFailure (Some err) = Some line → line_Error line = Some err ∧
     (lineFailure line = Some (LogString (failureLabels err).1, LogString (failureLabels err).2) ∨
      line_Values line = [] ∧ failureLabels err = (failureUnclassified, classificationUnknown))).
Proof.
  split_and!.
  - eexists. unfold requestLogValues, issuerLogValue, enrollmentMetricLabels. by destruct (issuer_Kind issuer).
  - unfold logEnrollmentFailure. destruct (errors_As as_PendingError err); [split; [eauto|done]|split; [done|by intros [? ?]]].
  - intros line. unfold logEnrollmentFailure. destruct (errors_As as_PendingError err); [done|]. intros [= <-].
    unfold failureLabels. rewrite as_configuration_same.
    destruct (errors_As as_Error err) as [e|]; [by split; [|left]|].
    destruct (errors_As as_configurationFailure err) as [[permanent operation]|]; [by split; [|left]|by split; [|right]].
Qed.
End values.

#[local] Existing Instance Demo.demoLibs.

(** A certificate whose subject and names carry control characters. *)
#[local] Instance demoRenderings : Renderings := {|
  Subject_String := λ c, "CN=evil" +:+ String (ascii_of_N 10) (RawSubject c);
  Issuer_String := λ c, RawIssuer c;
  cert_SerialNumber := λ _, Some 48879%Z;
  SignatureAlgorithm_String := λ _, "SHA256-RSA";
  DNSNames := λ c, [RawSubject c; String (ascii_of_N 27) "[31m"];
  IPAddresses := λ _, [];
  URIs := λ _, [];
  EmailAddresses := λ _, [];
  rsa_BitLen := λ _, 2048%Z;
  curve_BitSize := λ _, 256%Z;
  mldsa_Parameters := λ _, "ML-DSA-65";
  mldsa_Bytes := id
|}.

Lemma certificateLogValues_safe_witness :
  certificateLogValues [Demo.leaf; Demo.root] !! 0 = Some ("subject"%string, LogString "CN=evil workload") ∧
  certificateLogValues [Demo.leaf; Demo.root] !! 1 = Some ("serialNumber"%string, LogString "beef") ∧
  certificateLogValues [Demo.leaf; Demo.root] !! 9 = Some ("dnsNames"%string, LogStrings ["workload"; " [31m"]%string) ∧
  Forall (safeValue ∘ snd) (certificateLogValues [Demo.leaf; Demo.root]).
Proof.
  split_and!; [vm_compute; reflexivity..|]. apply (certificateLogValues_safe [Demo.leaf; Demo.root]); intros; by repeat split.
Defined.
End LogValues.
