(* ===== verification/DemoRuntime.v ===== *)
(** * A concrete outside world

    A fixed clock, a CMP server that answers from a script, and an API server
    with a store of transactions and Secrets, so that whole reconciles run. *)

From S2P Require Import Prelude GoString Types Demo Api IssuerSpec Runtime Workload.
Import Api IssuerSpec Workload.

Module DemoRuntime.

Record Outside := {
  clock : Time;
  server : list (error + HTTPResponse);
  transactions : gmap (string * string) CMPTransaction;
  secrets : gmap (string * string) SecretObject;
  owners : gmap (string * string) OwningCertificate
}.

Definition set_server v (x : Outside) : Outside :=
  {| clock := clock x; server := v; transactions := transactions x; secrets := secrets x; owners := owners x |}.
Definition set_transactions v (x : Outside) : Outside :=
  {| clock := clock x; server := server x; transactions := v; secrets := secrets x; owners := owners x |}.

Definition key (t : CMPTransaction) : string * string := (tx_Namespace t, tx_Name t).

(** The API server stamps identity and creation time. *)
Definition stamped (now : Time) (t : CMPTransaction) : CMPTransaction :=
  {| tx_Namespace := tx_Namespace t; tx_Name := tx_Name t; tx_UID := "tx-uid"; tx_ResourceVersion := "1";
     tx_CreationTimestamp := now; tx_OwnerReferences := tx_OwnerReferences t; Spec := Spec t;
     tx_Status := CMPTransactionStatus_zero |}.

#[local] Existing Instance Demo.demoLibs.

Definition found {A} (o : option A) : error + A := match o with Some a => inr a | None => inl APINotFound end.

#[export] Instance demoRuntime : Runtime := {|
  Ext := Outside;
  ext_Now := λ x, (clock x, x);
  ext_Rand := λ _ x, (inr Demo.tid, x);
  ext_Do := λ _ _ x,
    match server x with
    | [] => (inl (Errorf "connection refused"), x)
    | answer :: rest => (answer, set_server rest x)
    end;
  ext_NewPKIMessage := λ body options x,
    ({| req_Header := {| PVNO := 2; Sender := mo_Sender options; Recipient := mo_Recipient options; ProtectionAlg := None;
                         SenderKID := ""; TransactionID := mo_TransactionID options; SenderNonce := "nonce";
                         RecipNonce := mo_RecipNonce options; GeneralInfo := [] |};
        req_Body := body; req_Protection := ""; req_ExtraCerts := [] |}, x);
  ext_Protect := λ _ m x,
    (inr {| req_Header := req_Header m; req_Body := req_Body m; req_Protection := "mac"; req_ExtraCerts := req_ExtraCerts m |}, x);
  ext_GeneratePOP := λ m k _ x,
    (inr {| crm_CertReqID := crm_CertReqID m; crm_CertTemplate := crm_CertTemplate m; crm_Controls := crm_Controls m;
            crm_POP := Some k |}, x);
  MarshalBinary := λ m, inr match req_Body m with
    | P10CRBody _ => "p10cr" | IRBody _ => "ir" | KURBody _ => "kur" | PollReqBody _ => "pollReq" | CertConfBody _ => "certConf"
    end%string;
  ext_GetTransaction := λ k x, (found (transactions x !! k), x);
  ext_CreateTransaction := λ t x,
    match transactions x !! key t with
    | Some _ => (inl (Errorf "already exists"), x)
    | None => (inr (stamped (clock x) t), set_transactions (<[key t := stamped (clock x) t]> (transactions x)) x)
    end;
  ext_UpdateStatus := λ t x,
    match transactions x !! key t with
    | None => (inl APINotFound, x)
    | Some _ => (inr t, set_transactions (<[key t := t]> (transactions x)) x)
    end;
  ext_DeleteTransaction := λ k uid x,
    match transactions x !! k with
    | None => (Some APINotFound, x)
    | Some t =>
        if match uid with Some u => bool_decide (u = tx_UID t) | None => true end
        then (None, set_transactions (delete k (transactions x)) x)
        else (Some APIConflict, x)
    end;
  ext_GetSecret := λ k x, (found (secrets x !! k), x);
  ext_GetCertificate := λ k x, (found (owners x !! k), x)
|}.

#[export] Instance demoCertManager : CertManager := {|
  CertificateRequestRevisionAnnotationKey := "cert-manager.io/certificate-revision";
  CertificateRequestPrivateKeyAnnotationKey := "cert-manager.io/private-key-secret-name";
  IsNextPrivateKeySecretLabelKey := "cert-manager.io/next-private-key";
  CertificateNameKey := "cert-manager.io/certificate-name";
  SchemeGroupVersion := "cert-manager.io/v1"
|}.

(** An HTTP answer that carries the message with this encoding. *)
Definition answer (der : bytes) : error + HTTPResponse :=
  inr {| StatusCode := 200; ContentType := "application/pkixcmp"; resp_Body := der; resp_Err := None |}.

Definition secret (data : list (string * bytes)) : SecretObject :=
  {| secret_UID := "s"; secret_ResourceVersion := "1"; secret_Labels := ∅; secret_Annotations := ∅;
     secret_OwnerReferences := []; Data := list_to_map data |}.

Definition credentials : gmap (string * string) SecretObject :=
  list_to_map [(("ns", "trust"), secret [("ca.crt", "PR")]);
               (("ns", "mac"), secret [("reference", "ref"); ("secret", "secret")])]%string.

Definition world (script : list (error + HTTPResponse)) (txs : gmap (string * string) CMPTransaction) : World :=
  mkWorld {| clock := 50; server := script; transactions := txs; secrets := credentials; owners := ∅ |} [].

(** A password-protected issuer and a CertificateRequest for it. *)
Definition issuer : Issuer :=
  {| issuer_Kind := CMPIssuer; issuer_Namespace := "ns"; issuer_Name := "issuer"; issuer_UID := "iuid"; issuer_Generation := 1;
     issuer_Spec := demoSpec; issuer_Ready := None |}.

Definition request : CertificateRequestObject :=
  {| cro_Namespace := "ns"; cro_Name := "cr"; cro_UID := "cruid"; cro_Annotations := ∅; cro_OwnerReferences := [];
     cro_Details := inr "csr"%string; cro_Resource := Some None |}.
End DemoRuntime.
