(* ===== verification/WorkloadLaws.v ===== *)
(** * Authorization of workload keys

    Which Secrets an IR or KUR may read, and what the key material it returns
    guarantees. *)

From S2P Require Import Prelude GoString Types Demo Certificates Request Api IssuerSpec Runtime Configuration Workload DemoRuntime.
Import Certificates Request Api IssuerSpec Configuration Workload DemoRuntime.

Module WorkloadLaws.

Section laws.
Context `{Runtime} `{CertManager}.

(** *** The owner of a request *)

(** The live cert-manager Certificate that the request's controlling owner
    reference identifies by UID, that names this issuer and is one revision
    behind. *)
Record authorizedOwner (request : CertificateRequestObject) (issuer : Issuer) (renewal : bool) (owner : OwnerReference) (certificate : OwningCertificate) : Prop := {
  owner_reference : certificateOwnerReference request = Ok owner;
  owner_controls : owner_UID owner = oc_UID certificate ∧ oc_UID certificate ≠ ""%string;
  owner_live : oc_DeletionTimestamp certificate = None;
  owner_issuer : certificateIssuerMatches certificate issuer = true;
  owner_revision : ∃ revision, certificateRequestRevision request = Ok revision ∧
    (if renewal then (2 ≤ revision)%Z else revision = 1%Z) ∧ default 0%Z (oc_Revision certificate) = wrap64 (revision - 1)
}.

(** Where the API server keeps the Certificate an owner reference names. *)
Definition ownerKey (request : CertificateRequestObject) (owner : OwnerReference) : NamespacedName :=
  (cro_Namespace request, owner_Name owner).

Lemma run_readOwningCertificate key owner operation w c w' :
  readOwningCertificate key owner operation w = (Ok c, w') ↔
  ∃ x, ext_GetCertificate key (w_ext w) = (inr c, x) ∧ w' = mkWorld x (EvReadCertificate key (Some c) :: w_log w) ∧
    owner_UID owner = oc_UID c ∧ oc_UID c ≠ ""%string ∧ oc_DeletionTimestamp c = None.
Proof.
  unfold readOwningCertificate. rewrite run_bind. setoid_rewrite run_outside. setoid_rewrite run_bind. setoid_rewrite run_emit.
  setoid_rewrite run_lift. split.
  - intros (r & w1 & (x & Hx & ->) & [] & w2 & -> & Hr & ->). destruct r as [e|c']; [by destruct e|].
    destruct (_ || _) eqn:Eb; [done|]. simplify_bool. destruct Eb as [[? ?] ?]. simplify_eq/=. exists x.
    split_and!; try done. by apply eq_None_not_Some.
  - intros (x & Hx & -> & Hu & Hne & Hd). exists (inr c), (mkWorld x (w_log w)). split; [by exists x|].
    exists tt, (mkWorld x (EvReadCertificate key (Some c) :: w_log w)). split_and!; [done| |done].
    rewrite Hd, (bool_decide_eq_false_2 (oc_UID c = "")), (bool_decide_eq_true_2 (owner_UID owner = oc_UID c)) by done.
    done.
Qed.

(** authorizeOwningCertificate returns exactly the Certificate that the API
    server answers for the controlling owner reference, if it is authorized. *)
Lemma run_authorizeOwningCertificate request issuer operation renewal w c w' :
  authorizeOwningCertificate request issuer operation renewal w = (Ok c, w') ↔
  ∃ owner x, ext_GetCertificate (ownerKey request owner) (w_ext w) = (inr c, x) ∧ authorizedOwner request issuer renewal owner c ∧
    w' = mkWorld x (EvReadCertificate (ownerKey request owner) (Some c) :: w_log w).
Proof.
  unfold authorizeOwningCertificate. split.
  - intros (revision & w1 & [Hr ->]%run_lift & Hm)%run_bind. apply run_bind in Hm as (owner & w2 & [Ho ->]%run_lift & Hm).
    apply run_bind in Hm as (c' & w3 & (x & Hx & -> & Hu & Hne & Hd)%run_readOwningCertificate & Hm).
    apply run_bind in Hm as (u & w4 & [Hp ->]%run_lift & Hm). apply run_bind in Hm as (u' & w5 & [Hi ->]%run_lift & Hm).
    apply run_ret in Hm as [-> ->]. rewrite mapErr_ok in Hr. rewrite mapErr_ok in Ho. rewrite reject_if_ok in Hp. rewrite reject_if_ok in Hi.
    rewrite bind_ok in Hr. destruct Hr as (revision' & Hrev & Hr). autorewrite with outcome in Hr. destruct Hr as (Hfirst & Hrenew & [= ->]).
    simplify_bool. exists owner, x. split_and!; [done| |done]. constructor; [done..|]. exists revision. split_and!; [done| |done].
    destruct renewal; [destruct Hrenew; [done|lia]|destruct Hfirst; [done|lia]].
  - intros (owner & x & Hx & [Ho [Hu Hne] Hd Hi (revision & Hrev & Hren & Hp)] & ->).
    apply run_bind. exists revision, w. split.
    { apply run_lift. split; [|done]. rewrite mapErr_ok, bind_ok. exists revision. split; [done|]. autorewrite with outcome. simplify_bool.
      destruct renewal; split_and!; (done || (by left) || (right; lia)). }
    apply run_bind. exists owner, w. split; [apply run_lift; by rewrite mapErr_ok|].
    apply run_bind. eexists c, _. split; [apply run_readOwningCertificate; by exists x|].
    do 2 (apply run_bind; eexists tt, _; split; [apply run_lift; split; [by rewrite reject_if_ok; simplify_bool|done]|]). by apply run_ret.
Qed.

(** It reads nothing but that Certificate. *)
Definition ownerReads (request : CertificateRequestObject) (l : list event) : Prop :=
  l = [] ∨ ∃ owner answer, certificateOwnerReference request = Ok owner ∧ l = [EvReadCertificate (ownerKey request owner) answer].

Lemma authorizeOwningCertificate_adds request issuer operation renewal :
  adds (ownerReads request) (authorizeOwningCertificate request issuer operation renewal).
Proof.
  intros w. unfold authorizeOwningCertificate. apply addsAt_lift; [by left|]. intros revision _.
  apply addsAt_lift; [by left|]. intros owner Ho. rewrite mapErr_ok in Ho.
  refine (adds_bind_last (ownerReads request) _ _ _ _ w).
  - unfold readOwningCertificate. apply adds_bind_quiet; [apply logs_outside|by left|]. intros r.
    apply adds_bind_last; [apply adds_emit; right; eauto|]. intros []. apply logs_lift.
  - intros c. quiet_tac.
Qed.

(** *** The Secrets of an owner *)

(** The names an owner gives to Secrets: the current output, unless it is absent
    or also announced as the staged key, and the staged key the request
    announces. *)
Definition currentName (request : CertificateRequestObject) (certificate : OwningCertificate) (name : string) : Prop :=
  name = oc_SecretName certificate ∧ name ≠ ""%string ∧
  name ≠ mapGet (cro_Annotations request) CertificateRequestPrivateKeyAnnotationKey.
Definition stagedName (request : CertificateRequestObject) (certificate : OwningCertificate) (name : string) : Prop :=
  oc_NextPrivateKeySecretName certificate = Some name ∧ name ≠ ""%string ∧
  name = mapGet (cro_Annotations request) CertificateRequestPrivateKeyAnnotationKey.
Definition ownedName (request : CertificateRequestObject) (certificate : OwningCertificate) (name : string) : Prop :=
  currentName request certificate name ∨ stagedName request certificate name.

(** What may be read after [before]: the Certificate of the controlling owner,
    and, once the API server has answered with it and it is authorized, the
    Secrets it names, in the request's namespace. *)
Definition workloadRead (request : CertificateRequestObject) (issuer : Issuer) (renewal : bool) (names : OwningCertificate → string → Prop) (before : list event) (ev : event) : Prop :=
  match ev with
  | EvReadCertificate key _ => ∃ owner, certificateOwnerReference request = Ok owner ∧ key = ownerKey request owner
  | EvReadSecret (namespace, name) =>
      namespace = cro_Namespace request ∧
      ∃ owner certificate, EvReadCertificate (ownerKey request owner) (Some certificate) ∈ before ∧
        authorizedOwner request issuer renewal owner certificate ∧ names certificate name
  | _ => False
  end.

Lemma workloadRead_stable request issuer renewal names : stable (workloadRead request issuer renewal names).
Proof.
  intros before earlier ev. unfold workloadRead. destruct ev as [| | | | |[namespace name]| | | | | | | | |]; try done.
  intros (? & owner & c & ? & ? & ?). split; [done|]. exists owner, c. set_solver.
Qed.

(** Reads of Secrets that [names] gives. *)
Definition namedReads (request : CertificateRequestObject) (names : string → Prop) (ev : event) : Prop :=
  ∃ name, ev = EvReadSecret (cro_Namespace request, name) ∧ names name.

Lemma authorized_ordered {A} request issuer operation renewal names (f : OwningCertificate → M World configurationError A) :
  (∀ c, logs (namedReads request (names c)) (f c)) →
  adds (ordered (workloadRead request issuer renewal names)) (authorizeOwningCertificate request issuer operation renewal ≫= f).
Proof.
  intros Hf w. destruct (authorizeOwningCertificate_adds request issuer operation renewal w) as (l & Hl & Hr).
  assert (Hl' : ordered (workloadRead request issuer renewal names) l).
  { destruct Hr as [->|(owner & answer & Ho & ->)]; [done|]. simpl. split; [by exists owner|done]. }
  unfold mbind, M_bind. destruct (authorizeOwningCertificate request issuer operation renewal w) as [[c|e|] w'] eqn:Ea; simpl in *; [|eauto..].
  apply run_authorizeOwningCertificate in Ea as (owner & x & _ & Ho & ->). simpl in Hl.
  destruct (Hf c (mkWorld x (EvReadCertificate (ownerKey request owner) (Some c) :: w_log w))) as (l2 & Hl2 & Pl2). simpl in Hl2.
  exists (l2 ++ [EvReadCertificate (ownerKey request owner) (Some c)]). rewrite Hl2, <- app_assoc. split; [done|].
  clear Hl2. induction Pl2 as [|ev l2 (name & -> & Hn) _ IH]; simpl.
  { split; [|done]. exists owner. split; [apply Ho|done]. }
  split; [|by apply IH]. split; [done|]. exists owner, c. split_and!; [set_solver|done|done].
Qed.

Lemma authorizedStagedKeyName_ok request certificate operation name :
  authorizedStagedKeyName request certificate operation = Ok name → stagedName request certificate name.
Proof.
  unfold authorizedStagedKeyName, stagedName. autorewrite with outcome. intros (E & [= <-]). simplify_bool. by destruct E.
Qed.

Lemma readCurrentSecret_logs (P : event → Prop) key : P (EvReadSecret key) → logs P (readCurrentSecret key).
Proof. intros. unfold readCurrentSecret. logs_tac. done. Qed.
Lemma loadStagedKey_logs (P : event → Prop) key certificate csr operation :
  P (EvReadSecret key) → logs P (loadStagedKey key certificate csr operation).
Proof. intros. unfold loadStagedKey, readWorkloadSecret. logs_tac. done. Qed.

Lemma loadKURMaterial_ordered request issuer csr :
  adds (ordered (workloadRead request issuer true (ownedName request))) (loadKURMaterial request issuer csr).
Proof.
  unfold loadKURMaterial. apply authorized_ordered. intros c.
  eapply logs_bind_returns; [apply logs_lift|apply returns_lift; intros name; apply authorizedStagedKeyName_ok|]. intros name Hname.
  eapply logs_bind_returns; [apply logs_lift|apply returns_lift; intros u E; exact E|]. intros u Hdistinct.
  rewrite reject_if_ok in Hdistinct. simplify_bool.
  apply logs_bind; [apply readCurrentSecret_logs; exists (oc_SecretName c); split; [done|]; left; unfold stagedName in Hname; split_and!; naive_solver|].
  intros current. apply logs_bind; [apply logs_lift|]. intros secret. apply logs_bind; [apply logs_lift|]. intros _.
  apply logs_bind; [apply loadStagedKey_logs; exists name; split; [done|by right]|]. intros [staged key]. logs_tac.
Qed.

Lemma loadIRMaterial_ordered request issuer csr reason :
  adds (ordered (workloadRead request issuer (negb (bool_decide (reason = ""))) (stagedName request))) (loadIRMaterial request issuer csr reason).
Proof.
  unfold loadIRMaterial. apply adds_bind_quiet; [apply logs_lift|done|]. intros _. apply authorized_ordered. intros c.
  eapply logs_bind_returns; [apply logs_lift|apply returns_lift; intros name; apply authorizedStagedKeyName_ok|]. intros name Hname.
  apply logs_bind; [apply loadStagedKey_logs; by exists name|]. intros [staged key]. logs_tac.
Qed.

Lemma classifyRenewalFallback_ordered request issuer now :
  adds (ordered (workloadRead request issuer true (currentName request))) (classifyRenewalFallback request issuer now).
Proof.
  unfold classifyRenewalFallback. apply authorized_ordered. intros c. destruct (_ || _) eqn:E; [apply logs_ret|]. simplify_bool.
  apply logs_bind; [apply readCurrentSecret_logs; exists (oc_SecretName c); by split_and!|]. intros secret. logs_tac.
Qed.

(** What an enrollment may read of its workload: the reads of some operation. *)
Definition enrollmentRead (request : CertificateRequestObject) (issuer : Issuer) (before : list event) (ev : event) : Prop :=
  ∃ renewal, workloadRead request issuer renewal (ownedName request) before ev.

Lemma enrollmentRead_stable request issuer : stable (enrollmentRead request issuer).
Proof. intros before earlier ev [renewal Hr]. exists renewal. by apply workloadRead_stable. Qed.

Lemma workloadRead_enrollment request issuer renewal names before ev :
  (∀ c name, names c name → ownedName request c name) →
  workloadRead request issuer renewal names before ev → enrollmentRead request issuer before ev.
Proof.
  intros Hn Hr. exists renewal. destruct ev as [| | | | |[namespace name]| | | | | | | | |]; try done.
  destruct Hr as (? & owner & c & ? & ? & ?). split; [done|]. exists owner, c. auto.
Qed.

Lemma enrollment_ordered {E A} request issuer renewal (names : OwningCertificate → string → Prop) (m : M World E A) :
  (∀ c name, names c name → ownedName request c name) →
  adds (ordered (workloadRead request issuer renewal names)) m → adds (ordered (enrollmentRead request issuer)) m.
Proof. intros Hn Hm. eapply adds_mono; [exact Hm|]. intros l. apply ordered_mono. intros before ev. by apply workloadRead_enrollment. Qed.

(** C13: Reading workload keys is confined to an authorized owner. loadKURMaterial, loadIRMaterial and
    classifyRenewalFallback read only the Certificate the CertificateRequest's controlling owner reference names
    and, after the API server has answered with that Certificate, Secrets it names in the request's namespace;
    the Certificate answered must carry the reference's UID, not be deleted, refer to this issuer and be exactly
    one revision behind the request. An IR reads only the staged key, whose name the Certificate and the
    request's annotation agree on, the fallback decision only the current Secret, a KUR both. *)
Theorem workload_reads_authorized request issuer csr reason now :
  adds (ordered (workloadRead request issuer true (ownedName request))) (loadKURMaterial request issuer csr) ∧
  adds (ordered (workloadRead request issuer (negb (bool_decide (reason = ""))) (stagedName request))) (loadIRMaterial request issuer csr reason) ∧
  adds (ordered (workloadRead request issuer true (currentName request))) (classifyRenewalFallback request issuer now).
Proof. auto using loadKURMaterial_ordered, loadIRMaterial_ordered, classifyRenewalFallback_ordered. Qed.

(** ** The material *)

Definition keyOfCSR (csrDER : bytes) (key : Signer) : Prop :=
  ∃ csr, ParseCertificateRequest csrDER = inr csr ∧ PublicKeysEqual (Public key) (csr_PublicKey csr) = true.

(** The Secret cert-manager staged for the next revision of a Certificate. *)
Definition stagedFor (certificate : OwningCertificate) (secret : SecretObject) : Prop :=
  secretControlledByCertificate secret certificate = true ∧ secret_Labels secret !! IsNextPrivateKeySecretLabelKey = Some "true"%string.

Lemma loadStagedKey_returns key certificate csrDER operation :
  returns (loadStagedKey key certificate csrDER operation) (λ r, stagedFor certificate r.1 ∧ keyOfCSR csrDER r.2).
Proof.
  unfold loadStagedKey. apply returns_then. intros secret.
  eapply returns_bind; [apply returns_lift; intros u E; exact E|]. intros ? Hstaged. rewrite reject_if_ok in Hstaged.
  apply returns_then. intros requested.
  eapply returns_bind; [apply returns_lift; intros u E; exact E|]. intros u Hkey. apply returns_ret. split.
  - simplify_bool. destruct Hstaged as [? Hl]. split; [done|]. unfold mapGet in Hl. by destruct (_ !! _); simplify_eq/=.
  - destruct (ParseCertificateRequest csrDER) as [e|csr] eqn:Ec; [done|]. rewrite reject_if_ok in Hkey. simplify_bool. by exists csr.
Qed.

(** What an IR or a KUR gets: the staged key, which is the key of the CSR, and
    for a KUR the current key pair, which replaces the issuer's protection. *)
Definition irMaterial (csrDER : bytes) (m : workloadKeyMaterial) : Prop :=
  keyOfCSR csrDER (wm_RequestedPrivateKey m) ∧ wm_Protection m = None.
Definition kurMaterial (csrDER : bytes) (m : workloadKeyMaterial) : Prop :=
  keyOfCSR csrDER (wm_RequestedPrivateKey m) ∧
  ∃ protection signature, wm_Protection m = Some protection ∧ Password protection = None ∧
    Signature protection = Some signature ∧ signatureOK signature.

Lemma loadKURMaterial_returns request issuer csrDER : returns (loadKURMaterial request issuer csrDER) (kurMaterial csrDER).
Proof.
  unfold loadKURMaterial. do 6 (apply returns_then; intros ?).
  eapply returns_bind; [apply loadStagedKey_returns|]. intros [secret key] [_ Hkey]. do 2 (apply returns_then; intros ?).
  apply returns_then. intros [current chain]. apply returns_then. intros oldKey.
  eapply returns_bind; [apply returns_lift; intros u E; exact E|]. intros [] Hold. rewrite mapErr_ok in Hold.
  apply returns_ret. split; [done|]. eexists _, _. split_and!; [done..|]. by apply ValidateSignerCertificate_ok.
Qed.

Lemma loadIRMaterial_returns request issuer csrDER reason : returns (loadIRMaterial request issuer csrDER reason) (irMaterial csrDER).
Proof.
  unfold loadIRMaterial. do 3 (apply returns_then; intros ?).
  eapply returns_bind; [apply loadStagedKey_returns|]. intros [secret key] [_ Hkey]. by apply returns_ret.
Qed.

(** C23: Workload key material is proved before it is used: the requested key of an IR or KUR is the private key
    of the CSR being enrolled, an IR keeps the issuer's protection, and a KUR replaces it with signature
    protection by a current key pair whose private key matches its certificate. *)
Theorem workload_material_matches request issuer csrDER reason :
  returns (loadKURMaterial request issuer csrDER) (kurMaterial csrDER) ∧
  returns (loadIRMaterial request issuer csrDER reason) (irMaterial csrDER).
Proof. auto using loadKURMaterial_returns, loadIRMaterial_returns. Qed.

(** ** Renewal fallback *)






End laws.
End WorkloadLaws.
