(* ===== verification/Client.v ===== *)
(** * The CMP client: the message exchanges of internal/protocol/client.go,
    ir.go and kur.go *)

From S2P Require Import Prelude GoString Types Demo Certificates Request Response Enrollment Api Runtime.
Import Certificates Request Response Enrollment.

Module Client.

Definition operationEnrollment : string := "p10cr".
Definition operationInitialization : string := "ir".
Definition operationKeyUpdate : string := "kur".
Definition operationPoll : string := "pollReq".
Definition operationConfirmation : string := "certConf".

(** [io.ReadAll(io.LimitReader(body, limit))]: the first [limit] bytes, or the
    stream's error when it ends earlier. *)
Definition readLimited (limit : Z) (response : HTTPResponse) : error + bytes :=
  if (limit <=? Z.of_nat (String.length (resp_Body response)))%Z
  then inr (String.substring 0 (Z.to_nat limit) (resp_Body response))
  else match resp_Err response with
       | Some err => inl err
       | None => inr (resp_Body response)
       end.

Section http.
Context `{Libs}.

(** newHTTPClient constructs a bounded transport that disables redirects. *)
Definition newHTTPClient (request : EnrollmentRequest) : HTTPClient :=
  {| hc_Timeout := er_Timeout request; hc_RootCAs := TLSRoots request; hc_FollowRedirects := false |}.

Definition isPKIXCMP (response : HTTPResponse) : bool :=
  match mime_ParseMediaType (ContentType response) with
  | inl _ => false
  | inr mediaType => bool_decide (mediaType = "application/pkixcmp")
  end.

(** The part of sendCMP after the exchange: what an HTTP response means. *)
Definition acceptHTTPResponse (response : HTTPResponse) (maximum : Z) : outcome error bytes :=
  let status := StatusCode response in
  if (300 <=? status)%Z && (status <? 400)%Z
  then Err (permanent "HTTP exchange" "redirectRejected" (Errorf "redirect response rejected"))
  else if negb (isPKIXCMP response)
  then if bool_decide (status ∈ [408; 425; 429]%Z)
       then Err (retryable "HTTP exchange" "systemUnavail" (Errorf "server returned an HTTP error without a CMP body"))
       else if (500 <=? status)%Z
       then Err (retryable "HTTP exchange" "systemUnavail" (Errorf "server returned an HTTP error without a CMP body"))
       else Err (permanent "HTTP exchange" "badDataFormat" (Errorf "response is not application/pkixcmp"))
  else match readLimited (wrap64 (maximum + 1)) response with
       | inl err => Err (retryable "read HTTP response" "systemUnavail" err)
       | inr body =>
           if (maximum <? Z.of_nat (String.length body))%Z
           then Err (permanent "read HTTP response" "responseTooLarge" (Errorf "CMP response exceeds configured limit"))
           else if bool_decide (body = "")
           then Err (permanent "read HTTP response" "badDataFormat" (Errorf "CMP response is empty"))
           else Ok body
       end.
End http.

Section client.
Context `{Runtime}.

(** sendCMP posts protected DER and accepts authenticated CMP bodies without
    deriving state from HTTP metadata. *)
Definition sendCMP (client : HTTPClient) (endpoint : string) (requestDER : bytes) (maximum : Z) (operation : string) : M World error bytes :=
  _ ← lift (match url_Parse endpoint with
            | inl err => Err (permanent "create HTTP request" "badRequest" err)
            | inr _ => Ok tt
            end);
  _ ← emit (EvPost operation endpoint requestDER);
  httpResponse ← outside_try (retryable "HTTP exchange" "systemUnavail")
    (ext_Do client {| hr_Method := "POST"; hr_Endpoint := endpoint; hr_ContentType := "application/pkixcmp";
                      hr_Accept := "application/pkixcmp"; hr_Body := requestDER |});
  lift (acceptHTTPResponse httpResponse maximum).

(** ** Building messages *)

Definition set_Header (h : PKIHeader GeneralName) (m : PKIRequest) : PKIRequest :=
  {| req_Header := h; req_Body := req_Body m; req_Protection := req_Protection m; req_ExtraCerts := req_ExtraCerts m |}.

(** [message.Header.SenderKID = reference] for password protection. *)
Definition withSenderKID (request : EnrollmentRequest) (m : PKIRequest) : PKIRequest :=
  match Password (er_Protection request) with
  | None => m
  | Some password =>
      let h := req_Header m in
      set_Header {| PVNO := PVNO h; Sender := Sender h; Recipient := Recipient h; ProtectionAlg := ProtectionAlg h;
                    SenderKID := Reference password; TransactionID := TransactionID h; SenderNonce := SenderNonce h;
                    RecipNonce := RecipNonce h; GeneralInfo := GeneralInfo h |} m
  end.

(** [append(message.Header.GeneralInfo, pkicmp.ImplicitConfirmInfoValue())] *)
Definition withImplicitConfirm (request : EnrollmentRequest) (m : PKIRequest) : PKIRequest :=
  if ImplicitConfirm request then
    let h := req_Header m in
    set_Header {| PVNO := PVNO h; Sender := Sender h; Recipient := Recipient h; ProtectionAlg := ProtectionAlg h;
                  SenderKID := SenderKID h; TransactionID := TransactionID h; SenderNonce := SenderNonce h;
                  RecipNonce := RecipNonce h; GeneralInfo := GeneralInfo h ++ [ImplicitConfirmOID] |} m
  else m.

(** [message.Header.PVNO = pvno] *)
Definition set_PVNO (pvno : Z) (m : PKIRequest) : PKIRequest :=
  let h := req_Header m in
  set_Header {| PVNO := pvno; Sender := Sender h; Recipient := Recipient h; ProtectionAlg := ProtectionAlg h;
                SenderKID := SenderKID h; TransactionID := TransactionID h; SenderNonce := SenderNonce h;
                RecipNonce := RecipNonce h; GeneralInfo := GeneralInfo h |} m.

Definition messageOptions (request : EnrollmentRequest) (sender : GeneralName) (recipNonce : bytes) : MessageOptions GeneralName :=
  {| mo_Sender := sender; mo_Recipient := NewDirectoryName (er_Recipient request);
     mo_TransactionID := er_TransactionID request; mo_RecipNonce := recipNonce |}.

(** [credentials.Protect(message)] followed by [message.MarshalBinary()]. *)
Definition protectAndEncode (name : string) (credentials : Credentials) (message : PKIRequest) : M World error (PKIRequest * bytes) :=
  message ← outside_try (permanent ("protect " +:+ name) "badAlg") (ext_Protect credentials message);
  lift (match MarshalBinary message with
        | inl err => Err (permanent ("encode " +:+ name) "badDataFormat" err)
        | inr requestDER => Ok (message, requestDER)
        end).

(** protectedEnrollment builds and protects the enrollment message sent for
    this transaction. *)
Definition protectedEnrollment (request : EnrollmentRequest) (csr : CertificateRequest) (credentials : Credentials) : M World error (PKIRequest * bytes) :=
  sender ← lift (requestSender request);
  message ← outside (ext_NewPKIMessage (P10CRBody csr) (messageOptions request sender ""));
  protectAndEncode "P10CR" credentials (withImplicitConfirm request (withSenderKID request message)).

(** protectedIR builds an IR for the CSR identity with the configured
    protection. *)
Definition protectedIR (request : EnrollmentRequest) (csr : CertificateRequest) (credentials : Credentials) : M World error (PKIRequest * bytes) :=
  template ← lift (certificateTemplate request csr (NewDirectoryNameFromRawDER (csr_RawSubject csr)));
  key ← lift (deref (RequestedPrivateKey request));
  messageRequest ← outside_try (permanent "generate IR proof of possession" "badPOP")
    (ext_GeneratePOP {| crm_CertReqID := 0; crm_CertTemplate := template; crm_Controls := []; crm_POP := None |}
       key (signatureDigestFor key (SignatureDigest request)));
  sender ← lift (requestSender request);
  message ← outside (ext_NewPKIMessage (IRBody [messageRequest]) (messageOptions request sender ""));
  protectAndEncode "IR" credentials (withImplicitConfirm request (withSenderKID request message)).

(** protectedKUR builds CRMF proof of possession and protects the message with
    the certificate being updated. *)
Definition protectedKUR (request : EnrollmentRequest) (csr : CertificateRequest) (credentials : Credentials) : M World error (PKIRequest * bytes) :=
  certificate ← lift (updatedCertificate request);
  template ← lift (certificateTemplate request csr (certificateSubject certificate));
  oldCertID ← lift (match NewOldCertIDControl certificate with
                    | inl err => Err (permanent "encode KUR oldCertID" "badRequest" err)
                    | inr control => Ok control
                    end);
  key ← lift (deref (RequestedPrivateKey request));
  messageRequest ← outside_try (permanent "generate KUR proof of possession" "badPOP")
    (ext_GeneratePOP {| crm_CertReqID := 0; crm_CertTemplate := template; crm_Controls := [oldCertID]; crm_POP := None |}
       key (signatureDigestFor key (SignatureDigest request)));
  message ← outside (ext_NewPKIMessage (KURBody [messageRequest]) (messageOptions request (certificateSubject certificate) ""));
  protectAndEncode "KUR" credentials (withImplicitConfirm request message).

(** confirmationMessage builds the certConf that starts a confirmation, or the
    pollReq that resumes one. *)
Definition confirmationMessage (request : EnrollmentRequest) (confirm : ConfirmRequest) (statusInfo : option PKIStatusInfo) : M World error (PKIRequest * string) :=
  sender ← lift (requestSender request);
  let options := messageOptions request sender (cf_RecipNonce confirm) in
  certificate ← lift (deref (cf_Certificate confirm));
  status ← lift (match NewCertStatus certificate (cf_CertReqID confirm) with
                 | inl err => Err (permanent "compute certificate hash" "badAlg" err)
                 | inr status => Ok {| cs_CertReqID := cs_CertReqID status; cs_CertHash := cs_CertHash status;
                                       cs_HashAlg := cs_HashAlg status; cs_StatusInfo := statusInfo |}
                 end);
  '(message, operation) ←
    (if negb (bool_decide (cf_RequestNonce confirm = "")) then
       message ← outside (ext_NewPKIMessage (PollReqBody [ResponseCertReqIDStandard]) options);
       mret (match cs_HashAlg status with Some _ => set_PVNO PVNO3 message | None => message end, operationPoll)
     else
       message ← outside (ext_NewPKIMessage (CertConfBody [status]) options);
       mret (message, operationConfirmation));
  mret (withSenderKID request message, operation).

Definition parseResponse (label : string) (responseDER : bytes) : outcome error PKIMessage :=
  match ParsePKIMessage responseDER with
  | inl err => Err (security label "badDataFormat" err)
  | inr response => Ok response
  end.

(** exchangeProtected protects, sends and authenticates one message of the
    confirmation exchange. *)
Definition exchangeProtected (client : HTTPClient) (request : EnrollmentRequest) (credentials : Credentials) (message : PKIRequest) (responseSigner : option Certificate) (delayedRequestNonce : bytes) (operation : string) : M World error PKIMessage :=
  '(message, requestDER) ← protectAndEncode operation credentials message;
  responseDER ← sendCMP client (EndpointURL request) requestDER (MaxResponseSize request) operation;
  response ← lift (parseResponse ("parse " +:+ operation +:+ " response") responseDER);
  now ← time_Now;
  _ ← lift (verifyResponse now (req_Header message) response request responseSigner delayedRequestNonce);
  mret response.

(** rejectCertificate reports a refused certificate to the server in certConf
    and returns the refusal. *)
Definition rejectCertificate (client : HTTPClient) (request : EnrollmentRequest) (credentials : Credentials) (refusal : refusedCertificate) (reason : error) : M World error error :=
  let confirm := {| cf_Enrollment := request; cf_Certificate := Some (rc_Certificate refusal);
                    cf_CertReqID := rc_CertReqID refusal; cf_RecipNonce := rc_RecipNonce refusal;
                    cf_ResponseSigner := rc_ResponseSigner refusal; cf_RequestNonce := "" |} in
  let rejection := {| Status := StatusRejection; StatusString := [Reason refusal]; FailInfo := 0%N |} in
  delivery ← try (
    '(message, operation) ← confirmationMessage request confirm (Some rejection);
    response ← exchangeProtected client request credentials message (rc_ResponseSigner refusal) "" operation;
    if negb (bool_decide (Type_ (Body response) = BodyTypePKIConf))
    then fail (Errorf "server answered instead of pkiConf")
    else mret tt);
  mret (match delivery with
        | inr _ => reason
        | inl deliveryErr =>
            match errors_As as_Error reason with
            | None => Wrapped "rejection not confirmed by the server" reason
            | Some protocolErr =>
                from_Error {| Kind := Kind protocolErr; Operation := Operation protocolErr;
                              Failure := Failure protocolErr; RequeueAfter := RequeueAfter protocolErr;
                              Wraps := Wrapped "rejection not confirmed by the server" (Wraps protocolErr) |}
            end
        end).

(** completeOrRefuse finishes an authenticated enrollment response and tells
    the server about a refused certificate before failing. *)
Definition completeOrRefuse (client : HTTPClient) (request : EnrollmentRequest) (credentials : Credentials) (response : PKIMessage) (csr : CertificateRequest) (responseSigner : option Certificate) (delayedRequestNonce : bytes) : M World error EnrollmentResult :=
  now ← time_Now;
  match finishTransaction now request response csr responseSigner delayedRequestNonce with
  | (Err err, Some refusal) =>
      err ← rejectCertificate client request credentials refusal err;
      fail err
  | (result, _) => lift result
  end.

(** The exchange every enrollment operation makes once its message is built:
    send, parse, authenticate and finish. *)
Definition enrollmentExchange (request : EnrollmentRequest) (credentials : Credentials) (csr : CertificateRequest) (message : PKIRequest) (requestDER : bytes) (operation label : string) : M World error EnrollmentResult :=
  let httpClient := newHTTPClient request in
  responseDER ← sendCMP httpClient (EndpointURL request) requestDER (MaxResponseSize request) operation;
  response ← lift (parseResponse label responseDER);
  now ← time_Now;
  responseSigner ← lift (verifyResponse now (req_Header message) response request None "");
  completeOrRefuse httpClient request credentials response csr responseSigner (SenderNonce (req_Header message)).

(** EnrollP10CR validates inputs and executes one synchronous P10CR exchange. *)
Definition EnrollP10CR (request : EnrollmentRequest) : M World error EnrollmentResult :=
  _ ← lift (reject_if (negb (bool_decide (er_Operation request = "")) && negb (bool_decide (er_Operation request = OperationP10CR)))
              (permanent "validate P10CR operation" "badRequest" (Errorf "P10CR enrollment cannot execute operation")));
  let request := set_Operation OperationP10CR request in
  _ ← lift (validateEnrollmentRequest request);
  csr ← lift (parsedCSR request);
  credentials ← lift (mapErr (permanent "configure protection" "badAlg") (credentialsFor request));
  '(message, requestDER) ← protectedEnrollment request csr credentials;
  enrollmentExchange request credentials csr message requestDER operationEnrollment "parse CP".

(** EnrollIR validates the requested key and executes one CRMF Initialization
    Request. *)
Definition EnrollIR (request : EnrollmentRequest) : M World error EnrollmentResult :=
  let request := set_Operation OperationIR request in
  _ ← lift (ValidateIRRequest request);
  csr ← lift (parsedCSR request);
  credentials ← lift (mapErr (permanent "configure protection" "badAlg") (credentialsFor request));
  '(message, requestDER) ← protectedIR request csr credentials;
  enrollmentExchange request credentials csr message requestDER operationInitialization "parse IP".

(** EnrollKUR validates both key proofs and executes one
    certificate-authenticated Key Update Request. *)
Definition EnrollKUR (request : EnrollmentRequest) : M World error EnrollmentResult :=
  let request := set_Operation OperationKUR request in
  now ← time_Now;
  _ ← lift (ValidateKURRequest request now);
  csr ← lift (parsedCSR request);
  credentials ← lift (mapErr (permanent "configure KUR protection" "badAlg") (credentialsFor request));
  '(message, requestDER) ← protectedKUR request csr credentials;
  enrollmentExchange request credentials csr message requestDER operationKeyUpdate "parse KUP".

(** PollP10CR sends one pollReq for a transaction the server answered with
    waiting and returns either the issued chain or the state needed for the
    next poll. *)
Definition PollP10CR (poll : PollRequest) : M World error EnrollmentResult :=
  let request := poll_Enrollment poll in
  _ ← lift (validateEnrollmentRequest request);
  _ ← lift (reject_if (bool_decide (er_TransactionID request = "") || bool_decide (poll_RecipNonce poll = ""))
              (permanent "validate poll request" "badRequest" (Errorf "transaction ID and recipient nonce are required to poll")));
  csr ← lift (match ParseCertificateRequest (CSRDER request) with
              | inl err => Err (permanent "parse CSR" "badRequest" err)
              | inr csr => Ok csr
              end);
  credentials ← lift (mapErr (permanent "configure protection" "badAlg") (credentialsFor request));
  sender ← lift (requestSender request);
  message ← outside (ext_NewPKIMessage (PollReqBody [poll_CertReqID poll]) (messageOptions request sender (poll_RecipNonce poll)));
  '(message, requestDER) ← protectAndEncode "pollReq" credentials (withSenderKID request message);
  let httpClient := newHTTPClient request in
  responseDER ← sendCMP httpClient (EndpointURL request) requestDER (MaxResponseSize request) operationPoll;
  response ← lift (parseResponse "parse poll response" responseDER);
  now ← time_Now;
  responseSigner ← lift (verifyResponse now (req_Header message) response request (poll_ResponseSigner poll) (poll_RequestNonce poll));
  if bool_decide (Type_ (Body response) = BodyTypePollRep) then
    pending ← lift (extractPollRep response (poll_CertReqID poll) responseSigner (poll_RequestNonce poll));
    mret {| Chain := []; ExtraCertificateCount := 0; ExplicitConfirmation := false; res_ResponseCertReqID := 0;
            Pending := Some pending; PendingConfirmation := None |}
  else completeOrRefuse httpClient request credentials response csr responseSigner (poll_RequestNonce poll).

(** ConfirmP10CR sends the certConf of an issued certificate, or continues a
    confirmation the server delayed. *)
Definition ConfirmP10CR (confirm : ConfirmRequest) : M World error EnrollmentResult :=
  let request := cf_Enrollment confirm in
  _ ← lift (validateEnrollmentRequest request);
  _ ← lift (reject_if (negb (bool_decide (is_Some (cf_Certificate confirm))) || bool_decide (er_TransactionID request = ""))
              (permanent "validate confirmation request" "badRequest" (Errorf "certificate and transaction ID are required to confirm")));
  _ ← lift (mapErr (permanent "validate confirmation certificate" "badCertTemplate") (ValidateMLDSAKeyUsage (cf_Certificate confirm)));
  credentials ← lift (mapErr (permanent "configure protection" "badAlg") (credentialsFor request));
  '(message, operation) ← confirmationMessage request confirm None;
  let confirmationNonce := if bool_decide (cf_RequestNonce confirm = "")
                           then SenderNonce (req_Header message) else cf_RequestNonce confirm in
  let httpClient := newHTTPClient request in
  response ← exchangeProtected httpClient request credentials message (cf_ResponseSigner confirm) (cf_RequestNonce confirm) operation;
  if bool_decide (Type_ (Body response) = BodyTypePKIConf) then
    mret {| Chain := []; ExtraCertificateCount := 0; ExplicitConfirmation := true;
            res_ResponseCertReqID := cf_CertReqID confirm; Pending := None; PendingConfirmation := None |}
  else
    checkAfter ← lift (confirmationDelay response);
    mret {| Chain := []; ExtraCertificateCount := 0; ExplicitConfirmation := false; res_ResponseCertReqID := 0;
            Pending := None;
            PendingConfirmation := Some {| pt_CertReqID := cf_CertReqID confirm;
                                           pt_RecipNonce := SenderNonce (Header response);
                                           pt_ResponseSigner := cf_ResponseSigner confirm;
                                           CheckAfter := checkAfter;
                                           pt_RequestNonce := confirmationNonce |} |}.
End client.

(** ** Properties *)

Section properties.
Context `{Libs}.

(** C32: sendCMP hands over a body exactly when the response is no redirect, has the CMP media type and its
    complete body, read to a regular end of stream, holds between one byte and the configured maximum;
    whatever longer body a peer sends is refused. *)
Theorem acceptHTTPResponse_iff response maximum body :
  (0 ≤ maximum < int64_max)%Z →
  acceptHTTPResponse response maximum = Ok body ↔
  (StatusCode response < 300 ∨ 400 ≤ StatusCode response)%Z ∧ isPKIXCMP response = true ∧
  body = resp_Body response ∧ resp_Err response = None ∧
  (0 < Z.of_nat (String.length (resp_Body response)) ≤ maximum)%Z.
Proof.
  intros Hmax. unfold acceptHTTPResponse.
  destruct ((300 <=? StatusCode response)%Z && (StatusCode response <? 400)%Z) eqn:Es; simplify_bool;
    [split; [done|intros (? & _); lia]|].
  destruct (isPKIXCMP response); simpl; [|split; [by repeat case_match|naive_solver]].
  unfold readLimited. rewrite wrap64_id by (unfold in_int64, int64_min in *; lia).
  destruct (Z.leb_spec (maximum + 1) (Z.of_nat (String.length (resp_Body response)))) as [Hlong|Hshort].
  - rewrite substring_length by lia. destruct (Z.ltb_spec maximum (Z.of_nat (Z.to_nat (maximum + 1)))); [|lia].
    split; [done|]. intros (_ & _ & _ & _ & ?). lia.
  - destruct (resp_Err response) as [err|]; [naive_solver|].
    destruct (Z.ltb_spec maximum (Z.of_nat (String.length (resp_Body response)))); [lia|].
    destruct (resp_Body response) as [|b rest]; simpl; split; try done.
    + intros (_ & _ & _ & _ & ?). lia.
    + intros [= <-]. split_and!; try done; lia.
    + by intros (_ & _ & -> & _ & _).
Qed.

(** Every refusal is classified: only an unavailable server is retried. *)
Lemma acceptHTTPResponse_total response maximum : acceptHTTPResponse response maximum ≠ Panic.
Proof. unfold acceptHTTPResponse. by repeat case_match. Qed.
End properties.

#[local] Existing Instance Demo.demoLibs.

Lemma acceptHTTPResponse_iff_witness :
  let response := {| StatusCode := 200; ContentType := "application/pkixcmp"; resp_Body := "cp"; resp_Err := None |} in
  acceptHTTPResponse response 1024 = Ok "cp"%string ↔
  (200 < 300 ∨ 400 ≤ 200)%Z ∧ isPKIXCMP response = true ∧ "cp"%string = resp_Body response ∧ resp_Err response = None ∧
  (0 < Z.of_nat (String.length (resp_Body response)) ≤ 1024)%Z.
Proof.
  intros response. apply (acceptHTTPResponse_iff response 1024 "cp").
  unfold int64_max. lia.
Defined.
End Client.
