(* ===== verification/ProtocolClient.v ===== *)
(** * The interface between the controller and the CMP client
    ([Client] of internal/protocol/types.go)

    The controller reaches the CMP server through this interface only.  Its
    laws are what the controller's theorems rely on; the CMP client proves
    them in ClientLaws. *)

From S2P Require Import Prelude GoString Types Certificates Api Runtime.
Import Certificates.

Module ProtocolClient.

(** Client performs authenticated CMP transactions without exposing library
    types. *)
Class Client `{Runtime} := {
  EnrollP10CR : EnrollmentRequest → M World error EnrollmentResult;
  EnrollIR : EnrollmentRequest → M World error EnrollmentResult;
  EnrollKUR : EnrollmentRequest → M World error EnrollmentResult;
  PollP10CR : PollRequest → M World error EnrollmentResult;
  ConfirmP10CR : ConfirmRequest → M World error EnrollmentResult
}.

Section interface.
Context `{Runtime}.

(** A chain that certifies the CSR of a request, leaf first, and verified under
    the CMP trust of that request. *)
Definition validChain (csrDER : bytes) (trust : option CertPool) (chain : list Certificate) : Prop :=
  ∃ now candidates csr leaf tail,
    chain = leaf :: tail ∧
    validateAndOrderChain now leaf candidates trust = Ok chain ∧
    ParseCertificateRequest csrDER = inr csr ∧
    PublicKeysEqual (csr_PublicKey csr) (cert_PublicKey leaf) = true.

(** What an enrollment or a poll may return: a wait, or a valid chain, which is
    either confirmed or awaits its first certConf. *)
Definition enrollmentResultOK (request : EnrollmentRequest) (result : EnrollmentResult) : Prop :=
  (is_Some (Pending result) ∧ Chain result = [] ∧ PendingConfirmation result = None) ∨
  (Pending result = None ∧ validChain (CSRDER request) (CMPTrust request) (Chain result) ∧
   ∀ pending, PendingConfirmation result = Some pending → pt_RequestNonce pending = "").

Definition isPost (ev : event) : Prop := match ev with EvPost _ _ _ => True | _ => False end.

Class ClientLaws (client : Client) : Prop := {
  enrollP10CR_posts request : logs isPost (EnrollP10CR request);
  enrollIR_posts request : logs isPost (EnrollIR request);
  enrollKUR_posts request : logs isPost (EnrollKUR request);
  poll_posts poll : logs isPost (PollP10CR poll);
  confirm_posts confirm : logs isPost (ConfirmP10CR confirm);
  enrollP10CR_result request : returns (EnrollP10CR request) (enrollmentResultOK request);
  enrollIR_result request : returns (EnrollIR request) (enrollmentResultOK request);
  enrollKUR_result request : returns (EnrollKUR request) (enrollmentResultOK request);
  poll_result poll : returns (PollP10CR poll) (enrollmentResultOK (poll_Enrollment poll))
}.
End interface.
End ProtocolClient.
