(* ===== verification/ClientLaws.v ===== *)
(** * The CMP client satisfies the controller's interface *)

From S2P Require Import Prelude GoString Types Demo Certificates Request Response Enrollment Api Runtime DemoRuntime Client ProtocolClient.
Import Certificates Request Response Enrollment DemoRuntime ProtocolClient.

Module ClientLaws.

Section laws.
Context `{Runtime}.

(** NewClient *)
#[export] Instance CMPClient : ProtocolClient.Client := {|
  ProtocolClient.EnrollP10CR := Client.EnrollP10CR;
  ProtocolClient.EnrollIR := Client.EnrollIR;
  ProtocolClient.EnrollKUR := Client.EnrollKUR;
  ProtocolClient.PollP10CR := Client.PollP10CR;
  ProtocolClient.ConfirmP10CR := Client.ConfirmP10CR
|}.

(** ** Posts only *)

Lemma sendCMP_posts client endpoint der maximum operation : logs isPost (Client.sendCMP client endpoint der maximum operation).
Proof. unfold Client.sendCMP. logs_tac. done. Qed.

Lemma protectAndEncode_posts name credentials message : logs isPost (Client.protectAndEncode name credentials message).
Proof. unfold Client.protectAndEncode. logs_tac. Qed.
#[local] Hint Resolve sendCMP_posts protectAndEncode_posts : logs.

Lemma exchangeProtected_posts client request credentials message signer nonce operation :
  logs isPost (Client.exchangeProtected client request credentials message signer nonce operation).
Proof. unfold Client.exchangeProtected. logs_tac. Qed.

Lemma confirmationMessage_posts request confirm status : logs isPost (Client.confirmationMessage request confirm status).
Proof. unfold Client.confirmationMessage. logs_tac. Qed.
#[local] Hint Resolve exchangeProtected_posts confirmationMessage_posts : logs.

Lemma rejectCertificate_posts client request credentials refusal reason :
  logs isPost (Client.rejectCertificate client request credentials refusal reason).
Proof. unfold Client.rejectCertificate. logs_tac. Qed.
#[local] Hint Resolve rejectCertificate_posts : logs.

Lemma completeOrRefuse_posts client request credentials response csr signer nonce :
  logs isPost (Client.completeOrRefuse client request credentials response csr signer nonce).
Proof. unfold Client.completeOrRefuse. logs_tac. Qed.
#[local] Hint Resolve completeOrRefuse_posts : logs.

Lemma enrollmentExchange_posts request credentials csr message der operation label :
  logs isPost (Client.enrollmentExchange request credentials csr message der operation label).
Proof. unfold Client.enrollmentExchange. logs_tac. Qed.
#[local] Hint Resolve enrollmentExchange_posts : logs.

Lemma protected_posts request csr credentials :
  logs isPost (Client.protectedEnrollment request csr credentials) ∧
  logs isPost (Client.protectedIR request csr credentials) ∧ logs isPost (Client.protectedKUR request csr credentials).
Proof. unfold Client.protectedEnrollment, Client.protectedIR, Client.protectedKUR. split_and!; logs_tac. Qed.

(** ** Results *)

Lemma finishTransaction_result now request response csr signer delayed result refusal :
  finishTransaction now request response csr signer delayed = (Ok result, refusal) →
  (is_Some (Pending result) ∧ Chain result = [] ∧ PendingConfirmation result = None) ∨
  (Pending result = None ∧ ∃ candidates leaf tail, Chain result = leaf :: tail ∧
     validateAndOrderChain now leaf candidates (CMPTrust request) = Ok (Chain result) ∧
     PublicKeysEqual (csr_PublicKey csr) (cert_PublicKey leaf) = true ∧
     ∀ pending, PendingConfirmation result = Some pending → pt_RequestNonce pending = "").
Proof.
  unfold finishTransaction. intros Hf.
  destruct (extractEnrollmentResponse response request) as [issued|e|]; [|done..].
  destruct (Waiting issued); [simplify_eq/=; left; eauto|].
  destruct (ic_Certificate issued) as [certificate|]; [|done].
  destruct (acceptIssued now request csr issued certificate) as [chain|[reason e]|] eqn:Ea; [|done..].
  destruct (acceptIssued_ok _ _ _ _ _ _ Ea) as (_ & Hk & Hch & _).
  destruct (validateAndOrderChain_head _ _ _ _ _ Hch) as [tail ->].
  right. destruct (_ && _); simplify_eq/=; (split; [done|]);
    do 3 eexists; split_and!; [done..|naive_solver].
Qed.

Lemma completeOrRefuse_result client request credentials response csr signer delayed csrDER :
  ParseCertificateRequest csrDER = inr csr → csrDER = CSRDER request →
  returns (Client.completeOrRefuse client request credentials response csr signer delayed) (enrollmentResultOK request).
Proof.
  intros Hcsr ->. unfold Client.completeOrRefuse. eapply returns_bind; [apply returns_any|]. intros now _.
  destruct (finishTransaction now request response csr signer delayed) as [o refusal] eqn:Ef.
  assert (Hlift : returns (S:=World) (lift o) (enrollmentResultOK request)).
  { apply returns_lift. intros result ->. unfold enrollmentResultOK, validChain.
    apply finishTransaction_result in Ef as [?|(? & candidates & leaf & tail & ? & ? & ? & ?)]; [by left|].
    right. split_and!; [done| |done]. by exists now, candidates, csr, leaf, tail. }
  destruct o; [exact Hlift| |exact Hlift]. destruct refusal; [|exact Hlift].
  eapply returns_bind; [apply returns_any|]. intros. apply returns_fail.
Qed.

Lemma enrollmentExchange_result request credentials csr message der operation label :
  ParseCertificateRequest (CSRDER request) = inr csr →
  returns (Client.enrollmentExchange request credentials csr message der operation label) (enrollmentResultOK request).
Proof.
  intros Hcsr. unfold Client.enrollmentExchange. do 4 (eapply returns_bind; [apply returns_any|]; intros ? _).
  by eapply completeOrRefuse_result.
Qed.

Lemma parsedCSR_ok request csr : parsedCSR request = Ok csr → ParseCertificateRequest (CSRDER request) = inr csr.
Proof. unfold parsedCSR. repeat case_match; congruence. Qed.

(** The common shape of the three enrollment operations: validate, parse the
    CSR, build the message and exchange it. *)
Lemma enrollment_result request operation (validate : M World error unit) (credentials : CertificateRequest → M World error Credentials) (build : CertificateRequest → Credentials → M World error (PKIRequest * bytes)) name label :
  let request' := set_Operation operation request in
  returns
    (_ ← validate; csr ← lift (parsedCSR request'); credentials ← credentials csr;
     '(message, requestDER) ← build csr credentials;
     Client.enrollmentExchange request' credentials csr message requestDER name label)
    (enrollmentResultOK request).
Proof.
  intros request'. eapply returns_bind; [apply returns_any|]. intros _ _.
  eapply returns_bind; [apply returns_lift, parsedCSR_ok|]. intros csr Hcsr. simpl in Hcsr.
  do 2 (eapply returns_bind; [apply returns_any|]; intros ? _). case_match.
  eapply returns_mono; [by apply enrollmentExchange_result|]. done.
Qed.

(** ** The laws, operation by operation *)

Lemma EnrollP10CR_posts request : logs isPost (Client.EnrollP10CR request).
Proof.
  unfold Client.EnrollP10CR.
  pose proof (λ csr c, proj1 (protected_posts (set_Operation OperationP10CR request) csr c)). logs_tac.
Qed.

Lemma EnrollIR_posts request : logs isPost (Client.EnrollIR request).
Proof.
  unfold Client.EnrollIR.
  pose proof (λ csr c, proj1 (proj2 (protected_posts (set_Operation OperationIR request) csr c))). logs_tac.
Qed.

Lemma EnrollKUR_posts request : logs isPost (Client.EnrollKUR request).
Proof.
  unfold Client.EnrollKUR.
  pose proof (λ csr c, proj2 (proj2 (protected_posts (set_Operation OperationKUR request) csr c))). logs_tac.
Qed.

Lemma PollP10CR_posts poll : logs isPost (Client.PollP10CR poll).
Proof. unfold Client.PollP10CR. logs_tac. Qed.

Lemma ConfirmP10CR_posts confirm : logs isPost (Client.ConfirmP10CR confirm).
Proof. unfold Client.ConfirmP10CR. logs_tac. Qed.

Lemma EnrollP10CR_result request : returns (Client.EnrollP10CR request) (enrollmentResultOK request).
Proof.
  unfold Client.EnrollP10CR. eapply returns_bind; [apply returns_any|]. intros _ _.
  apply (enrollment_result request OperationP10CR _ (λ _, _) _).
Qed.

Lemma EnrollIR_result request : returns (Client.EnrollIR request) (enrollmentResultOK request).
Proof. unfold Client.EnrollIR. apply (enrollment_result request OperationIR _ (λ _, _) _). Qed.

Lemma EnrollKUR_result request : returns (Client.EnrollKUR request) (enrollmentResultOK request).
Proof.
  unfold Client.EnrollKUR. eapply returns_bind; [apply returns_any|]. intros now _.
  apply (enrollment_result request OperationKUR _ (λ _, _) _).
Qed.

Lemma PollP10CR_result poll : returns (Client.PollP10CR poll) (enrollmentResultOK (poll_Enrollment poll)).
Proof.
  unfold Client.PollP10CR. do 2 (eapply returns_bind; [apply returns_any|]; intros ? _).
  eapply (returns_bind _ _ (λ csr, ParseCertificateRequest (CSRDER (poll_Enrollment poll)) = inr csr));
    [apply returns_lift; intros csr; repeat case_match; congruence|]. intros csr Hcsr.
  do 3 (eapply returns_bind; [apply returns_any|]; intros ? _).
  eapply returns_bind; [apply returns_any|]. intros [message der] _.
  do 4 (eapply returns_bind; [apply returns_any|]; intros ? _). case_match.
  - eapply returns_bind; [apply returns_any|]. intros pending _. apply returns_ret. left. simpl. eauto.
  - by eapply completeOrRefuse_result.
Qed.

Create HintDb client_laws.
#[local] Hint Resolve EnrollP10CR_posts EnrollIR_posts EnrollKUR_posts PollP10CR_posts ConfirmP10CR_posts
  EnrollP10CR_result EnrollIR_result EnrollKUR_result PollP10CR_result : client_laws.

#[export] Instance CMPClient_laws : ClientLaws CMPClient.
Proof. constructor; simpl; auto with client_laws. Qed.

(** C15: The CMP client implements the interface the controller is verified against: it changes nothing but by
    HTTP posts, and an enrollment or a poll that succeeds returns either a wait without a certificate, or a
    chain whose leaf certifies the key of the CSR and which verified under the CMP trust of the request. *)
Theorem CMPClient_refines_interface : ClientLaws CMPClient.
Proof. constructor; simpl; auto with client_laws. Qed.

(** ** The messages of an operation *)

(** Nothing, or one post of [operation] to [endpoint]. *)
Definition onePost (operation endpoint : string) (l : list event) : Prop :=
  l = [] ∨ ∃ der, l = [EvPost operation endpoint der].

(** The posts of an enrollment, newest first: nothing, the request, or the
    request followed by the certConf that refuses its certificate. *)
Definition enrollmentPosts (operation endpoint : string) (l : list event) : Prop :=
  onePost operation endpoint l ∨
  ∃ der der', l = [EvPost Client.operationConfirmation endpoint der'; EvPost operation endpoint der].

Lemma sendCMP_one client endpoint der maximum operation :
  adds (onePost operation endpoint) (Client.sendCMP client endpoint der maximum operation).
Proof.
  unfold Client.sendCMP. apply adds_bind_quiet; [quiet_tac|by left|intros _].
  apply adds_bind_last; [apply adds_emit; right; eauto|]. intros []. quiet_tac.
Qed.

Lemma protectAndEncode_quiet name credentials message : quiet (Client.protectAndEncode name credentials message).
Proof. unfold quiet, Client.protectAndEncode. logs_tac. Qed.
Lemma confirmationMessage_quiet request confirm status : quiet (Client.confirmationMessage request confirm status).
Proof. unfold quiet, Client.confirmationMessage. logs_tac. Qed.

Lemma exchangeProtected_one client request credentials message signer nonce operation :
  adds (onePost operation (EndpointURL request))
    (Client.exchangeProtected client request credentials message signer nonce operation).
Proof.
  unfold Client.exchangeProtected. apply adds_bind_quiet; [apply protectAndEncode_quiet|by left|intros [m der]].
  apply adds_bind_last; [apply sendCMP_one|]. intros body. quiet_tac.
Qed.

(** A confirmation starts with certConf and is polled for once it was sent. *)
Definition confirmationOperation (confirm : ConfirmRequest) : string :=
  if bool_decide (cf_RequestNonce confirm = "") then Client.operationConfirmation else Client.operationPoll.

Lemma confirmationMessage_operation request confirm status :
  returns (Client.confirmationMessage request confirm status) (λ r, r.2 = confirmationOperation confirm).
Proof.
  unfold Client.confirmationMessage, confirmationOperation. do 3 (eapply returns_bind; [apply returns_any|]; intros ? _).
  eapply (returns_bind _ _ (λ r : PKIRequest * string, r.2 = confirmationOperation confirm)).
  - unfold confirmationOperation. destruct (bool_decide (cf_RequestNonce confirm = "")); simpl;
      (eapply returns_bind; [apply returns_any|]; intros ? _; by apply returns_ret).
  - intros [message operation] Ho. by apply returns_ret.
Qed.

Lemma adds_bind_returns {E A B} (P : list event → Prop) (R : A → Prop) (m : M World E A) (f : A → M World E B) :
  quiet m → returns m R → P [] → (∀ a, R a → adds P (f a)) → adds P (m ≫= f).
Proof.
  intros Hm HR HP Hf w. destruct (Hm w) as ([|ev l] & Hl & Pl); [|by inversion Pl]. specialize (HR w).
  unfold mbind, M_bind. destruct (m w) as [[a|e|] w']; simpl in *; [|by exists []..].
  rewrite <- Hl. apply Hf. by apply HR.
Qed.

(** Nothing, or the post of exactly these bytes. *)
Definition postOf (operation endpoint : string) (der : bytes) (l : list event) : Prop :=
  l = [] ∨ l = [EvPost operation endpoint der].

Lemma sendCMP_post client endpoint der maximum operation :
  adds (postOf operation endpoint der) (Client.sendCMP client endpoint der maximum operation).
Proof.
  unfold Client.sendCMP. apply adds_bind_quiet; [quiet_tac|by left|intros _].
  apply adds_bind_last; [apply adds_emit; by right|]. intros []. quiet_tac.
Qed.

(** The message of a confirmation: certConf with the hash of the certificate and
    no objection to it, or a pollReq for the answer to an earlier certConf. *)
Definition confirmationBody (confirm : ConfirmRequest) (status : CertStatus) : RequestBody GeneralName POP :=
  if bool_decide (cf_RequestNonce confirm = "")
  then CertConfBody [{| cs_CertReqID := cs_CertReqID status; cs_CertHash := cs_CertHash status; cs_HashAlg := cs_HashAlg status;
                        cs_StatusInfo := None |}]
  else PollReqBody [ResponseCertReqIDStandard].
Definition confirmationPVNO (confirm : ConfirmRequest) (status : CertStatus) (message : PKIRequest) : PKIRequest :=
  if bool_decide (cf_RequestNonce confirm = "") then message
  else match cs_HashAlg status with Some _ => Client.set_PVNO PVNO3 message | None => message end.

(** [der] encodes the confirmation of [confirm] as it is built and protected in
    the outside state [x]: in the transaction of the request, answering the
    recorded nonce, with its credentials. *)
Definition encodesConfirmation (confirm : ConfirmRequest) (x : Ext) (der : bytes) : Prop :=
  let request := cf_Enrollment confirm in
  ∃ sender leaf status credentials message protected x1 x2,
    requestSender request = Ok sender ∧ cf_Certificate confirm = Some leaf ∧
    NewCertStatus leaf (cf_CertReqID confirm) = inr status ∧ credentialsFor request = Ok credentials ∧
    ext_NewPKIMessage (confirmationBody confirm status) (Client.messageOptions request sender (cf_RecipNonce confirm)) x = (message, x1) ∧
    ext_Protect credentials (Client.withSenderKID request (confirmationPVNO confirm status message)) x1 = (inr protected, x2) ∧
    MarshalBinary protected = inr der.

(** What confirmationMessage builds, without a log entry. *)
Lemma confirmationMessage_built request confirm w r w' :
  Client.confirmationMessage request confirm None w = (Ok r, w') →
  w_log w' = w_log w ∧
  ∃ sender leaf status message,
    requestSender request = Ok sender ∧ cf_Certificate confirm = Some leaf ∧ NewCertStatus leaf (cf_CertReqID confirm) = inr status ∧
    ext_NewPKIMessage (confirmationBody confirm status) (Client.messageOptions request sender (cf_RecipNonce confirm)) (w_ext w) = (message, w_ext w') ∧
    r = (Client.withSenderKID request (confirmationPVNO confirm status message), confirmationOperation confirm).
Proof.
  unfold Client.confirmationMessage, confirmationBody, confirmationPVNO, confirmationOperation.
  intros (sender & w1 & [Hs ->]%run_lift & Hm)%run_bind. apply run_bind in Hm as (leaf & w2 & [Hl ->]%run_lift & Hm).
  apply run_bind in Hm as (status & w3 & [Hst ->]%run_lift & Hm). apply run_bind in Hm as ([message operation] & w4 & Hm & [-> ->]%run_ret).
  apply deref_ok in Hl. destruct (NewCertStatus leaf (cf_CertReqID confirm)) as [e|status'] eqn:En; [done|]. injection Hst as <-.
  destruct (bool_decide (cf_RequestNonce confirm = "")); simpl in Hm;
    apply run_bind in Hm as (m & w5 & (x & Hx & ->)%run_outside & [[= -> ->] ->]%run_ret); simpl;
    (split; [done|]); exists sender, leaf, status', m; by split_and!.
Qed.

(** C26: One call of ConfirmP10CR posts at most one message, to the configured endpoint, in the transaction being
    confirmed and answering the recorded nonce: the certConf that accepts the certificate by its hash while no
    answer to a certConf has been recorded, and the pollReq for that answer once its nonce is recorded. A
    certConf whose answer never arrived is therefore sent again by a later call. *)
Theorem ConfirmP10CR_messages confirm w :
  addsAt (λ l, l = [] ∨ ∃ der, encodesConfirmation confirm (w_ext w) der ∧
                l = [EvPost (confirmationOperation confirm) (EndpointURL (cf_Enrollment confirm)) der])
    (Client.ConfirmP10CR confirm) w.
Proof.
  unfold Client.ConfirmP10CR. do 3 (apply addsAt_lift; [by left|]; intros ? _).
  apply addsAt_lift; [by left|]. intros credentials Hcred. rewrite mapErr_ok in Hcred.
  apply addsAt_quiet; [apply confirmationMessage_quiet|by left|]. intros r w1 Hm _.
  apply confirmationMessage_built in Hm as (_ & sender & leaf & status & message & Hs & Hl & Hst & Hnew & ->).
  apply addsAt_last; [|intros response; quiet_tac]. unfold Client.exchangeProtected.
  apply addsAt_quiet; [apply protectAndEncode_quiet|by left|]. intros [protected der] w2 Hp _.
  apply run_bind in Hp as (m & w3 & Hp & [Hmar ->]%run_lift). apply run_bind in Hp as (r & w4 & (x & Hx & ->)%run_outside & [Hr ->]%run_lift).
  apply addsAt_last; [|intros body; quiet_tac]. eapply addsAt_mono; [apply sendCMP_post|].
  intros l [->| ->]; [by left|]. right. exists der. split; [|done]. destruct r as [e|m']; [done|]. injection Hr as ->.
  destruct (MarshalBinary m) as [e|d] eqn:Em; [done|]. injection Hmar as <- <-.
  exists sender, leaf, status, credentials, message, m, (w_ext w1), x. by split_and!.
Qed.

Lemma rejectCertificate_one client request credentials refusal reason :
  adds (onePost Client.operationConfirmation (EndpointURL request))
    (Client.rejectCertificate client request credentials refusal reason).
Proof.
  unfold Client.rejectCertificate. apply adds_bind_last; [|intros; quiet_tac]. apply adds_try.
  eapply adds_bind_returns; [apply confirmationMessage_quiet|apply confirmationMessage_operation|by left|].
  intros [message operation] Hop. simpl in Hop. subst operation.
  apply adds_bind_last; [apply exchangeProtected_one|]. intros response. quiet_tac.
Qed.

Lemma completeOrRefuse_one client request credentials response csr signer nonce :
  adds (onePost Client.operationConfirmation (EndpointURL request))
    (Client.completeOrRefuse client request credentials response csr signer nonce).
Proof.
  unfold Client.completeOrRefuse. apply adds_bind_quiet; [apply logs_outside|by left|intros now].
  destruct (finishTransaction now request response csr signer nonce) as [[result|err|] [refusal|]];
    try (apply adds_quiet; [apply logs_lift|by left]).
  apply adds_bind_last; [apply rejectCertificate_one|]. intros. apply logs_fail.
Qed.

(** A body was received only after the request was posted. *)
Lemma sendCMP_ok client endpoint der maximum operation w :
  is_ok (Client.sendCMP client endpoint der maximum operation w).1 = true →
  w_log (Client.sendCMP client endpoint der maximum operation w).2 = EvPost operation endpoint der :: w_log w.
Proof.
  unfold Client.sendCMP. destruct (url_Parse endpoint) as [err|u]; [done|]. intros _.
  refine (emit_then_quiet (EvPost operation endpoint der) _ w _). intros []. quiet_tac.
Qed.

(** Sending a request and completing or refusing its certificate. *)
Lemma send_then_complete client endpoint der maximum operation (rest : bytes → M World error EnrollmentResult) :
  (∀ body, adds (onePost Client.operationConfirmation endpoint) (rest body)) →
  adds (enrollmentPosts operation endpoint) (Client.sendCMP client endpoint der maximum operation ≫= rest).
Proof.
  intros Hr w. destruct (sendCMP_one client endpoint der maximum operation w) as (l & Hl & Pl).
  pose proof (sendCMP_ok client endpoint der maximum operation w) as Hok. unfold mbind, M_bind.
  destruct (Client.sendCMP client endpoint der maximum operation w) as [[body|e|] w']; simpl in *;
    [|exists l; split; [done|by left]..].
  specialize (Hok eq_refl). destruct (Hr body w') as (l' & Hl' & [->|[d ->]]); rewrite Hl', Hok; simpl.
  - exists [EvPost operation endpoint der]. split; [done|]. left. right. eauto.
  - exists [EvPost Client.operationConfirmation endpoint d; EvPost operation endpoint der]. split; [done|]. right. eauto.
Qed.

Lemma enrollmentExchange_messages request credentials csr message der operation label :
  adds (enrollmentPosts operation (EndpointURL request))
    (Client.enrollmentExchange request credentials csr message der operation label).
Proof.
  unfold Client.enrollmentExchange. apply send_then_complete. intros body.
  do 3 (apply adds_bind_quiet; [quiet_tac|by left|intros ?]). apply completeOrRefuse_one.
Qed.

Lemma protected_quiet request csr credentials :
  quiet (Client.protectedEnrollment request csr credentials) ∧
  quiet (Client.protectedIR request csr credentials) ∧ quiet (Client.protectedKUR request csr credentials).
Proof.
  pose proof protectAndEncode_quiet.
  unfold quiet, Client.protectedEnrollment, Client.protectedIR, Client.protectedKUR in *. split_and!; logs_tac.
Qed.

Lemma noPosts operation endpoint : enrollmentPosts operation endpoint [].
Proof. left. by left. Qed.

(** C27: An enrollment posts its request at most once, only to the configured endpoint, and at most one further
    message: the certConf that refuses the certificate it was issued. Polling is alike. *)
Theorem enrollment_messages request poll :
  adds (enrollmentPosts Client.operationEnrollment (EndpointURL request)) (Client.EnrollP10CR request) ∧
  adds (enrollmentPosts Client.operationInitialization (EndpointURL request)) (Client.EnrollIR request) ∧
  adds (enrollmentPosts Client.operationKeyUpdate (EndpointURL request)) (Client.EnrollKUR request) ∧
  adds (enrollmentPosts Client.operationPoll (EndpointURL (poll_Enrollment poll))) (Client.PollP10CR poll).
Proof.
  split_and!.
  - unfold Client.EnrollP10CR. do 4 (apply adds_bind_quiet; [apply logs_lift|apply noPosts|intros ?]).
    apply adds_bind_quiet; [apply protected_quiet|apply noPosts|intros [message der]].
    apply (enrollmentExchange_messages (set_Operation OperationP10CR request)).
  - unfold Client.EnrollIR. do 3 (apply adds_bind_quiet; [apply logs_lift|apply noPosts|intros ?]).
    apply adds_bind_quiet; [apply protected_quiet|apply noPosts|intros [message der]].
    apply (enrollmentExchange_messages (set_Operation OperationIR request)).
  - unfold Client.EnrollKUR. apply adds_bind_quiet; [apply logs_outside|apply noPosts|intros now].
    do 3 (apply adds_bind_quiet; [apply logs_lift|apply noPosts|intros ?]).
    apply adds_bind_quiet; [apply protected_quiet|apply noPosts|intros [message der]].
    apply (enrollmentExchange_messages (set_Operation OperationKUR request)).
  - unfold Client.PollP10CR. do 6 (apply adds_bind_quiet; [quiet_tac|apply noPosts|intros ?]).
    apply adds_bind_quiet; [apply protectAndEncode_quiet|apply noPosts|intros [message der]].
    apply send_then_complete. intros body.
    do 3 (apply adds_bind_quiet; [quiet_tac|by left|intros ?]).
    case_match; [|apply completeOrRefuse_one]. apply adds_quiet; [quiet_tac|by left].
Qed.

(** Telling the server about a refused certificate never changes why the enrollment failed: whether or not
    the rejection is delivered, the error keeps its kind, operation, failure name and delay. *)
Theorem rejectCertificate_preserves client request credentials refusal reason failure :
  errors_As as_Error reason = Some failure →
  returns (Client.rejectCertificate client request credentials refusal reason)
    (λ err, ∃ failure', errors_As as_Error err = Some failure' ∧ Kind failure' = Kind failure ∧
       Operation failure' = Operation failure ∧ Failure failure' = Failure failure ∧
       RequeueAfter failure' = RequeueAfter failure).
Proof.
  intros Hreason. unfold Client.rejectCertificate. eapply returns_bind; [apply returns_any|]. intros delivery _.
  apply returns_ret. destruct delivery as [e|[]]; [|by exists failure]. rewrite Hreason. simpl. by eexists.
Qed.
End laws.

#[local] Existing Instance Demo.demoLibs.

Lemma rejectCertificate_preserves_witness :
  let reason := security "validate issued chain" "signerNotTrusted" (Errorf "unknown authority") in
  returns (Client.rejectCertificate (Client.newHTTPClient Demo.request) Demo.request "secret"%string demoRefusal reason)
    (λ err, ∃ failure', errors_As as_Error err = Some failure' ∧ Kind failure' = ErrorKindSecurity ∧
       Operation failure' = "validate issued chain" ∧ Failure failure' = "signerNotTrusted" ∧
       RequeueAfter failure' = 0%Z).
Proof.
  intros reason.
  apply (rejectCertificate_preserves (Client.newHTTPClient Demo.request) Demo.request "secret"%string demoRefusal reason
    {| Kind := ErrorKindSecurity; Operation := "validate issued chain"; Failure := "signerNotTrusted"; RequeueAfter := 0;
       Wraps := Errorf "unknown authority" |}).
  reflexivity.
Defined.
End ClientLaws.
