(* ===== verification/Lifecycle.v ===== *)
(** * The lifecycle of a CMP transaction

    An abstract machine over the events of one reconcile: what may be sent and
    recorded, given the record the controller holds.  The signer refines it
    (SignerTrace). *)

From S2P Require Import Prelude GoString Types Certificates Api Runtime TransactionStore ProtocolClient.
Import Api TransactionStore ProtocolClient.

Module Lifecycle.

(** The part of a record's status that decides how a transaction continues. *)
Record view := {
  v_Phase : string;
  v_Chain : list bytes;
  v_RecipNonce : bytes;
  v_RequestNonce : bytes;
  v_CertReqID : option Z;
  v_Signer : bytes;
  v_Polls : Z
}.

Definition viewOf (st : CMPTransactionStatus) : view :=
  {| v_Phase := Phase st; v_Chain := IssuedChain st; v_RecipNonce := tx_RecipNonce st; v_RequestNonce := tx_RequestNonce st;
     v_CertReqID := tx_CertReqID st; v_Signer := tx_ResponseSigner st; v_Polls := Polls st |}.

Definition idOf (t : CMPTransaction) : bytes := tx_TransactionID (Spec t).
Definition viewOfTx (t : CMPTransaction) : view := viewOf (tx_Status t).

(** Nothing read yet; no record; a record without a phase; the record the
    controller holds and whether a request for it is under way; the record a
    reconcile leaves for the next one; a record it asked to delete. *)
Inductive state :=
| Start | NoRecord | Fresh (id : bytes) | Open (id : bytes) (v : view) (asked : bool) | Done (id : bytes) (v : view) | Gone.

Section machine.
Context `{Runtime} (maximumPolls : Z).

(** Events that neither send nor record. *)
Definition neutral (ev : event) : Prop :=
  match ev with
  | EvReadSecret _ | EvReadCertificate _ _ | EvWarning _ | EvOutcome _ _ _ | EvFailure _ _ _ | EvPollWait _ | EvConfirmation _ _ => True
  | _ => False
  end.

(** The confirmation certificate is the leaf of the recorded chain. *)
Definition confirmsRecorded (v : view) (leaf : Certificate) : Prop :=
  ∃ encoded rest, v_Chain v = encoded :: rest ∧ (Raw leaf = encoded ∨ ParseCertificate encoded = inr leaf).

(** The chain of an issued certificate is recorded before its confirmation. *)
Record confirming (v v' : view) : Prop := {
  confirming_from : v_Phase v ∉ [TransactionPhaseConfirming; TransactionPhaseIssued];
  confirming_to : v_Phase v' = TransactionPhaseConfirming;
  confirming_chain : v_Chain v' ≠ [];
  confirming_id : is_Some (v_CertReqID v');
  confirming_nonce : v_RequestNonce v' = ""%string;
  confirming_polls : v_Polls v' = v_Polls v
}.

(** The status writes that end the exchanges of a reconcile: the server asked
    to wait, it did not confirm yet, or the certificate is issued. *)
Inductive transition (v v' : view) : Prop :=
| transition_wait :
    v_Phase v ∉ [TransactionPhaseConfirming; TransactionPhaseIssued] →
    v_Phase v' = TransactionPhasePolling → is_Some (v_CertReqID v') → v_Chain v' = v_Chain v →
    v_Polls v' = (if bool_decide (v_Phase v = TransactionPhasePolling) then wrap32 (v_Polls v + 1) else v_Polls v) →
    transition v v'
| transition_unconfirmed :
    v_Phase v = TransactionPhaseConfirming → v_Phase v' = TransactionPhaseConfirming →
    v_Chain v' ≠ [] → is_Some (v_CertReqID v') →
    v_Polls v' = (if bool_decide (v_RequestNonce v = "") then v_Polls v else wrap32 (v_Polls v + 1)) →
    transition v v'
| transition_issued :
    v_Phase v ≠ TransactionPhaseIssued → v_Phase v' = TransactionPhaseIssued → v_Chain v' ≠ [] → v_Polls v' = v_Polls v →
    transition v v'.

Inductive step : state → event → state → Prop :=
| step_neutral s ev : neutral ev → step s ev s
| step_stale key uid : step Start (EvDelete key uid) Start
| step_absent : step Start (EvLoaded None) NoRecord
| step_loaded t : step Start (EvLoaded (Some t)) (Open (idOf t) (viewOfTx t) false)
| step_create t : step NoRecord (EvCreate t) (Fresh (idOf t))
| step_enrolling t :
    v_Phase (viewOfTx t) = TransactionPhaseEnrolling → step (Fresh (idOf t)) (EvUpdateStatus t) (Open (idOf t) (viewOfTx t) false)
| step_enroll v operation request :
    v_Phase v ∉ [TransactionPhasePolling; TransactionPhaseConfirming; TransactionPhaseIssued] →
    step (Open (er_TransactionID request) v false) (EvEnroll operation request) (Open (er_TransactionID request) v true)
| step_poll v poll :
    v_Phase v = TransactionPhasePolling → (v_Polls v < maximumPolls)%Z →
    v_CertReqID v = Some (poll_CertReqID poll) → v_RecipNonce v = poll_RecipNonce poll → poll_RecipNonce poll ≠ ""%string →
    v_RequestNonce v = poll_RequestNonce poll →
    step (Open (er_TransactionID (poll_Enrollment poll)) v false) (EvPoll poll) (Open (er_TransactionID (poll_Enrollment poll)) v true)
| step_confirm v confirm leaf :
    v_Phase v = TransactionPhaseConfirming → (v_Polls v < maximumPolls)%Z →
    cf_Certificate confirm = Some leaf → confirmsRecorded v leaf →
    v_CertReqID v = Some (cf_CertReqID confirm) → v_RecipNonce v = cf_RecipNonce confirm →
    v_RequestNonce v = cf_RequestNonce confirm →
    step (Open (er_TransactionID (cf_Enrollment confirm)) v false) (EvConfirm confirm)
      (Open (er_TransactionID (cf_Enrollment confirm)) v true)
| step_post id v operation endpoint der : step (Open id v true) (EvPost operation endpoint der) (Open id v true)
| step_confirming v t :
    confirming v (viewOfTx t) → step (Open (idOf t) v true) (EvUpdateStatus t) (Open (idOf t) (viewOfTx t) false)
| step_recorded v t :
    transition v (viewOfTx t) → step (Open (idOf t) v true) (EvUpdateStatus t) (Done (idOf t) (viewOfTx t))
| step_delete id v asked key uid : step (Open id v asked) (EvDelete key uid) Gone.

(** A sequence of events, oldest first. *)
Inductive accepts : state → list event → state → Prop :=
| accepts_nil s : accepts s [] s
| accepts_cons s1 ev s2 l s3 : step s1 ev s2 → accepts s2 l s3 → accepts s1 (ev :: l) s3.

Lemma accepts_app s1 l1 s2 l2 s3 : accepts s1 l1 s2 → accepts s2 l2 s3 → accepts s1 (l1 ++ l2) s3.
Proof. induction 1; simpl; [done|]. intros. econstructor; eauto. Qed.

Lemma accepts_one s ev s' : step s ev s' → accepts s [ev] s'.
Proof. intros. econstructor; [done|constructor]. Qed.

(** ** A program logic for traces

    [traced s m Q]: run in state [s], the events of [m] are accepted and lead
    to a state that satisfies [Q] together with the outcome. *)
Definition traced {E A} (s : state) (m : M World E A) (Q : outcome E A → state → Prop) : Prop :=
  ∀ w, ∃ added s', w_log (m w).2 = added ++ w_log w ∧ accepts s (reverse added) s' ∧ Q (m w).1 s'.

Lemma traced_mono {E A} s (m : M World E A) (Q Q' : outcome E A → state → Prop) :
  traced s m Q → (∀ o s', Q o s' → Q' o s') → traced s m Q'.
Proof. intros Hm HQ w. destruct (Hm w) as (l & s' & ? & ? & ?). eauto 10. Qed.

Lemma traced_nothing {E A} s (m : M World E A) (Q : outcome E A → state → Prop) :
  (∀ w, w_log (m w).2 = w_log w ∧ Q (m w).1 s) → traced s m Q.
Proof. intros Hm w. destruct (Hm w). exists [], s. split_and!; [done|constructor|done]. Qed.

Lemma traced_ret {E A} s (a : A) (Q : outcome E A → state → Prop) : Q (Ok a) s → traced s (mret a) Q.
Proof. intros. by apply traced_nothing. Qed.
Lemma traced_lift {E A} s (o : outcome E A) (Q : outcome E A → state → Prop) : Q o s → traced s (lift o) Q.
Proof. intros. by apply traced_nothing. Qed.
Lemma traced_fail {E A} s (e : E) (Q : outcome E A → state → Prop) : Q (Err e) s → traced s (fail e) Q.
Proof. intros. by apply traced_nothing. Qed.
Lemma traced_outside {E A} s (f : Ext → A * Ext) (Q : outcome E A → state → Prop) :
  (∀ x, Q (Ok (f x).1) s) → traced s (outside f) Q.
Proof.
  intros HQ. apply traced_nothing. intros w. unfold outside, Prelude.step. specialize (HQ (w_ext w)).
  by destruct (f (w_ext w)).
Qed.

Lemma traced_emit {E} s ev s' (Q : outcome E unit → state → Prop) :
  step s ev s' → Q (Ok tt) s' → traced s (emit ev) Q.
Proof. intros Hs HQ w. exists [ev], s'. split_and!; [done| |done]. by apply accepts_one. Qed.

Lemma traced_bind {E A B} s (m : M World E A) (f : A → M World E B) (Q : outcome E B → state → Prop) :
  traced s m (λ o s', match o with Ok a => traced s' (f a) Q | Err e => Q (Err e) s' | Panic => Q Panic s' end) →
  traced s (m ≫= f) Q.
Proof.
  intros Hm w. destruct (Hm w) as (l & s' & Hl & Ha & HQ). unfold mbind, M_bind.
  destruct (m w) as [[a|e|] w']; simpl in *; [|eauto..].
  destruct (HQ w') as (l' & s'' & Hl' & Ha' & HQ'). exists (l' ++ l), s''. rewrite Hl', Hl, reverse_app, app_assoc.
  split_and!; [done| |done]. by eapply accepts_app.
Qed.

Lemma traced_try {E E' A} s (m : M World E A) (Q : outcome E' (E + A) → state → Prop) :
  traced s m (λ o s', match o with Ok a => Q (Ok (inr a)) s' | Err e => Q (Ok (inl e)) s' | Panic => Q Panic s' end) →
  traced s (try m) Q.
Proof.
  intros Hm w. destruct (Hm w) as (l & s' & Hl & Ha & HQ). exists l, s'. unfold try.
  by destruct (m w) as [[a|e|] w'].
Qed.

Lemma accepts_stay s l (P : event → Prop) : (∀ ev, P ev → step s ev s) → Forall P l → accepts s l s.
Proof. intros HP. induction 1; econstructor; eauto. Qed.

(** A program whose every event leaves the state as it is. *)
Lemma traced_logs {E A} s (P : event → Prop) (m : M World E A) (R : A → Prop) (Q : outcome E A → state → Prop) :
  logs P m → returns m R → (∀ ev, P ev → step s ev s) →
  (∀ o, match o with Ok a => R a | _ => True end → Q o s) → traced s m Q.
Proof.
  intros Hm HR HP HQ w. destruct (Hm w) as (l & Hl & Pl). exists l, s. split_and!; [done| |].
  - eapply accepts_stay; [done|]. by apply Forall_reverse.
  - apply HQ. specialize (HR w). destruct (m w) as [[a|e|] w']; simpl in *; auto.
Qed.

Lemma traced_neutral {E A} s (m : M World E A) (R : A → Prop) (Q : outcome E A → state → Prop) :
  logs neutral m → returns m R → (∀ o, match o with Ok a => R a | _ => True end → Q o s) → traced s m Q.
Proof. intros Hm HR. eapply traced_logs; eauto using step_neutral. Qed.

Lemma traced_posts {E A} id v (m : M World E A) (R : A → Prop) (Q : outcome E A → state → Prop) :
  logs isPost m → returns m R → (∀ o, match o with Ok a => R a | _ => True end → Q o (Open id v true)) → traced (Open id v true) m Q.
Proof. intros Hm HR. eapply traced_logs; eauto. intros []; simpl; try done. intros _. apply step_post. Qed.
End machine.

(** ** The API server's promises

    A status update that succeeds answers with the object as stored: the
    identity and the status fields the controller wrote.  A create keeps the
    spec (the status is a subresource, so a create does not store it). *)
Definition stored (t t' : CMPTransaction) : Prop := idOf t' = idOf t ∧ viewOfTx t' = viewOfTx t.

Class KubeLaws `{Runtime} : Prop := {
  create_stored t x t' x' : ext_CreateTransaction t x = (inr t', x') → idOf t' = idOf t;
  update_stored t x t' x' : ext_UpdateStatus t x = (inr t', x') → stored t t'
}.
End Lifecycle.
