(* ===== verification/Signer.v ===== *)
(** * The signer: internal/controller/signer.go

    One call of [Sign] is one reconcile of a CertificateRequest.  It reaches the
    CMP server through the interface [ProtocolClient.Client] and keeps the
    transaction in a CMPTransaction between reconciles. *)

From S2P Require Import Prelude GoString Types Demo Certificates Request Api IssuerSpec Metrics Runtime TransactionStore Configuration Workload Reporting ProtocolClient.
Import Certificates Request Api IssuerSpec Metrics TransactionStore Configuration Workload Reporting ProtocolClient.

Module Signing.

Definition eventHTTPNoConfidential : string := "HTTPTransportNoConfidentiality".
Definition eventRenewalFallback : string := "RenewalFallback".
Definition pemCertificateBlockType : string := "CERTIFICATE".
Definition cmpProtocolVersion : Z := 2.

(** ** Pure helpers *)

(** pollDelay clamps the server-requested wait into the configured polling
    bounds. *)
Definition pollDelay (checkAfter : Duration) (limits : TransactionSpec) : Duration :=
  if (checkAfter <? MinimumPollInterval limits)%Z then MinimumPollInterval limits
  else if (MaximumPollInterval limits <? checkAfter)%Z then MaximumPollInterval limits
  else checkAfter.

(** The delay continuePolling and continueConfirming ask for: the poll delay,
    shortened to what is left until the deadline. *)
Definition retryDelay (checkAfter : Duration) (limits : TransactionSpec) (deadline now : Time) : Duration :=
  let delay := pollDelay checkAfter limits in
  let deadlineDelay := time_Sub deadline now in
  if (0 <? deadlineDelay)%Z && (deadlineDelay <? delay)%Z then deadlineDelay else delay.

(** mapProtocolError maps structured protocol failures into issuer-lib retry
    contracts. *)
Definition mapProtocolError (err : error) : error :=
  match errors_As as_Error err with
  | None => err
  | Some protocolError =>
      match Kind protocolError with
      | ErrorKindPermanent | ErrorKindSecurity => PermanentError (from_Error protocolError)
      | ErrorKindPending => PendingError (from_Error protocolError) (RequeueAfter protocolError)
      | ErrorKindRetryable => PendingError (from_Error protocolError) Second
      | ErrorKindUnknown => PermanentError (Wrapped "unknown protocol error classification" (from_Error protocolError))
      end
  end.

(** [errors.As(err, &permanentErr)] *)
Definition isPermanent (err : error) : bool := bool_decide (is_Some (errors_As as_PermanentError err)).

(** shouldEmitHTTPWarning returns true once per issuer generation before
    readiness is established. *)
Definition shouldEmitHTTPWarning (issuer : Issuer) : bool :=
  match issuer_Ready issuer with
  | None => true
  | Some ready => (ObservedGeneration ready <? issuer_Generation issuer)%Z || negb (condition_True ready)
  end.

(** validateResumedTransaction binds a recorded transaction to the same request,
    operation and issuer identity. *)
Definition validateResumedTransaction (transaction : CMPTransaction) (csrDigest operation fallbackOperation : string) (expectedIssuer : TransactionIssuerReference) : outcome error unit :=
  let spec := Spec transaction in
  _ ← reject_if (bool_decide (CSRDigest spec = "") || bool_decide (ConfigurationDigest spec = "") || bool_decide (tx_Operation spec = ""))
        (Errorf "recorded CMP transaction is missing the request, configuration or operation binding");
  _ ← reject_if (negb (bool_decide (CSRDigest spec = csrDigest)))
        (Errorf "recorded CMP transaction enrolls a different certificate signing request");
  _ ← reject_if (match IssuerRef spec with
                 | None => true
                 | Some ref => negb (bool_decide (ref_Name ref = ref_Name expectedIssuer)) ||
                               negb (bool_decide (ref_Kind ref = ref_Kind expectedIssuer)) ||
                               negb (bool_decide (ref_UID ref = ref_UID expectedIssuer))
                 end)
        (Errorf "recorded CMP transaction belongs to a different issuer identity");
  let reason := tx_RenewalFallback spec in
  if negb (bool_decide (reason = "")) then
    let known := bool_decide (reason = RenewalFallbackCurrentCertificateMissing) || bool_decide (reason = RenewalFallbackCurrentCertificateExpired) in
    reject_if (negb known || negb (bool_decide (operation = TransactionOperationKUR)) || bool_decide (fallbackOperation = "") ||
               negb (bool_decide (tx_Operation spec = fallbackOperation)))
      (Errorf "recorded CMP transaction falls back from KUR to an operation the issuer does not allow")
  else
    reject_if (negb (bool_decide (tx_Operation spec = operation)))
      (Errorf "recorded CMP transaction uses a different enrollment operation").

(** transactionStartTime returns the persisted start time when a transaction
    outlives one reconcile. *)
Definition transactionStartTime (transaction : CMPTransaction) (fallback : Time) : Time :=
  if time_IsZero (tx_CreationTimestamp transaction) then fallback else tx_CreationTimestamp transaction.

(** workloadConfigurationError maps a workload Certificate or Secret failure to
    issuer-lib and retries a transient one after a second. *)
Definition workloadConfigurationError (err : configurationError) : error :=
  if ce_Permanent err then PermanentError (configurationErr err) else PendingError (configurationErr err) Second.

(** certificateRequestDuration returns the spec.duration of a cert-manager
    CertificateRequest or zero when it is unset. *)
Definition certificateRequestDuration (request : CertificateRequestObject) : Duration :=
  match cro_Resource request with Some (Some duration) => duration | _ => 0%Z end.

(** requestedNotAfter returns the notAfter an IR or KUR asks for under
    requestedValidity Duration. *)
Definition requestedNotAfter (requestedValidity operation : string) (request : CertificateRequestObject) (started : Time) : Time :=
  if negb (bool_decide (requestedValidity = RequestedValidityDuration)) ||
     (negb (bool_decide (operation = TransactionOperationIR)) && negb (bool_decide (operation = TransactionOperationKUR)))
  then time_zero
  else
    let duration := certificateRequestDuration request in
    if (duration <=? 0)%Z then time_zero else time_Truncate (time_Add started duration) Second.

Section signer.
Context `{Runtime} `{CertManager} {client : Client}.
(** The signer's [ClusterResourceNamespace]. *)
Context (ClusterResourceNamespace : string).

(** csrDigestHex returns the lowercase hexadecimal SHA-256 digest that
    identifies an enrolled CSR. *)
Definition csrDigestHex (csrDER : bytes) : string := hex_EncodeToString (sha256_Sum256 csrDER).

(** encodeChainPEM renders a leaf-first certificate chain as concatenated PEM
    blocks. *)
Definition encodeChainPEM (chain : list Certificate) : bytes :=
  string_concat (map (λ c, pem_Encode {| pem_Type := pemCertificateBlockType; pem_Bytes := Raw c |}) chain).

(** The parsing loop of recordedChain. *)
Fixpoint parseRecorded (encodings : list bytes) : outcome error (list Certificate) :=
  match encodings with
  | [] => Ok []
  | encoded :: rest =>
      certificate ← match ParseCertificate encoded with
                    | inl parseErr => Err (PermanentError (Wrapped "parse recorded CMP certificate chain" parseErr))
                    | inr certificate => Ok certificate
                    end;
      _ ← mapErr (λ err, PermanentError (Wrapped "validate recorded CMP certificate key usage" err))
            (ValidateMLDSAKeyUsage (Some certificate));
      chain ← parseRecorded rest;
      Ok (certificate :: chain)
  end.

(** recordedChain validates stored key usages and binds the recorded chain to
    the request being signed. *)
Definition recordedChain (transaction : CMPTransaction) (csrDER : bytes) : outcome error (list Certificate) :=
  _ ← reject_if (bool_decide (IssuedChain (tx_Status transaction) = []))
        (PermanentError (Errorf "recorded CMP transaction reports an issued certificate without a chain"));
  chain ← parseRecorded (IssuedChain (tx_Status transaction));
  csr ← match ParseCertificateRequest csrDER with
        | inl err => Err (PermanentError (Wrapped "parse CertificateRequest CSR" err))
        | inr csr => Ok csr
        end;
  leaf ← deref (head chain);
  _ ← reject_if (negb (PublicKeysEqual (csr_PublicKey csr) (cert_PublicKey leaf)))
        (PermanentError (Errorf "recorded CMP certificate does not match the requested public key"));
  Ok chain.

(** trustedRecordedChain validates a recorded chain against the CMP trust
    anchors the issuer currently configures. *)
Definition trustedRecordedChain (now : Time) (chain : list Certificate) (roots : option CertPool) (candidates : list Certificate) : outcome error (list Certificate) :=
  mapErr (λ err, PermanentError (Wrapped "recorded CMP certificate chain does not chain to the configured CMP trust" err))
    (ValidateIssuedChain now chain candidates roots).

(** ** Ending and continuing a transaction *)

(** failTransaction removes recorded state when a failure ends the transaction
    and maps the error. *)
Definition failTransaction {A} (transaction : CMPTransaction) (err : error) : M World error A :=
  let mapped := mapProtocolError err in
  _ ← (if isPermanent mapped then remove transaction else mret tt);
  fail mapped.

(** continuePolling records the state for the next poll and asks the controller
    to retry after the delay. *)
Definition continuePolling {A} (labels : Labels) (transaction : CMPTransaction) (pending : PendingTransaction) (limits : TransactionSpec) (polled : bool) : M World error A :=
  let transaction := if polled then incrementPolls transaction else transaction in
  transaction ← recordPending transaction pending;
  now ← time_Now;
  let delay := retryDelay (CheckAfter pending) limits (Deadline (Spec transaction)) now in
  _ ← recordEnrollmentPoll labels;
  fail (PendingError (Errorf "CMP server has not issued the certificate yet") delay).

(** continueConfirming records the state for the next confirmation poll and asks
    for a later retry. *)
Definition continueConfirming {A} (labels : Labels) (transaction : CMPTransaction) (chain : list Certificate) (pending : PendingTransaction) (limits : TransactionSpec) (polled : bool) : M World error A :=
  let transaction := if polled then incrementPolls transaction else transaction in
  transaction ← recordConfirming transaction chain pending;
  now ← time_Now;
  let delay := retryDelay (CheckAfter pending) limits (Deadline (Spec transaction)) now in
  _ ← recordEnrollmentPoll labels;
  fail (PendingError (Errorf "CMP server has not confirmed the issued certificate yet") delay).

Definition durationExceeded : error := PermanentError (Errorf "CMP transaction exceeded the configured maximum duration").
Definition pollsExceeded : error := PermanentError (Errorf "CMP transaction reached the configured maximum of polls").

(** [x509.ParseCertificate(transaction.Status.ResponseSigner)] when it is set. *)
Definition retainedSigner (transaction : CMPTransaction) : outcome error (option Certificate) :=
  if bool_decide (tx_ResponseSigner (tx_Status transaction) = "") then Ok None
  else match ParseCertificate (tx_ResponseSigner (tx_Status transaction)) with
       | inl parseErr => Err (PermanentError (Wrapped "parse retained CMP response signer" parseErr))
       | inr signer => Ok (Some signer)
       end.

(** confirm sends or continues the confirmation exchange and completes the
    transaction when the server answers with pkiConf. *)
Definition confirm (labels : Labels) (transaction : CMPTransaction) (enrollmentRequest : EnrollmentRequest) (limits : TransactionSpec) (chain : list Certificate) (pending : PendingTransaction) (enrollmentStarted : Time) : M World error bytes :=
  now ← time_Now;
  if time_After now (Deadline (Spec transaction)) then failTransaction transaction durationExceeded
  else if (MaximumPolls limits <=? Polls (tx_Status transaction))%Z then failTransaction transaction pollsExceeded
  else
    leaf ← lift (deref (head chain));
    let confirmRequest := {| cf_Enrollment := enrollmentRequest; cf_Certificate := Some leaf; cf_CertReqID := pt_CertReqID pending;
                             cf_RecipNonce := pt_RecipNonce pending; cf_ResponseSigner := pt_ResponseSigner pending;
                             cf_RequestNonce := pt_RequestNonce pending |} in
    _ ← emit (EvConfirm confirmRequest);
    r ← try (ConfirmP10CR confirmRequest);
    match r with
    | inl err => failTransaction transaction err
    | inr result =>
        match PendingConfirmation result with
        | Some next => continueConfirming labels transaction chain next limits (negb (bool_decide (pt_RequestNonce pending = "")))
        | None =>
            _ ← recordIssued transaction chain;
            _ ← recordIssuedEnrollment labels confirmationExplicit enrollmentStarted;
            mret (encodeChainPEM chain)
        end
    end.

(** resumeConfirmation continues the confirmation of a certificate an earlier
    reconcile already recorded. *)
Definition resumeConfirmation (labels : Labels) (transaction : CMPTransaction) (enrollmentRequest : EnrollmentRequest) (limits : TransactionSpec) (csrDER : bytes) (enrollmentStarted : Time) : M World error bytes :=
  now ← time_Now;
  match
    chain ← recordedChain transaction csrDER;
    trustedRecordedChain now chain (CMPTrust enrollmentRequest)
      (CMPTrustCertificates enrollmentRequest ++ CMPResponseCertificates enrollmentRequest)
  with
  | Err err => failTransaction transaction err
  | Panic => lift Panic
  | Ok chain =>
      match tx_CertReqID (tx_Status transaction) with
      | None => failTransaction transaction (PermanentError (Errorf "recorded CMP transaction is missing the state required to confirm"))
      | Some certReqID =>
          signer ← lift (retainedSigner transaction);
          confirm labels transaction enrollmentRequest limits chain
            {| pt_CertReqID := certReqID; pt_RecipNonce := tx_RecipNonce (tx_Status transaction); pt_ResponseSigner := signer;
               CheckAfter := 0; pt_RequestNonce := tx_RequestNonce (tx_Status transaction) |} enrollmentStarted
      end
  end.

(** recoverIssuedChain returns the chain recorded for a transaction that already
    obtained a certificate. *)
Definition recoverIssuedChain (transaction : CMPTransaction) (issuer : Issuer) (csrDER : bytes) : M World error bytes :=
  match recordedChain transaction csrDER with
  | Err err => failTransaction transaction err
  | Panic => lift Panic
  | Ok chain =>
      '(roots, candidates) ← mapErrM (λ e, IssuerError (configurationErr e)) (loadCMPTrust ClusterResourceNamespace issuer);
      now ← time_Now;
      match trustedRecordedChain now chain (Some roots) candidates with
      | Err err => failTransaction transaction err
      | Panic => lift Panic
      | Ok chain => mret (encodeChainPEM chain)
      end
  end.

(** exchange sends the enrollment request, or resumes a transaction the server
    answered with waiting. *)
Definition exchange (enrollmentRequest : EnrollmentRequest) (transaction : CMPTransaction) (limits : TransactionSpec) : M World error EnrollmentResult :=
  now ← time_Now;
  if time_After now (Deadline (Spec transaction)) then fail durationExceeded
  else if negb (bool_decide (Phase (tx_Status transaction) = TransactionPhasePolling)) then
    let operation := tx_Operation (Spec transaction) in
    _ ← emit (EvEnroll operation enrollmentRequest);
    if bool_decide (operation = TransactionOperationIR) then EnrollIR enrollmentRequest
    else if bool_decide (operation = TransactionOperationKUR) then EnrollKUR enrollmentRequest
    else EnrollP10CR enrollmentRequest
  else
    match tx_CertReqID (tx_Status transaction) with
    | None => fail (PermanentError (Errorf "recorded CMP transaction is missing the state required to poll"))
    | Some certReqID =>
        if bool_decide (tx_RecipNonce (tx_Status transaction) = "")
        then fail (PermanentError (Errorf "recorded CMP transaction is missing the state required to poll"))
        else if (MaximumPolls limits <=? Polls (tx_Status transaction))%Z then fail pollsExceeded
        else
          signer ← lift (retainedSigner transaction);
          let poll := {| poll_Enrollment := enrollmentRequest; poll_RecipNonce := tx_RecipNonce (tx_Status transaction);
                         poll_CertReqID := certReqID; poll_ResponseSigner := signer;
                         poll_RequestNonce := tx_RequestNonce (tx_Status transaction) |} in
          _ ← emit (EvPoll poll);
          PollP10CR poll
    end.

(** ** Preparing an enrollment *)

(** selectRenewalFallback returns the operation a new transaction uses. *)
Definition selectRenewalFallback (request : CertificateRequestObject) (issuer : Issuer) (operation : string) : M World error (string * option renewalFallback) :=
  let fallbackOperation := renewalFallbackOperation issuer in
  if negb (bool_decide (operation = TransactionOperationKUR)) || bool_decide (fallbackOperation = "") then mret (operation, None)
  else
    now ← time_Now;
    fallback ← mapErrM workloadConfigurationError (classifyRenewalFallback request issuer now);
    mret (match fallback with None => (operation, None) | Some _ => (fallbackOperation, fallback) end).

(** reportRenewalFallback reports a recorded renewal fallback in a Warning Event
    on the CertificateRequest. *)
Definition reportRenewalFallback (request : CertificateRequestObject) : M World error unit :=
  match cro_Resource request with
  | None => mret tt
  | Some _ => emit (EvWarning eventRenewalFallback)
  end.

Definition set_ConfigurationSecrets (secrets : Fingerprints) (digest : string) (c : runtimeConfiguration) : runtimeConfiguration :=
  {| EndpointScheme := EndpointScheme c; RenewalEndpointURL := RenewalEndpointURL c; rc_EnrollmentRequest := rc_EnrollmentRequest c;
     rc_Transaction := rc_Transaction c; rc_ConfigurationDigest := digest; ConfigurationSecrets := secrets;
     rc_RequestedValidity := rc_RequestedValidity c |}.

(** prepareWorkloadKeyEnrollment authorizes the workload keys of an IR or KUR
    and binds them to the runtime request and configuration digest. *)
Definition prepareWorkloadKeyEnrollment (request : CertificateRequestObject) (issuer : Issuer) (operation renewalFallbackReason : string) (requestDER : bytes) (configuration : runtimeConfiguration) (enrollmentRequest : EnrollmentRequest) : M World error (runtimeConfiguration * EnrollmentRequest) :=
  let isKUR := bool_decide (operation = TransactionOperationKUR) in
  material ← mapErrM workloadConfigurationError
    (if isKUR then loadKURMaterial request issuer requestDER
     else loadIRMaterial request issuer requestDER renewalFallbackReason);
  let enrollmentRequest := match wm_Protection material with
                           | Some protection => set_Protection protection enrollmentRequest
                           | None => enrollmentRequest
                           end in
  let enrollmentRequest := set_ResponseCertReqID None (set_RequestedPrivateKey (Some (wm_RequestedPrivateKey material)) enrollmentRequest) in
  let secrets := wm_Secrets material ∪ ConfigurationSecrets configuration in
  let configuration := set_ConfigurationSecrets secrets (runtimeConfigurationDigest (issuerReference issuer) secrets) configuration in
  now ← time_Now;
  _ ← lift (mapErr mapProtocolError (if isKUR then ValidateKURRequest enrollmentRequest now else ValidateIRRequest enrollmentRequest));
  mret (configuration, enrollmentRequest).

(** The enrollment request of an operation before workload keys are added. *)
Definition baseRequest (configuration : runtimeConfiguration) (operation : string) (requestDER : bytes) : EnrollmentRequest :=
  let request := set_Operation operation (set_CSRDER requestDER (rc_EnrollmentRequest configuration)) in
  if bool_decide (operation = TransactionOperationKUR) && negb (bool_decide (RenewalEndpointURL configuration = ""))
  then set_EndpointURL (RenewalEndpointURL configuration) request
  else request.

(** The configuration and the enrollment request of an operation. *)
Definition prepareEnrollment (request : CertificateRequestObject) (issuer : Issuer) (configuration : runtimeConfiguration) (operation fallbackReason : string) (requestDER : bytes) : M World error (runtimeConfiguration * EnrollmentRequest) :=
  let enrollmentRequest := baseRequest configuration operation requestDER in
  if bool_decide (operation = TransactionOperationIR) || bool_decide (operation = TransactionOperationKUR)
  then prepareWorkloadKeyEnrollment request issuer operation fallbackReason requestDER configuration enrollmentRequest
  else mret (configuration, enrollmentRequest).

(** ** One reconcile *)

(** The tail of Sign, from the recorded transaction to its answer. *)
Definition advance (labels : Labels) (request : CertificateRequestObject) (configuration : runtimeConfiguration) (enrollmentRequest : EnrollmentRequest) (transaction : CMPTransaction) (operation : string) (requestDER : bytes) (enrollmentStarted : Time) : M World error bytes :=
  let limits := rc_Transaction configuration in
  let enrollmentRequest :=
    set_RequestedNotAfter (requestedNotAfter (rc_RequestedValidity configuration) operation request enrollmentStarted)
      (set_TransactionID (tx_TransactionID (Spec transaction)) enrollmentRequest) in
  if bool_decide (Phase (tx_Status transaction) = TransactionPhaseConfirming)
  then resumeConfirmation labels transaction enrollmentRequest limits requestDER enrollmentStarted
  else
    let polled := bool_decide (Phase (tx_Status transaction) = TransactionPhasePolling) in
    r ← try (exchange enrollmentRequest transaction limits);
    match r with
    | inl err => failTransaction transaction err
    | inr result =>
        match Pending result, PendingConfirmation result with
        | Some pending, _ => continuePolling labels transaction pending limits polled
        | None, Some pending =>
            transaction ← recordConfirming transaction (Chain result) pending;
            confirm labels transaction enrollmentRequest limits (Chain result) pending enrollmentStarted
        | None, None =>
            _ ← recordIssued transaction (Chain result);
            _ ← recordIssuedEnrollment labels confirmationImplicit enrollmentStarted;
            mret (encodeChainPEM (Chain result))
        end
    end.

Definition loadConfiguration (issuer : Issuer) : M World error runtimeConfiguration :=
  mapErrM (λ e, IssuerError (configurationErr e)) (loadRuntimeConfiguration ClusterResourceNamespace issuer).

(** Sign for a CertificateRequest with a recorded transaction that was
    validated: recover an issued chain, or continue the transaction. *)
Definition resume (labels : Labels) (request : CertificateRequestObject) (issuer : Issuer) (transaction : CMPTransaction) (requestDER : bytes) (enrollmentStarted : Time) : M World error bytes :=
  let operation := tx_Operation (Spec transaction) in
  if bool_decide (Phase (tx_Status transaction) = TransactionPhaseIssued)
  then recoverIssuedChain transaction issuer requestDER
  else
    issuerRef ← lift (deref (IssuerRef (Spec transaction)));
    if negb (ref_Generation issuerRef =? ref_Generation (issuerReference issuer))%Z
    then failTransaction transaction (PermanentError (Errorf "issuer spec changed during the recorded CMP transaction"))
    else
      configuration ← loadConfiguration issuer;
      '(configuration, enrollmentRequest) ←
        prepareEnrollment request issuer configuration operation (tx_RenewalFallback (Spec transaction)) requestDER;
      if negb (bool_decide (ConfigurationDigest (Spec transaction) = rc_ConfigurationDigest configuration))
      then failTransaction transaction (PermanentError (Errorf "issuer credentials changed during the recorded CMP transaction"))
      else advance labels request configuration enrollmentRequest transaction operation requestDER enrollmentStarted.

(** Sign for a CertificateRequest without a recorded transaction. *)
Definition start (labels : Labels) (request : CertificateRequestObject) (issuer : Issuer) (operation : string) (requestDER : bytes) (enrollmentStarted : Time) : M World error bytes :=
  configuration ← loadConfiguration issuer;
  '(operation, fallback) ← selectRenewalFallback request issuer operation;
  let fallbackReason := match fallback with Some f => rf_Reason f | None => ""%string end in
  '(configuration, enrollmentRequest) ← prepareEnrollment request issuer configuration operation fallbackReason requestDER;
  now ← time_Now;
  transaction ← create (cro_Namespace request) (cro_Name request) (cro_UID request)
    (time_Add now (MaximumDuration (rc_Transaction configuration)))
    {| td_CSRDigest := csrDigestHex requestDER; td_IssuerRef := issuerReference issuer;
       td_ConfigurationDigest := rc_ConfigurationDigest configuration; td_Operation := operation;
       td_ProtocolVersion := cmpProtocolVersion; td_RenewalFallback := fallbackReason |};
  _ ← match fallback with Some _ => reportRenewalFallback request | None => mret tt end;
  advance labels request configuration enrollmentRequest transaction operation requestDER enrollmentStarted.

(** Run a part of Sign under its deferred failure report. *)
Definition reported {A} (labels : Labels) (enrollmentStarted : Time) (m : M World error A) : M World error A :=
  r ← try m;
  match r with
  | inl err => _ ← recordFailedEnrollment labels (Some err) enrollmentStarted; fail err
  | inr a => mret a
  end.

(** What Sign reads before it decides: the CSR, the operation and the recorded
    transaction. *)
Definition identify (request : CertificateRequestObject) (issuer : Issuer) : M World error (bytes * string * option CMPTransaction) :=
  csr ← lift (match cro_Details request with
              | inl err => Err (PermanentError (Wrapped "read CertificateRequest details" err))
              | inr csr => Ok csr
              end);
  requestDER ← lift (mapErr PermanentError (ParseCertificateRequestDER csr));
  operation ← lift (mapErr PermanentError (selectedTransactionOperation issuer request));
  transaction ← load (cro_Namespace request) (cro_Name request) (cro_UID request);
  mret (requestDER, operation, transaction).

(** Sign forwards the approved CertificateRequest CSR and returns a leaf-first
    PEM chain. *)
Definition Sign (request : CertificateRequestObject) (issuer : Issuer) : M World error bytes :=
  enrollmentStarted ← time_Now;
  let labels := enrollmentMetricLabels issuer request in
  '(requestDER, operation, transaction) ← reported labels enrollmentStarted (identify request issuer);
  match transaction with
  | None => reported labels enrollmentStarted (start labels request issuer operation requestDER enrollmentStarted)
  | Some transaction =>
      _ ← reported labels enrollmentStarted
            (match validateResumedTransaction transaction (csrDigestHex requestDER) operation (renewalFallbackOperation issuer) (issuerReference issuer) with
             | Err validationErr => failTransaction transaction (PermanentError validationErr)
             | o => lift o
             end);
      let enrollmentStarted := transactionStartTime transaction enrollmentStarted in
      reported labels enrollmentStarted (resume labels request issuer transaction requestDER enrollmentStarted)
  end.

(** Check validates issuer configuration and credentials without contacting the
    CMP server. *)
Definition Check_ (issuer : Issuer) : M World error unit :=
  configuration ← mapErrM (λ e, if ce_Permanent e then PermanentError (configurationErr e) else configurationErr e)
                    (loadRuntimeConfiguration ClusterResourceNamespace issuer);
  if bool_decide (EndpointScheme configuration = schemeHTTP) && shouldEmitHTTPWarning issuer
  then emit (EvWarning eventHTTPNoConfidential) else mret tt.
End signer.
End Signing.
