(* ===== verification/Reconcile.v ===== *)
(** * The stages of a reconcile

    [Sign] first identifies the request and its record, then continues the
    record's transaction or opens a new one, and the exchange with the server
    comes last.  The stages are named here and [Sign] is shown to be their
    composition, so that a theorem can speak of the world at each of them. *)

From S2P Require Import Prelude GoString Types Certificates Request Api IssuerSpec Metrics Runtime TransactionStore Configuration Workload Reporting ProtocolClient Signer.
Import Certificates Request Api IssuerSpec Metrics TransactionStore Configuration Workload Reporting ProtocolClient Signing.

Module Reconcile.

(** What a reconcile knows before it acts: when it started, the CSR, the
    operation it selects and the record it found. *)
Record identification := {
  id_Started : Time;
  id_DER : bytes;
  id_Operation : string;
  id_Transaction : option CMPTransaction
}.

Section reconcile.
Context `{Runtime} `{CertManager} {client : Client}.
Context (ClusterResourceNamespace : string) (request : CertificateRequestObject) (issuer : Issuer).
Abbreviation labels := (enrollmentMetricLabels issuer request).

Definition identified : M World error identification :=
  started ← time_Now;
  '(der, operation, transaction) ← reported labels started (identify request issuer);
  mret {| id_Started := started; id_DER := der; id_Operation := operation; id_Transaction := transaction |}.

(** The bindings a recorded transaction must have to be resumed here. *)
Definition bound (i : identification) (t : CMPTransaction) : outcome error unit :=
  validateResumedTransaction t (csrDigestHex (id_DER i)) (id_Operation i) (renewalFallbackOperation issuer) (issuerReference issuer).

Definition resumed (i : identification) (t : CMPTransaction) : M World error bytes :=
  _ ← reported labels (id_Started i)
        (match bound i t with Err validationErr => failTransaction t (PermanentError validationErr) | o => lift o end);
  let started := transactionStartTime t (id_Started i) in
  reported labels started (resume ClusterResourceNamespace labels request issuer t (id_DER i) started).

Definition started (i : identification) : M World error bytes :=
  reported labels (id_Started i) (start ClusterResourceNamespace labels request issuer (id_Operation i) (id_DER i) (id_Started i)).

Lemma run_Sign w i w' :
  identified w = (Ok i, w') →
  Sign ClusterResourceNamespace request issuer w =
    match id_Transaction i with Some t => resumed i t w' | None => started i w' end.
Proof.
  intros (now & w1 & Hnow & Hi)%run_bind. apply run_bind in Hi as ([[der operation] t] & w2 & Hi & [-> ->]%run_ret).
  unfold Sign, mbind, M_bind. rewrite Hnow, Hi. by destruct t.
Qed.

(** The record a reconcile resumes is the one it has just loaded. *)
Lemma identified_loaded w i t w' :
  identified w = (Ok i, w') → id_Transaction i = Some t →
  w_log w' = EvLoaded (Some t) :: w_log w ∧
  ∃ x, (ext_GetTransaction (cro_Namespace request, cro_Name request) x).1 = inr t ∧ CertificateRequestUID (Spec t) = cro_UID request.
Proof.
  intros (now & w1 & (x0 & Hnow & ->)%run_outside & Hi)%run_bind Ht.
  apply run_bind in Hi as ([[der operation] t'] & w2 & Hi & [-> ->]%run_ret). simpl in Ht. subst t'.
  unfold reported in Hi. apply run_bind in Hi as (r & w3 & Htry & Hi).
  destruct r as [err|a]; [by apply run_bind in Hi as (? & ? & _ & ?)|]. apply run_ret in Hi as [<- ->].
  unfold try in Htry. destruct (identify request issuer _) as [[r|e|] w4] eqn:Eid; simplify_eq.
  apply run_bind in Eid as (csr & w5 & [_ ->]%run_lift & Eid). apply run_bind in Eid as (d & w6 & [_ ->]%run_lift & Eid).
  apply run_bind in Eid as (op & w7 & [_ ->]%run_lift & Eid). apply run_bind in Eid as (t' & w8 & Hload & [[= -> -> <-] ->]%run_ret).
  unfold load in Hload. apply run_bind in Hload as (answer & w9 & (x & Hx & ->)%run_outside & Hload). simpl in Hx.
  assert (Hnone : ∀ u v, (_ ← emit (E:=error) (EvLoaded None); mret (None : option CMPTransaction)) u = (Ok (Some t), v) → False).
  { intros u v (? & ? & _ & [[=] _]%run_ret)%run_bind. }
  destruct answer as [err|stored]; [exfalso; destruct err; try done; by eapply Hnone|].
  destruct (bool_decide (CertificateRequestUID (Spec stored) = cro_UID request)) eqn:Eu; simpl in Hload.
  - apply run_bind in Hload as (u & w10 & ->%run_emit & [[= ->] ->]%run_ret). simplify_bool. split; [done|].
    exists x0. by rewrite Hx.
  - apply run_bind in Hload as (deleted & w10 & _ & Hload). exfalso. destruct deleted as [err|]; [destruct err; try done|]; by eapply Hnone.
Qed.

(** ** Up to the exchange *)

(** The configuration and the enrollment request of a recorded transaction. *)
Definition prepares (t : CMPTransaction) (der : bytes) : M World error (runtimeConfiguration * EnrollmentRequest) :=
  configuration ← loadConfiguration ClusterResourceNamespace issuer;
  prepareEnrollment request issuer configuration (tx_Operation (Spec t)) (tx_RenewalFallback (Spec t)) der.

(** The same of a new transaction, once it is recorded. *)
Definition opens (i : identification) : M World error (CMPTransaction * runtimeConfiguration * EnrollmentRequest * string) :=
  configuration ← loadConfiguration ClusterResourceNamespace issuer;
  '(operation, fallback) ← selectRenewalFallback request issuer (id_Operation i);
  let fallbackReason := match fallback with Some f => rf_Reason f | None => ""%string end in
  '(configuration, enrollmentRequest) ← prepareEnrollment request issuer configuration operation fallbackReason (id_DER i);
  now ← time_Now;
  transaction ← create (cro_Namespace request) (cro_Name request) (cro_UID request)
    (time_Add now (MaximumDuration (rc_Transaction configuration)))
    {| td_CSRDigest := csrDigestHex (id_DER i); td_IssuerRef := issuerReference issuer;
       td_ConfigurationDigest := rc_ConfigurationDigest configuration; td_Operation := operation;
       td_ProtocolVersion := cmpProtocolVersion; td_RenewalFallback := fallbackReason |};
  _ ← match fallback with Some _ => reportRenewalFallback request | None => mret tt end;
  mret (transaction, configuration, enrollmentRequest, operation).

(** [reaches w t c er operation der started w']: the reconcile from [w] comes to
    the exchange of transaction [t], in the world [w']. *)
Inductive reaches (w : World) : CMPTransaction → runtimeConfiguration → EnrollmentRequest → string → bytes → Time → World → Prop :=
| reaches_recorded i t ref c er w1 w2 :
    identified w = (Ok i, w1) → id_Transaction i = Some t → Phase (tx_Status t) ≠ TransactionPhaseIssued → bound i t = Ok tt →
    IssuerRef (Spec t) = Some ref → ref_Generation ref = ref_Generation (issuerReference issuer) →
    prepares t (id_DER i) w1 = (Ok (c, er), w2) → ConfigurationDigest (Spec t) = rc_ConfigurationDigest c →
    reaches w t c er (tx_Operation (Spec t)) (id_DER i) (transactionStartTime t (id_Started i)) w2
| reaches_new i t c er operation w1 w2 :
    identified w = (Ok i, w1) → id_Transaction i = None → opens i w1 = (Ok (t, c, er, operation), w2) →
    reaches w t c er operation (id_DER i) (id_Started i) w2.

Lemma reported_ok {A} ls start (m : M World error A) w a : (m w).1 = Ok a → reported ls start m w = m w.
Proof.
  intros Hm. unfold reported, mbind, M_bind, try. destruct (m w) as [o w']; simpl in *. by subst o.
Qed.

Lemma resumed_bound i t : bound i t = Ok tt →
  resumed i t = reported labels (transactionStartTime t (id_Started i))
    (resume ClusterResourceNamespace labels request issuer t (id_DER i) (transactionStartTime t (id_Started i))).
Proof. intros Hb. unfold resumed. by rewrite Hb. Qed.

Lemma resume_prepared ls t ref der start c er w w' :
  Phase (tx_Status t) ≠ TransactionPhaseIssued → IssuerRef (Spec t) = Some ref →
  ref_Generation ref = ref_Generation (issuerReference issuer) → prepares t der w = (Ok (c, er), w') →
  ConfigurationDigest (Spec t) = rc_ConfigurationDigest c →
  resume ClusterResourceNamespace ls request issuer t der start w =
    advance ls request c er t (tx_Operation (Spec t)) der start w'.
Proof.
  intros Hp Href Hgen (c0 & w1 & Hc & Hprep)%run_bind Hd. unfold resume. rewrite bool_decide_false, Href by done.
  unfold mbind, M_bind, lift. simpl. rewrite Hgen, Z.eqb_refl. simpl. rewrite Hc, Hprep, bool_decide_true by done. done.
Qed.

Lemma start_opened i t c er operation w w' :
  opens i w = (Ok (t, c, er, operation), w') →
  start ClusterResourceNamespace labels request issuer (id_Operation i) (id_DER i) (id_Started i) w =
    advance labels request c er t operation (id_DER i) (id_Started i) w'.
Proof.
  intros (c0 & w1 & Hc & Ho)%run_bind. apply run_bind in Ho as ([op fallback] & w2 & Hf & Ho).
  apply run_bind in Ho as ([c1 er1] & w3 & Hprep & Ho). apply run_bind in Ho as (now & w4 & Hnow & Ho).
  apply run_bind in Ho as (t1 & w5 & Hcreate & Ho). apply run_bind in Ho as (u & w6 & Hreport & [[= -> -> -> ->] ->]%run_ret).
  unfold start, mbind, M_bind. by rewrite Hc, Hf, Hprep, Hnow, Hcreate, Hreport.
Qed.

(** A reconcile that comes to the exchange returns what the exchange returns. *)
Lemma reaches_Sign w t c er operation der start w' pem :
  reaches w t c er operation der start w' → (advance labels request c er t operation der start w').1 = Ok pem →
  (Sign ClusterResourceNamespace request issuer w).1 = Ok pem.
Proof.
  intros [i t' ref c' er' w1 w2 Hi Ht Hp Hb Href Hgen Hprep Hd|i t' c' er' op w1 w2 Hi Ht Ho] Ha; rewrite (run_Sign _ _ _ Hi), Ht.
  - rewrite resumed_bound by done. by rewrite reported_ok with (a:=pem); erewrite resume_prepared.
  - unfold started. by rewrite reported_ok with (a:=pem); erewrite start_opened.
Qed.
End reconcile.
End Reconcile.
