(* ===== verification/SignerTrace.v ===== *)
(** * The signer refines the transaction lifecycle

    Every reconcile sends and records only what the abstract machine of
    Lifecycle allows, for every behaviour of the CMP server and of an API server
    that answers a write with the object it was given ([KubeLaws]). *)

From S2P Require Import Prelude GoString Types Demo Certificates Request Api IssuerSpec Metrics Runtime TransactionStore Configuration Workload Reporting DemoRuntime WorkloadLaws ProtocolClient ClientLaws Lifecycle Signer.
Import Certificates Request Api IssuerSpec Metrics TransactionStore Configuration Workload Reporting DemoRuntime WorkloadLaws ProtocolClient ClientLaws Lifecycle Signing.

Module SignerTrace.

Section trace.
Context `{Runtime} `{CertManager} {client : Client} `{!KubeLaws} `{!ProtocolClient.ClientLaws client}.
Context (ClusterResourceNamespace : string).

(** ** Neutral parts *)

Lemma neutral_reads cluster issuer ev : readsCredential cluster issuer ev → neutral ev.
Proof. by intros (name & -> & _). Qed.

Lemma loadConfiguration_neutral issuer : logs neutral (loadConfiguration ClusterResourceNamespace issuer).
Proof.
  apply logs_mapErrM. eapply logs_mono; [apply loadRuntimeConfiguration_reads|]. apply neutral_reads.
Qed.

Lemma loadConfiguration_returns issuer :
  returns (loadConfiguration ClusterResourceNamespace issuer) (configurationOK ClusterResourceNamespace issuer).
Proof. apply returns_mapErrM, loadRuntimeConfiguration_spec. Qed.

Lemma neutral_enrollment request issuer before ev : enrollmentRead request issuer before ev → neutral ev.
Proof. intros [renewal Hr]. by destruct ev. Qed.

Lemma prepareEnrollment_ordered request issuer c operation reason der :
  adds (ordered (enrollmentRead request issuer)) (prepareEnrollment request issuer c operation reason der).
Proof.
  unfold prepareEnrollment, prepareWorkloadKeyEnrollment. destruct (_ || _); [|by apply adds_quiet; [apply logs_ret|]].
  apply adds_bind_last; [|intros m; quiet_tac]. apply adds_mapErrM. destruct (bool_decide _).
  - eapply enrollment_ordered; [|apply loadKURMaterial_ordered]. done.
  - eapply enrollment_ordered; [|apply loadIRMaterial_ordered]. by right.
Qed.

Lemma selectRenewalFallback_ordered request issuer operation :
  adds (ordered (enrollmentRead request issuer)) (selectRenewalFallback request issuer operation).
Proof.
  unfold selectRenewalFallback. destruct (_ || _); [by apply adds_quiet; [apply logs_ret|]|].
  apply adds_bind_quiet; [apply logs_outside|done|]. intros now. apply adds_bind_last; [|intros fallback; quiet_tac].
  apply adds_mapErrM. eapply enrollment_ordered; [|apply classifyRenewalFallback_ordered]. by left.
Qed.

Lemma prepareEnrollment_neutral request issuer c operation reason der :
  logs neutral (prepareEnrollment request issuer c operation reason der).
Proof. eapply ordered_logs; [apply prepareEnrollment_ordered|apply neutral_enrollment]. Qed.

Lemma selectRenewalFallback_neutral request issuer operation : logs neutral (selectRenewalFallback request issuer operation).
Proof. eapply ordered_logs; [apply selectRenewalFallback_ordered|apply neutral_enrollment]. Qed.

(** What preparation keeps of a configuration: the limits, the CSR and the
    CMP trust. *)
Definition prepared (c : runtimeConfiguration) (der : bytes) (r : runtimeConfiguration * EnrollmentRequest) : Prop :=
  rc_Transaction r.1 = rc_Transaction c ∧ CSRDER r.2 = der ∧ CMPTrust r.2 = CMPTrust (rc_EnrollmentRequest c).

Lemma prepareEnrollment_returns request issuer c operation reason der :
  returns (prepareEnrollment request issuer c operation reason der) (prepared c der).
Proof.
  assert (Hbase : CSRDER (baseRequest c operation der) = der ∧ CMPTrust (baseRequest c operation der) = CMPTrust (rc_EnrollmentRequest c))
    by (unfold baseRequest; by case_match).
  unfold prepareEnrollment. destruct (_ || _); [|by apply returns_ret].
  unfold prepareWorkloadKeyEnrollment. do 3 (eapply returns_bind; [apply returns_any|]; intros ? _).
  apply returns_ret. unfold prepared. destruct (wm_Protection _); simpl; tauto.
Qed.

(** ** The store *)

Lemma traced_updateStatus n s label t s' (Q : outcome error CMPTransaction → state → Prop) :
  Lifecycle.step n s (EvUpdateStatus t) s' →
  (∀ t', stored t t' → Q (Ok t') s') → (∀ e, Q (Err e) s) → traced n s (updateStatus label t) Q.
Proof.
  intros Hs HQ He. unfold updateStatus. apply traced_bind. unfold outside_try. apply traced_bind.
  apply traced_outside. intros x. apply traced_lift.
  destruct (ext_UpdateStatus t x) as [[err|t'] x'] eqn:Eu; simpl; [apply He|].
  apply traced_bind. eapply traced_emit; [exact Hs|]. apply traced_ret, HQ. by eapply update_stored.
Qed.

Lemma traced_time n s (f : Time → Prop) (Q : outcome error Time → state → Prop) : (∀ now, Q (Ok now) s) → traced n s time_Now Q.
Proof. intros HQ. apply traced_outside. auto. Qed.

Lemma traced_remove n id v b t (Q : outcome error unit → state → Prop) :
  Q (Ok tt) Gone → (∀ e, Q (Err e) Gone) → traced n (Open id v b) (remove t) Q.
Proof.
  intros HQ HQ'. unfold remove, deleteTransaction. apply traced_bind, traced_bind.
  eapply traced_emit; [apply step_delete|]. apply traced_outside. intros x.
  destruct (ext_DeleteTransaction _ _ x).1 as [[]|]; (apply traced_ret || apply traced_fail); done || apply HQ'.
Qed.

Lemma traced_failTransaction {A} n id v b t err (Q : outcome error A → state → Prop) :
  (∀ e, Q (Err e) Gone) → Q (Err (mapProtocolError err)) (Open id v b) → traced n (Open id v b) (failTransaction t err) Q.
Proof.
  intros HQ HQ'. unfold failTransaction. apply traced_bind. destruct (isPermanent (mapProtocolError err)).
  - apply traced_remove; [by apply traced_fail|done].
  - apply traced_ret, traced_fail, HQ'.
Qed.

Lemma recordEnrollmentPoll_neutral labels : logs neutral (recordEnrollmentPoll labels).
Proof. unfold recordEnrollmentPoll, RecordPoll. logs_tac. done. Qed.
Lemma recordIssuedEnrollment_neutral labels confirmation started : logs neutral (recordIssuedEnrollment labels confirmation started).
Proof. unfold recordIssuedEnrollment, RecordOutcome, RecordConfirmation. logs_tac; done. Qed.
Lemma recordFailedEnrollment_neutral labels err started : logs neutral (recordFailedEnrollment labels err started).
Proof. unfold recordFailedEnrollment, RecordOutcome, RecordFailure. logs_tac; done. Qed.

(** ** Continuing *)

Definition anything {A} (o : outcome error A) (s : state) : Prop := True.

Lemma traced_anything {A} n s (m : M World error A) (Q : outcome error A → state → Prop) :
  traced n s m Q → traced n s m anything.
Proof. intros Hm. by eapply traced_mono. Qed.

Lemma traced_neutral_anything {A} n s (m : M World error A) : logs neutral m → traced n s m anything.
Proof. intros Hm. eapply traced_neutral; [done|apply returns_any|done]. Qed.

Lemma wait_tail n s labels (e : Time → error) : 
  traced n s (now ← time_Now; _ ← recordEnrollmentPoll labels; fail (A:=bytes) (e now)) anything.
Proof.
  apply traced_bind, traced_outside. intros now. apply traced_bind.
  eapply traced_neutral; [apply recordEnrollmentPoll_neutral|apply returns_any|].
  intros [[]|e'|] _; [by apply traced_fail|done..].
Qed.

Lemma viewOf_phase t : v_Phase (viewOfTx t) = Phase (tx_Status t).
Proof. done. Qed.

Lemma continuePolling_traced n labels t pending limits :
  Phase (tx_Status t) ∉ [TransactionPhaseConfirming; TransactionPhaseIssued] →
  traced n (Open (idOf t) (viewOfTx t) true)
    (continuePolling (A:=bytes) labels t pending limits (bool_decide (Phase (tx_Status t) = TransactionPhasePolling))) anything.
Proof.
  intros Hp. unfold continuePolling, recordPending. apply traced_bind, traced_bind, traced_outside. intros now.
  set (t' := set_Status _ _). assert (Hid : idOf t = idOf t') by (unfold t'; by case_match).
  eapply (traced_updateStatus _ _ _ t' (Done (idOf t') (viewOfTx t'))).
  - rewrite Hid. apply step_recorded. unfold t'. apply transition_wait; [done|done|simpl; eauto|..];
      by destruct (bool_decide (Phase (tx_Status t) = TransactionPhasePolling)) eqn:E; simpl; rewrite ?E.
  - intros t'' _. apply wait_tail.
  - done.
Qed.

(** ** Confirming *)

(** The state in which a confirmation may be sent: the record holds the chain
    and the state that [pending] carries. *)
Definition confirmable (t : CMPTransaction) (chain : list Certificate) (pending : PendingTransaction) (v : view) : Prop :=
  v = viewOfTx t ∧ v_Phase v = TransactionPhaseConfirming ∧
  (∀ leaf, head chain = Some leaf → confirmsRecorded v leaf) ∧
  v_CertReqID v = Some (pt_CertReqID pending) ∧ v_RecipNonce v = pt_RecipNonce pending ∧
  v_RequestNonce v = pt_RequestNonce pending.

Lemma encodeChain_head chain leaf : head chain = Some leaf → encodeChain chain ≠ [].
Proof. by destruct chain. Qed.

Lemma continueConfirming_traced n labels t chain leaf pending limits :
  head chain = Some leaf → Phase (tx_Status t) = TransactionPhaseConfirming →
  traced n (Open (idOf t) (viewOfTx t) true)
    (continueConfirming (A:=bytes) labels t chain pending limits (negb (bool_decide (tx_RequestNonce (tx_Status t) = "")))) anything.
Proof.
  intros Hl Hp. unfold continueConfirming, recordConfirming. apply traced_bind, traced_bind, traced_outside. intros now.
  set (t' := set_Status _ _). assert (Hid : idOf t = idOf t') by (unfold t'; by case_match).
  eapply (traced_updateStatus _ _ _ t' (Done (idOf t') (viewOfTx t'))).
  - rewrite Hid. apply step_recorded. unfold t'. apply transition_unconfirmed; [done|done|by eapply encodeChain_head|simpl; eauto|].
    simpl. by destruct (bool_decide (tx_RequestNonce (tx_Status t) = "")).
  - intros t'' _. apply wait_tail.
  - done.
Qed.

Lemma recordIssued_traced n t chain leaf (Q : outcome error CMPTransaction → state → Prop) :
  head chain = Some leaf → Phase (tx_Status t) ≠ TransactionPhaseIssued →
  (∀ o s, Q o s) → traced n (Open (idOf t) (viewOfTx t) true) (recordIssued t chain) Q.
Proof.
  intros Hl Hp HQ. unfold recordIssued. apply traced_bind, traced_outside. intros now.
  set (t' := set_Status _ _). eapply (traced_updateStatus _ _ _ t' (Done (idOf t') (viewOfTx t'))); [|done|done].
  apply (step_recorded _ (viewOfTx t) t'). apply transition_issued; [done|done|by eapply encodeChain_head|done].
Qed.

Lemma issued_tail n s labels confirmation started (pem : bytes) :
  traced n s (_ ← recordIssuedEnrollment labels confirmation started; mret pem) anything.
Proof.
  apply traced_bind. eapply traced_neutral; [apply recordIssuedEnrollment_neutral|apply returns_any|].
  intros [[]|e|] _; [by apply traced_ret|done..].
Qed.

Lemma confirm_traced labels t request limits chain pending started :
  confirmable t chain pending (viewOfTx t) → er_TransactionID request = idOf t →
  traced (MaximumPolls limits) (Open (idOf t) (viewOfTx t) false) (confirm labels t request limits chain pending started) anything.
Proof.
  intros (_ & Hp & Hleaf & Hid & Hrecip & Hnonce) Htid. unfold confirm. apply traced_bind, traced_outside. intros now.
  destruct (time_After _ _); [by apply traced_failTransaction|].
  destruct (Z.leb_spec (MaximumPolls limits) (Polls (tx_Status t))) as [|Hpolls]; [by apply traced_failTransaction|].
  apply traced_bind, traced_lift. destruct (head chain) as [leaf|] eqn:Hh; simpl; [|done].
  apply traced_bind. rewrite <- Htid.
  eapply traced_emit; [by apply (step_confirm _ _ {| cf_Enrollment := request; cf_Certificate := Some leaf;
    cf_CertReqID := pt_CertReqID pending; cf_RecipNonce := pt_RecipNonce pending;
    cf_ResponseSigner := pt_ResponseSigner pending; cf_RequestNonce := pt_RequestNonce pending |} leaf); auto|].
  cbn [cf_Enrollment]. rewrite Htid. apply traced_bind, traced_try.
  eapply traced_posts; [apply confirm_posts|apply returns_any|]. intros [result|err|] _; [|by apply traced_failTransaction|done].
  destruct (PendingConfirmation result) as [next|].
  - rewrite <- Hnonce. by eapply continueConfirming_traced.
  - apply traced_bind. eapply recordIssued_traced; [done|rewrite <- viewOf_phase, Hp; done|].
    intros [t'|e|] s; [apply issued_tail|done..].
Qed.

(** The head of a validated recorded chain is the first recorded certificate. *)
Lemma recorded_head t csrDER now roots candidates chain :
  (c ← recordedChain t csrDER; trustedRecordedChain now c roots candidates) = Ok chain →
  ∀ leaf, head chain = Some leaf → confirmsRecorded (viewOfTx t) leaf.
Proof.
  rewrite bind_ok. intros (c & Hr & Ht) leaf Hl. unfold trustedRecordedChain in Ht. rewrite mapErr_ok in Ht.
  unfold ValidateIssuedChain in Ht. destruct c as [|first rest]; [done|]. destruct roots; [|done].
  unfold validateAndOrderChain in Ht. rewrite bind_ok in Ht. destruct Ht as (verified & _ & [= <-]). simplify_eq/=.
  unfold recordedChain in Hr. rewrite bind_unit_ok, bind_ok in Hr. destruct Hr as (_ & c & Hc & Hr).
  rewrite bind_ok in Hr. destruct Hr as (csr & _ & Hr). rewrite bind_ok in Hr. destruct Hr as (lf & _ & Hr).
  rewrite bind_unit_ok in Hr. destruct Hr as [_ [= ->]].
  unfold confirmsRecorded. simpl. destruct (IssuedChain (tx_Status t)) as [|encoded encodings]; [done|]. simpl in Hc.
  rewrite bind_ok in Hc. destruct Hc as (p & Hp & Hc). rewrite bind_unit_ok, bind_ok in Hc.
  destruct Hc as (_ & more & _ & [= <- <-]). exists encoded, encodings. split; [done|]. right.
  by destruct (ParseCertificate encoded); simplify_eq.
Qed.

Lemma resumeConfirmation_traced labels t request limits csrDER started :
  Phase (tx_Status t) = TransactionPhaseConfirming → er_TransactionID request = idOf t →
  traced (MaximumPolls limits) (Open (idOf t) (viewOfTx t) false)
    (resumeConfirmation labels t request limits csrDER started) anything.
Proof.
  intros Hp Hid. unfold resumeConfirmation. apply traced_bind, traced_outside. intros x.
  set (now := (ext_Now x).1). clearbody now.
  destruct (_ ← _; _) as [chain|err|] eqn:Ec; [|by apply traced_failTransaction|by apply traced_lift].
  destruct (tx_CertReqID (tx_Status t)) as [certReqID|] eqn:Ei; [|by apply traced_failTransaction].
  apply traced_bind, traced_lift. destruct (retainedSigner t) as [signer|err|]; [|done..].
  apply confirm_traced; [|done]. split_and!; [done|done| |done|done|done]. by eapply recorded_head.
Qed.

(** ** Enrolling and polling *)

Lemma exchange_traced t request limits (Q : outcome error EnrollmentResult → state → Prop) :
  er_TransactionID request = idOf t →
  Phase (tx_Status t) ∉ [TransactionPhaseConfirming; TransactionPhaseIssued] →
  (∀ o, match o with Ok result => enrollmentResultOK request result | _ => True end → Q o (Open (idOf t) (viewOfTx t) true)) →
  (∀ e, Q (Err e) (Open (idOf t) (viewOfTx t) false)) → Q Panic (Open (idOf t) (viewOfTx t) false) →
  traced (MaximumPolls limits) (Open (idOf t) (viewOfTx t) false) (exchange request t limits) Q.
Proof.
  intros Hid Hp HQ He HP. unfold exchange. apply traced_bind, traced_outside. intros x.
  destruct (time_After _ _); [by apply traced_fail|].
  destruct (bool_decide (Phase (tx_Status t) = TransactionPhasePolling)) eqn:Epoll; simpl; simplify_bool.
  - destruct (tx_CertReqID (tx_Status t)) as [certReqID|] eqn:Ei; [|by apply traced_fail].
    destruct (bool_decide (tx_RecipNonce (tx_Status t) = "")) eqn:En; [by apply traced_fail|]. simplify_bool.
    destruct (Z.leb_spec (MaximumPolls limits) (Polls (tx_Status t))) as [|Hpolls]; [by apply traced_fail|].
    apply traced_bind, traced_lift. destruct (retainedSigner t) as [signer|err|]; [|done..].
    apply traced_bind. rewrite <- Hid.
    eapply traced_emit; [by apply (step_poll _ _ {| poll_Enrollment := request; poll_RecipNonce := tx_RecipNonce (tx_Status t);
      poll_CertReqID := certReqID; poll_ResponseSigner := signer; poll_RequestNonce := tx_RequestNonce (tx_Status t) |})|].
    cbn [poll_Enrollment]. rewrite Hid. eapply traced_posts; [apply poll_posts|apply poll_result|done].
  - apply traced_bind. rewrite <- Hid. eapply traced_emit; [apply step_enroll; simpl; set_solver|]. rewrite Hid.
    case_match; [eapply traced_posts; [apply enrollIR_posts|apply enrollIR_result|done]|].
    case_match; [eapply traced_posts; [apply enrollKUR_posts|apply enrollKUR_result|done]|].
    eapply traced_posts; [apply enrollP10CR_posts|apply enrollP10CR_result|done].
Qed.

Lemma validChain_head csr trust chain : validChain csr trust chain → ∃ leaf, head chain = Some leaf.
Proof. intros (now & cs & c & leaf & tail & -> & _). by exists leaf. Qed.

Lemma recordConfirming_traced n t chain leaf pending (Q : outcome error CMPTransaction → state → Prop) :
  head chain = Some leaf → Phase (tx_Status t) ∉ [TransactionPhaseConfirming; TransactionPhaseIssued] →
  pt_RequestNonce pending = "" →
  (∀ t', idOf t' = idOf t → confirmable t' chain pending (viewOfTx t') → Q (Ok t') (Open (idOf t') (viewOfTx t') false)) →
  (∀ e, Q (Err e) (Open (idOf t) (viewOfTx t) true)) →
  traced n (Open (idOf t) (viewOfTx t) true) (recordConfirming t chain pending) Q.
Proof.
  intros Hl Hp Hnonce HQ He. unfold recordConfirming. apply traced_bind, traced_outside. intros x.
  set (t' := set_Status _ _). eapply (traced_updateStatus _ _ _ t' (Open (idOf t') (viewOfTx t') false)); [| |done].
  - apply (step_confirming _ (viewOfTx t) t'). by split; simpl; eauto using encodeChain_head.
  - intros t'' [Hid Hv]. change (idOf t') with (idOf t) in *. rewrite <- Hid, <- Hv. apply HQ; [done|]. unfold confirmable. rewrite Hv.
    split_and!; try done. intros leaf' Hl'. destruct chain as [|c chain]; [done|].
    exists (Raw c), (map Raw chain). split; [done|]. left. by simplify_eq/=.
Qed.

Lemma advance_traced labels request c enrollmentRequest t operation der started :
  Phase (tx_Status t) ≠ TransactionPhaseIssued →
  traced (MaximumPolls (rc_Transaction c)) (Open (idOf t) (viewOfTx t) false)
    (advance labels request c enrollmentRequest t operation der started) anything.
Proof.
  intros Hp. unfold advance. destruct (bool_decide (Phase (tx_Status t) = TransactionPhaseConfirming)) eqn:Ec; simplify_bool.
  { by apply resumeConfirmation_traced. }
  assert (Hopen : Phase (tx_Status t) ∉ [TransactionPhaseConfirming; TransactionPhaseIssued]) by set_solver.
  apply traced_bind, traced_try. apply exchange_traced; [done|done| |intros e; by apply traced_failTransaction|done].
  intros [result|err|] Hr; [|by apply traced_failTransaction|done].
  destruct Hr as [([pending ->] & _ & _)|(-> & Hchain & Hnonce)]; [by apply continuePolling_traced|].
  destruct (validChain_head _ _ _ Hchain) as [leaf Hl].
  destruct (PendingConfirmation result) as [pending|]; apply traced_bind.
  - eapply recordConfirming_traced; [done|done|by apply Hnonce| |done]. intros t' Hid Hc. by apply confirm_traced.
  - eapply recordIssued_traced; [done|done|]. intros [t'|e|] s; [apply issued_tail|done..].
Qed.

(** ** Whole reconciles *)

Definition pollLimit (issuer : Issuer) : Z := MaximumPolls (transactionLimitsWithDefaults (Transaction (issuer_Spec issuer))).

Lemma resume_traced labels request issuer t der started :
  traced (pollLimit issuer) (Open (idOf t) (viewOfTx t) false)
    (resume ClusterResourceNamespace labels request issuer t der started) anything.
Proof.
  unfold resume. destruct (bool_decide (Phase (tx_Status t) = TransactionPhaseIssued)) eqn:Ep; simplify_bool.
  - unfold recoverIssuedChain. destruct (recordedChain t der); [|by apply traced_failTransaction|by apply traced_lift].
    apply traced_bind. eapply traced_neutral; [|apply returns_any|].
    { apply logs_mapErrM. eapply logs_mono; [apply loadCMPTrust_spec|apply neutral_reads]. }
    intros [[roots candidates]|e|] _; [|done..]. apply traced_bind, traced_outside. intros x.
    destruct (trustedRecordedChain _ _ _ _); [by apply traced_ret|by apply traced_failTransaction|by apply traced_lift].
  - apply traced_bind, traced_lift. destruct (IssuerRef (Spec t)) as [ref|]; simpl; [|done].
    destruct (negb _); [by apply traced_failTransaction|]. apply traced_bind.
    eapply traced_neutral; [apply loadConfiguration_neutral|apply loadConfiguration_returns|]. intros [c|e|] Hc; [|done..].
    apply traced_bind. eapply traced_neutral; [apply prepareEnrollment_neutral|apply prepareEnrollment_returns|].
    intros [[c' er]|e|] Hprep; [|done..]. destruct Hprep as (Hlim & _). simpl in Hlim.
    destruct (negb _); [by apply traced_failTransaction|].
    unfold pollLimit. rewrite <- (proj1 (conf_limits _ _ _ Hc)), <- Hlim. by apply advance_traced.
Qed.

Lemma create_traced n namespace name uid deadline detail (Q : outcome error CMPTransaction → state → Prop) :
  (∀ t, Phase (tx_Status t) = TransactionPhaseEnrolling → Q (Ok t) (Open (idOf t) (viewOfTx t) false)) →
  (∀ e s, Q (Err e) s) → traced n NoRecord (create namespace name uid deadline detail) Q.
Proof.
  intros HQ He. unfold create. apply traced_bind. unfold outside_try. apply traced_bind, traced_outside. intros x.
  apply traced_lift. destruct (ext_Rand _ x).1 as [e|id]; [apply He|].
  apply traced_bind, traced_bind, traced_outside. intros y. apply traced_lift.
  destruct (ext_CreateTransaction _ y) as [[e|t] y'] eqn:Ec; simpl; [apply He|].
  apply create_stored in Ec as Hid. apply traced_bind. eapply traced_emit; [apply step_create|].
  apply traced_bind, traced_outside. intros z. rewrite <- Hid.
  set (t' := set_Status _ _). change (idOf t) with (idOf t').
  eapply traced_updateStatus; [by apply step_enrolling| |done]. intros t'' [Hid' Hv']. rewrite <- Hid', <- Hv'. apply HQ.
  by rewrite <- viewOf_phase, Hv'.
Qed.

Lemma start_traced labels request issuer operation der started :
  traced (pollLimit issuer) NoRecord (start ClusterResourceNamespace labels request issuer operation der started) anything.
Proof.
  unfold start. apply traced_bind.
  eapply traced_neutral; [apply loadConfiguration_neutral|apply loadConfiguration_returns|]. intros [c|e|] Hc; [|done..].
  apply traced_bind. eapply traced_neutral; [apply selectRenewalFallback_neutral|apply returns_any|].
  intros [[op fallback]|e|] _; [|done..]. apply traced_bind.
  eapply traced_neutral; [apply prepareEnrollment_neutral|apply prepareEnrollment_returns|].
  intros [[c' er]|e|] Hprep; [|done..]. destruct Hprep as (Hlim & _). simpl in Hlim.
  apply traced_bind, traced_outside. intros x. apply traced_bind, create_traced; [|done]. intros t Ht.
  apply traced_bind. eapply traced_neutral; [|apply returns_any|].
  { destruct fallback; [|logs_tac]. unfold reportRenewalFallback. logs_tac. done. }
  intros [[]|e|] _; [|done..]. unfold pollLimit. rewrite <- (proj1 (conf_limits _ _ _ Hc)), <- Hlim.
  apply advance_traced. by rewrite Ht.
Qed.

Lemma reported_traced {A} n s labels started (m : M World error A) (Q : outcome error A → state → Prop) :
  traced n s m (λ o s', match o with Ok a => Q (Ok a) s' | Err e => (∀ e', Q (Err e') s') ∧ Q Panic s' | Panic => Q Panic s' end) →
  traced n s (reported labels started m) Q.
Proof.
  intros Hm. unfold reported. apply traced_bind, traced_try. eapply traced_mono; [exact Hm|].
  intros [a|e|] s' HQ; [by apply traced_ret| |done]. apply traced_bind.
  eapply traced_neutral; [apply recordFailedEnrollment_neutral|apply returns_any|].
  destruct HQ as [HQ HP]. intros [[]|e'|] _; [by apply traced_fail|auto..].
Qed.

Lemma load_traced n namespace name uid (Q : outcome error (option CMPTransaction) → state → Prop) :
  Q (Ok None) NoRecord → (∀ t, Q (Ok (Some t)) (Open (idOf t) (viewOfTx t) false)) → (∀ e, Q (Err e) Start) →
  traced n Start (load namespace name uid) Q.
Proof.
  intros HN HS He. unfold load. apply traced_bind, traced_outside. intros x.
  assert (Hnone : traced n Start (_ ← emit (EvLoaded None); mret (None : option CMPTransaction)) Q).
  { apply traced_bind. eapply traced_emit; [apply step_absent|]. by apply traced_ret. }
  destruct (ext_GetTransaction _ x).1 as [err|t]; [destruct err; (exact Hnone || by apply traced_fail)|].
  destruct (negb _).
  - apply traced_bind. unfold deleteTransaction. apply traced_bind. eapply traced_emit; [apply step_stale|].
    apply traced_outside. intros y. destruct (ext_DeleteTransaction _ _ y).1 as [[]|]; (exact Hnone || by apply traced_fail).
  - apply traced_bind. eapply traced_emit; [apply step_loaded|]. by apply traced_ret.
Qed.

Lemma Sign_traced request issuer : traced (pollLimit issuer) Start (Sign ClusterResourceNamespace request issuer) anything.
Proof.
  unfold Sign. apply traced_bind, traced_outside. intros x. apply traced_bind, reported_traced.
  unfold identify. apply traced_bind, traced_lift. destruct (cro_Details request); simpl; [done|].
  apply traced_bind, traced_lift. destruct (mapErr _ _); [|done..].
  apply traced_bind, traced_lift. destruct (mapErr _ _); [|done..].
  apply traced_bind, load_traced; [| |done].
  - apply traced_ret, reported_traced. eapply traced_mono; [apply start_traced|]. by intros [].
  - intros t. apply traced_ret. apply traced_bind, reported_traced.
    destruct (validateResumedTransaction _ _ _ _ _) as [[]|e|]; [apply traced_lift|by apply traced_failTransaction|by apply traced_lift].
    apply reported_traced. eapply traced_mono; [apply resume_traced|]. by intros [].
Qed.

(** The events of one reconcile, oldest first. *)
Definition reconciles (request : CertificateRequestObject) (issuer : Issuer) (w : World) (trace : list event) : Prop :=
  w_log (Sign ClusterResourceNamespace request issuer w).2 = reverse trace ++ w_log w.

Lemma reconciles_accepted request issuer w trace :
  reconciles request issuer w trace → ∃ final, accepts (pollLimit issuer) Start trace final.
Proof.
  unfold reconciles. intros Hr. destruct (Sign_traced request issuer w) as (added & final & Hl & Ha & _).
  rewrite Hr in Hl. apply app_inv_tail in Hl as <-. rewrite reverse_involutive in Ha. eauto.
Qed.

(** C1: One reconcile sends and records only what the transaction lifecycle allows, whatever the CMP server
    answers and for every API server that answers an accepted write with the object written: a transaction is recorded before its first message; every message belongs to the
    recorded transaction; it is enrolled only before it is polled, polled only while polls remain and with the
    recorded state; certConf is sent only for the leaf of a chain that is already recorded, with its nonce
    state; and the phases advance only from enrolling through polling and confirming to issued. *)
Theorem Sign_refines_lifecycle request issuer w :
  ∃ trace final,
    w_log (Sign ClusterResourceNamespace request issuer w).2 = reverse trace ++ w_log w ∧
    accepts (pollLimit issuer) Start trace final.
Proof.
  destruct (Sign_traced request issuer w) as (added & final & Hl & Ha & _). exists (reverse added), final.
  by rewrite reverse_involutive.
Qed.
End trace.

#[local] Existing Instances Demo.demoLibs CMPClient CMPClient_laws.

(** The demonstration API server keeps its promises. *)
#[local] Instance demoKube : KubeLaws.
Proof.
  split; intros t x t' x'; simpl; destruct (transactions x !! key t); intros; by simplify_eq.
Qed.

(** A server that answers p10cr with a certificate and certConf with pkiConf:
    the trace has the enrollment, the confirmation and the two writes around
    it. *)
Definition demoWorld := world [answer "cp"; answer "pkiconf"] ∅.

Lemma Sign_refines_lifecycle_witness :
  (Sign "" request issuer demoWorld).1 = Ok "PL"%string ∧ length (w_log (Sign "" request issuer demoWorld).2) = 13 ∧
  ∃ trace final,
    w_log (Sign "" request issuer demoWorld).2 = reverse trace ++ w_log demoWorld ∧
    accepts (pollLimit issuer) Start trace final.
Proof.
  split; [vm_compute; reflexivity|]. split; [vm_compute; reflexivity|].
  exact (Sign_refines_lifecycle "" request issuer demoWorld).
Defined.
End SignerTrace.
