(* ===== verification/History.v ===== *)
(** * What the lifecycle guarantees

    Consequences of the lifecycle machine, by induction on the accepted
    sequence of events, stated of the signer's reconciles: what is recorded
    before a message is sent, how many exchanges one reconcile makes, and how
    many waits a transaction survives over all of its reconciles. *)

From S2P Require Import Prelude GoString Types Demo Certificates Api IssuerSpec Runtime TransactionStore Configuration Workload DemoRuntime ProtocolClient ClientLaws Lifecycle Signer SignerTrace.
Import Certificates Api IssuerSpec TransactionStore Configuration Workload DemoRuntime ProtocolClient ClientLaws Lifecycle Signing SignerTrace.

Module History.

Section machine.
Context `{Runtime}.

(** A record the reconcile loaded or wrote. *)
Definition recordedIn (t : CMPTransaction) (l : list event) : Prop :=
  EvLoaded (Some t) ∈ l ∨ EvUpdateStatus t ∈ l.

Lemma recordedIn_app t l1 l2 : recordedIn t l1 → recordedIn t (l1 ++ l2).
Proof. unfold recordedIn. set_solver. Qed.

(** The record a state stands for is in the trace that led to it. *)
Definition backed (before : list event) (s : state) : Prop :=
  match s with
  | Open id v _ | Done id v => ∃ t, recordedIn t before ∧ idOf t = id ∧ viewOfTx t = v
  | _ => True
  end.

Lemma backed_app before l s : backed before s → backed (before ++ l) s.
Proof. destruct s; simpl; try done; intros (t & Ht & ? & ?); exists t; eauto using recordedIn_app. Qed.

Lemma step_backed n before s ev s' : Lifecycle.step n s ev s' → backed before s → backed (before ++ [ev]) s'.
Proof.
  intros Hs Hb. apply (backed_app _ [ev]) in Hb.
  destruct Hs; try done; exists t; unfold recordedIn; set_solver.
Qed.

Lemma accepts_backed n s l s' before : accepts n s l s' → backed before s → backed (before ++ l) s'.
Proof.
  intros Ha. revert before. induction Ha as [s|s1 ev s2 l s3 Hs Ha IH]; intros before Hb; [by rewrite app_nil_r|].
  replace (before ++ ev :: l) with ((before ++ [ev]) ++ l) by by rewrite <- app_assoc.
  apply IH. by eapply step_backed.
Qed.

Lemma accepts_app_inv n s l1 l2 s' : accepts n s (l1 ++ l2) s' → ∃ s'', accepts n s l1 s'' ∧ accepts n s'' l2 s'.
Proof.
  revert s. induction l1 as [|ev l1 IH]; intros s Ha; [eexists; split; [constructor|done]|].
  inversion Ha as [|s1 ev' s2 l s3 Hs Ha']; simplify_eq. destruct (IH _ Ha') as (s'' & ? & ?).
  exists s''. split; [by econstructor|done].
Qed.

(** What is recorded before a message may be sent. *)
Definition writtenAhead (before : list event) (ev : event) : Prop :=
  match ev with
  | EvPost _ _ _ => ∃ t, recordedIn t before
  | EvEnroll _ request =>
      ∃ t, recordedIn t before ∧ idOf t = er_TransactionID request ∧
        Phase (tx_Status t) ∉ [TransactionPhasePolling; TransactionPhaseConfirming; TransactionPhaseIssued]
  | EvPoll poll =>
      ∃ t, recordedIn t before ∧ idOf t = er_TransactionID (poll_Enrollment poll) ∧
        Phase (tx_Status t) = TransactionPhasePolling ∧ tx_CertReqID (tx_Status t) = Some (poll_CertReqID poll) ∧
        tx_RecipNonce (tx_Status t) = poll_RecipNonce poll
  | EvConfirm confirm =>
      ∃ t leaf, recordedIn t before ∧ idOf t = er_TransactionID (cf_Enrollment confirm) ∧
        Phase (tx_Status t) = TransactionPhaseConfirming ∧ cf_Certificate confirm = Some leaf ∧
        confirmsRecorded (viewOfTx t) leaf
  | _ => True
  end.

Lemma accepts_writtenAhead n before ev after final :
  accepts n Start (before ++ ev :: after) final → writtenAhead before ev.
Proof.
  intros Ha. apply accepts_app_inv in Ha as (s & Hb & Ha). eapply (accepts_backed _ _ _ _ []) in Hb; [|done].
  simpl in Hb. inversion Ha as [|s1 ev' s2 l s3 Hs _]; simplify_eq.
  destruct Hs; simpl in *; try done; try (destruct Hb as (t & ? & ? & <-); eauto 10).
  by destruct ev.
Qed.

(** ** Counting *)

Definition count (p : event → bool) (l : list event) : nat := length (List.filter p l).

Lemma accepts_budget n (f : state → nat) (p : event → bool) :
  (∀ s ev s', Lifecycle.step n s ev s' → f s' + (if p ev then 1 else 0) ≤ f s) →
  ∀ s l s', accepts n s l s' → count p l ≤ f s.
Proof.
  intros Hstep s l s' Ha. induction Ha as [s|s1 ev s2 l s3 Hs Ha IH]; [unfold count; simpl; lia|].
  specialize (Hstep _ _ _ Hs). unfold count in *. simpl. destruct (p ev); simpl; lia.
Qed.

Definition enrolls (ev : event) : bool := match ev with EvEnroll _ _ | EvPoll _ => true | _ => false end.
Definition confirms (ev : event) : bool := match ev with EvConfirm _ => true | _ => false end.

Definition enrollBudget (s : state) : nat :=
  match s with
  | Start | NoRecord | Fresh _ => 1
  | Open _ v false => if bool_decide (v_Phase v ∈ [TransactionPhaseConfirming; TransactionPhaseIssued]) then 0 else 1
  | _ => 0
  end.
Definition confirmBudget (s : state) : nat :=
  match s with
  | Start | NoRecord | Fresh _ | Open _ _ false => 1
  | Open _ v true => if bool_decide (v_Phase v = TransactionPhaseConfirming) then 0 else 1
  | _ => 0
  end.

Lemma enrollBudget_step n s ev s' : Lifecycle.step n s ev s' → enrollBudget s' + (if enrolls ev then 1 else 0) ≤ enrollBudget s.
Proof.
  destruct 1 as [s ev Hn| | | | | |v operation request Hp|v poll Hp| | |v t Hc| |id v asked]; simpl; try lia;
    try (case_bool_decide; lia).
  - destruct ev; simpl in *; lia || done.
  - rewrite bool_decide_false; [lia|]. set_solver.
  - rewrite bool_decide_false; [lia|]. rewrite Hp. set_solver.
  - pose proof (confirming_to _ _ Hc) as Hto. simpl in Hto. rewrite bool_decide_true; [lia|]. rewrite Hto. set_solver.
Qed.

Lemma confirmBudget_step n s ev s' : Lifecycle.step n s ev s' → confirmBudget s' + (if confirms ev then 1 else 0) ≤ confirmBudget s.
Proof.
  destruct 1 as [s ev Hn| | | | | | | |v c leaf Hp| |v t Hc| |]; simpl; try lia; try (case_bool_decide; lia).
  - destruct ev; simpl in *; lia || done.
  - rewrite bool_decide_true; [lia|done].
  - pose proof (confirming_from _ _ Hc). rewrite bool_decide_false; [lia|]. set_solver.
Qed.
(** ** Polls over several reconciles *)

Definition isPoll (ev : event) : bool := match ev with EvPoll _ => true | _ => false end.
Definition isConfirmPoll (ev : event) : bool := match ev with EvConfirm c => negb (bool_decide (cf_RequestNonce c = "")) | _ => false end.
Definition writes (phase : string) (ev : event) : bool :=
  match ev with EvUpdateStatus t => bool_decide (Phase (tx_Status t) = phase) | _ => false end.

Definition b2z (b : bool) : Z := if b then 1%Z else 0%Z.

(** The waits a reconcile recorded: it polled for the certificate and recorded
    the polling phase again, or polled for the confirmation and recorded the
    confirming phase again. *)
Definition recordedWaits (l : list event) : Z :=
  (b2z (existsb isPoll l && existsb (writes TransactionPhasePolling) l) +
   b2z (existsb isConfirmPoll l && existsb (writes TransactionPhaseConfirming) l))%Z.

(** The record after the writes of a reconcile. *)
Definition recorded (v : view) (l : list event) : view :=
  foldl (λ v ev, match ev with EvUpdateStatus t => viewOfTx t | _ => v end) v l.

Lemma recorded_snoc v l ev :
  recorded v (l ++ [ev]) = match ev with EvUpdateStatus t => viewOfTx t | _ => recorded v l end.
Proof. unfold recorded. by rewrite foldl_app. Qed.

Lemma existsb_snoc (p : event → bool) l ev : existsb p (l ++ [ev]) = existsb p l || p ev.
Proof. rewrite existsb_app. simpl. by rewrite orb_false_r. Qed.

Lemma writes_view phase t : writes phase (EvUpdateStatus t) = bool_decide (v_Phase (viewOfTx t) = phase).
Proof. done. Qed.

Section polls.
Context (n : Z) (v0 : view) (Hstart : (0 ≤ v_Polls v0)%Z) (Hn : (n ≤ int32_max)%Z).

(** What the events [l] since the load say of an open record: it has not been
    counted up yet, and the request under way is the one its phase needs. *)
Record counting (l : list event) (v : view) (asked : bool) : Prop := {
  counting_recorded : recorded v0 l = v ∧ v_Polls v = v_Polls v0 ∧ existsb (writes TransactionPhasePolling) l = false;
  counting_polled : existsb isPoll l = true → v_Phase v = TransactionPhaseConfirming ∨ asked = true ∧ v_Phase v = TransactionPhasePolling;
  counting_polling : asked = true → v_Phase v = TransactionPhasePolling → existsb isPoll l = true;
  counting_confirmed : existsb isConfirmPoll l = true →
    asked = true ∧ v_Phase v = TransactionPhaseConfirming ∧ existsb (writes TransactionPhaseConfirming) l = false;
  counting_confirming : asked = true → v_Phase v = TransactionPhaseConfirming →
    existsb isConfirmPoll l = negb (bool_decide (v_RequestNonce v = ""));
  counting_fresh : existsb (writes TransactionPhaseConfirming) l = true → v_RequestNonce v = ""%string;
  counting_budget : asked = true → v_Phase v ∈ [TransactionPhasePolling; TransactionPhaseConfirming] → (v_Polls v < n)%Z
}.

(** What they did to the poll counter. *)
Definition counted (l : list event) (s : state) : Prop :=
  match s with
  | Open _ v asked => counting l v asked
  | Done _ v => recorded v0 l = v ∧ (v_Polls v = v_Polls v0 + recordedWaits l ∧ v_Polls v ≤ Z.max (v_Polls v0) n)%Z
  | Gone => v_Polls (recorded v0 l) = v_Polls v0 ∧ recordedWaits l = 0%Z
  | _ => False
  end.

Lemma counting_none l v asked : counting l v asked → recordedWaits l = 0%Z.
Proof.
  intros [(_ & _ & Hw) _ _ Hc _ _ _]. unfold recordedWaits. rewrite Hw, andb_false_r.
  destruct (existsb isConfirmPoll l); [|done]. by destruct (Hc eq_refl) as (_ & _ & ->).
Qed.

(** Events that neither ask nor write. *)
Definition idle (ev : event) : Prop :=
  isPoll ev = false ∧ isConfirmPoll ev = false ∧ ∀ t, ev ≠ EvUpdateStatus t.

Lemma idle_snoc l ev : idle ev →
  recorded v0 (l ++ [ev]) = recorded v0 l ∧ existsb isPoll (l ++ [ev]) = existsb isPoll l ∧
  existsb isConfirmPoll (l ++ [ev]) = existsb isConfirmPoll l ∧
  ∀ phase, existsb (writes phase) (l ++ [ev]) = existsb (writes phase) l.
Proof.
  intros (Hp & Hc & Hu). rewrite recorded_snoc, !existsb_snoc, Hp, Hc, !orb_false_r. split_and!; [by destruct ev; naive_solver|done..|].
  intros phase. rewrite existsb_snoc. destruct ev; rewrite ?orb_false_r; naive_solver.
Qed.

Lemma counting_idle l v asked ev : idle ev → counting l v asked → counting (l ++ [ev]) v asked.
Proof. intros (Hr & Hp & Hc & Hw)%(idle_snoc l) []. by constructor; rewrite ?Hr, ?Hp, ?Hc, ?Hw. Qed.

Lemma counted_idle l ev s : idle ev → counted l s → counted (l ++ [ev]) s.
Proof.
  intros Hi. pose proof (idle_snoc l ev Hi) as (Hr & Hp & Hc & Hw). destruct s; simpl; [done..|by apply counting_idle| |];
    unfold recordedWaits; by rewrite Hr, Hp, Hc, !Hw.
Qed.

Lemma counted_transition l v t id :
  counting l v true → transition v (viewOfTx t) → counted (l ++ [EvUpdateStatus t]) (Done id (viewOfTx t)).
Proof.
  intros [(_ & Hpolls & Hw) Hpd Hpg Hcd Hcg _ Hlt] Ht. split; [by rewrite recorded_snoc|].
  specialize (Hlt eq_refl). specialize (Hpg eq_refl). specialize (Hcg eq_refl).
  assert (Hwrap : (v_Polls v < n)%Z → wrap32 (v_Polls v + 1) = (v_Polls v + 1)%Z) by (intros; apply wrap32_id; lia).
  unfold recordedWaits. rewrite !existsb_snoc, !writes_view, Hw. cbn [isPoll isConfirmPoll]. rewrite !orb_false_r.
  destruct Ht as [Hv Hv' _ _ E|Hv Hv' _ _ E|Hv Hv' _ E]; rewrite Hv', E; simpl.
  - assert (Hc : existsb isConfirmPoll l = false).
    { apply not_true_iff_false. intros (_ & ? & _)%Hcd. set_solver. }
    rewrite Hc, andb_true_r, andb_false_l. case_bool_decide as Hph.
    + specialize (Hlt ltac:(set_solver)). rewrite Hpg, Hwrap by done. simpl. lia.
    + destruct (existsb isPoll l); [|simpl; lia]. destruct Hpd as [?|[_ ?]]; [done|set_solver|done].
  - rewrite andb_false_r, orb_true_r, andb_true_r, Hcg by done. specialize (Hlt ltac:(set_solver)).
    case_bool_decide; simpl; rewrite ?Hwrap by done; lia.
  - rewrite andb_false_r, orb_false_r. destruct (existsb isConfirmPoll l); [|simpl; lia].
    destruct (Hcd eq_refl) as (_ & _ & ->). simpl. lia.
Qed.

Lemma counting_enroll l v operation request :
  v_Phase v ∉ [TransactionPhasePolling; TransactionPhaseConfirming; TransactionPhaseIssued] →
  counting l v false → counting (l ++ [EvEnroll operation request]) v true.
Proof.
  intros Hp Hc. apply (counting_idle _ _ _ (EvEnroll operation request)) in Hc; [|by split_and!].
  destruct Hc as [Hr Hpd Hpg Hcd Hcg Hf Hb]. constructor; try done; set_solver.
Qed.

Lemma counting_poll l v poll :
  v_Phase v = TransactionPhasePolling → (v_Polls v < n)%Z → counting l v false → counting (l ++ [EvPoll poll]) v true.
Proof.
  intros Hp Hlt [(Hr & Hpolls & Hw) Hpd Hpg Hcd Hcg Hf Hb].
  constructor; rewrite ?recorded_snoc, ?existsb_snoc; simpl; rewrite ?orb_false_r, ?orb_true_r; try done; try (by auto).
  - intros Hx. by destruct (Hcd Hx).
  - intros _ E. by rewrite E in Hp.
Qed.

Lemma counting_confirm l v confirm :
  v_Phase v = TransactionPhaseConfirming → (v_Polls v < n)%Z → v_RequestNonce v = cf_RequestNonce confirm →
  counting l v false → counting (l ++ [EvConfirm confirm]) v true.
Proof.
  intros Hp Hlt Hn' [(Hr & Hpolls & Hw) Hpd Hpg Hcd Hcg Hf Hb].
  assert (Hc : existsb isConfirmPoll l = false) by (apply not_true_iff_false; intros Hx; by destruct (Hcd Hx)).
  constructor; rewrite ?recorded_snoc, ?existsb_snoc, ?Hc; simpl; rewrite ?orb_false_r, <- ?Hn'; try done; try (by auto).
  - intros _ E. by rewrite E in Hp.
  - intros Hx. simplify_bool. split_and!; [done..|]. apply not_true_iff_false. intros Hy. by apply Hf in Hy.
Qed.

Lemma counting_recordConfirming l v t :
  confirming v (viewOfTx t) → counting l v true → counting (l ++ [EvUpdateStatus t]) (viewOfTx t) false.
Proof.
  intros [Hfrom Hto _ _ Hnonce Hp] [(Hr & Hpolls & Hw) Hpd Hpg Hcd Hcg Hf Hb].
  assert (Hc : existsb isConfirmPoll l = false).
  { apply not_true_iff_false. intros (_ & ? & _)%Hcd. set_solver. }
  constructor; rewrite ?recorded_snoc, ?existsb_snoc, ?writes_view, ?Hto, ?Hc, ?Hw; try done; [|by auto]. split_and!; [done|by etrans|done].
Qed.

Lemma counted_step l s ev s' : Lifecycle.step n s ev s' → counted l s → counted (l ++ [ev]) s'.
Proof.
  intros Hs Hc. destruct Hs as [s ev Hneu| | | | | |v op r Hp|v poll Hp Hlt| v c leaf Hp Hlt| |v t Hcf|v t Ht|id v asked]; try done.
  - apply counted_idle; [by destruct ev|done].
  - by apply counting_enroll.
  - by apply counting_poll.
  - by apply counting_confirm.
  - by apply (counted_idle _ _ (Open _ _ _)).
  - by eapply counting_recordConfirming.
  - by eapply counted_transition.
  - match goal with |- counted (_ ++ [?e]) _ => apply (counting_idle _ _ _ e) in Hc; [|by split_and!] end. pose proof (counting_none _ _ _ Hc) as Hz. split; [|exact Hz].
    by destruct Hc as [(-> & ? & _) _ _ _ _ _ _].
Qed.

Lemma accepts_counted l0 s l s' : accepts n s l s' → counted l0 s → counted (l0 ++ l) s'.
Proof.
  intros Ha. revert l0. induction Ha as [s|s1 ev s2 l s3 Hs Ha IH]; intros l0 Hc; [by rewrite app_nil_r|].
  replace (l0 ++ ev :: l) with ((l0 ++ [ev]) ++ l) by by rewrite <- app_assoc.
  apply IH. by eapply counted_step.
Qed.

Lemma counted_polls l s :
  counted l s → (v_Polls (recorded v0 l) = v_Polls v0 + recordedWaits l ∧ v_Polls (recorded v0 l) ≤ Z.max (v_Polls v0) n)%Z.
Proof.
  destruct s as [| | |id v asked|id v|]; simpl; try done.
  - intros Hc. rewrite (counting_none _ _ _ Hc). destruct Hc as [(-> & -> & _) _ _ _ _ _ _]. lia.
  - by intros [-> ?].
  - intros [-> ->]. lia.
Qed.

Lemma counting_loaded : counting [] v0 false.
Proof. by constructor. Qed.
End polls.

Lemma recordedWaits_pos l : (0 ≤ recordedWaits l)%Z.
Proof. unfold recordedWaits, b2z. repeat case_match; lia. Qed.

Lemma accepts_loaded n before t after final :
  accepts n Start (before ++ EvLoaded (Some t) :: after) final → accepts n (Open (idOf t) (viewOfTx t) false) after final.
Proof.
  intros Ha. apply accepts_app_inv in Ha as (s & _ & Ha). inversion Ha as [|s1 ev s2 l s3 Hs Ha']; simplify_eq.
  by inversion Hs; simplify_eq.
Qed.
End machine.

(** ** The signer *)

Section signer.
Context `{Runtime} `{CertManager} {client : Client} `{!KubeLaws} `{!ProtocolClient.ClientLaws client}.
Context (ClusterResourceNamespace : string).
Abbreviation reconciles := (reconciles ClusterResourceNamespace).

(** C7: Write-ahead: before any message leaves the controller, its transaction is in a record the API server
    holds.  An enrollment request is preceded by the record of its transaction ID; a pollReq by a record in
    phase Polling with the certReqId and nonce it uses; a certConf by a record in phase Confirming that
    already holds the certificate being confirmed. *)
Theorem Sign_write_ahead request issuer w before ev after :
  reconciles request issuer w (before ++ ev :: after) → writtenAhead before ev.
Proof. intros [final Ha]%reconciles_accepted. by eapply accepts_writtenAhead. Qed.

(** C18: One reconcile makes at most one enrollment or poll exchange and at most one confirmation exchange. *)
Theorem Sign_exchanges_bounded request issuer w trace :
  reconciles request issuer w trace → count enrolls trace ≤ 1 ∧ count confirms trace ≤ 1.
Proof.
  intros [final Ha]%reconciles_accepted. split.
  - exact (accepts_budget _ enrollBudget _ (enrollBudget_step _) _ _ _ Ha).
  - exact (accepts_budget _ confirmBudget _ (confirmBudget_step _) _ _ _ Ha).
Qed.

(** The reconciles of one transaction: each loads the record as the one before
    left it; [traces] are the events after each load. *)
Inductive history (request : CertificateRequestObject) (issuer : Issuer) : view → list (list event) → view → Prop :=
| history_nil v : history request issuer v [] v
| history_cons w before t after rest v :
    reconciles request issuer w (before ++ EvLoaded (Some t) :: after) →
    history request issuer (recorded (viewOfTx t) after) rest v →
    history request issuer (viewOfTx t) (after :: rest) v.

(** C10: Over all reconciles of a transaction, including controller restarts, the record counts exactly the waits that
    were recorded: polls for the certificate and polls for its confirmation that the server answered with
    waiting and whose answer the API server stored. The counter never decreases and never exceeds the issuer's
    maximumPolls. A waiting poll whose status update the API server refused is not counted; like every poll it
    is sent only while the counter is below the limit, and the deadline still ends the transaction. *)
Theorem polls_bounded request issuer v traces v' :
  (0 ≤ v_Polls v)%Z → (pollLimit issuer ≤ int32_max)%Z → history request issuer v traces v' →
  (v_Polls v' = v_Polls v + foldr (λ l, Z.add (recordedWaits l)) 0 traces ∧ v_Polls v ≤ v_Polls v' ≤ Z.max (v_Polls v) (pollLimit issuer))%Z.
Proof.
  intros H0p Hn Hh. induction Hh as [v|w before t after rest v Hr Hh IH]; cbn [foldr]; [lia|].
  apply reconciles_accepted in Hr as [final Ha]. apply accepts_loaded in Ha.
  eapply (accepts_counted _ _ H0p Hn []) in Ha; [|apply counting_loaded].
  apply counted_polls in Ha. rewrite app_nil_l in Ha. pose proof (recordedWaits_pos after).
  specialize (IH ltac:(lia)). lia.
Qed.

(** The events a reconcile from [w] adds, oldest first. *)
Definition eventsOf (request : CertificateRequestObject) (issuer : Issuer) (w : World) : list event :=
  let log := w_log (Sign ClusterResourceNamespace request issuer w).2 in
  reverse (take (length log - length (w_log w)) log).

Lemma eventsOf_reconciles request issuer w : reconciles request issuer w (eventsOf request issuer w).
Proof.
  unfold SignerTrace.reconciles, eventsOf. rewrite reverse_involutive.
  destruct (Sign_traced ClusterResourceNamespace request issuer w) as (added & final & -> & _).
  by rewrite length_app, Nat.add_sub, take_app_length.
Qed.
End signer.

Lemma split_at {A} (l : list A) n d : n < length l → l = take n l ++ List.nth n l d :: drop (S n) l.
Proof.
  revert n. induction l as [|x l IH]; intros [|n] Hn; simpl in *; [lia..|done|]. f_equal. apply IH. lia.
Qed.

(** ** Concrete transactions

    One recorded transaction per phase that a reconcile can resume, with the
    bindings of the demonstration request and issuer. *)

#[local] Existing Instances Demo.demoLibs CMPClient CMPClient_laws demoKube.

Definition demoDigest : string :=
  Eval vm_compute in runtimeConfigurationDigest (issuerReference issuer) (credentialFingerprints credentials).

Definition demoTransaction (phase : string) (chain : list bytes) (requestNonce : bytes) : CMPTransaction :=
  {| tx_Namespace := "ns"; tx_Name := "cr"; tx_UID := "tx-uid"; tx_ResourceVersion := "1"; tx_CreationTimestamp := 40;
     tx_OwnerReferences := [];
     Spec := {| CertificateRequestName := "cr"; CertificateRequestUID := "cruid"; tx_TransactionID := Demo.tid; Deadline := 600;
                CSRDigest := "637372"; IssuerRef := Some (issuerReference issuer); ConfigurationDigest := demoDigest;
                tx_Operation := TransactionOperationP10CR; tx_RenewalFallback := ""; ProtocolVersion := 2 |};
     tx_Status := {| Phase := phase; IssuedChain := chain; CompletionTime := 0; tx_RecipNonce := "servernonce";
                     tx_RequestNonce := requestNonce; tx_CertReqID := Some (-1)%Z; tx_ResponseSigner := ""; Polls := 0;
                     LastTransitionTime := 50 |} |}.

Definition polling : CMPTransaction := demoTransaction TransactionPhasePolling [] "nonce".
Definition confirmed : CMPTransaction := demoTransaction TransactionPhaseConfirming ["L"%string] "".
Definition issued : CMPTransaction := demoTransaction TransactionPhaseIssued ["L"%string] "".

Definition resumeWorld (t : CMPTransaction) (der : bytes) : World := world [answer der] {[ ("ns", "cr")%string := t ]}.
Definition events (t : CMPTransaction) (der : bytes) : list event := eventsOf "" request issuer (resumeWorld t der).

(** The certConf of a resumed confirmation follows the load and the reading of
    two Secrets. *)
Definition demoConfirm : event := List.nth 3 (events confirmed "pkiconf") (EvLoaded None).

Lemma Sign_write_ahead_witness : confirms demoConfirm = true ∧ writtenAhead (take 3 (events confirmed "pkiconf")) demoConfirm.
Proof.
  split; [vm_compute; reflexivity|].
  apply (Sign_write_ahead "" request issuer (resumeWorld confirmed "pkiconf") _ _ (drop 4 (events confirmed "pkiconf"))).
  unfold demoConfirm. rewrite <- split_at by (apply Nat.ltb_lt; vm_compute; reflexivity).
  exact (eventsOf_reconciles "" request issuer (resumeWorld confirmed "pkiconf")).
Defined.

Lemma Sign_exchanges_bounded_witness :
  count enrolls (events polling "pollrep") = 1 ∧
  count enrolls (events polling "pollrep") ≤ 1 ∧ count confirms (events polling "pollrep") ≤ 1.
Proof.
  split; [vm_compute; reflexivity|].
  apply (Sign_exchanges_bounded "" request issuer (resumeWorld polling "pollrep")).
  exact (eventsOf_reconciles "" request issuer (resumeWorld polling "pollrep")).
Defined.

(** A reconcile that resumes [t] starts with its load. *)
Lemma resumes t der :
  head (events t der) = Some (EvLoaded (Some t)) →
  reconciles "" request issuer (resumeWorld t der) ([] ++ EvLoaded (Some t) :: drop 1 (events t der)).
Proof.
  intros Hh. assert (E : EvLoaded (Some t) :: drop 1 (events t der) = events t der) by (by destruct (events t der); simplify_eq/=).
  rewrite E. exact (eventsOf_reconciles "" request issuer (resumeWorld t der)).
Qed.

(** A poll answered with waiting. *)
Definition demoTraces : list (list event) := [drop 1 (events polling "pollrep")].

Lemma polls_bounded_witness :
  let final := recorded (viewOfTx polling) (drop 1 (events polling "pollrep")) in
  foldr (λ l, Z.add (recordedWaits l)) 0%Z demoTraces = 1%Z ∧
  (v_Polls final = v_Polls (viewOfTx polling) + foldr (λ l, Z.add (recordedWaits l)) 0 demoTraces ∧
   v_Polls (viewOfTx polling) ≤ v_Polls final ≤ Z.max (v_Polls (viewOfTx polling)) (pollLimit issuer))%Z.
Proof.
  intros final. split; [vm_compute; reflexivity|].
  apply (polls_bounded "" request issuer (viewOfTx polling)); [vm_compute; discriminate..|].
  apply (history_cons "" request issuer (resumeWorld polling "pollrep") [] polling); [|apply history_nil].
  apply resumes. reflexivity.
Defined.
End History.
