(* ===== verification/SignerLaws.v ===== *)
(** * What the signer returns and when it ends a transaction *)

From S2P Require Import Prelude GoString Types Demo Certificates Request Api IssuerSpec Metrics Runtime TransactionStore Configuration Workload Reporting DemoRuntime WorkloadLaws ProtocolClient ClientLaws Lifecycle Signer SignerTrace.
Import Certificates Request Api IssuerSpec Metrics TransactionStore Configuration Workload Reporting DemoRuntime WorkloadLaws ProtocolClient ClientLaws Lifecycle Signing SignerTrace.

Module SignerLaws.

Section laws.
Context `{Runtime} `{CertManager} {client : Client} `{!ProtocolClient.ClientLaws client}.
Context (ClusterResourceNamespace : string).

(** ** The chain handed to cert-manager *)

(** The PEM of a chain for this CSR that verifies under the CMP trust anchors
    the issuer names. *)
Definition certifies (issuer : Issuer) (der pem : bytes) : Prop :=
  ∃ roots chain, issuerTrust ClusterResourceNamespace issuer roots ∧ validChain der (Some roots) chain ∧ pem = encodeChainPEM chain.

Lemma recordedChain_binds t der c :
  recordedChain t der = Ok c →
  ∃ leaf rest csr, c = leaf :: rest ∧ ParseCertificateRequest der = inr csr ∧
    PublicKeysEqual (csr_PublicKey csr) (cert_PublicKey leaf) = true.
Proof.
  unfold recordedChain. rewrite bind_unit_ok, bind_ok. intros (_ & chain & _ & Hr). rewrite bind_ok in Hr.
  destruct Hr as (csr & Hcsr & Hr). rewrite bind_ok in Hr. destruct Hr as (leaf & Hl & Hr).
  rewrite deref_ok in Hl. rewrite bind_unit_ok, reject_if_ok in Hr. destruct Hr as [Hk [= <-]]. simplify_bool.
  destruct chain as [|leaf' rest]; simplify_eq/=. exists leaf, rest, csr.
  by destruct (ParseCertificateRequest der); simplify_eq.
Qed.

Lemma trusted_valid t der now c roots candidates chain :
  recordedChain t der = Ok c → trustedRecordedChain now c (Some roots) candidates = Ok chain →
  validChain der (Some roots) chain.
Proof.
  intros (leaf & rest & csr & -> & Hcsr & Hk)%recordedChain_binds. unfold trustedRecordedChain. rewrite mapErr_ok. simpl.
  intros Hv. pose proof Hv as Hv'. unfold validateAndOrderChain in Hv'. rewrite bind_ok in Hv'.
  destruct Hv' as (verified & _ & [= <-]). by exists now, (rest ++ candidates), csr, leaf, (untilSelfSigned (drop 1 verified)).
Qed.

Lemma failTransaction_returns {A} t err (Q : A → Prop) : returns (failTransaction t err) Q.
Proof. unfold failTransaction. apply returns_then. intros []. apply returns_fail. Qed.
#[local] Hint Resolve failTransaction_returns : core.

Lemma continuePolling_returns {A} labels t pending limits polled (Q : A → Prop) :
  returns (continuePolling labels t pending limits polled) Q.
Proof. unfold continuePolling. do 3 (apply returns_then; intros ?). apply returns_fail. Qed.

Lemma continueConfirming_returns {A} labels t chain pending limits polled (Q : A → Prop) :
  returns (continueConfirming labels t chain pending limits polled) Q.
Proof. unfold continueConfirming. do 3 (apply returns_then; intros ?). apply returns_fail. Qed.

Lemma confirm_returns labels t request limits chain pending started :
  returns (confirm labels t request limits chain pending started) (λ pem, pem = encodeChainPEM chain).
Proof.
  unfold confirm. apply returns_then. intros now. destruct (time_After _ _); [done|]. destruct (_ <=? _)%Z; [done|].
  do 3 (apply returns_then; intros ?). destruct a1 as [e|result]; [done|].
  destruct (PendingConfirmation result); [apply continueConfirming_returns|].
  do 2 (apply returns_then; intros ?). by apply returns_ret.
Qed.

Lemma resumeConfirmation_returns issuer roots labels t request limits der started :
  CMPTrust request = Some roots → issuerTrust ClusterResourceNamespace issuer roots →
  returns (resumeConfirmation labels t request limits der started) (certifies issuer der).
Proof.
  intros Htrust Hroots. unfold resumeConfirmation. apply returns_then. intros now.
  destruct (_ ← _; _) as [chain|e|] eqn:Ec; [|done|by apply returns_lift]. destruct (tx_CertReqID _); [|done].
  apply returns_then. intros signer. eapply returns_mono; [apply confirm_returns|]. intros pem ->.
  rewrite bind_ok, Htrust in Ec. destruct Ec as (c & Hc & Ht). exists roots, chain. eauto using trusted_valid.
Qed.

Lemma exchange_returns request t limits : returns (exchange request t limits) (enrollmentResultOK request).
Proof.
  unfold exchange. apply returns_then. intros now. destruct (time_After _ _); [apply returns_fail|].
  destruct (negb _).
  - apply returns_then. intros _. destruct (bool_decide _); [apply enrollIR_result|].
    destruct (bool_decide _); [apply enrollKUR_result|apply enrollP10CR_result].
  - destruct (tx_CertReqID _); [|apply returns_fail]. destruct (bool_decide _); [apply returns_fail|].
    destruct (_ <=? _)%Z; [apply returns_fail|]. do 2 (apply returns_then; intros ?). apply poll_result.
Qed.

Lemma advance_returns issuer roots labels request c er t operation der started :
  CSRDER er = der → CMPTrust er = Some roots → issuerTrust ClusterResourceNamespace issuer roots →
  returns (advance labels request c er t operation der started) (certifies issuer der).
Proof.
  intros Hder Htrust Hroots. unfold advance. destruct (bool_decide _); [by eapply resumeConfirmation_returns|].
  eapply returns_bind; [apply returns_try, exchange_returns|]. intros [e|result] Hr; [done|].
  destruct Hr as [([pending ->] & _)|(-> & Hv & _)]; [apply continuePolling_returns|]. simpl in Hv. rewrite Hder, Htrust in Hv.
  assert (Hok : certifies issuer der (encodeChainPEM (Chain result))) by (exists roots, (Chain result); auto).
  destruct (PendingConfirmation result).
  - apply returns_then. intros t'. eapply returns_mono; [apply confirm_returns|]. by intros pem ->.
  - do 2 (apply returns_then; intros ?). by apply returns_ret.
Qed.

Lemma prepared_advance issuer labels request c c' er t operation der started :
  configurationOK ClusterResourceNamespace issuer c → prepared c der (c', er) →
  returns (advance labels request c' er t operation der started) (certifies issuer der).
Proof.
  intros Hc (_ & Hder & Htrust). destruct (conf_trust _ _ _ Hc) as (roots & Hr & Hroots).
  eapply advance_returns; [done| |done]. simpl in Htrust. congruence.
Qed.

Lemma resume_returns labels request issuer t der started :
  returns (resume ClusterResourceNamespace labels request issuer t der started) (certifies issuer der).
Proof.
  unfold resume. destruct (bool_decide _).
  - unfold recoverIssuedChain. destruct (recordedChain t der) as [c|e|] eqn:Ec; [|done|by apply returns_lift].
    eapply returns_bind; [apply returns_mapErrM, loadCMPTrust_spec|]. intros [roots candidates] Hroots.
    apply returns_then. intros now. destruct (trustedRecordedChain _ _ _ _) as [chain|e|] eqn:Et; [|done|by apply returns_lift].
    apply returns_ret. exists roots, chain. eauto using trusted_valid.
  - apply returns_then. intros ref. destruct (negb _); [done|].
    eapply returns_bind; [apply loadConfiguration_returns|]. intros c Hc.
    eapply returns_bind; [apply prepareEnrollment_returns|]. intros [c' er] Hp. destruct (negb _); [done|].
    by eapply prepared_advance.
Qed.

Lemma start_returns labels request issuer operation der started :
  returns (start ClusterResourceNamespace labels request issuer operation der started) (certifies issuer der).
Proof.
  unfold start. eapply returns_bind; [apply loadConfiguration_returns|]. intros c Hc.
  apply returns_then. intros [op fallback]. eapply returns_bind; [apply prepareEnrollment_returns|]. intros [c' er] Hp.
  do 3 (apply returns_then; intros ?). by eapply prepared_advance.
Qed.

Lemma reported_returns {A} labels started (m : M World error A) (Q : A → Prop) : returns m Q → returns (reported labels started m) Q.
Proof.
  intros Hm. unfold reported. eapply returns_bind; [by apply returns_try|]. intros [e|a] Ha; [|by apply returns_ret].
  apply returns_then. intros _. apply returns_fail.
Qed.

(** C2: The PEM bundle Sign returns to cert-manager always encodes a leaf-first chain whose leaf carries the
    public key of the request's CSR and which was verified against the CMP trust anchors the issuer's spec
    names, whether it was just issued, confirmed in a later reconcile or recovered from the record. *)
Theorem Sign_returns_certified request issuer :
  returns (Sign ClusterResourceNamespace request issuer)
    (λ pem, ∃ csr der, cro_Details request = inr csr ∧ ParseCertificateRequestDER csr = Ok der ∧ certifies issuer der pem).
Proof.
  unfold Sign. apply returns_then. intros started.
  eapply (returns_bind _ _ (λ r, ∃ csr, cro_Details request = inr csr ∧ ParseCertificateRequestDER csr = Ok r.1.1)).
  - apply reported_returns. unfold identify.
    eapply returns_bind; [apply returns_lift; intros csr Hcsr; exact Hcsr|]. intros csr Hcsr.
    eapply returns_bind; [apply returns_lift; intros der Hder; exact Hder|]. intros der Hder. rewrite mapErr_ok in Hder.
    do 2 (apply returns_then; intros ?). apply returns_ret. exists csr. by destruct (cro_Details request); simplify_eq.
  - intros [[der operation] transaction] (csr & Hcsr & Hder). simpl in Hder.
    assert (Hall : ∀ pem, certifies issuer der pem →
      ∃ csr' der', cro_Details request = inr csr' ∧ ParseCertificateRequestDER csr' = Ok der' ∧ certifies issuer der' pem) by eauto.
    destruct transaction as [t|].
    + apply returns_then. intros _. eapply returns_mono; [apply reported_returns, resume_returns|exact Hall].
    + eapply returns_mono; [apply reported_returns, start_returns|exact Hall].
Qed.

(** ** The events of a reconcile *)

(** What a reconcile of [request] with [issuer] may log: reads of Secrets and of
    the owning Certificate (confined further below), messages to the server,
    operations on the transaction record, and metrics under the labels of this
    enrollment. *)
Inductive signerEvent (request : CertificateRequestObject) (issuer : Issuer) : event → Prop :=
| sign_secret key : signerEvent request issuer (EvReadSecret key)
| sign_owner key answer : signerEvent request issuer (EvReadCertificate key answer)
| sign_post operation endpoint der : signerEvent request issuer (EvPost operation endpoint der)
| sign_loaded t : signerEvent request issuer (EvLoaded t)
| sign_create t : signerEvent request issuer (EvCreate t)
| sign_update t : signerEvent request issuer (EvUpdateStatus t)
| sign_delete key uid : signerEvent request issuer (EvDelete key uid)
| sign_enroll operation r : signerEvent request issuer (EvEnroll operation r)
| sign_poll r : signerEvent request issuer (EvPoll r)
| sign_confirm r : signerEvent request issuer (EvConfirm r)
| sign_warning reason : signerEvent request issuer (EvWarning reason)
| sign_outcome result elapsed :
    complete (enrollmentMetricLabels issuer request) = true → result ∈ [ResultIssued; ResultFailed] →
    signerEvent request issuer (EvOutcome (values (enrollmentMetricLabels issuer request)) result elapsed)
| sign_failure err :
    complete (enrollmentMetricLabels issuer request) = true →
    signerEvent request issuer (EvFailure (values (enrollmentMetricLabels issuer request)) (failureLabels err).1 (failureLabels err).2)
| sign_wait :
    complete (enrollmentMetricLabels issuer request) = true →
    signerEvent request issuer (EvPollWait (values (enrollmentMetricLabels issuer request)))
| sign_confirmation confirmation :
    complete (enrollmentMetricLabels issuer request) = true → confirmation ∈ [confirmationExplicit; confirmationImplicit] →
    signerEvent request issuer (EvConfirmation (values (enrollmentMetricLabels issuer request)) confirmation).

Section events.
Context (request : CertificateRequestObject) (issuer : Issuer).
Abbreviation P := (signerEvent request issuer).
Abbreviation labels := (enrollmentMetricLabels issuer request).
#[local] Hint Constructors signerEvent : logs.

Lemma event_credentials ev : readsCredential ClusterResourceNamespace issuer ev → P ev.
Proof. intros (name & -> & _). constructor. Qed.
Lemma event_workload before ev : enrollmentRead request issuer before ev → P ev.
Proof. intros [renewal Hr]. destruct ev; try done; constructor. Qed.
Lemma event_posts {E A} (m : M World E A) : logs isPost m → logs P m.
Proof. intros Hm. eapply logs_mono; [done|]. intros []; (done || constructor). Qed.

Lemma event_loadConfiguration : logs P (loadConfiguration ClusterResourceNamespace issuer).
Proof. apply logs_mapErrM. eapply logs_mono; [apply loadRuntimeConfiguration_reads|apply event_credentials]. Qed.
Lemma event_loadCMPTrust : logs P (loadCMPTrust ClusterResourceNamespace issuer).
Proof. eapply logs_mono; [apply loadCMPTrust_spec|apply event_credentials]. Qed.
Lemma event_prepare c operation reason der : logs P (prepareEnrollment request issuer c operation reason der).
Proof. eapply ordered_logs; [apply prepareEnrollment_ordered|apply event_workload]. Qed.
Lemma event_select operation : logs P (selectRenewalFallback request issuer operation).
Proof. eapply ordered_logs; [apply selectRenewalFallback_ordered|apply event_workload]. Qed.
Lemma event_enrollP10CR r : logs P (EnrollP10CR r). Proof. apply event_posts, enrollP10CR_posts. Qed.
Lemma event_enrollIR r : logs P (EnrollIR r). Proof. apply event_posts, enrollIR_posts. Qed.
Lemma event_enrollKUR r : logs P (EnrollKUR r). Proof. apply event_posts, enrollKUR_posts. Qed.
Lemma event_poll r : logs P (PollP10CR r). Proof. apply event_posts, poll_posts. Qed.
Lemma event_confirm r : logs P (ConfirmP10CR r). Proof. apply event_posts, confirm_posts. Qed.
#[local] Hint Resolve event_loadConfiguration event_loadCMPTrust event_prepare event_select event_enrollP10CR
  event_enrollIR event_enrollKUR event_poll event_confirm : logs.

Lemma event_issued confirmation started :
  confirmation ∈ [confirmationExplicit; confirmationImplicit] → logs P (recordIssuedEnrollment labels confirmation started).
Proof.
  intros Hc. unfold recordIssuedEnrollment, RecordOutcome, RecordConfirmation. destruct (complete labels) eqn:Hl; logs_tac; constructor; set_solver.
Qed.
Lemma event_failed err started : logs P (recordFailedEnrollment labels err started).
Proof.
  destruct err as [err|]; [|apply logs_ret]. unfold recordFailedEnrollment, RecordOutcome, RecordFailure.
  rewrite (surjective_pairing (failureLabels err)).
  destruct (errors_As as_PendingError err), (complete labels) eqn:Hl; logs_tac; constructor; set_solver.
Qed.
Lemma event_wait : logs P (recordEnrollmentPoll labels).
Proof. unfold recordEnrollmentPoll, RecordPoll. destruct (complete labels) eqn:Hl; logs_tac. by constructor. Qed.
#[local] Hint Resolve event_failed event_wait : logs.

Lemma event_updateStatus label t : logs P (updateStatus label t).
Proof. unfold updateStatus. logs_tac. constructor. Qed.
Lemma event_fail {A} t err : logs P (failTransaction (A:=A) t err).
Proof. unfold failTransaction, remove, deleteTransaction. logs_tac. constructor. Qed.
#[local] Hint Resolve event_updateStatus event_fail : logs.
Lemma event_confirming t r limits chain pending started : logs P (confirm labels t r limits chain pending started).
Proof.
  unfold confirm, continueConfirming, recordConfirming, recordIssued. logs_tac; (constructor || apply event_issued; set_solver).
Qed.
Lemma event_exchange r t limits : logs P (exchange r t limits).
Proof. unfold exchange. logs_tac; constructor. Qed.
#[local] Hint Resolve event_confirming event_exchange : logs.

Lemma event_advance c r t operation der started : logs P (advance labels request c r t operation der started).
Proof.
  unfold advance, resumeConfirmation, continuePolling, recordPending, recordConfirming, recordIssued.
  logs_tac; apply event_issued; set_solver.
Qed.
#[local] Hint Resolve event_advance : logs.

Lemma Sign_events : logs P (Sign ClusterResourceNamespace request issuer).
Proof.
  unfold Sign, reported, identify, load, deleteTransaction, start, create, resume, recoverIssuedChain, reportRenewalFallback.
  logs_tac; constructor.
Qed.
End events.

(** ** Which Secrets a reconcile reads *)

(** What may be read after [before]: a Secret the issuer's spec names in its
    credential namespace, or what an enrollment may read of its workload. *)
Definition permittedRead (request : CertificateRequestObject) (issuer : Issuer) (before : list event) (ev : event) : Prop :=
  match ev with
  | EvReadSecret _ => readsCredential ClusterResourceNamespace issuer ev ∨ enrollmentRead request issuer before ev
  | EvReadCertificate _ _ => enrollmentRead request issuer before ev
  | _ => True
  end.

Section reads.
Context (request : CertificateRequestObject) (issuer : Issuer).
Abbreviation permitted := (ordered (permittedRead request issuer)).

Lemma permittedRead_stable : stable (permittedRead request issuer).
Proof.
  intros before earlier []; simpl; try done. intros [?|?]; [by left|right; by apply enrollmentRead_stable].
Qed.

(** Events that read nothing of the cluster's Secrets and Certificates. *)
Definition readless (ev : event) : Prop := match ev with EvReadSecret _ | EvReadCertificate _ _ => False | _ => True end.

Lemma permitted_readless {E A} (m : M World E A) : logs readless m → adds permitted m.
Proof. intros Hm. eapply orderly_logs; [exact Hm|]. by intros before []. Qed.
Lemma permitted_credentials {E A} (m : M World E A) : logs (readsCredential ClusterResourceNamespace issuer) m → adds permitted m.
Proof. intros Hm. eapply orderly_logs; [exact Hm|]. intros before ev Hr. pose proof Hr as (name & -> & _). by left. Qed.
Lemma permitted_enrollment {E A} (m : M World E A) : adds (ordered (enrollmentRead request issuer)) m → adds permitted m.
Proof.
  intros Hm. eapply adds_mono; [exact Hm|]. intros l. apply ordered_mono. intros before []; simpl; try done. intros ?. by right.
Qed.
Lemma permitted_bind {E A B} (m : M World E A) (f : A → M World E B) :
  adds permitted m → (∀ a, adds permitted (f a)) → adds permitted (m ≫= f).
Proof. apply orderly_bind, permittedRead_stable. Qed.

Lemma readless_posts {E A} (m : M World E A) : logs isPost m → logs readless m.
Proof. intros Hm. eapply logs_mono; [exact Hm|]. by intros []. Qed.
Lemma readless_issued labels confirmation started : logs readless (recordIssuedEnrollment labels confirmation started).
Proof. unfold recordIssuedEnrollment, RecordOutcome, RecordConfirmation. logs_tac; done. Qed.
Lemma readless_failed labels err started : logs readless (recordFailedEnrollment labels err started).
Proof. unfold recordFailedEnrollment, RecordOutcome, RecordFailure. logs_tac; done. Qed.
#[local] Hint Resolve readless_issued readless_failed : logs.

Lemma readless_failTransaction {A} t err : logs readless (failTransaction (A:=A) t err).
Proof. unfold failTransaction, remove, deleteTransaction. logs_tac. done. Qed.
#[local] Hint Resolve readless_failTransaction : logs.

Lemma readless_advance labels c er t operation der started : logs readless (advance labels request c er t operation der started).
Proof.
  assert (Hp : ∀ r, logs readless (PollP10CR r)) by (intros; apply readless_posts, poll_posts).
  assert (Hc : ∀ r, logs readless (ConfirmP10CR r)) by (intros; apply readless_posts, confirm_posts).
  assert (Hp10 : ∀ r, logs readless (EnrollP10CR r)) by (intros; apply readless_posts, enrollP10CR_posts).
  assert (Hir : ∀ r, logs readless (EnrollIR r)) by (intros; apply readless_posts, enrollIR_posts).
  assert (Hkur : ∀ r, logs readless (EnrollKUR r)) by (intros; apply readless_posts, enrollKUR_posts).
  unfold advance, resumeConfirmation, confirm, exchange, continuePolling, continueConfirming, recordPending, recordConfirming, recordIssued,
    updateStatus, recordEnrollmentPoll, RecordPoll.
  logs_tac; done.
Qed.

Lemma permitted_reported {A} labels started (m : M World error A) : adds permitted m → adds permitted (reported labels started m).
Proof.
  intros Hm. unfold reported. apply permitted_bind; [by apply adds_try|]. intros [err|a]; [|apply permitted_readless, logs_ret].
  apply permitted_readless. logs_tac.
Qed.

Lemma Sign_permitted : adds permitted (Sign ClusterResourceNamespace request issuer).
Proof.
  assert (Hadv : ∀ labels c er t operation der started, adds permitted (advance labels request c er t operation der started))
    by (intros; apply permitted_readless, readless_advance).
  assert (Hcfg : adds permitted (loadConfiguration ClusterResourceNamespace issuer))
    by (apply permitted_credentials, logs_mapErrM, loadRuntimeConfiguration_reads).
  assert (Hprep : ∀ c operation reason der, adds permitted (prepareEnrollment request issuer c operation reason der))
    by (intros; apply permitted_enrollment, prepareEnrollment_ordered).
  assert (Hfail : ∀ t err, adds permitted (failTransaction (A:=bytes) t err)) by (intros; apply permitted_readless, readless_failTransaction).
  unfold Sign. apply permitted_bind; [apply permitted_readless, logs_outside|]. intros started.
  apply permitted_bind; [apply permitted_reported, permitted_readless; unfold identify, load, deleteTransaction; logs_tac; done|].
  intros [[der operation] [t|]].
  - apply permitted_bind.
    { apply permitted_reported, permitted_readless. case_match; (apply logs_lift || apply readless_failTransaction). }
    intros _. apply permitted_reported. unfold resume, recoverIssuedChain. case_match.
    + case_match; [|by apply Hfail|apply permitted_readless, logs_lift].
      apply permitted_bind; [apply permitted_credentials, logs_mapErrM, loadCMPTrust_spec|]. intros [roots candidates].
      apply permitted_bind; [apply permitted_readless, logs_outside|]. intros now.
      case_match; [apply permitted_readless, logs_ret|by apply Hfail|apply permitted_readless, logs_lift].
    + apply permitted_bind; [apply permitted_readless, logs_lift|]. intros ref. case_match; [by apply Hfail|].
      apply permitted_bind; [exact Hcfg|]. intros c. apply permitted_bind; [apply Hprep|]. intros [c' er]. case_match; auto.
  - apply permitted_reported. unfold start. apply permitted_bind; [exact Hcfg|]. intros c.
    apply permitted_bind; [apply permitted_enrollment, selectRenewalFallback_ordered|]. intros [op fallback].
    apply permitted_bind; [apply Hprep|]. intros [c' er]. apply permitted_bind; [apply permitted_readless, logs_outside|]. intros now.
    apply permitted_bind; [apply permitted_readless; unfold create, updateStatus; logs_tac; done|]. intros t.
    apply permitted_bind; [apply permitted_readless; unfold reportRenewalFallback; logs_tac; done|]. intros _. apply Hadv.
Qed.
End reads.

(** C14: A reconcile reads only what it may read: Secrets that the issuer's spec names, in the one namespace the
    issuer takes its credentials from; the Certificate the CertificateRequest's controlling owner reference
    names; and, only after the API server has answered in the same reconcile with that Certificate and it is
    authorized (UID, liveness, issuer and revision), the current and staged Secrets it names in the request's
    own namespace. *)
Theorem Sign_reads_permitted request issuer :
  adds (ordered (permittedRead request issuer)) (Sign ClusterResourceNamespace request issuer).
Proof. apply Sign_permitted. Qed.

(** ** Ending a transaction *)

(** Whether a failure ends the transaction: a protocol failure by its kind, any
    other by what the controller said. *)
Definition endsTransaction (err : error) : bool :=
  match errors_As as_Error err with
  | Some protocolError =>
      match Kind protocolError with
      | ErrorKindPending | ErrorKindRetryable => isPermanent (Wraps protocolError)
      | _ => true
      end
  | None => isPermanent err
  end.

Lemma isPermanent_mapped err : isPermanent (mapProtocolError err) = endsTransaction err.
Proof.
  unfold mapProtocolError, endsTransaction. destruct (errors_As as_Error err) as [pe|]; [|done].
  by destruct (Kind pe).
Qed.

(** C20: failTransaction deletes the record, bound to the UID that was read, exactly when the failure is final: a
    permanent, security or unclassified protocol failure, or an error the controller marked permanent.  A
    retryable failure leaves the record untouched and asks for a retry.  It always returns an error, the
    mapped one unless the deletion itself failed. *)
Theorem failTransaction_ends {A} t err w :
  w_log (failTransaction (A:=A) t err w).2 =
    (if endsTransaction err then [EvDelete (transactionKey t) (deletePreconditions t)] else []) ++ w_log w ∧
  ∃ e, (failTransaction (A:=A) t err w).1 = Err e ∧
    (e = mapProtocolError err ∨ endsTransaction err = true ∧ ∃ cause, e = Wrapped "remove CMP transaction state" cause).
Proof.
  rewrite <- isPermanent_mapped. unfold failTransaction. destruct (isPermanent (mapProtocolError err)); [|eauto].
  unfold remove, deleteTransaction, mbind, M_bind, emit, modify, outside, Prelude.step. simpl.
  destruct (ext_DeleteTransaction (transactionKey t) (deletePreconditions t) (w_ext w)) as [[deleted|] x]; simpl;
    [destruct deleted|]; simpl; eauto 8.
Qed.

(** ** Resuming *)

(** The bindings a record must carry to be resumed. *)
Record resumable (t : CMPTransaction) (csrDigest operation fallbackOperation : string) (issuer : TransactionIssuerReference) : Prop := {
  resumable_bound : ConfigurationDigest (Spec t) ≠ ""%string ∧ tx_Operation (Spec t) ≠ ""%string;
  resumable_csr : CSRDigest (Spec t) = csrDigest ∧ csrDigest ≠ ""%string;
  resumable_issuer : ∃ ref, IssuerRef (Spec t) = Some ref ∧ ref_Name ref = ref_Name issuer ∧ ref_Kind ref = ref_Kind issuer ∧
    ref_UID ref = ref_UID issuer;
  resumable_operation :
    tx_RenewalFallback (Spec t) = ""%string ∧ tx_Operation (Spec t) = operation ∨
    (tx_RenewalFallback (Spec t) = RenewalFallbackCurrentCertificateMissing ∨
     tx_RenewalFallback (Spec t) = RenewalFallbackCurrentCertificateExpired) ∧
    operation = TransactionOperationKUR ∧ tx_Operation (Spec t) = fallbackOperation
}.

(** C22: A recorded transaction is resumed exactly when it carries every binding and all of them match: the digest
    of this CSR, this issuer by name, kind and UID, and the operation this request selects, or, under a known
    fallback reason, the operation a KUR of this issuer falls back to. *)
Theorem validateResumedTransaction_iff t csrDigest operation fallbackOperation issuer :
  validateResumedTransaction t csrDigest operation fallbackOperation issuer = Ok tt ↔
  resumable t csrDigest operation fallbackOperation issuer.
Proof.
  unfold validateResumedTransaction. rewrite !bind_unit_ok, !reject_if_ok. split.
  - intros (Hb & Hc & Hi & Ho). simplify_bool. destruct Hb as [[Hd Hconf] Hop]. constructor; [done|naive_solver| |].
    + destruct (IssuerRef (Spec t)) as [ref|]; [|done]. simplify_bool. exists ref. naive_solver.
    + destruct (bool_decide (tx_RenewalFallback (Spec t) = "")) eqn:E; simpl in Ho; rewrite reject_if_ok in Ho; simplify_bool; naive_solver.
  - intros [[? ?] [? ?] (ref & Hr & ? & ? & ?) Ho]. rewrite Hr. split_and!; try (simplify_bool; naive_solver).
    destruct Ho as [[Hf Ho]|(Hf & Hop & Hfo)].
    + rewrite bool_decide_true by done. simpl. rewrite reject_if_ok. simplify_bool. done.
    + rewrite bool_decide_false by (by destruct Hf as [-> | ->]). simpl. rewrite reject_if_ok. simplify_bool. naive_solver.
Qed.

(** ** Waiting *)

(** Under valid limits the wait asked for after a pending answer is never negative or zero, never longer than
    maximumPollInterval, never shorter than minimumPollInterval unless the deadline comes first, and never
    reaches past a deadline that is still ahead. *)
Theorem retryDelay_bounds checkAfter limits deadline now :
  limitsOK limits →
  let delay := retryDelay checkAfter limits deadline now in
  (0 < delay ≤ MaximumPollInterval limits)%Z ∧
  (MinimumPollInterval limits ≤ delay ∨ delay = time_Sub deadline now)%Z ∧
  ((now < deadline)%Z → (delay ≤ time_Sub deadline now)%Z).
Proof.
  intros [_ Hmin Hint _]. unfold retryDelay, pollDelay. simpl.
  assert (Hpos : (now < deadline → 0 < time_Sub deadline now)%Z).
  { unfold time_Sub, sat64, int64_min, int64_max. lia. }
  revert Hpos. generalize (time_Sub deadline now). intros until_ Hpos.
  destruct (Z.ltb_spec checkAfter (MinimumPollInterval limits)); [|destruct (Z.ltb_spec (MaximumPollInterval limits) checkAfter)];
    (match goal with |- context [(0 <? until_)%Z && (until_ <? ?d)%Z] =>
       destruct (Z.ltb_spec 0 until_), (Z.ltb_spec until_ d) end; simpl; lia).
Qed.
End laws.

#[local] Existing Instances Demo.demoLibs CMPClient CMPClient_laws.

Lemma Sign_returns_certified_witness :
  (Sign "" request issuer demoWorld).1 = Ok "PL"%string ∧
  ∃ csr der, cro_Details request = inr csr ∧ ParseCertificateRequestDER csr = Ok der ∧ certifies "" issuer der "PL".
Proof.
  assert (Hok : (Sign "" request issuer demoWorld).1 = Ok "PL"%string) by (vm_compute; reflexivity).
  split; [exact Hok|]. exact (Sign_returns_certified "" request issuer demoWorld "PL" Hok).
Defined.

(** Reading another Secret of the issuer's namespace is not permitted. *)
Example foreign_read_forbidden : ¬ permittedRead "" request issuer [] (EvReadSecret ("ns", "other")%string).
Proof.
  intros [(name & [= <-] & Hin)|(renewal & _ & owner & c & Hin & _)]; [|by apply not_elem_of_nil in Hin].
  apply (bool_decide_pack _) in Hin. vm_compute in Hin. done.
Qed.

Lemma Sign_reads_permitted_witness :
  existsb (λ ev, match ev with EvReadSecret _ => true | _ => false end) (w_log (Sign "" request issuer demoWorld).2) = true ∧
  ∃ added, w_log (Sign "" request issuer demoWorld).2 = added ++ w_log demoWorld ∧ ordered (permittedRead "" request issuer) added.
Proof. split; [vm_compute; reflexivity|]. exact (Sign_reads_permitted "" request issuer demoWorld). Defined.

Definition demoLimits : TransactionSpec :=
  {| MaximumDuration := 10 * Minute; MinimumPollInterval := Second; MaximumPollInterval := 5 * Minute; MaximumPolls := 60 |}.

(** The server asks for an hour, four seconds before the deadline. *)
Lemma retryDelay_bounds_witness :
  retryDelay (60 * Minute) demoLimits (7 * Second) (3 * Second) = (4 * Second)%Z ∧
  (let delay := retryDelay (60 * Minute) demoLimits (7 * Second) (3 * Second) in
   (0 < delay ≤ MaximumPollInterval demoLimits) ∧
   (MinimumPollInterval demoLimits ≤ delay ∨ delay = time_Sub (7 * Second) (3 * Second)) ∧
   (3 * Second < 7 * Second → delay ≤ time_Sub (7 * Second) (3 * Second)))%Z.
Proof.
  split; [vm_compute; reflexivity|]. apply (retryDelay_bounds (60 * Minute) demoLimits (7 * Second) (3 * Second)).
  constructor; vm_compute; (reflexivity || discriminate).
Defined.
End SignerLaws.
