(* ===== verification/Accounting.v ===== *)
(** * Every enrollment is counted once

    The outcome metrics of one reconcile: [Sign] reports an issued or a failed
    enrollment exactly once, and nothing while it waits. *)

From S2P Require Import Prelude GoString Types Demo Api Metrics Runtime TransactionStore Configuration Workload Reporting DemoRuntime WorkloadLaws ProtocolClient ClientLaws Lifecycle Signer SignerTrace SignerLaws.
Import Api Metrics TransactionStore Configuration Workload Reporting DemoRuntime WorkloadLaws ProtocolClient ClientLaws Lifecycle Signing SignerTrace SignerLaws.

Module Accounting.

Section accounting.
Context `{Runtime} `{CertManager} {client : Client} `{!ProtocolClient.ClientLaws client}.
Context (ClusterResourceNamespace : string).

(** What an event says about the outcome of the enrollment: a counted result,
    or a record whose certificate an earlier reconcile issued and counted. *)
Definition recovered : string := "recovered".
Definition report (ev : event) : list string :=
  match ev with
  | EvOutcome _ result _ => [result]
  | EvLoaded (Some t) => if bool_decide (Phase (tx_Status t) = TransactionPhaseIssued) then [recovered] else []
  | _ => []
  end.
Definition unreported (ev : event) : Prop := report ev = [].

(** The reports of a log that is newest first, oldest first. *)
Definition reports (added : list event) : list string := flat_map report (reverse added).

Lemma reports_app l1 l2 : reports (l2 ++ l1) = reports l1 ++ reports l2.
Proof. unfold reports. by rewrite reverse_app, flat_map_app. Qed.

Lemma reports_unreported l : Forall unreported l → reports l = [].
Proof.
  induction 1 as [|ev l Hev _ IH]; [done|]. change (ev :: l) with ([ev] ++ l). rewrite reports_app, IH.
  unfold reports. simpl. by rewrite Hev.
Qed.

(** ** A program logic for reports *)

Definition yields {E A} (m : M World E A) (Q : outcome E A → list string → Prop) : Prop :=
  ∀ w, ∃ added, w_log (m w).2 = added ++ w_log w ∧ Q (m w).1 (reports added).

Lemma yields_mono {E A} (m : M World E A) (Q Q' : outcome E A → list string → Prop) :
  yields m Q → (∀ o r, Q o r → Q' o r) → yields m Q'.
Proof. intros Hm HQ w. destruct (Hm w) as (l & ? & ?). eauto. Qed.

Lemma yields_unreported {E A} (m : M World E A) (Q : outcome E A → list string → Prop) :
  logs unreported m → (∀ o, Q o []) → yields m Q.
Proof. intros Hm HQ w. destruct (Hm w) as (l & Hl & Pl). exists l. rewrite reports_unreported by done. auto. Qed.

Lemma yields_lift {E A} (o : outcome E A) (Q : outcome E A → list string → Prop) : Q o [] → yields (lift o) Q.
Proof. intros HQ w. by exists []. Qed.
Lemma yields_fail {E A} (e : E) (Q : outcome E A → list string → Prop) : Q (Err e) [] → yields (fail e) Q.
Proof. intros HQ w. by exists []. Qed.
Lemma yields_ret {E A} (a : A) (Q : outcome E A → list string → Prop) : Q (Ok a) [] → yields (mret a) Q.
Proof. intros HQ w. by exists []. Qed.
Lemma yields_emit {E} ev (Q : outcome E unit → list string → Prop) : Q (Ok tt) (report ev) → yields (emit ev) Q.
Proof. intros HQ w. exists [ev]. split; [done|]. unfold reports. simpl. by rewrite app_nil_r. Qed.

Lemma yields_outside {E A} (f : Ext → A * Ext) (Q : outcome E A → list string → Prop) :
  (∀ x, Q (Ok (f x).1) []) → yields (outside f) Q.
Proof.
  intros HQ w. exists []. unfold outside, Prelude.step. specialize (HQ (w_ext w)). by destruct (f (w_ext w)).
Qed.

Lemma yields_bind {E A B} (m : M World E A) (f : A → M World E B) (Q : outcome E B → list string → Prop) :
  yields m (λ o r, match o with Ok a => yields (f a) (λ o' r', Q o' (r ++ r')) | Err e => Q (Err e) r | Panic => Q Panic r end) →
  yields (m ≫= f) Q.
Proof.
  intros Hm w. destruct (Hm w) as (l & Hl & HQ). unfold mbind, M_bind. destruct (m w) as [[a|e|] w']; simpl in *; [|eauto..].
  destruct (HQ w') as (l' & Hl' & HQ'). exists (l' ++ l). by rewrite Hl', Hl, reports_app, app_assoc.
Qed.

Lemma yields_try {E E' A} (m : M World E A) (Q : outcome E' (E + A) → list string → Prop) :
  yields m (λ o r, match o with Ok a => Q (Ok (inr a)) r | Err e => Q (Ok (inl e)) r | Panic => Q Panic r end) →
  yields (try m) Q.
Proof. intros Hm w. destruct (Hm w) as (l & Hl & HQ). exists l. unfold try. by destruct (m w) as [[a|e|] w']. Qed.

(** A part that reports nothing. *)
Lemma yields_then {E A B} (m : M World E A) (f : A → M World E B) (Q : outcome E B → list string → Prop) :
  logs unreported m → (∀ e, Q (Err e) []) → Q Panic [] → (∀ a, yields (f a) Q) → yields (m ≫= f) Q.
Proof. intros Hm He HP Hf. apply yields_bind, yields_unreported; [done|]. intros [a|e|]; [apply Hf|apply He|apply HP]. Qed.

(** ** Parts that report nothing *)

Lemma unreported_enrollment request issuer before ev : enrollmentRead request issuer before ev → unreported ev.
Proof. intros [renewal Hr]. by destruct ev. Qed.
Lemma unreported_reads cluster issuer ev : readsCredential cluster issuer ev → unreported ev.
Proof. by intros (name & -> & _). Qed.
Lemma unreported_posts {E A} (m : M World E A) : logs isPost m → logs unreported m.
Proof. intros Hm. eapply logs_mono; [done|]. by intros []. Qed.

Lemma loadConfiguration_unreported issuer : logs unreported (loadConfiguration ClusterResourceNamespace issuer).
Proof. apply logs_mapErrM. eapply logs_mono; [apply loadRuntimeConfiguration_reads|apply unreported_reads]. Qed.
Lemma loadCMPTrust_unreported issuer : logs unreported (loadCMPTrust ClusterResourceNamespace issuer).
Proof. eapply logs_mono; [apply loadCMPTrust_spec|apply unreported_reads]. Qed.
Lemma prepareEnrollment_unreported request issuer c operation reason der :
  logs unreported (prepareEnrollment request issuer c operation reason der).
Proof. eapply ordered_logs; [apply prepareEnrollment_ordered|apply unreported_enrollment]. Qed.
Lemma selectRenewalFallback_unreported request issuer operation : logs unreported (selectRenewalFallback request issuer operation).
Proof. eapply ordered_logs; [apply selectRenewalFallback_ordered|apply unreported_enrollment]. Qed.
Lemma enrollP10CR_unreported r : logs unreported (EnrollP10CR r). Proof. apply unreported_posts, enrollP10CR_posts. Qed.
Lemma enrollIR_unreported r : logs unreported (EnrollIR r). Proof. apply unreported_posts, enrollIR_posts. Qed.
Lemma enrollKUR_unreported r : logs unreported (EnrollKUR r). Proof. apply unreported_posts, enrollKUR_posts. Qed.
Lemma poll_unreported r : logs unreported (PollP10CR r). Proof. apply unreported_posts, poll_posts. Qed.
Lemma confirm_unreported r : logs unreported (ConfirmP10CR r). Proof. apply unreported_posts, confirm_posts. Qed.
#[local] Hint Resolve loadConfiguration_unreported loadCMPTrust_unreported prepareEnrollment_unreported selectRenewalFallback_unreported
  enrollP10CR_unreported enrollIR_unreported enrollKUR_unreported poll_unreported confirm_unreported : logs.

Lemma updateStatus_unreported label t : logs unreported (updateStatus label t).
Proof. unfold updateStatus. logs_tac. done. Qed.
#[local] Hint Resolve updateStatus_unreported : logs.

Lemma failTransaction_unreported {A} t err : logs unreported (failTransaction (A:=A) t err).
Proof. unfold failTransaction, remove, deleteTransaction. logs_tac. done. Qed.
Lemma continuePolling_unreported {A} labels t pending limits polled :
  logs unreported (continuePolling (A:=A) labels t pending limits polled).
Proof. unfold continuePolling, recordPending, recordEnrollmentPoll, RecordPoll. logs_tac. done. Qed.
Lemma continueConfirming_unreported {A} labels t chain pending limits polled :
  logs unreported (continueConfirming (A:=A) labels t chain pending limits polled).
Proof. unfold continueConfirming, recordConfirming, recordEnrollmentPoll, RecordPoll. logs_tac. done. Qed.
Lemma recordIssued_unreported t chain : logs unreported (recordIssued t chain).
Proof. unfold recordIssued. logs_tac. Qed.
Lemma exchange_unreported r t limits : logs unreported (exchange r t limits).
Proof. unfold exchange. logs_tac; done. Qed.
#[local] Hint Resolve recordIssued_unreported exchange_unreported : logs.

(** ** What each part of a reconcile reports *)

Section labelled.
Context (labels : Labels) (Hlabels : complete labels = true).

(** Before the deferred report: a certificate is counted as it is issued. *)
Definition issuedOnce {A} (o : outcome error A) (r : list string) : Prop :=
  match o with Ok _ => r = [ResultIssued] | _ => r = [] end.

Lemma yields_failing {A} (m : M World error A) (Q : outcome error A → list string → Prop) :
  logs unreported m → returns m (λ _, False) → (∀ e, Q (Err e) []) → Q Panic [] → yields m Q.
Proof.
  intros Hl Hr He HP w. destruct (Hl w) as (l & ? & Pl). exists l. split; [done|]. rewrite reports_unreported by done.
  specialize (Hr w). destruct (m w) as [[a|e|] w']; simpl in *; [|done..]. by destruct (Hr a).
Qed.

Lemma yields_issued {A} confirmation started (a : A) :
  yields (_ ← recordIssuedEnrollment labels confirmation started; mret a) issuedOnce.
Proof.
  unfold recordIssuedEnrollment, RecordOutcome, RecordConfirmation. rewrite Hlabels.
  apply yields_bind. apply yields_then; [apply logs_outside|done|done|]. intros now.
  apply yields_bind, yields_emit. apply yields_emit. by apply yields_ret.
Qed.

Lemma fails_once {A} t err : yields (failTransaction (A:=A) t err) issuedOnce.
Proof. by apply yields_failing; [apply failTransaction_unreported|apply failTransaction_returns|..]. Qed.
#[local] Hint Resolve fails_once : core.

Lemma confirm_once t request limits chain pending started :
  yields (confirm labels t request limits chain pending started) issuedOnce.
Proof.
  unfold confirm. apply yields_then; [apply logs_outside|done|done|]. intros now.
  destruct (time_After _ _); [done|]. destruct (_ <=? _)%Z; [done|].
  apply yields_then; [apply logs_lift|done|done|]. intros leaf.
  apply yields_then; [by apply logs_emit|done|done|]. intros _.
  apply yields_then; [apply logs_try, confirm_unreported|done|done|]. intros [err|result]; [done|].
  destruct (PendingConfirmation result).
  - by apply yields_failing; [apply continueConfirming_unreported|apply continueConfirming_returns|..].
  - apply yields_then; [apply recordIssued_unreported|done|done|]. intros _. apply yields_issued.
Qed.

Lemma resumeConfirmation_once t request limits der started :
  yields (resumeConfirmation labels t request limits der started) issuedOnce.
Proof.
  unfold resumeConfirmation. apply yields_then; [apply logs_outside|done|done|]. intros now.
  destruct (_ ← _; _); [|done|by apply yields_lift]. destruct (tx_CertReqID _); [|done].
  apply yields_then; [apply logs_lift|done|done|]. intros signer. apply confirm_once.
Qed.

Lemma advance_once request c er t operation der started : yields (advance labels request c er t operation der started) issuedOnce.
Proof.
  unfold advance. destruct (bool_decide _); [apply resumeConfirmation_once|].
  apply yields_then; [apply logs_try, exchange_unreported|done|done|]. intros [err|result]; [done|].
  destruct (Pending result).
  { by apply yields_failing; [apply continuePolling_unreported|apply continuePolling_returns|..]. }
  destruct (PendingConfirmation result).
  - apply yields_then; [unfold recordConfirming; logs_tac|done|done|]. intros t'. apply confirm_once.
  - apply yields_then; [apply recordIssued_unreported|done|done|]. intros _. apply yields_issued.
Qed.

Lemma start_once request issuer operation der started :
  yields (start ClusterResourceNamespace labels request issuer operation der started) issuedOnce.
Proof.
  unfold start. apply yields_then; [apply loadConfiguration_unreported|done|done|]. intros c.
  apply yields_then; [apply selectRenewalFallback_unreported|done|done|]. intros [op fallback].
  apply yields_then; [apply prepareEnrollment_unreported|done|done|]. intros [c' er].
  apply yields_then; [apply logs_outside|done|done|]. intros now.
  apply yields_then; [unfold create; logs_tac; done|done|done|]. intros t.
  apply yields_then; [destruct fallback; unfold reportRenewalFallback; logs_tac; done|done|done|]. intros _. apply advance_once.
Qed.

(** A record already issued was counted when its chain was recorded. *)
Definition alreadyIssued (t : CMPTransaction) : bool := bool_decide (Phase (tx_Status t) = TransactionPhaseIssued).

Lemma resume_once request issuer t der started :
  yields (resume ClusterResourceNamespace labels request issuer t der started)
    (λ o r, if alreadyIssued t then r = [] else issuedOnce o r).
Proof.
  unfold resume, alreadyIssued. destruct (bool_decide _).
  - apply yields_unreported; [|done]. unfold recoverIssuedChain. logs_tac; apply failTransaction_unreported || apply loadCMPTrust_unreported.
  - apply yields_then; [apply logs_lift|done|done|]. intros ref. destruct (negb _); [done|].
    apply yields_then; [apply loadConfiguration_unreported|done|done|]. intros c.
    apply yields_then; [apply prepareEnrollment_unreported|done|done|]. intros [c' er]. destruct (negb _); [done|]. apply advance_once.
Qed.

(** The deferred report: a failure that is not a wait is counted. *)
Definition failed (e : error) : list string :=
  if bool_decide (is_Some (errors_As as_PendingError e)) then [] else [ResultFailed].

Lemma yields_reported {A} started (m : M World error A) (Q : outcome error A → list string → Prop) :
  yields m (λ o r, match o with Ok a => Q (Ok a) r | Err e => Q (Err e) (r ++ failed e) | Panic => Q Panic r end) →
  yields (reported labels started m) Q.
Proof.
  intros Hm. unfold reported. apply yields_bind, yields_try. eapply yields_mono; [exact Hm|].
  intros [a|e|] r HQ; [apply yields_ret; by rewrite app_nil_r| |done].
  unfold recordFailedEnrollment, failed in *. destruct (errors_As as_PendingError e) as [p|].
  - apply yields_bind, yields_ret, yields_fail. by rewrite !app_nil_r in *.
  - destruct (failureLabels e) as [f classification]. unfold RecordOutcome, RecordFailure. rewrite Hlabels.
    apply yields_bind, yields_bind, yields_outside. intros x. apply yields_bind, yields_emit, yields_emit. by apply yields_fail.
Qed.
End labelled.

Lemma load_reports namespace name uid :
  yields (load namespace name uid)
    (λ o r, match o with
            | Ok (Some t) => r = (if alreadyIssued t then [recovered] else [])
            | _ => r = []
            end).
Proof.
  unfold load. apply yields_then; [apply logs_outside|done|done|]. intros r.
  assert (Hnone : yields (E:=error) (_ ← emit (EvLoaded None); mret (None : option CMPTransaction))
    (λ o r, match o with Ok (Some t) => r = (if alreadyIssued t then [recovered] else []) | _ => r = [] end)).
  { apply yields_bind, yields_emit. by apply yields_ret. }
  destruct r as [err|t]; [destruct err; (exact Hnone || by apply yields_fail)|].
  destruct (negb _).
  - apply yields_then; [unfold deleteTransaction; logs_tac; done|done|done|].
    intros [[]|]; (exact Hnone || by apply yields_fail).
  - apply yields_bind, yields_emit. apply yields_ret, app_nil_r.
Qed.

Lemma enrollmentMetricLabels_complete issuer request :
  issuer_Name issuer ≠ ""%string → complete (enrollmentMetricLabels issuer request) = true.
Proof.
  intros Hn. assert (Hop : enrollmentOperation request ≠ ""%string) by (unfold enrollmentOperation; go_cases; done).
  unfold complete, enrollmentMetricLabels. destruct (issuer_Kind issuer); simpl; rewrite !bool_decide_false; try done;
    by destruct (issuer_Namespace issuer).
Qed.

(** The reports of a whole reconcile. *)
Definition accounted {A} (o : outcome error A) (r : list string) : Prop :=
  match o with
  | Ok _ => r = [ResultIssued] ∨ r = [recovered]
  | Err e => r = failed e ∨ r = recovered :: failed e
  | Panic => r = [] ∨ r = [recovered]
  end.

(** Every reconcile is counted once: a returned certificate is counted as issued exactly once, unless it was
    recovered from a record whose issuance an earlier reconcile already counted; a failure is counted as
    failed exactly once; and a reconcile that only waits for the server counts nothing. *)
Lemma Sign_accounted request issuer :
  issuer_Name issuer ≠ ""%string → yields (Sign ClusterResourceNamespace request issuer) accounted.
Proof.
  intros Hl%(enrollmentMetricLabels_complete _ request). unfold Sign. apply yields_bind, yields_outside. intros x.
  apply yields_bind, yields_reported; [done|]. unfold identify.
  do 3 (apply yields_bind, yields_lift; match goal with |- match ?o with _ => _ end => destruct o end; [|by left|by left]).
  apply yields_bind. eapply yields_mono; [apply load_reports|]. intros [[t|]|e|] r ->; [| |by left..].
  - apply yields_ret. rewrite app_nil_r. apply yields_bind, yields_reported; [done|].
    destruct (validateResumedTransaction _ _ _ _ _) as [[]|e|].
    + apply yields_lift, yields_reported; [done|]. eapply yields_mono; [apply resume_once; done|].
      destruct (alreadyIssued t); intros [pem|e|] r; simpl; intros ->; simpl; auto.
    + apply yields_failing; [apply failTransaction_unreported|apply failTransaction_returns|..];
        destruct (alreadyIssued t); simpl; auto.
    + apply yields_lift. destruct (alreadyIssued t); simpl; auto.
  - apply yields_ret, yields_reported; [done|]. eapply yields_mono; [apply start_once; done|].
    intros [pem|e|] r; simpl; intros ->; auto.
Qed.

End accounting.
End Accounting.
