(* ===== verification/Collectors.v ===== *)
(** * Metric collectors: the descriptors of internal/metrics/metrics.go and the
    series a reconcile publishes in them *)

From S2P Require Import Prelude GoString Types Demo Api Metrics Runtime Configuration Workload Reporting DemoRuntime ProtocolClient ClientLaws Signer SignerTrace SignerLaws Accounting.
Import Api Metrics Configuration Workload Reporting DemoRuntime ProtocolClient ClientLaws Signing SignerTrace SignerLaws Accounting.

Module Collectors.

(** namespace prefixes every metric this project publishes. *)
Definition namespace : string := "cmp_issuer".

(** The options and label names of a [prometheus.CounterVec] or HistogramVec;
    the bucket bounds of a histogram are in milliseconds. *)
Record Collector := { collector_Namespace : string; collector_Name : string; Buckets : list Z; labelNames : list string }.
#[global] Instance Collector_eq_dec : EqDecision Collector.
Proof. solve_decision. Defined.

Definition sharedLabels : list string := ["issuer_kind"; "issuer"; "operation"]%string.

Definition enrollmentTotal : Collector :=
  {| collector_Namespace := namespace; collector_Name := "enrollment_total"; Buckets := []; labelNames := sharedLabels ++ ["result"%string] |}.
Definition enrollmentDuration : Collector :=
  {| collector_Namespace := namespace; collector_Name := "enrollment_duration_seconds";
     Buckets := [100; 250; 500; 1000; 2500; 5000; 10000; 30000; 60000; 120000; 300000; 600000]%Z;
     labelNames := sharedLabels ++ ["result"%string] |}.
Definition enrollmentFailures : Collector :=
  {| collector_Namespace := namespace; collector_Name := "enrollment_failures_total"; Buckets := [];
     labelNames := sharedLabels ++ ["failure"; "classification"]%string |}.
Definition enrollmentPolls : Collector :=
  {| collector_Namespace := namespace; collector_Name := "enrollment_polls_total"; Buckets := []; labelNames := sharedLabels |}.
Definition enrollmentConfirmations : Collector :=
  {| collector_Namespace := namespace; collector_Name := "enrollment_confirmations_total"; Buckets := [];
     labelNames := sharedLabels ++ ["confirmation"%string] |}.

(** What init publishes; MustRegister panics on two collectors of one name. *)
Definition registered : list Collector :=
  [enrollmentTotal; enrollmentDuration; enrollmentFailures; enrollmentPolls; enrollmentConfirmations].
Definition fqName (c : Collector) : string := collector_Namespace c +:+ "_" +:+ collector_Name c.

Section series.
Context `{Runtime}.

(** The calls of WithLabelValues behind a recorded metric. *)
Definition recordings (ev : event) : list (Collector * list string) :=
  match ev with
  | EvOutcome labels result _ => [(enrollmentTotal, labels ++ [result]); (enrollmentDuration, labels ++ [result])]
  | EvFailure labels failure classification => [(enrollmentFailures, labels ++ [failure; classification])]
  | EvPollWait labels => [(enrollmentPolls, labels)]
  | EvConfirmation labels confirmation => [(enrollmentConfirmations, labels ++ [confirmation])]
  | _ => []
  end.

(** The value of a series after the events of [log]. *)
Definition counter (c : Collector) (series : list string) (log : list event) : nat :=
  length (filter (λ r, r = (c, series)) (flat_map recordings log)).

Lemma counter_app c series l1 l2 : counter c series (l1 ++ l2) = counter c series l1 + counter c series l2.
Proof. unfold counter. by rewrite flat_map_app, filter_app, length_app. Qed.
End series.

(** ** Labels *)

(** The value a series has for a label. *)
Fixpoint valueOf (label : string) (names series : list string) : option string :=
  match names, series with
  | name :: names, value :: series => if bool_decide (name = label) then Some value else valueOf label names series
  | _, _ => None
  end.

Section labels.
Context `{Runtime} `{CertManager} {client : Client} `{!ProtocolClient.ClientLaws client}.
Context (ClusterResourceNamespace : string) (request : CertificateRequestObject) (issuer : Issuer).

Abbreviation labels := (enrollmentMetricLabels issuer request).

Definition classifications : list string := classificationUnknown :: map kindString [ErrorKindPermanent; ErrorKindRetryable; ErrorKindPending; ErrorKindSecurity; ErrorKindUnknown].

(** The values a label takes in this reconcile: only the failure of a failed
    attempt is not drawn from a fixed list. *)
Definition domain (label value : string) : Prop :=
  (label = "issuer_kind" → value ∈ [issuerKindNamespaced; issuerKindCluster])%string ∧
  (label = "issuer" → value = label_Issuer labels ∧ value ≠ "")%string ∧
  (label = "operation" → value ∈ [OperationEnrollment; OperationRenewal])%string ∧
  (label = "result" → value ∈ [ResultIssued; ResultFailed])%string ∧
  (label = "classification" → value ∈ classifications)%string ∧
  (label = "confirmation" → value ∈ [confirmationExplicit; confirmationImplicit])%string.

(** A call of WithLabelValues with one value for each label of the collector;
    with another number of values it panics. *)
Definition labelled (r : Collector * list string) : Prop :=
  r.1 ∈ registered ∧ length r.2 = length (labelNames r.1) ∧
  ∀ label value, valueOf label (labelNames r.1) r.2 = Some value → domain label value.

Lemma domain_issuer_kind : domain "issuer_kind" (IssuerKind labels).
Proof. split_and!; try done. intros _. unfold enrollmentMetricLabels. destruct (issuer_Kind issuer); set_solver. Qed.
Lemma domain_operation : domain "operation" (label_Operation labels).
Proof.
  split_and!; try done. intros _. unfold enrollmentMetricLabels, enrollmentOperation.
  destruct (issuer_Kind issuer); simpl; go_cases; set_solver.
Qed.
Lemma domain_issuer : complete labels = true → domain "issuer" (label_Issuer labels).
Proof.
  intros Hc. split_and!; try done. intros _. split; [done|]. unfold complete in Hc.
  rewrite !andb_true_iff, !negb_true_iff, !bool_decide_eq_false in Hc. tauto.
Qed.

Lemma failureLabels_domain err : domain "classification" (failureLabels err).2.
Proof.
  split_and!; try done. intros _. unfold failureLabels, configurationClassification, classifications.
  destruct (errors_As as_Error err) as [e|]; simpl; [destruct (Kind e); set_solver|].
  destruct (errors_As as_configurationError err) as [[]|]; set_solver.
Qed.

(** The shared labels carry the values of this enrollment, and the rest their own. *)
Lemma valueOf_shared names rest :
  complete labels = true → (∀ label value, valueOf label names rest = Some value → domain label value) →
  ∀ label value, valueOf label (sharedLabels ++ names) (values labels ++ rest) = Some value → domain label value.
Proof.
  intros Hc Hrest label value. simpl. repeat (case_bool_decide; [intros; simplify_eq|]);
    auto using domain_issuer_kind, domain_issuer, domain_operation.
Qed.

Lemma labelled_recording c names rest :
  c ∈ registered → labelNames c = sharedLabels ++ names → length rest = length names → complete labels = true →
  (∀ label value, valueOf label names rest = Some value → domain label value) → labelled (c, values labels ++ rest).
Proof.
  intros Hc Hn Hlen Hl Hrest. unfold labelled. simpl fst. simpl snd. rewrite Hn.
  split_and!; [done|simpl; by rewrite Hlen|by apply valueOf_shared].
Qed.

Lemma domain_one name v label value : domain name v → valueOf label [name] [v] = Some value → domain label value.
Proof. intros Hd. simpl. case_bool_decide; [|done]. by intros; simplify_eq. Qed.

Lemma domain_failure failure : domain "failure" failure.
Proof. by split_and!. Qed.

Lemma labelled_one c name v :
  c ∈ registered → labelNames c = sharedLabels ++ [name] → complete labels = true → domain name v → labelled (c, values labels ++ [v]).
Proof. intros. apply (labelled_recording _ [name]); try done. intros label value. by apply domain_one. Qed.

Lemma signerEvent_labelled ev : signerEvent request issuer ev → Forall labelled (recordings ev).
Proof.
  intros [| | | | | | | | | | |result elapsed Hl Hr|err Hl|Hl|confirmation Hl Hr]; unfold recordings;
    repeat apply Forall_cons_2; try apply Forall_nil_2;
    try (eapply labelled_one; [set_solver|done|done|by split_and!]).
  - apply (labelled_recording _ ["failure"; "classification"]%string); try done; [set_solver|]. intros label value. simpl.
    repeat (case_bool_decide; [intros; simplify_eq; auto using domain_failure, failureLabels_domain|]). done.
  - rewrite <- (app_nil_r (values _)). apply (labelled_recording _ []); try done. set_solver.
Qed.

(** Every metric a reconcile records names a registered collector with exactly one value for each of its labels,
    as WithLabelValues requires, and the values are bounded: the kind, the operation, the result, the
    classification and the confirmation come from fixed lists and the issuer is the one served. *)
Theorem Sign_series_labelled :
  logs (λ ev, Forall labelled (recordings ev)) (Sign ClusterResourceNamespace request issuer).
Proof. eapply logs_mono; [apply Sign_events|apply signerEvent_labelled]. Qed.

(** ** Counters *)

Abbreviation series result := (values labels ++ [result]).

(** The calls an event makes on enrollment_total, and the result it reports. *)
Lemma recordings_total ev l :
  signerEvent request issuer ev →
  counter enrollmentTotal l [ev] = length (filter (λ result, l = series result ∧ result ≠ recovered) (report ev)).
Proof.
  unfold counter. simpl flat_map. rewrite app_nil_r.
  intros [| | |t| | | | | | | |result elapsed Hl Hr|err Hl|Hl|confirmation Hl Hr]; simpl; try done.
  - destruct t as [t|]; [|done]. case_bool_decide; [|done]. by rewrite filter_cons_False by naive_solver.
  - rewrite !filter_cons, filter_nil. rewrite (decide_False (P:=(enrollmentDuration, _) = _)) by done.
    assert (result ≠ recovered) by (intros ->; set_solver).
    destruct (decide (l = series result)) as [->|Hne]; [by rewrite !decide_True|]. by rewrite !decide_False by naive_solver.
Qed.

Lemma counter_reports added l :
  Forall (signerEvent request issuer) added →
  counter enrollmentTotal l added = length (filter (λ result, l = series result ∧ result ≠ recovered) (reports added)).
Proof.
  induction 1 as [|ev added Hev _ IH]; [done|]. change (ev :: added) with ([ev] ++ added).
  rewrite counter_app, reports_app, filter_app, length_app, IH, recordings_total by done. unfold reports. simpl. rewrite app_nil_r. lia.
Qed.

(** Whether a reconcile found its certificate already issued: the record it
    loaded is in phase Issued. *)
Definition loadedIssued (ev : event) : bool :=
  match ev with EvLoaded (Some t) => bool_decide (Phase (tx_Status t) = TransactionPhaseIssued) | _ => false end.

(** What a reconcile with outcome [o] adds to a series of enrollment_total. *)
Definition increment {A} (o : outcome error A) (recovery : bool) (l : list string) : nat :=
  match o with
  | Ok _ => if bool_decide (l = series ResultIssued) && negb recovery then 1 else 0
  | Err e => if bool_decide (l = series ResultFailed) && negb (bool_decide (is_Some (errors_As as_PendingError e))) then 1 else 0
  | Panic => 0
  end.

Lemma report_recovered ev : signerEvent request issuer ev → recovered ∈ report ev ↔ loadedIssued ev = true.
Proof.
  intros Hev. destruct ev as [| [t|] | | | | | | | | | |labels' result elapsed| | | ]; simpl; try (split; [set_solver|done]).
  - case_bool_decide; set_solver.
  - inversion Hev; subst. split; [|done]. set_solver.
Qed.

Lemma reports_recovered added :
  Forall (signerEvent request issuer) added → recovered ∈ reports added ↔ existsb loadedIssued added = true.
Proof.
  induction 1 as [|ev added Hev _ IH]; [split; [set_solver|done]|]. change (ev :: added) with ([ev] ++ added).
  rewrite reports_app, existsb_app, orb_true_iff, elem_of_app, IH. unfold reports at 1. simpl. rewrite app_nil_r, orb_false_r.
  rewrite report_recovered by done. tauto.
Qed.

(** C16: The counters say what happened: a reconcile adds one to enrollment_total under this issuer, operation and
    result issued when it returns a certificate, unless the record it loaded was already in phase Issued (the
    reconcile that issued it counted it); one under result failed when it fails; nothing while it waits; and
    nothing to any other series of that counter. *)
Theorem Sign_counters w :
  issuer_Name issuer ≠ ""%string →
  let after := Sign ClusterResourceNamespace request issuer w in
  ∃ added, w_log after.2 = added ++ w_log w ∧
    ∀ l, counter enrollmentTotal l added = increment after.1 (existsb loadedIssued added) l.
Proof.
  intros Hn. simpl. destruct (Sign_accounted ClusterResourceNamespace request issuer Hn w) as (added & Hlog & Ha).
  destruct (Sign_events ClusterResourceNamespace request issuer w) as (added' & Hlog' & Hev).
  rewrite Hlog in Hlog'. apply app_inv_tail in Hlog' as <-. exists added. split; [done|]. intros l.
  pose proof (reports_recovered added Hev) as Hrec. rewrite counter_reports by done.
  destruct (existsb loadedIssued added); (destruct (Sign _ _ _ _).1 as [pem|e|]; simpl in *; unfold failed in *;
    destruct Ha as [Hr | Hr]; rewrite Hr in *; rewrite ?filter_cons, ?filter_nil; repeat case_bool_decide; rewrite ?filter_cons, ?filter_nil;
    repeat case_decide; simpl; set_solver).
Qed.
End labels.

(** No two collectors are registered under one name. *)
Lemma registered_names : NoDup (map fqName registered).
Proof. apply (bool_decide_unpack _). vm_compute. exact I. Qed.

#[local] Existing Instances Demo.demoLibs CMPClient CMPClient_laws.

Lemma Sign_series_labelled_witness :
  logs (λ ev, Forall (labelled request issuer) (recordings ev)) (Sign "" request issuer).
Proof. exact (Sign_series_labelled "" request issuer). Defined.

(** A certificate just issued is counted, and one recovered from its record is
    not. *)
Lemma Sign_counters_witness :
  let after := Sign "" request issuer demoWorld in
  (length (w_log after.2) = 13 ∧ existsb loadedIssued (w_log after.2) = false) ∧
  ∃ added, w_log after.2 = added ++ w_log demoWorld ∧
    ∀ l, counter enrollmentTotal l added = increment request issuer after.1 (existsb loadedIssued added) l.
Proof.
  intros after. split; [split; vm_compute; reflexivity|]. apply (Sign_counters "" request issuer demoWorld). discriminate.
Defined.
End Collectors.
