(* ===== verification/Safety.v ===== *)
(** * Freedom from run-time panics

    [Panic] is a nil dereference, an index out of range or a loop out of fuel.
    No path of the controller and of the CMP client reaches one as long as the
    server does not send the one message that makes finishTransaction panic: an
    error message that grants the request. *)

From S2P Require Import Prelude GoString Types Demo Names Certificates Request Response Enrollment Api IssuerSpec Metrics Runtime TransactionStore Configuration Workload Reporting DemoRuntime WorkloadLaws Client ProtocolClient ClientLaws Lifecycle Signer SignerTrace SignerLaws.
Import Names Certificates Request Response Enrollment Api IssuerSpec Metrics TransactionStore Configuration Workload Reporting DemoRuntime WorkloadLaws ProtocolClient ClientLaws Lifecycle Signing SignerTrace SignerLaws.

Module Safety.

(** ** Programs that return *)

(** [total o]: the call returned. *)
Definition total {E A} (o : outcome E A) : Prop := o ≠ Panic.

(** An invariant of the state a program runs in. *)
Class Invariant (S : Type) := inv : S → Prop.

(** [safeR m R]: from a state that satisfies the invariant, [m] returns, its
    regular result satisfies [R] and the invariant is kept. *)
Definition safeR {S E A} `{Invariant S} (m : M S E A) (R : A → Prop) : Prop :=
  ∀ s, inv s → match (m s).1 with Ok a => R a | Err _ => True | Panic => False end ∧ inv (m s).2.
Definition safe {S E A} `{Invariant S} (m : M S E A) : Prop := safeR m (λ _, True).

Section rules.
Context {E : Type}.

Lemma total_bind {A B} (o : outcome E A) (k : A → outcome E B) : total o → (∀ a, o = Ok a → total (k a)) → total (o ≫= k).
Proof. intros Ho Hk. destruct o; [by apply Hk|done|done]. Qed.
Lemma total_mapErr {E' A} (f : E → E') (o : outcome E A) : total o → total (mapErr f o).
Proof. by destruct o. Qed.
Lemma total_reject_if b (e : E) : total (reject_if b e).
Proof. by destruct b. Qed.
Lemma total_deref {A} (a : A) : total (deref (E:=E) (Some a)).
Proof. done. Qed.

Context {S : Type} `{!Invariant S}.

Lemma safeR_lift {A} (o : outcome E A) : total o → safeR (S:=S) (lift o) (λ a, o = Ok a).
Proof. intros Ho s Hs. split; [|done]. simpl. by destruct o. Qed.
Lemma safeR_mono {A} (m : M S E A) (R R' : A → Prop) : safeR m R → (∀ a, R a → R' a) → safeR m R'.
Proof. intros Hm HR s Hs. destruct (Hm s Hs) as [Ho Hi]. split; [|done]. destruct (m s).1; auto. Qed.
Lemma safeR_returns {A} (m : M S E A) (R : A → Prop) : safe m → returns m R → safeR m R.
Proof. intros Hm HR s Hs. destruct (Hm s Hs) as [Ho Hi]. split; [|done]. destruct (m s).1 eqn:Eo; [by apply (HR s)|done|done]. Qed.
Lemma safeR_safe {A} (m : M S E A) (R : A → Prop) : safeR m R → safe m.
Proof. intros Hm. by eapply safeR_mono. Qed.

Lemma safe_ret {A} (a : A) : safe (S:=S) (E:=E) (mret a).
Proof. done. Qed.
Lemma safe_fail {A} (e : E) : safe (S:=S) (A:=A) (fail e).
Proof. done. Qed.
Lemma safe_lift {A} (o : outcome E A) : total o → safe (S:=S) (lift o).
Proof. intros Ho. by eapply safeR_safe, safeR_lift. Qed.
Lemma safe_lift_ok {A} (a : A) (R : A → Prop) : R a → safeR (S:=S) (E:=E) (lift (Ok a)) R.
Proof. by intros Ha s. Qed.
Lemma safe_gets {A} (f : S → A) : safe (E:=E) (gets f).
Proof. done. Qed.

Lemma safeR_bind {A B} (P : A → Prop) (R : B → Prop) (m : M S E A) (f : A → M S E B) :
  safeR m P → (∀ a, P a → safeR (f a) R) → safeR (m ≫= f) R.
Proof.
  intros Hm Hf s Hs. destruct (Hm s Hs) as [Ho Hi]. unfold mbind, M_bind. destruct (m s) as [[a|e|] s']; [|done|done].
  by apply Hf.
Qed.
Lemma safe_bindR {A B} (R : A → Prop) (m : M S E A) (f : A → M S E B) :
  safeR m R → (∀ a, R a → safe (f a)) → safe (m ≫= f).
Proof. apply safeR_bind. Qed.
Lemma safe_bind {A B} (m : M S E A) (f : A → M S E B) : safe m → (∀ a, safe (f a)) → safe (m ≫= f).
Proof. intros Hm Hf. eapply safe_bindR; [exact Hm|auto]. Qed.
Lemma safe_bind_returns {A B} (R : A → Prop) (m : M S E A) (f : A → M S E B) :
  safe m → returns m R → (∀ a, R a → safe (f a)) → safe (m ≫= f).
Proof. intros Hm HR. by apply safe_bindR, safeR_returns. Qed.
Lemma safe_bind_lift {A B} (o : outcome E A) (f : A → M S E B) : total o → (∀ a, o = Ok a → safe (f a)) → safe (lift o ≫= f).
Proof. intros Ho. by apply safe_bindR, safeR_lift. Qed.
Lemma safe_try {E' A} (m : M S E A) : safe m → safe (try (E':=E') m).
Proof. intros Hm s Hs. specialize (Hm s Hs). unfold try. by destruct (m s) as [[]]. Qed.
Lemma safe_mapErrM {E' A} (g : E → E') (m : M S E A) : safe m → safe (mapErrM g m).
Proof. intros Hm s Hs. specialize (Hm s Hs). unfold mapErrM. by destruct (m s) as [[]]. Qed.
End rules.

Create HintDb safe.
#[export] Hint Resolve total_reject_if total_deref safe_ret safe_fail safe_gets : safe.

Ltac units := repeat match goal with u : unit |- _ => destruct u end.

(** Decompose a program down to the calls it makes. *)
Ltac total_step :=
  match goal with
  | |- total (Ok _) => done
  | |- total (Err _) => done
  | |- total _ => solve [auto with safe]
  | |- total (mbind _ _) => apply total_bind; [|intros ? ?; units]
  | |- total (mapErr _ _) => apply total_mapErr
  | |- total (match ?x with _ => _ end) => destruct x eqn:?
  end.
Ltac safe_step_tac :=
  match goal with
  | |- safe _ => solve [auto with safe]
  | |- safe (mbind _ (lift _)) => apply safe_bind_lift; [|intros ? ?; units]
  | |- safe (mbind _ _) => apply safe_bind; [|intros ?]
  | |- safe (lift _) => apply safe_lift
  | |- safe (try _) => apply safe_try
  | |- safe (mapErrM _ _) => apply safe_mapErrM
  | |- safe (outside_try _ _) => unfold outside_try
  | |- safe (match ?x with _ => _ end) => destruct x eqn:?
  | |- safe (let '(_, _) := ?x in _) => destruct x eqn:?
  | |- _ => total_step
  end.
Ltac safe_tac := repeat safe_step_tac.

(** ** Parsing and validation *)

Section parsing.
Context `{Libs}.

Lemma ValidateMLDSA_safe c : total (ValidateMLDSAKeyUsage c).
Proof. apply ValidateMLDSAKeyUsage_total. Qed.
Lemma chain_safe now leaf candidates roots : total (validateAndOrderChain now leaf candidates roots).
Proof. apply validateAndOrderChain_total. Qed.
Lemma pbmAlgorithms_safe password : total (pbmAlgorithms password).
Proof. apply pbmAlgorithms_total. Qed.
Lemma ValidateSignerCertificate_safe key certificate : total (ValidateSignerCertificate key certificate).
Proof. unfold ValidateSignerCertificate. pose proof (ValidateMLDSA_safe certificate). by repeat case_match. Qed.
#[local] Hint Resolve ValidateMLDSA_safe chain_safe pbmAlgorithms_safe ValidateSignerCertificate_safe : safe.

Lemma trySigners_safe parsers der : total (trySignerParsers parsers der).
Proof. induction parsers; simpl; safe_tac. Qed.
#[local] Hint Resolve trySigners_safe : safe.
Lemma ParseSigner_safe data : total (ParseSigner data).
Proof. unfold ParseSigner. safe_tac. Qed.
Lemma ParseCertificateRequestDER_safe data : total (ParseCertificateRequestDER data).
Proof. unfold ParseCertificateRequestDER. safe_tac. Qed.
Lemma ParseCertificates_safe (Hpem : pem_consumes) data : total (ParseCertificates data).
Proof. unfold ParseCertificates. apply total_bind; [apply pemLoop_total; [done|lia]|]. intros [cs rest] _. safe_tac. Qed.

Lemma splitLoop_safe characters current escaped : total (splitLoop characters current escaped).
Proof. revert current escaped. induction characters as [|[r c] cs IH]; intros; simpl; safe_tac; apply IH. Qed.
Lemma unescapeLoop_safe characters escaped : total (unescapeLoop characters escaped).
Proof. revert escaped. induction characters as [|r cs IH]; intros; simpl; safe_tac; apply IH. Qed.
#[local] Hint Resolve splitLoop_safe unescapeLoop_safe : safe.
Lemma addNameAttribute_safe name key value : total (addNameAttribute name key value).
Proof. unfold addNameAttribute. destruct name. safe_tac. Qed.
#[local] Hint Resolve addNameAttribute_safe : safe.
Lemma addComponents_safe name parts : total (addComponents name parts).
Proof. revert name. induction parts as [|p ps IH]; intros; simpl; unfold unescapeDNValue; safe_tac; apply IH. Qed.
#[local] Hint Resolve addComponents_safe : safe.
Lemma ParseDistinguishedName_safe value : total (ParseDistinguishedName value).
Proof. unfold ParseDistinguishedName, splitDN. safe_tac. Qed.

Lemma signatureDigest_safe value : total (signatureDigest value).
Proof. unfold signatureDigest. safe_tac. Qed.
Lemma passwordBasedMacAlgorithms_safe spec : total (passwordBasedMacAlgorithms spec).
Proof. unfold passwordBasedMacAlgorithms, owfTable, macTable. repeat case_bool_decide; simpl; by repeat case_match. Qed.
#[local] Hint Resolve signatureDigest_safe passwordBasedMacAlgorithms_safe : safe.
Lemma validateProtection_safe spec : total (validateProtection spec).
Proof. unfold validateProtection. safe_tac. Qed.
Lemma cmp_Or_safe checks : Forall total checks → total (cmp_Or checks).
Proof. induction 1 as [|o os Ho _ IH]; simpl; [done|]. by destruct o. Qed.
Lemma validateProtocol_safe spec : total (validateProtocol spec).
Proof.
  unfold validateProtocol, IssuerSpec.validateSignatureDigest, validateRequestedValidity, validateRenewalFallback. safe_tac.
  apply cmp_Or_safe. repeat constructor; safe_tac.
Qed.
Lemma validateEndpointURL_safe value : total (validateEndpointURL value).
Proof. unfold validateEndpointURL. safe_tac. Qed.
#[local] Hint Resolve validateProtection_safe validateProtocol_safe validateEndpointURL_safe : safe.
Lemma renewalScheme_safe wrap spec : total (renewalScheme wrap spec).
Proof. unfold renewalScheme. safe_tac. Qed.
#[local] Hint Resolve renewalScheme_safe : safe.
Lemma validateSpec_safe spec : total (validateSpec spec).
Proof. unfold validateSpec, validateEndpoint, validateTransport, validateTransactionAndPolicy. safe_tac. Qed.

Lemma validateEnrollmentRequest_safe request : total (validateEnrollmentRequest request).
Proof. unfold validateEnrollmentRequest, Request.validateSignatureDigest. safe_tac. Qed.
Lemma parsedCSR_safe request : total (parsedCSR request).
Proof. unfold parsedCSR. safe_tac. Qed.
#[local] Hint Resolve validateEnrollmentRequest_safe parsedCSR_safe : safe.

(** A valid signature protection carries its certificate. *)
Definition hasUpdated (request : EnrollmentRequest) : Prop := is_ok (updatedCertificate request) = true.

Lemma valid_updated request :
  validateEnrollmentRequest request = Ok tt → is_Some (Signature (er_Protection request)) → hasUpdated request.
Proof.
  intros [_ _ _ _ _ _ _ Hp]%validateEnrollmentRequest_spec [s Hs]. unfold hasUpdated, updatedCertificate.
  destruct Hp as [(password & E & _)|(signature & E & (key & certificate & _ & Hc & _))]; rewrite E in *; [done|]. simpl. by rewrite Hc.
Qed.

Lemma validateKURProofs_safe request csr now :
  validateEnrollmentRequest request = Ok tt → total (validateKURProofs request csr now).
Proof.
  intros Hv. unfold validateKURProofs. apply total_bind; [auto with safe|]. intros [] Hp%reject_if_ok. simplify_bool.
  destruct Hp as [_ Hs]. pose proof (valid_updated request Hv Hs) as Hu. unfold hasUpdated, updatedCertificate in Hu.
  destruct (Signature (er_Protection request)) as [signature|]; [|done]. simpl in *.
  destruct (sp_Certificate signature); [|done]. simpl. safe_tac.
Qed.

Lemma ValidateKURRequest_safe request now : total (ValidateKURRequest request now).
Proof.
  unfold ValidateKURRequest. apply total_bind; [auto with safe|]. intros [] Hv.
  apply total_bind; [auto with safe|]. intros csr _. by apply validateKURProofs_safe.
Qed.

Lemma ValidateIRRequest_safe request : total (ValidateIRRequest request).
Proof. unfold ValidateIRRequest. safe_tac. Qed.

(** What the two validators establish for building the messages. *)
Lemma ValidateKURRequest_ok request now :
  ValidateKURRequest request now = Ok tt →
  requestOK (set_Operation OperationKUR request) ∧ hasUpdated request ∧ is_Some (RequestedPrivateKey request).
Proof.
  unfold ValidateKURRequest. rewrite bind_unit_ok, bind_ok. intros (Hv & csr & _ & Hk).
  unfold validateKURProofs in Hk. rewrite !bind_unit_ok, !reject_if_ok in Hk. destruct Hk as (Hp & Hk & _). simplify_bool.
  destruct Hp as [_ Hs]. split; [by apply validateEnrollmentRequest_spec|]. split; [by apply (valid_updated _ Hv)|].
  apply requestedKeyMatches_iff in Hk as (key & Hr & _). by exists key.
Qed.

Lemma ValidateIRRequest_ok request :
  ValidateIRRequest request = Ok tt → requestOK (set_Operation OperationIR request) ∧ is_Some (RequestedPrivateKey request).
Proof.
  unfold ValidateIRRequest. rewrite bind_unit_ok, bind_ok, validateEnrollmentRequest_spec.
  intros (Hv & csr & _ & Hk%reject_if_ok). split; [done|]. simplify_bool.
  apply requestedKeyMatches_iff in Hk as (key & Hr & _). by exists key.
Qed.

Lemma verifyResponse_safe now header response request signer delayed : total (verifyResponse now header response request signer delayed).
Proof.
  unfold verifyResponse. pose proof (verifyProtection_total now response request signer : total _). safe_tac.
Qed.

Lemma extractPollRep_safe response expected signer delayed : total (extractPollRep response expected signer delayed).
Proof. unfold extractPollRep. safe_tac. Qed.
Lemma confirmationDelay_safe response : total (confirmationDelay response).
Proof. unfold confirmationDelay. safe_tac. Qed.
Lemma acceptHTTPResponse_safe response maximum : total (Client.acceptHTTPResponse response maximum).
Proof. apply Client.acceptHTTPResponse_total. Qed.
Lemma parseResponse_safe label der : total (Client.parseResponse label der).
Proof. unfold Client.parseResponse. safe_tac. Qed.
Lemma valid_request request : validateEnrollmentRequest request = Ok tt → requestOK request.
Proof. apply validateEnrollmentRequest_spec. Qed.
Lemma requestSender_safe request : requestOK request → total (requestSender request).
Proof. intros Hr. apply requestSender_total in Hr. unfold total. by destruct (requestSender request). Qed.
Lemma credentialsFor_safe request : requestOK request → total (credentialsFor request).
Proof. apply credentialsFor_total. Qed.
Lemma certificateTemplate_safe request csr subject : is_Some (RequestedPrivateKey request) → total (certificateTemplate request csr subject).
Proof. intros [key Hk]. unfold certificateTemplate. rewrite Hk. simpl. safe_tac. Qed.
End parsing.
#[export] Hint Resolve ValidateMLDSA_safe chain_safe pbmAlgorithms_safe ValidateSignerCertificate_safe ParseSigner_safe ParseCertificateRequestDER_safe
  ParseCertificates_safe ParseDistinguishedName_safe signatureDigest_safe passwordBasedMacAlgorithms_safe renewalScheme_safe validateSpec_safe
  validateEnrollmentRequest_safe parsedCSR_safe ValidateKURRequest_safe ValidateIRRequest_safe verifyResponse_safe extractPollRep_safe
  confirmationDelay_safe acceptHTTPResponse_safe parseResponse_safe valid_request requestSender_safe credentialsFor_safe certificateTemplate_safe : safe.

(** ** The outside *)

(** A message that does not grant a request in an error body. *)
Definition harmless `{Libs} (der : bytes) : Prop :=
  ∀ response status, ParsePKIMessage der = inr response → Type_ (Body response) = BodyTypeError →
    body_Error (Body response) = inr status → classifyStatus status ≠ None.

(** An invariant of the outside under which every message received is
    harmless. *)
Class HarmlessServer `{Runtime} (Inv : Ext → Prop) : Prop := {
  kept_Now x : Inv x → Inv (ext_Now x).2;
  kept_Rand n x : Inv x → Inv (ext_Rand n x).2;
  kept_Do client request x : Inv x → Inv (ext_Do client request x).2;
  kept_NewPKIMessage body options x : Inv x → Inv (ext_NewPKIMessage body options x).2;
  kept_Protect credentials message x : Inv x → Inv (ext_Protect credentials message x).2;
  kept_GeneratePOP message key hash x : Inv x → Inv (ext_GeneratePOP message key hash x).2;
  kept_GetTransaction key x : Inv x → Inv (ext_GetTransaction key x).2;
  kept_CreateTransaction t x : Inv x → Inv (ext_CreateTransaction t x).2;
  kept_UpdateStatus t x : Inv x → Inv (ext_UpdateStatus t x).2;
  kept_DeleteTransaction key uid x : Inv x → Inv (ext_DeleteTransaction key uid x).2;
  kept_GetSecret key x : Inv x → Inv (ext_GetSecret key x).2;
  kept_GetCertificate key x : Inv x → Inv (ext_GetCertificate key x).2;
  answers_harmless client request x response maximum body :
    Inv x → (ext_Do client request x).1 = inr response → Client.acceptHTTPResponse response maximum = Ok body → harmless body
}.

(** What the controller needs of a request it polls for. *)
Definition wellProtected `{Libs} (request : EnrollmentRequest) : Prop := er_Operation request = OperationKUR → hasUpdated request.

Section outside.
Context `{Runtime} (Inv : Ext → Prop) `{!HarmlessServer Inv}.

#[local] Instance World_invariant : Invariant World := λ w, Inv (w_ext w).
#[local] Instance Secrets_invariant : Invariant (World * SecretMap) := λ st, Inv (w_ext st.1).

(** What the controller needs of a client beyond [ClientLaws]. *)
Class ClientSafe (client : ProtocolClient.Client) : Prop := {
  enrollP10CR_safe request : safe (ProtocolClient.EnrollP10CR request);
  enrollIR_safe request : safe (ProtocolClient.EnrollIR request);
  enrollKUR_safe request : safe (ProtocolClient.EnrollKUR request);
  poll_safe poll : wellProtected (poll_Enrollment poll) → safe (ProtocolClient.PollP10CR poll);
  confirm_safe confirm : safe (ProtocolClient.ConfirmP10CR confirm)
}.

Lemma safe_emit {E} ev : safe (E:=E) (emit ev).
Proof. done. Qed.
Lemma safeR_outside {E A} (f : Ext → A * Ext) (R : A → Prop) :
  (∀ x, Inv x → R (f x).1 ∧ Inv (f x).2) → safeR (E:=E) (outside f) R.
Proof.
  intros Hf w Hw. unfold outside, Prelude.step. specialize (Hf (w_ext w) Hw). destruct (f (w_ext w)). exact Hf.
Qed.
Lemma safe_outside {E A} (f : Ext → A * Ext) : (∀ x, Inv x → Inv (f x).2) → safe (E:=E) (outside f).
Proof. intros Hf. apply safeR_outside. auto. Qed.
Lemma safe_now {E} : safe (E:=E) time_Now.
Proof. apply safe_outside, kept_Now. Qed.
Lemma safe_Rand {E} n : safe (E:=E) (outside (ext_Rand n)).
Proof. apply safe_outside, kept_Rand. Qed.
Lemma safe_NewPKIMessage {E} body options : safe (E:=E) (outside (ext_NewPKIMessage body options)).
Proof. apply safe_outside, kept_NewPKIMessage. Qed.
Lemma safe_Protect {E} credentials message : safe (E:=E) (outside (ext_Protect credentials message)).
Proof. apply safe_outside, kept_Protect. Qed.
Lemma safe_GeneratePOP {E} message key hash : safe (E:=E) (outside (ext_GeneratePOP message key hash)).
Proof. apply safe_outside, kept_GeneratePOP. Qed.
Lemma safe_GetTransaction {E} key : safe (E:=E) (outside (ext_GetTransaction key)).
Proof. apply safe_outside, kept_GetTransaction. Qed.
Lemma safe_CreateTransaction {E} t : safe (E:=E) (outside (ext_CreateTransaction t)).
Proof. apply safe_outside, kept_CreateTransaction. Qed.
Lemma safe_UpdateStatus {E} t : safe (E:=E) (outside (ext_UpdateStatus t)).
Proof. apply safe_outside, kept_UpdateStatus. Qed.
Lemma safe_DeleteTransaction {E} key uid : safe (E:=E) (outside (ext_DeleteTransaction key uid)).
Proof. apply safe_outside, kept_DeleteTransaction. Qed.
Lemma safe_GetSecret {E} key : safe (E:=E) (outside (ext_GetSecret key)).
Proof. apply safe_outside, kept_GetSecret. Qed.
Lemma safe_GetCertificate {E} key : safe (E:=E) (outside (ext_GetCertificate key)).
Proof. apply safe_outside, kept_GetCertificate. Qed.
#[local] Hint Resolve safe_emit safe_now safe_Rand safe_NewPKIMessage safe_Protect safe_GeneratePOP safe_GetTransaction safe_CreateTransaction safe_UpdateStatus safe_DeleteTransaction safe_GetSecret safe_GetCertificate : safe.

(** ** The CMP client *)

Lemma sendCMP_safe client endpoint der maximum operation : safeR (Client.sendCMP client endpoint der maximum operation) harmless.
Proof.
  unfold Client.sendCMP. eapply safeR_bind; [apply safe_lift; by destruct (url_Parse endpoint)|]. intros _ _.
  eapply safeR_bind; [apply safe_emit|]. intros _ _. unfold outside_try.
  eapply (safeR_bind (λ response, ∀ body, Client.acceptHTTPResponse response maximum = Ok body → harmless body)).
  - eapply (safeR_bind (λ r, ∀ response body, r = inr response → Client.acceptHTTPResponse response maximum = Ok body → harmless body)).
    + apply safeR_outside. intros x Hx. split; [|by apply kept_Do]. intros response body. by apply answers_harmless.
    + intros [e|response] Hr; [done|]. apply safe_lift_ok. eauto.
  - intros response Hr. eapply safeR_mono; [apply safeR_lift, acceptHTTPResponse_safe|]. apply Hr.
Qed.
Lemma sendCMP_any client endpoint der maximum operation : safe (Client.sendCMP client endpoint der maximum operation).
Proof. eapply safeR_safe, sendCMP_safe. Qed.
Lemma protectAndEncode_safe name credentials message : safe (Client.protectAndEncode name credentials message).
Proof. unfold Client.protectAndEncode. safe_tac. Qed.
#[local] Hint Resolve sendCMP_any protectAndEncode_safe : safe.

Lemma confirmationMessage_safe request confirm status :
  requestOK request → is_Some (cf_Certificate confirm) → safe (Client.confirmationMessage request confirm status).
Proof. intros Hr [c Hc]. unfold Client.confirmationMessage. rewrite Hc. safe_tac. Qed.
#[local] Hint Resolve confirmationMessage_safe : safe.

Lemma exchangeProtected_safe client request credentials message signer nonce operation :
  safe (Client.exchangeProtected client request credentials message signer nonce operation).
Proof. unfold Client.exchangeProtected. safe_tac. Qed.
#[local] Hint Resolve exchangeProtected_safe : safe.

Lemma rejectCertificate_safe client request credentials refusal reason :
  requestOK request → safe (Client.rejectCertificate client request credentials refusal reason).
Proof. intros Hr. unfold Client.rejectCertificate. safe_tac. Qed.

(** An authenticated response of the server. *)
Definition received (response : PKIMessage) : Prop := ∃ der, harmless der ∧ ParsePKIMessage der = inr response.

Lemma parseResponse_received label der response : harmless der → Client.parseResponse label der = Ok response → received response.
Proof. intros Hh. unfold Client.parseResponse. destruct (ParsePKIMessage der) eqn:E; intros ?; simplify_eq. by exists der. Qed.

Lemma finishTransaction_safe now request response csr signer delayed :
  wellProtected request → received response → total (finishTransaction now request response csr signer delayed).1.
Proof.
  intros Hu (der & Hh & Hd) Hf. unfold finishTransaction in Hf.
  destruct (extractEnrollmentResponse response request) as [issued|e|] eqn:Ex; [|done|by destruct (extract_total response request)].
  destruct (Waiting issued) eqn:Ew; [done|]. destruct (ic_Certificate issued) as [certificate|] eqn:Ec.
  - pose proof (acceptIssued_total now request csr issued certificate Hu). repeat (case_match; simplify_eq/=); done.
  - destruct (extract_empty _ _ _ Ex Ew Ec) as (Ht & status & He & Hs). by destruct (Hh response status).
Qed.

Lemma completeOrRefuse_safe client request credentials response csr signer delayed :
  requestOK request → wellProtected request → received response →
  safe (Client.completeOrRefuse client request credentials response csr signer delayed).
Proof.
  intros Hr Hu Hd. unfold Client.completeOrRefuse. apply safe_bind; [auto with safe|]. intros now.
  pose proof (finishTransaction_safe now request response csr signer delayed Hu Hd) as Hf.
  destruct (finishTransaction _ _ _ _ _ _) as [[result|err|] [refusal|]]; simpl in *; safe_tac. by apply rejectCertificate_safe.
Qed.

Lemma enrollmentExchange_safe request credentials csr message der operation label :
  requestOK request → wellProtected request → safe (Client.enrollmentExchange request credentials csr message der operation label).
Proof.
  intros Hr Hu. unfold Client.enrollmentExchange. eapply safe_bindR; [apply sendCMP_safe|]. intros responseDER Hh. safe_tac.
  apply completeOrRefuse_safe; eauto using parseResponse_received.
Qed.
#[local] Hint Resolve enrollmentExchange_safe : safe.

Lemma EnrollP10CR_safe request : safe (Client.EnrollP10CR request).
Proof. unfold Client.EnrollP10CR, Client.protectedEnrollment. safe_tac. apply enrollmentExchange_safe; [auto with safe|done]. Qed.

Lemma EnrollIR_safe request : safe (Client.EnrollIR request).
Proof.
  unfold Client.EnrollIR. apply safe_bind_lift; [auto with safe|]. intros [] Hv. apply ValidateIRRequest_ok in Hv as [Hr [key Hk]].
  change (requestOK (set_Operation OperationIR request)) in Hr.
  unfold Client.protectedIR. change (RequestedPrivateKey (set_Operation OperationIR request) = Some key) in Hk. rewrite Hk. safe_tac.
  by apply enrollmentExchange_safe.
Qed.

Lemma EnrollKUR_safe request : safe (Client.EnrollKUR request).
Proof.
  unfold Client.EnrollKUR. apply safe_bind; [auto with safe|]. intros now.
  apply safe_bind_lift; [auto with safe|]. intros [] Hv. apply ValidateKURRequest_ok in Hv as (Hr & Hu & [key Hk]).
  change (requestOK (set_Operation OperationKUR request)) in Hr.
  unfold Client.protectedKUR. change (RequestedPrivateKey (set_Operation OperationKUR request) = Some key) in Hk. rewrite Hk. safe_tac.
  - unfold hasUpdated in Hu. unfold total. by destruct (updatedCertificate _).
  - apply enrollmentExchange_safe; [done|]. intros _. exact Hu.
Qed.

Lemma PollP10CR_safe poll : wellProtected (poll_Enrollment poll) → safe (Client.PollP10CR poll).
Proof.
  intros Hu. unfold Client.PollP10CR. do 5 (apply safe_bind_lift; [solve [safe_tac]|]; intros ? ?; units).
  do 2 (apply safe_bind; [auto with safe|]; intros ?). destruct a3 as [message der].
  eapply safe_bindR; [apply sendCMP_safe|]. intros responseDER Hh. safe_tac; [apply parseResponse_safe|].
  apply completeOrRefuse_safe; eauto using parseResponse_received with safe.
Qed.

Lemma ConfirmP10CR_safe confirm : safe (Client.ConfirmP10CR confirm).
Proof.
  unfold Client.ConfirmP10CR. safe_tac. apply confirmationMessage_safe; [auto with safe|].
  rewrite reject_if_ok in *. simplify_bool. tauto.
Qed.

#[local] Instance CMPClient_safe : ClientSafe CMPClient.
Proof. constructor; simpl; auto using EnrollP10CR_safe, EnrollIR_safe, EnrollKUR_safe, PollP10CR_safe, ConfirmP10CR_safe. Qed.

(** ** The controller *)

Context `{CertManager} (Hpem : pem_consumes).

(** *** Configuration *)

Lemma getSecret_safe namespace reference : safe (getSecret namespace reference).
Proof.
  intros [w secrets] Hw. unfold getSecret. pose proof (kept_GetSecret (namespace, lsr_Name reference) (w_ext w) Hw) as Hk.
  destruct (secrets !! _); [by split|]. by destruct (ext_GetSecret _ (w_ext w)) as [[[]|] x].
Qed.
Lemma requiredSecretValue_safe secret key : total (requiredSecretValue secret key).
Proof. unfold requiredSecretValue. safe_tac. Qed.
#[local] Hint Resolve getSecret_safe requiredSecretValue_safe : safe.
Lemma secretCertificates_safe secret key what : total (secretCertificates secret key what).
Proof. unfold secretCertificates. safe_tac. Qed.
#[local] Hint Resolve secretCertificates_safe : safe.
Lemma loadTrustPool_safe namespace reference : safe (loadTrustPool namespace reference).
Proof. unfold loadTrustPool. safe_tac. Qed.
Lemma loadResponseCertificates_safe namespace reference : safe (loadResponseCertificates namespace reference).
Proof. unfold loadResponseCertificates. safe_tac. Qed.
Lemma loadTLSRoots_safe namespace spec https : safe (loadTLSRoots namespace spec https).
Proof. unfold loadTLSRoots. safe_tac. Qed.

Lemma validateProtection_configured spec :
  validateProtection spec = Ok tt → is_Some (PasswordBasedMac spec) ∨ is_Some (prot_Signature spec).
Proof.
  unfold validateProtection. destruct (PasswordBasedMac spec), (prot_Signature spec); eauto. by repeat case_match.
Qed.

Lemma loadProtection_safe namespace spec : validateProtection spec = Ok tt → safe (loadProtection namespace spec).
Proof.
  intros Hv%validateProtection_configured. unfold loadProtection. destruct (PasswordBasedMac spec) as [password|]; [safe_tac|].
  destruct Hv as [[? ?]|[signature ->]]; [done|]. safe_tac.
Qed.
#[local] Hint Resolve loadTrustPool_safe loadResponseCertificates_safe loadTLSRoots_safe loadProtection_safe : safe.

Lemma loadCredentials_safe issuer spec namespace endpoint :
  validateProtection (spec_Protection spec) = Ok tt → safe (loadCredentials issuer spec namespace endpoint).
Proof. intros Hv. unfold loadCredentials. safe_tac. Qed.

Lemma withSecrets_safe {A} (m : SecretM A) : safe m → safe (withSecrets m).
Proof. intros Hm w Hw. specialize (Hm (w, ∅) Hw). unfold withSecrets. by destruct (m (w, ∅)) as [o [w' secrets]]. Qed.

Lemma issuerSpecAndNamespace_safe cluster issuer : total (issuerSpecAndNamespace cluster issuer).
Proof. unfold issuerSpecAndNamespace. safe_tac. Qed.
#[local] Hint Resolve issuerSpecAndNamespace_safe : safe.

Lemma loadRuntimeConfiguration_safe cluster issuer : safe (loadRuntimeConfiguration cluster issuer).
Proof.
  unfold loadRuntimeConfiguration. safe_tac. apply withSecrets_safe, loadCredentials_safe.
  rewrite mapErr_ok in *. by eapply validateSpec_parts.
Qed.

Lemma loadCMPTrust_safe cluster issuer : safe (loadCMPTrust cluster issuer).
Proof. unfold loadCMPTrust. safe_tac. apply withSecrets_safe. safe_tac. Qed.

(** *** Workload keys *)

Lemma certificateRequestRevision_safe request : total (certificateRequestRevision request).
Proof. unfold certificateRequestRevision. safe_tac. Qed.
#[local] Hint Resolve certificateRequestRevision_safe : safe.
Lemma cmpIssuerSpec_safe issuer : total (cmpIssuerSpec issuer).
Proof. unfold cmpIssuerSpec. safe_tac. Qed.
#[local] Hint Resolve cmpIssuerSpec_safe : safe.
Lemma selectedTransactionOperation_safe issuer request : total (selectedTransactionOperation issuer request).
Proof. unfold selectedTransactionOperation. safe_tac. Qed.
Lemma controllingOwner_safe owners owner : total (controllingOwner owners owner).
Proof. revert owner. induction owners as [|o os IH]; intros; simpl; safe_tac; apply IH. Qed.
#[local] Hint Resolve controllingOwner_safe : safe.
Lemma certificateOwnerReference_safe request : total (certificateOwnerReference request).
Proof. unfold certificateOwnerReference. safe_tac. Qed.
#[local] Hint Resolve certificateOwnerReference_safe : safe.
Lemma authorizeOwningCertificate_safe request issuer operation renewal : safe (authorizeOwningCertificate request issuer operation renewal).
Proof. unfold authorizeOwningCertificate, readOwningCertificate. safe_tac. Qed.
Lemma parseSecretSigner_safe secret key : total (parseSecretSigner secret key).
Proof. unfold parseSecretSigner. safe_tac. Qed.
#[local] Hint Resolve authorizeOwningCertificate_safe parseSecretSigner_safe : safe.
Lemma loadStagedKey_safe key certificate der operation : safe (loadStagedKey key certificate der operation).
Proof. unfold loadStagedKey, readWorkloadSecret. safe_tac. Qed.
Lemma readCurrentSecret_safe key : safe (readCurrentSecret key).
Proof. unfold readCurrentSecret. safe_tac. Qed.
Lemma authorizedStagedKeyName_safe request certificate operation : total (authorizedStagedKeyName request certificate operation).
Proof. unfold authorizedStagedKeyName. safe_tac. Qed.
Lemma currentSecretIssued_safe secret certificate : total (currentSecretIssuedForCertificate secret certificate).
Proof. unfold currentSecretIssuedForCertificate. safe_tac. Qed.
#[local] Hint Resolve loadStagedKey_safe readCurrentSecret_safe authorizedStagedKeyName_safe currentSecretIssued_safe : safe.
Lemma loadIRMaterial_safe request issuer der reason : safe (loadIRMaterial request issuer der reason).
Proof. unfold loadIRMaterial. safe_tac. Qed.
Lemma loadKURMaterial_safe request issuer der : safe (loadKURMaterial request issuer der).
Proof. unfold loadKURMaterial. safe_tac. Qed.
Lemma classifyRenewalFallback_safe request issuer now : safe (classifyRenewalFallback request issuer now).
Proof. unfold classifyRenewalFallback. safe_tac. Qed.
#[local] Hint Resolve loadRuntimeConfiguration_safe loadCMPTrust_safe selectedTransactionOperation_safe loadIRMaterial_safe loadKURMaterial_safe
  classifyRenewalFallback_safe : safe.

(** *** The signer *)

Context {client : ProtocolClient.Client} `{!ProtocolClient.ClientLaws client} `{!ClientSafe client}.
Context (ClusterResourceNamespace : string).

Lemma parseRecorded_safe encodings : total (parseRecorded encodings).
Proof. induction encodings; simpl; safe_tac. Qed.
#[local] Hint Resolve parseRecorded_safe : safe.

Lemma parseRecorded_length encodings chain : parseRecorded encodings = Ok chain → length chain = length encodings.
Proof.
  revert chain. induction encodings as [|e es IH]; intros chain; simpl; [by intros [= <-]|].
  rewrite bind_ok. intros (c & _ & Hx). rewrite bind_unit_ok, bind_ok in Hx. destruct Hx as (_ & rest & Hr & [= <-]).
  simpl. f_equal. auto.
Qed.

Lemma recordedChain_safe t der : total (recordedChain t der).
Proof.
  unfold recordedChain. apply total_bind; [auto with safe|]. intros [] Hne%reject_if_ok. simplify_bool.
  apply total_bind; [auto with safe|]. intros chain Hc%parseRecorded_length.
  destruct (IssuedChain (tx_Status t)); [done|]. destruct chain; [done|]. simpl. safe_tac.
Qed.

Lemma trustedRecordedChain_safe now chain roots candidates : total (trustedRecordedChain now chain roots candidates).
Proof. unfold trustedRecordedChain, ValidateIssuedChain. safe_tac. Qed.
#[local] Hint Resolve recordedChain_safe trustedRecordedChain_safe : safe.

Lemma remove_safe t : safe (remove t).
Proof. unfold remove, deleteTransaction. safe_tac. Qed.
#[local] Hint Resolve remove_safe : safe.
Lemma failTransaction_safe {A} t err : safe (failTransaction (A:=A) t err).
Proof. unfold failTransaction. safe_tac. Qed.
Lemma updateStatus_safe label t : safe (updateStatus label t).
Proof. unfold updateStatus. safe_tac. Qed.
#[local] Hint Resolve failTransaction_safe updateStatus_safe : safe.
Lemma RecordPoll_safe labels : safe (recordEnrollmentPoll labels).
Proof. unfold recordEnrollmentPoll, RecordPoll. safe_tac. Qed.
Lemma recordIssuedEnrollment_safe labels confirmation started : safe (recordIssuedEnrollment labels confirmation started).
Proof. unfold recordIssuedEnrollment, RecordOutcome, RecordConfirmation. safe_tac. Qed.
Lemma recordFailedEnrollment_safe labels err started : safe (recordFailedEnrollment labels err started).
Proof. unfold recordFailedEnrollment, RecordOutcome, RecordFailure. safe_tac. Qed.
#[local] Hint Resolve RecordPoll_safe recordIssuedEnrollment_safe recordFailedEnrollment_safe : safe.

Lemma continuePolling_safe {A} labels t pending limits polled : safe (continuePolling (A:=A) labels t pending limits polled).
Proof. unfold continuePolling, recordPending. safe_tac. Qed.
Lemma continueConfirming_safe {A} labels t chain pending limits polled :
  safe (continueConfirming (A:=A) labels t chain pending limits polled).
Proof. unfold continueConfirming, recordConfirming. safe_tac. Qed.
Lemma retainedSigner_safe t : total (retainedSigner t).
Proof. unfold retainedSigner. safe_tac. Qed.
#[local] Hint Resolve continuePolling_safe continueConfirming_safe retainedSigner_safe confirm_safe : safe.

Lemma confirm_step_safe labels t request limits chain pending started :
  chain ≠ [] → safe (confirm labels t request limits chain pending started).
Proof. intros Hc. unfold confirm, recordIssued. destruct chain as [|leaf chain]; [done|]. simpl. safe_tac. Qed.

Lemma trusted_nonempty t der now roots candidates chain :
  (c ← recordedChain t der; trustedRecordedChain now c roots candidates) = Ok chain → chain ≠ [].
Proof.
  rewrite bind_ok. intros (c & _ & Ht). unfold trustedRecordedChain in Ht. rewrite mapErr_ok in Ht.
  unfold ValidateIssuedChain in Ht. destruct c as [|leaf rest]; [done|]. destruct roots; [|done].
  unfold validateAndOrderChain in Ht. rewrite bind_ok in Ht. by destruct Ht as (verified & _ & [= <-]).
Qed.

Lemma resumed_chain_safe t der now roots candidates :
  total (c ← recordedChain t der; trustedRecordedChain now c roots candidates).
Proof. apply total_bind; [auto with safe|]. intros c _. auto with safe. Qed.

Lemma resumeConfirmation_safe labels t request limits der started : safe (resumeConfirmation labels t request limits der started).
Proof.
  unfold resumeConfirmation. apply safe_bind; [auto with safe|]. intros now.
  destruct (_ ← _; _) as [chain|err|] eqn:Ec; [|auto with safe|by destruct (resumed_chain_safe _ _ _ _ _ Ec)].
  apply trusted_nonempty in Ec. safe_tac. by apply confirm_step_safe.
Qed.

Lemma recoverIssuedChain_safe t issuer der : safe (recoverIssuedChain ClusterResourceNamespace t issuer der).
Proof.
  unfold recoverIssuedChain. pose proof (recordedChain_safe t der) as Hc. destruct (recordedChain t der) as [chain|err|]; [|auto with safe|done].
  safe_tac. by destruct (trustedRecordedChain_safe _ _ _ _ Heqo).
Qed.

Lemma exchange_safe request t limits : wellProtected request → safe (exchange request t limits).
Proof. intros Hu. unfold exchange. safe_tac; auto using enrollP10CR_safe, enrollIR_safe, enrollKUR_safe, poll_safe. Qed.

Lemma enrollment_nonempty request result : enrollmentResultOK request result → Pending result = None → Chain result ≠ [].
Proof. intros [[[p Hp] _]|(_ & (? & ? & ? & ? & ? & -> & _) & _)]; [by rewrite Hp|done]. Qed.

Lemma advance_safe labels request c er t operation der started :
  wellProtected er → safe (advance labels request c er t operation der started).
Proof.
  intros Hu. unfold advance, recordConfirming, recordIssued. set (er' := set_RequestedNotAfter _ _).
  destruct (bool_decide _); [apply resumeConfirmation_safe|].
  eapply safe_bind_returns; [apply safe_try, exchange_safe; exact Hu|apply returns_try, exchange_returns|].
  intros [err|result] Hr; [auto with safe|].
  pose proof (enrollment_nonempty er' result Hr) as Hne. destruct (Pending result); [auto with safe|]. safe_tac.
  by apply confirm_step_safe, Hne.
Qed.

(** A prepared request of a KUR is protected by the certificate it updates. *)
Lemma prepareEnrollment_protected request issuer c operation reason der :
  returns (prepareEnrollment request issuer c operation reason der) (λ r, wellProtected r.2).
Proof.
  assert (Hop : er_Operation (baseRequest c operation der) = operation) by (unfold baseRequest; by case_match).
  unfold prepareEnrollment. destruct (_ || _) eqn:Eo.
  - unfold prepareWorkloadKeyEnrollment. do 2 (apply returns_then; intros ?).
    eapply returns_bind; [apply returns_lift; intros u Hu; exact Hu|]. intros [] Hv. apply returns_ret. intros Hk. cbn [snd] in *. rewrite mapErr_ok in Hv.
    assert (E : operation = TransactionOperationKUR) by (etransitivity; [symmetry; exact Hop|]; by destruct (wm_Protection a)).
    rewrite (bool_decide_eq_true_2 _ E) in Hv. by apply ValidateKURRequest_ok in Hv as (_ & Hu & _).
  - apply returns_ret. intros Hk. cbn [snd] in Hk. simplify_bool. rewrite Hop in Hk. by destruct Eo.
Qed.

Lemma prepareEnrollment_safe request issuer c operation reason der : safe (prepareEnrollment request issuer c operation reason der).
Proof.
  unfold prepareEnrollment, prepareWorkloadKeyEnrollment. safe_tac.
Qed.

Lemma selectRenewalFallback_safe request issuer operation : safe (selectRenewalFallback request issuer operation).
Proof. unfold selectRenewalFallback. safe_tac. Qed.
Lemma loadConfiguration_safe issuer : safe (loadConfiguration ClusterResourceNamespace issuer).
Proof. unfold loadConfiguration. safe_tac. Qed.
#[local] Hint Resolve selectRenewalFallback_safe loadConfiguration_safe recoverIssuedChain_safe : safe.

Lemma prepared_safe request issuer c operation reason der (k : runtimeConfiguration * EnrollmentRequest → M World error bytes) :
  (∀ c er, wellProtected er → safe (k (c, er))) → safe (prepareEnrollment request issuer c operation reason der ≫= k).
Proof.
  intros Hk. eapply safe_bind_returns; [apply prepareEnrollment_safe|apply prepareEnrollment_protected|].
  intros [c' er] Hu. by apply Hk.
Qed.

Lemma resume_safe labels request issuer t der started :
  is_Some (IssuerRef (Spec t)) → safe (resume ClusterResourceNamespace labels request issuer t der started).
Proof.
  intros [ref Href]. unfold resume. rewrite Href. destruct (bool_decide _); [auto with safe|]. cbn [deref].
  apply safe_bind_lift; [done|]. intros ? [= <-]. destruct (negb _); [auto with safe|].
  apply safe_bind; [auto with safe|]. intros c. apply prepared_safe. intros c' er Hu.
  destruct (negb _); [auto with safe|by apply advance_safe].
Qed.

Lemma start_safe labels request issuer operation der started :
  safe (start ClusterResourceNamespace labels request issuer operation der started).
Proof.
  unfold start. apply safe_bind; [auto with safe|]. intros c. apply safe_bind; [auto with safe|]. intros [operation' fallback].
  apply prepared_safe. intros c' er Hu. unfold create, reportRenewalFallback. safe_tac. by apply advance_safe.
Qed.

Lemma reported_safe {A} labels started (m : M World error A) : safe m → safe (reported labels started m).
Proof. intros Hm. unfold reported. safe_tac. Qed.
#[local] Hint Resolve reported_safe start_safe resume_safe : safe.

Lemma identify_safe request issuer : safe (identify request issuer).
Proof. unfold identify, load, deleteTransaction. safe_tac. Qed.
#[local] Hint Resolve identify_safe : safe.

Lemma validateResumed_safe t digest operation fallback issuer : total (validateResumedTransaction t digest operation fallback issuer).
Proof. unfold validateResumedTransaction. safe_tac. Qed.

Lemma validateResumed_reference t digest operation fallback issuer :
  validateResumedTransaction t digest operation fallback issuer = Ok tt → is_Some (IssuerRef (Spec t)).
Proof.
  unfold validateResumedTransaction. rewrite !bind_unit_ok, !reject_if_ok. intros (_ & _ & Hr & _).
  by destruct (IssuerRef (Spec t)).
Qed.

Lemma Sign_returns_or_fails request issuer : safe (Sign ClusterResourceNamespace request issuer).
Proof.
  unfold Sign. apply safe_bind; [auto with safe|]. intros started. apply safe_bind; [auto with safe|].
  intros [[der operation] [t|]]; [|auto with safe].
  set (v := validateResumedTransaction _ _ _ _ _). pose proof (validateResumed_safe t (csrDigestHex der) operation
    (renewalFallbackOperation issuer) (issuerReference issuer) : total v) as Hv.
  apply (safe_bind_returns (λ _, v = Ok tt)).
  - apply reported_safe. destruct v; [by apply safe_lift|auto with safe|done].
  - apply reported_returns. destruct v as [[]|e|]; [by apply returns_lift|apply failTransaction_returns|by apply returns_lift].
  - intros [] Ev. apply reported_safe, resume_safe. by eapply validateResumed_reference.
Qed.
Lemma Check_returns_or_fails issuer : safe (Check_ ClusterResourceNamespace issuer).
Proof. unfold Check_. safe_tac. Qed.
End outside.

(** C5: The controller and the CMP client it is built with never panic: whatever the API server answers, whatever
    certificates, Secrets and records it finds and whatever the CMP server sends, Sign and Check return a result
    or an error, so no nil pointer is dereferenced, no empty chain is indexed and no parsing loop runs forever,
    as long as the server never answers with an error message that grants the request, and the outside keeps
    that promise for the next reconcile. *)
Theorem Sign_never_panics `{Runtime} `{CertManager} (Inv : Ext → Prop) `{!HarmlessServer Inv} (Hpem : pem_consumes) cluster request issuer w :
  Inv (w_ext w) →
  (Sign (client:=CMPClient) cluster request issuer w).1 ≠ Panic ∧
  Inv (w_ext (Sign (client:=CMPClient) cluster request issuer w).2) ∧
  (Check_ cluster issuer w).1 ≠ Panic.
Proof.
  intros Hw. pose proof (CMPClient_safe Inv). destruct (Sign_returns_or_fails Inv Hpem cluster request issuer w Hw) as [Ho Hi].
  destruct (Check_returns_or_fails Inv Hpem cluster issuer w Hw) as [Hc _].
  split_and!; [by intros E; rewrite E in Ho|exact Hi|by intros E; rewrite E in Hc].
Qed.

(** ** A harmless server *)

#[local] Existing Instances Demo.demoLibs.

Definition harmlessAnswer (a : error + HTTPResponse) : Prop :=
  match a with
  | inl _ => True
  | inr response => ∀ maximum body, Client.acceptHTTPResponse response maximum = Ok body → harmless body
  end.

#[local] Instance demo_harmless : HarmlessServer (λ x, Forall harmlessAnswer (server x)).
Proof.
  constructor; simpl; try done.
  - intros _ _ x Hs. destruct (server x) eqn:E; simpl; [by rewrite E|]. by apply Forall_cons in Hs as [_ Hs].
  - intros t x. by case_match.
  - intros t x. by case_match.
  - intros key uid x Hs. by repeat case_match.
  - intros _ _ x response maximum body. destruct (server x) as [|a rest]; [done|]. intros [Ha _]%Forall_cons Ea. simpl in Ea. subst a. apply Ha.
Qed.

Lemma substring_short n s : String.length (String.substring 0 n s) ≤ String.length s.
Proof. revert s. induction n as [|n IH]; intros [|b s]; simpl; [lia..|]. specialize (IH s). lia. Qed.

Lemma acceptHTTPResponse_length response maximum body :
  Client.acceptHTTPResponse response maximum = Ok body → String.length body ≤ String.length (resp_Body response).
Proof.
  unfold Client.acceptHTTPResponse, Client.readLimited. intros Hx. repeat (case_match; simplify_eq/=); [|done].
  apply substring_short.
Qed.

Lemma short_answer_harmless der : String.length der < 14 → harmlessAnswer (answer der).
Proof.
  intros Hl maximum body Hb%acceptHTTPResponse_length response status Hp Ht _. simpl in Hb.
  unfold ParsePKIMessage, Demo.demoLibs, Demo.parseMessage in Hp. repeat (case_bool_decide; simplify_eq/=); lia.
Qed.

Lemma Sign_never_panics_witness :
  let w := world [answer "cp"; answer "pkiconf"] ∅ in
  (Sign (client:=CMPClient) "" request issuer w).1 ≠ Panic ∧
  Forall harmlessAnswer (server (w_ext (Sign (client:=CMPClient) "" request issuer w).2)) ∧
  (Check_ "" issuer w).1 ≠ Panic.
Proof.
  intros w.
  exact (Sign_never_panics (λ x, Forall harmlessAnswer (server x)) demo_pem_consumes "" request issuer w
    (Forall_cons_2 _ _ _ (short_answer_harmless "cp" ltac:(simpl; lia))
      (Forall_cons_2 _ _ _ (short_answer_harmless "pkiconf" ltac:(simpl; lia)) (Forall_nil_2 _)))).
Defined.

(** The hypothesis on the server is needed: a trusted server that answers an
    enrollment with an error message of status accepted makes Sign panic. *)
Example accepted_error_panics :
  (Sign (client:=CMPClient) "" request issuer (world [answer "error-accepted"] ∅)).1 = Panic.
Proof. vm_compute. reflexivity. Qed.
End Safety.
