(* ===== verification/Recovery.v ===== *)
(** * Recovering an issued certificate

    A reconcile that finds its certificate already issued answers from the
    record alone. *)

From S2P Require Import Prelude GoString Types Demo Certificates Request Api IssuerSpec Metrics Runtime TransactionStore Configuration Workload Reporting DemoRuntime ProtocolClient ClientLaws Lifecycle Signer Reconcile SignerTrace History SignerLaws Safety.
Import Certificates Request Api IssuerSpec Metrics TransactionStore Configuration Workload Reporting DemoRuntime ProtocolClient ClientLaws Lifecycle Signing Reconcile SignerTrace History SignerLaws Safety.

Module Recovery.

Section recovery.
Context `{Runtime} `{CertManager} {client : Client}.

(** *** How a program ends

    [endsAt m w Q]: run from [w], the outcome of [m] and the events it adds,
    newest first, satisfy [Q]; [ends m Q]: from every world. *)
Definition endsAt {A} (m : M World error A) (w : World) (Q : outcome error A → list event → Prop) : Prop :=
  ∃ added, w_log (m w).2 = added ++ w_log w ∧ Q (m w).1 added.
Definition ends {A} (m : M World error A) (Q : outcome error A → list event → Prop) : Prop := ∀ w, endsAt m w Q.

Lemma endsAt_bind {A B} (m : M World error A) (f : A → M World error B) w (Q : outcome error B → list event → Prop) :
  (∃ l, w_log (m w).2 = l ++ w_log w ∧
    match m w with
    | (Ok a, w') => endsAt (f a) w' (λ o l', Q o (l' ++ l))
    | (Err e, _) => Q (Err e) l
    | (Panic, _) => Q Panic l
    end) → endsAt (m ≫= f) w Q.
Proof.
  intros (l & Hl & HQ). unfold endsAt, mbind, M_bind. destruct (m w) as [[a|e|] w']; simpl in *; [|eauto..].
  destruct HQ as (l' & Hl' & HQ'). exists (l' ++ l). by rewrite Hl', Hl, app_assoc.
Qed.

Lemma endsAt_lift {A} (o : outcome error A) w (Q : outcome error A → list event → Prop) : Q o [] → endsAt (lift o) w Q.
Proof. intros HQ. by exists []. Qed.

Lemma endsAt_mono {A} (m : M World error A) w (Q Q' : outcome error A → list event → Prop) :
  endsAt m w Q → (∀ o l, Q o l → Q' o l) → endsAt m w Q'.
Proof. intros (l & Hl & HQl) HQ. exists l. auto. Qed.

Lemma ends_bind {A B} (m : M World error A) (f : A → M World error B) (Q : outcome error B → list event → Prop) :
  ends m (λ o l, match o with
                 | Ok a => ends (f a) (λ o' l', Q o' (l' ++ l))
                 | Err e => Q (Err e) l
                 | Panic => Q Panic l
                 end) → ends (m ≫= f) Q.
Proof.
  intros Hm w. apply endsAt_bind. destruct (Hm w) as (l & Hl & HQ). exists l. split; [done|].
  destruct (m w) as [[a|e|] w']; simpl in *; [apply HQ|done..].
Qed.

Lemma ends_lift {A} (o : outcome error A) (Q : outcome error A → list event → Prop) : Q o [] → ends (lift o) Q.
Proof. intros HQ w. by exists []. Qed.

Lemma ends_emit ev (Q : outcome error unit → list event → Prop) : Q (Ok tt) [ev] → ends (emit ev) Q.
Proof. intros HQ w. by exists [ev]. Qed.

Lemma ends_outside {A} (f : Ext → A * Ext) (Q : outcome error A → list event → Prop) :
  (∀ x, Q (Ok (f x).1) []) → ends (outside f) Q.
Proof. intros HQ w. exists []. unfold outside, Prelude.step. specialize (HQ (w_ext w)). by destruct (f (w_ext w)). Qed.

(** *** The deletion of a record *)

(** The request to delete a record, bound to the UID that was read. *)
Definition deletionOf (t : CMPTransaction) : event := EvDelete (transactionKey t) (deletePreconditions t).
Definition deletion (t : CMPTransaction) : list event := [deletionOf t].

Lemma failTransaction_outcome {A} t err :
  ends (failTransaction (A:=A) t err) (λ o l, (∃ e, o = Err e) ∧ l = if endsTransaction err then deletion t else []).
Proof.
  unfold failTransaction. rewrite isPermanent_mapped. apply ends_bind. destruct (endsTransaction err); [|apply ends_lift, ends_lift; eauto].
  unfold remove, deleteTransaction. apply ends_bind, ends_bind, ends_emit, ends_outside. intros x.
  destruct (ext_DeleteTransaction _ _ x).1 as [[]|]; apply ends_lift; try apply ends_lift; eauto.
Qed.

(** Nothing is sent and nothing recorded; at most the record is deleted. *)
Definition quietEnd (t : CMPTransaction) (ev : event) : Prop := neutral ev ∨ ev = deletionOf t.

Lemma quietEnd_neutral t l : Forall neutral l → Forall (quietEnd t) l.
Proof. intros Hl. eapply Forall_impl; [exact Hl|]. by left. Qed.

Lemma quietEnd_deletion t (b : bool) : Forall (quietEnd t) (if b then deletion t else []).
Proof. destruct b; [|constructor]. constructor; [by right|constructor]. Qed.

Lemma deletionOf_not_neutral t l : Forall neutral l → deletionOf t ∉ l.
Proof. rewrite Forall_forall. intros Hl Hin. by apply Hl in Hin. Qed.

Lemma recordFailedEnrollment_ok labels err started w : (recordFailedEnrollment labels (Some err) started w).1 = Ok tt.
Proof.
  unfold recordFailedEnrollment. destruct (errors_As as_PendingError err); [done|]. unfold mbind, M_bind, time_Now, outside, Prelude.step.
  destruct (ext_Now (w_ext w)) as [now x]. destruct (failureLabels err) as [failure classification].
  unfold RecordOutcome, RecordFailure. by destruct (complete labels).
Qed.

(** The deferred failure report only adds metrics. *)
Lemma endsAt_reported {A} labels started (m : M World error A) w (Q : outcome error A → list event → Prop) :
  endsAt m w (λ o l, ∀ l', Forall neutral l' → Q o (l' ++ l)) → endsAt (reported labels started m) w Q.
Proof.
  intros (l & Hl & HQ). unfold reported. apply endsAt_bind. exists l. unfold try.
  destruct (m w) as [[a|e|] w']; cbn [fst snd] in *; (split; [done|]).
  - apply (endsAt_lift (Ok a)). by apply HQ.
  - apply endsAt_bind. destruct (recordFailedEnrollment_neutral labels (Some e) started w') as (l2 & Hl2 & Pl2).
    exists l2. split; [done|]. pose proof (recordFailedEnrollment_ok labels e started w') as Hok.
    destruct (recordFailedEnrollment labels (Some e) started w') as [[[]|e'|] w'']; simpl in *; [|done..].
    apply (endsAt_lift (Err e)). by apply HQ.
  - by apply (HQ []).
Qed.

(** A record that is bound to another request or issuer is given up. *)
Lemma unbound_final issuer i t e : bound issuer i t = Err e → endsTransaction (PermanentError e) = true.
Proof.
  unfold bound, validateResumedTransaction, reject_if, mbind, outcome_bind.
  intros He. by repeat (case_match; simplify_eq/=).
Qed.

Lemma resumed_unbound ClusterResourceNamespace request issuer i t e w :
  bound issuer i t = Err e →
  endsAt (resumed ClusterResourceNamespace request issuer i t) w
    (λ o l, (∃ err, o = Err err) ∧ ∃ l', Forall neutral l' ∧ l = l' ++ deletion t).
Proof.
  intros Eb. unfold resumed. rewrite Eb. apply endsAt_bind.
  destruct (endsAt_reported (enrollmentMetricLabels issuer request) (id_Started i) (failTransaction (A:=()) t (PermanentError e)) w
    (λ o l, (∃ err, o = Err err) ∧ ∃ l', Forall neutral l' ∧ l = l' ++ deletion t)) as (l & Hl & (err & Ho) & Hq).
  { eapply endsAt_mono; [apply failTransaction_outcome|]. intros o l [He ->] l' Hl'. rewrite (unbound_final _ _ _ _ Eb). eauto. }
  exists l. destruct (reported _ _ _ w) as [o w']. simpl in *. subst o. eauto.
Qed.

(** ** The issued record *)

Section issued.
Context (ClusterResourceNamespace : string) (request : CertificateRequestObject) (issuer : Issuer).

(** The chain a reconcile in world [w] recovers from the issued record [t]: the
    record is bound to this request and issuer, its chain decodes for the CSR
    and verifies under the trust anchors read from the cluster then. *)
Definition recovers (i : identification) (t : CMPTransaction) (w : World) (chain : list Certificate) : Prop :=
  bound issuer i t = Ok tt ∧
  ∃ recorded roots candidates w', recordedChain t (id_DER i) = Ok recorded ∧
    loadCMPTrust ClusterResourceNamespace issuer w = (Ok (roots, candidates), w') ∧
    trustedRecordedChain (ext_Now (w_ext w')).1 recorded (Some roots) candidates = Ok chain.

(** Why an issued record is given up: it is bound to something else, its chain
    does not decode for the CSR, or it no longer verifies. *)
Definition unusable (i : identification) (t : CMPTransaction) (w : World) : Prop :=
  (∃ e, bound issuer i t = Err e) ∨ (∃ e, recordedChain t (id_DER i) = Err e) ∨
  ∃ recorded roots candidates w' e, recordedChain t (id_DER i) = Ok recorded ∧
    loadCMPTrust ClusterResourceNamespace issuer w = (Ok (roots, candidates), w') ∧
    trustedRecordedChain (ext_Now (w_ext w')).1 recorded (Some roots) candidates = Err e.

(** How a reconcile of an issued record ends. *)
Definition recoveryEnds (i : identification) (t : CMPTransaction) (w : World) (o : outcome error bytes) (l : list event) : Prop :=
  Forall (quietEnd t) l ∧ (deletionOf t ∈ l → unusable i t w) ∧
  ∀ chain, recovers i t w chain → o = Ok (encodeChainPEM chain).

Lemma recoveryEnds_app i t w o l l' : Forall neutral l' → recoveryEnds i t w o l → recoveryEnds i t w o (l' ++ l).
Proof.
  intros Hl' (Hq & Hd & Hr). split_and!; [apply Forall_app; auto using quietEnd_neutral| |done].
  rewrite elem_of_app. intros [Hin|Hin]; [by apply deletionOf_not_neutral in Hin|auto].
Qed.

Lemma given_up i t w err w0 l0 :
  Forall neutral l0 → unusable i t w → (∀ chain, ¬ recovers i t w chain) →
  endsAt (failTransaction (A:=bytes) t err) w0 (λ o l, recoveryEnds i t w o (l ++ l0)).
Proof.
  intros Hl0 Hu Hr. eapply endsAt_mono; [apply failTransaction_outcome|]. intros o l [_ ->].
  split_and!; [apply Forall_app; split; [apply quietEnd_deletion|by apply quietEnd_neutral]|done|intros chain Hc; by destruct (Hr chain)].
Qed.

Lemma recoverIssuedChain_ends i t w :
  bound issuer i t = Ok tt →
  endsAt (recoverIssuedChain ClusterResourceNamespace t issuer (id_DER i)) w (recoveryEnds i t w).
Proof.
  intros Hb. unfold recoverIssuedChain. destruct (recordedChain t (id_DER i)) as [recorded|e|] eqn:Er.
  - apply endsAt_bind. destruct (proj1 (loadCMPTrust_spec ClusterResourceNamespace issuer) w) as (l & Hl & Pl).
    assert (Hn : Forall neutral l) by (eapply Forall_impl; [exact Pl|]; apply neutral_reads).
    unfold mapErrM. exists l. destruct (loadCMPTrust ClusterResourceNamespace issuer w) as [[[roots candidates]|e|] w'] eqn:El;
      simpl in *; (split; [done|]);
      [|split_and!; [by apply quietEnd_neutral|intros Hin; by apply deletionOf_not_neutral in Hin|];
        intros chain (_ & ? & ? & ? & ? & _ & Hl' & _); congruence..].
    apply endsAt_bind. exists []. unfold time_Now, outside, Prelude.step.
    destruct (ext_Now (w_ext w')) as [now x] eqn:En. simpl. split; [done|].
    destruct (trustedRecordedChain now recorded (Some roots) candidates) as [chain|e|] eqn:Et.
    + apply (endsAt_lift (Ok (encodeChainPEM chain))).
      split_and!; [by apply quietEnd_neutral|intros Hin; by apply deletionOf_not_neutral in Hin|].
      intros chain' (_ & recorded' & roots' & candidates' & w'' & Hr' & Hl' & Ht'). rewrite Er in Hr'. rewrite El in Hl'.
      injection Hr' as <-. injection Hl' as <- <- <-. rewrite En in Ht'. simpl in Ht'. congruence.
    + eapply endsAt_mono; [|intros o l'; rewrite app_nil_r; exact id]. apply given_up; [done| |].
      * right; right. exists recorded, roots, candidates, w', e. by rewrite En.
      * intros chain (_ & ? & ? & ? & ? & Hr' & Hl' & Ht'). rewrite Er in Hr'. rewrite El in Hl'.
        injection Hr' as <-. injection Hl' as <- <- <-. rewrite En in Ht'. simpl in Ht'. congruence.
    + by destruct (trustedRecordedChain_safe now recorded (Some roots) candidates).
  - eapply endsAt_mono; [apply (given_up i t w e w []); [done|right; left; eauto|]|intros o l; cbn beta; by rewrite app_nil_r].
    intros chain (_ & ? & ? & ? & ? & ? & _); congruence.
  - by destruct (recordedChain_safe t (id_DER i)).
Qed.

(** C17: A reconcile that finds its certificate already issued never contacts the CMP server and writes nothing: after
    loading the record it only reads, reports metrics and, at most, asks to delete that very record, and it does
    so only when the record is bound to another request or issuer, its chain does not decode for this CSR, or
    it no longer verifies under the trust anchors the cluster answers with. A record that is bound here and
    whose chain verifies is returned as PEM. *)
Theorem Sign_issued_silent i t w w' :
  identified request issuer w = (Ok i, w') → id_Transaction i = Some t → Phase (tx_Status t) = TransactionPhaseIssued →
  ∃ added, w_log (Sign ClusterResourceNamespace request issuer w).2 = added ++ w_log w' ∧
    Forall (quietEnd t) added ∧ (deletionOf t ∈ added → unusable i t w') ∧
    ∀ chain, recovers i t w' chain → (Sign ClusterResourceNamespace request issuer w).1 = Ok (encodeChainPEM chain).
Proof.
  intros Hi Ht Hp. rewrite (run_Sign _ _ _ _ _ _ Hi), Ht.
  change (endsAt (resumed ClusterResourceNamespace request issuer i t) w' (recoveryEnds i t w')).
  destruct (bound issuer i t) as [[]|e|] eqn:Eb.
  - rewrite resumed_bound by done. apply endsAt_reported. unfold resume. rewrite bool_decide_true by done.
    eapply endsAt_mono; [by apply recoverIssuedChain_ends|]. intros o l Hr l' Hl'. by apply recoveryEnds_app.
  - eapply endsAt_mono; [by eapply resumed_unbound|]. intros o l (He & l' & Hl' & ->). apply recoveryEnds_app; [done|].
    split_and!; [apply (quietEnd_deletion t true)|intros _; left; eauto|]. intros chain [? _]. congruence.
  - by destruct (validateResumed_safe t (csrDigestHex (id_DER i)) (id_Operation i) (renewalFallbackOperation issuer) (issuerReference issuer)).
Qed.
End issued.
End recovery.

#[local] Existing Instances Demo.demoLibs CMPClient CMPClient_laws demoKube.

(** The recorded certificate of the demonstration request is recovered. *)
Definition issuedWorld : World := resumeWorld issued "".
Definition issuedIdentification : identification :=
  {| id_Started := 50; id_DER := "csr"; id_Operation := TransactionOperationP10CR; id_Transaction := Some issued |}.

Definition issuedLoaded : World := (identified request issuer issuedWorld).2.

Lemma issued_identified : identified request issuer issuedWorld = (Ok issuedIdentification, issuedLoaded).
Proof.
  assert (Hi : (identified request issuer issuedWorld).1 = Ok issuedIdentification) by (vm_compute; reflexivity).
  exact (eq_trans (surjective_pairing _) (f_equal (λ o, (o, issuedLoaded)) Hi)).
Qed.

Lemma Sign_issued_silent_witness :
  (Sign "" request issuer issuedWorld).1 = Ok "PL"%string ∧
  ∃ added, w_log (Sign "" request issuer issuedWorld).2 = added ++ w_log issuedLoaded ∧
    Forall (quietEnd issued) added ∧
    (deletionOf issued ∈ added → unusable "" issuer issuedIdentification issued issuedLoaded) ∧
    ∀ chain, recovers "" issuer issuedIdentification issued issuedLoaded chain →
      (Sign "" request issuer issuedWorld).1 = Ok (encodeChainPEM chain).
Proof.
  split; [vm_compute; reflexivity|].
  exact (Sign_issued_silent "" request issuer issuedIdentification issued issuedWorld issuedLoaded issued_identified eq_refl eq_refl).
Defined.
End Recovery.
