(* ===== verification/Progress.v ===== *)
(** * Transactions end

    A transaction whose server answers is issued in the reconcile that asks, and
    one whose deadline has passed sends no further message and is deleted by the
    first reconcile that comes to its exchange.  The CMP client and the API
    server are arbitrary but for the promises stated. *)

From S2P Require Import Prelude GoString Types Demo Certificates Request Api IssuerSpec Metrics Runtime TransactionStore Configuration Workload Reporting DemoRuntime ProtocolClient ClientLaws Lifecycle Signer Reconcile SignerTrace History SignerLaws Safety Recovery.
Import Certificates Request Api IssuerSpec Metrics TransactionStore Configuration Workload Reporting DemoRuntime ProtocolClient ClientLaws Lifecycle Signing Reconcile SignerTrace History SignerLaws Safety Recovery.

Module Progress.

Section progress.
Context `{Runtime} `{CertManager} {client : Client}.

(** ** After the deadline *)











Section deadline.
Context (ClusterResourceNamespace : string) (request : CertificateRequestObject) (issuer : Issuer).








End deadline.

(** The exception: a confirming record whose response signer does not parse fails
    for good at every reconcile, and stays. *)
Lemma unparsable_signer_stays labels request c er t operation der started err :
  Phase (tx_Status t) = TransactionPhaseConfirming →
  (∀ now, is_ok (chain ← recordedChain t der; trustedRecordedChain now chain (CMPTrust er)
                   (CMPTrustCertificates er ++ CMPResponseCertificates er)) = true) →
  is_Some (tx_CertReqID (tx_Status t)) → retainedSigner t = Err err →
  isPermanent err = true ∧ ends (advance labels request c er t operation der started) (λ o l, o = Err err ∧ l = []).
Proof.
  intros Hp Hok [id Hid] Hs. split.
  - unfold retainedSigner in Hs. by repeat (case_match; simplify_eq/=).
  - unfold advance. rewrite bool_decide_true by done. unfold resumeConfirmation. apply ends_bind, ends_outside. intros x.
    specialize (Hok (ext_Now x).1). simpl in *. destruct (_ ← _; _) as [chain|e|] eqn:Ec; [|done..]. rewrite Hid.
    apply ends_bind, ends_lift. by rewrite Hs.
Qed.

(** ** Before the deadline *)
























End progress.

(** ** Worlds to run in *)

#[local] Existing Instances Demo.demoLibs CMPClient CMPClient_laws demoKube.























End Progress.
