(* ===== verification/Records.v ===== *)
(** * What a record holds: the chain it keeps comes back unchanged, and the wait
    it records is the one the next reconcile continues *)

From S2P Require Import Prelude GoString Types Demo Certificates Request Api IssuerSpec Metrics Runtime TransactionStore Configuration Workload Reporting DemoRuntime ProtocolClient ClientLaws Lifecycle Signer SignerTrace History SignerLaws.
Import Certificates Request Api IssuerSpec Metrics TransactionStore Configuration Workload Reporting DemoRuntime ProtocolClient ClientLaws Lifecycle Signing SignerTrace History SignerLaws.

Module Records.

(** ** The recorded chain *)

Section chain.
Context `{Libs}.

(** A certificate as crypto/x509 parses it: parsing its encoding gives it back. *)
Definition parses (c : Certificate) : Prop := ParseCertificate (Raw c) = inr c.

(** The PEM block of a certificate, and the documented behaviour of encoding/pem
    on it: decoding reads back the block just encoded and leaves what follows. *)
Definition block (c : Certificate) : PEMBlock := {| pem_Type := pemCertificateBlockType; pem_Bytes := Raw c |}.
Definition pemRoundtrips (c : Certificate) : Prop := ∀ rest, pem_Decode (pem_Encode (block c) +:+ rest) = Some (block c, rest).

Lemma parseRecorded_encode chain : Forall parses chain → Forall mldsaUsageOK chain → parseRecorded (encodeChain chain) = Ok chain.
Proof.
  induction 1 as [|c chain Hc _ IH]; [done|]. intros [Hu Hus]%Forall_cons. simpl. rewrite Hc. simpl.
  rewrite (proj2 (ValidateMLDSAKeyUsage_ok c) Hu). simpl. by rewrite IH.
Qed.

Lemma recordedChain_encode t st der csr leaf tail :
  IssuedChain st = encodeChain (leaf :: tail) → Forall parses (leaf :: tail) → Forall mldsaUsageOK (leaf :: tail) →
  ParseCertificateRequest der = inr csr → PublicKeysEqual (csr_PublicKey csr) (cert_PublicKey leaf) = true →
  recordedChain (set_Status st t) der = Ok (leaf :: tail).
Proof.
  intros Hst Hp Hu Hcsr Hk. unfold recordedChain. cbn [tx_Status set_Status]. rewrite Hst.
  rewrite parseRecorded_encode by done. rewrite Hcsr. simpl. by rewrite Hk.
Qed.

Lemma encoding_nonempty c : pem_Decode "" = None → pemRoundtrips c → pem_Encode (block c) ≠ ""%string.
Proof. intros Hnil Hc E. specialize (Hc ""%string). rewrite E in Hc. simpl in Hc. congruence. Qed.

Lemma encodeChainPEM_cons c chain : encodeChainPEM (c :: chain) = pem_Encode (block c) +:+ encodeChainPEM chain.
Proof. done. Qed.

Lemma encodeChainPEM_length chain :
  pem_Decode "" = None → Forall pemRoundtrips chain → length chain ≤ String.length (encodeChainPEM chain).
Proof.
  intros Hnil. induction 1 as [|c chain Hc _ IH]; [simpl; lia|]. rewrite encodeChainPEM_cons. cbn [length].
  pose proof (encoding_nonempty c Hnil Hc) as Hne. destruct (pem_Encode (block c)) as [|b s]; [done|]. simpl.
  assert (∀ s1 s2, String.length s2 ≤ String.length (s1 +:+ s2)) as Happ by (intros s1 s2; induction s1; simpl; lia).
  specialize (Happ s (encodeChainPEM chain)). lia.
Qed.

Lemma pemLoop_chain chain fuel acc :
  pem_Decode "" = None → Forall parses chain → Forall pemRoundtrips chain → length chain < fuel →
  pemLoop fuel (encodeChainPEM chain) acc = Ok (acc ++ chain, ""%string).
Proof.
  intros Hnil Hp. revert fuel acc. induction Hp as [|c chain Hc _ IH]; intros fuel acc Hr Hf;
    (destruct fuel as [|fuel]; [simpl in Hf; lia|]).
  - change (encodeChainPEM []) with ""%string. simpl. by rewrite Hnil, app_nil_r.
  - apply Forall_cons in Hr as [Hcr Hr]. rewrite encodeChainPEM_cons. cbn [pemLoop]. rewrite Hcr. simpl. rewrite Hc.
    simpl in Hf. rewrite IH by (done || lia). by rewrite <- app_assoc.
Qed.

(** C19: A chain survives its record and its PEM bundle: the statuses recordConfirming and recordIssued write give
    recordedChain back exactly the chain that was recorded, for the request it was issued to, and the bundle
    Sign returns parses to that chain, provided the certificates are as crypto/x509 parsed them, pass the key
    usage rule, and encoding/pem reads back what it wrote. *)
Theorem recorded_chain_roundtrip t now pending der csr leaf tail :
  Forall parses (leaf :: tail) → Forall mldsaUsageOK (leaf :: tail) → Forall pemRoundtrips (leaf :: tail) → pem_Decode "" = None →
  ParseCertificateRequest der = inr csr → PublicKeysEqual (csr_PublicKey csr) (cert_PublicKey leaf) = true →
  recordedChain (set_Status (confirmingStatus now (leaf :: tail) pending (tx_Status t)) t) der = Ok (leaf :: tail) ∧
  recordedChain (set_Status (issuedStatus now (leaf :: tail) (tx_Status t)) t) der = Ok (leaf :: tail) ∧
  ParseCertificates (encodeChainPEM (leaf :: tail)) = Ok (leaf :: tail).
Proof.
  intros Hp Hu Hr Hnil Hcsr Hk. split_and!; [by eapply recordedChain_encode..|].
  unfold ParseCertificates. rewrite pemLoop_chain; [|done..|pose proof (encodeChainPEM_length _ Hnil Hr); lia]. done.
Qed.
End chain.

(** ** The recorded wait *)

Section wait.
Context `{Runtime} {client : Client}.

(** The signer of the waiting answer, when it named one, is as crypto/x509
    parsed it. *)
Definition signerReadable (pending : PendingTransaction) : Prop :=
  ∀ signer, pt_ResponseSigner pending = Some signer → Raw signer ≠ ""%string ∧ parses signer.

(** The signer kept with the wait: that of the answer or, when the answer named
    none, the one kept before. *)
Definition signerAfter (pending : PendingTransaction) (earlier : option Certificate) : option Certificate :=
  match pt_ResponseSigner pending with Some signer => Some signer | None => earlier end.

(** The poll that continues the wait [pending] of a transaction that had
    recorded the request nonce [nonce]. *)
Definition nextPoll (er : EnrollmentRequest) (pending : PendingTransaction) (earlier : option Certificate) (nonce : bytes) : PollRequest :=
  {| poll_Enrollment := er; poll_RecipNonce := pt_RecipNonce pending; poll_CertReqID := pt_CertReqID pending;
     poll_ResponseSigner := signerAfter pending earlier;
     poll_RequestNonce := if bool_decide (pt_RequestNonce pending = "") then nonce else pt_RequestNonce pending |}.

(** What a reconcile within the deadline does about the wait [pending] after
    [polls] polls. *)
Definition continues (limits : TransactionSpec) (pending : PendingTransaction) (polls : Z) (poll : PollRequest) : M World error EnrollmentResult :=
  _ ← time_Now;
  if bool_decide (pt_RecipNonce pending = "")
  then fail (PermanentError (Errorf "recorded CMP transaction is missing the state required to poll"))
  else if (MaximumPolls limits <=? polls)%Z then fail pollsExceeded
  else _ ← emit (EvPoll poll); PollP10CR poll.

(** The confirmation that continues the wait [pending]. *)
Definition confirmsLater (labels : Labels) (t : CMPTransaction) (er : EnrollmentRequest) (limits : TransactionSpec) (chain : list Certificate) (pending : PendingTransaction) (earlier : option Certificate) (started : Time) : M World error bytes :=
  _ ← time_Now;
  confirm labels t er limits chain
    {| pt_CertReqID := pt_CertReqID pending; pt_RecipNonce := pt_RecipNonce pending; pt_ResponseSigner := signerAfter pending earlier;
       CheckAfter := 0; pt_RequestNonce := pt_RequestNonce pending |} started.

Lemma updateStatus_written label t w answered w' :
  updateStatus label t w = (Ok answered, w') → w_log w' = EvUpdateStatus t :: w_log w.
Proof.
  intros (stored & w1 & Hu & Hw)%run_bind. apply run_bind in Hw as (u & w2 & ->%run_emit & [-> ->]%run_ret).
  apply run_bind in Hu as (r & w3 & (x & _ & ->)%run_outside & Hr). by apply run_lift in Hr as [_ ->].
Qed.

(** recordPending and recordConfirming write the record with its new status. *)
Lemma recorded_written (f : Time → CMPTransactionStatus) label t w answered w' :
  (now ← time_Now; updateStatus label (set_Status (f now) t)) w = (Ok answered, w') →
  ∃ now, w_log w' = EvUpdateStatus (set_Status (f now) t) :: w_log w.
Proof. intros (now & w1 & (x & _ & ->)%run_outside & Hu%updateStatus_written)%run_bind. by exists now. Qed.

Lemma retainedSigner_kept t st pending earlier :
  retainedSigner t = Ok earlier → signerReadable pending → tx_ResponseSigner st = keptSigner pending (tx_Status t) →
  retainedSigner (set_Status st t) = Ok (signerAfter pending earlier).
Proof.
  intros Ht Hs E. unfold retainedSigner. cbn [tx_Status set_Status]. rewrite E. unfold keptSigner, signerAfter.
  destruct (pt_ResponseSigner pending) as [signer|] eqn:Ep; [|exact Ht].
  destruct (Hs _ Ep) as [Hne Hparse]. rewrite bool_decide_false by done. by rewrite Hparse.
Qed.

Lemma exchange_continues er limits t pending earlier now w :
  retainedSigner t = Ok earlier → signerReadable pending → time_After (ext_Now (w_ext w)).1 (Deadline (Spec t)) = false →
  exchange er (set_Status (pendingStatus now pending (tx_Status t)) t) limits w =
  continues limits pending (Polls (tx_Status t)) (nextPoll er pending earlier (tx_RequestNonce (tx_Status t))) w.
Proof.
  intros Ht Hs Hnow. unfold exchange, continues, mbind, M_bind. unfold time_Now, outside, Prelude.step.
  destruct (ext_Now (w_ext w)) as [n x]. cbn [fst] in Hnow. cbn [Spec set_Status]. rewrite Hnow.
  cbn [tx_Status set_Status Phase pendingStatus tx_CertReqID tx_RecipNonce Polls tx_RequestNonce].
  rewrite (bool_decide_true (TransactionPhasePolling = _)) by done. cbn [negb].
  destruct (bool_decide (pt_RecipNonce pending = "")); [done|]. destruct (_ <=? _)%Z; [done|].
  unfold lift. by rewrite (retainedSigner_kept _ _ _ _ Ht Hs) by done.
Qed.

Lemma resumeConfirmation_continues labels er limits t pending earlier chain now started w der csr leaf tail :
  retainedSigner t = Ok earlier → signerReadable pending → Forall parses (leaf :: tail) → Forall mldsaUsageOK (leaf :: tail) →
  ParseCertificateRequest der = inr csr → PublicKeysEqual (csr_PublicKey csr) (cert_PublicKey leaf) = true →
  trustedRecordedChain (ext_Now (w_ext w)).1 (leaf :: tail) (CMPTrust er) (CMPTrustCertificates er ++ CMPResponseCertificates er) = Ok chain →
  let written := set_Status (confirmingStatus now (leaf :: tail) pending (tx_Status t)) t in
  resumeConfirmation labels written er limits der started w =
  confirmsLater labels written er limits chain pending earlier started w.
Proof.
  intros Ht Hs Hp Hu Hcsr Hk Htrust written. unfold resumeConfirmation, confirmsLater, mbind, M_bind. unfold time_Now, outside, Prelude.step.
  destruct (ext_Now (w_ext w)) as [n x]. cbn [fst] in Htrust. unfold written at 1.
  rewrite (recordedChain_encode _ _ _ csr leaf tail) by done. unfold outcome_bind. rewrite Htrust.
  unfold lift, written. cbn [tx_Status set_Status tx_CertReqID confirmingStatus]. by rewrite (retainedSigner_kept _ _ _ _ Ht Hs) by done.
Qed.

(** C12: What a wait records is what the next reconcile continues with. Of the record recordPending writes, exchange
    within the deadline sends exactly the poll the waiting answer asks for: its certReqId, its nonce as
    recipNonce, its request nonce (the one recorded before when it has none) and the response signer last seen;
    when the answer carried no nonce the transaction fails for good, as it does when the poll budget is spent. Of the record
    recordConfirming writes, resumeConfirmation goes on to confirm the recorded chain, as it verifies then, with
    the certReqId, nonces and signer of the wait. *)
Theorem recorded_wait_resumes t pending earlier er limits :
  retainedSigner t = Ok earlier → signerReadable pending →
  (∀ w answered w', recordPending t pending w = (Ok answered, w') →
    ∃ written, w_log w' = EvUpdateStatus written :: w_log w ∧
      ∀ later, time_After (ext_Now (w_ext later)).1 (Deadline (Spec t)) = false →
        exchange er written limits later =
        continues limits pending (Polls (tx_Status t)) (nextPoll er pending earlier (tx_RequestNonce (tx_Status t))) later) ∧
  (∀ w leaf tail answered w', recordConfirming t (leaf :: tail) pending w = (Ok answered, w') →
    Forall parses (leaf :: tail) → Forall mldsaUsageOK (leaf :: tail) →
    ∃ written, w_log w' = EvUpdateStatus written :: w_log w ∧ Spec written = Spec t ∧ Polls (tx_Status written) = Polls (tx_Status t) ∧
      ∀ labels der csr chain started later,
        ParseCertificateRequest der = inr csr → PublicKeysEqual (csr_PublicKey csr) (cert_PublicKey leaf) = true →
        trustedRecordedChain (ext_Now (w_ext later)).1 (leaf :: tail) (CMPTrust er)
          (CMPTrustCertificates er ++ CMPResponseCertificates er) = Ok chain →
        resumeConfirmation labels written er limits der started later =
        confirmsLater labels written er limits chain pending earlier started later).
Proof.
  intros Ht Hs. split.
  - intros w answered w' [now Hw]%recorded_written. eexists. split; [exact Hw|]. intros later Hl. by apply exchange_continues.
  - intros w leaf tail answered w' [now Hw]%recorded_written Hp Hu. eexists. split_and!; [exact Hw|done|done|].
    intros labels der csr chain started later Hcsr Hk Htrust. by eapply resumeConfirmation_continues.
Qed.
End wait.

#[local] Existing Instances Demo.demoLibs CMPClient CMPClient_laws demoKube.

Lemma recorded_chain_roundtrip_witness :
  recordedChain (set_Status (confirmingStatus 50 [Demo.leaf; Demo.root] {| pt_CertReqID := -1; pt_RecipNonce := "n"; pt_ResponseSigner := None;
    CheckAfter := 0; pt_RequestNonce := "" |} (tx_Status polling)) polling) "csr" = Ok [Demo.leaf; Demo.root] ∧
  recordedChain (set_Status (issuedStatus 50 [Demo.leaf; Demo.root] (tx_Status polling)) polling) "csr" = Ok [Demo.leaf; Demo.root] ∧
  ParseCertificates (encodeChainPEM [Demo.leaf; Demo.root]) = Ok [Demo.leaf; Demo.root].
Proof.
  apply (recorded_chain_roundtrip polling 50 _ "csr" Demo.csr Demo.leaf [Demo.root]); repeat constructor; try done; by intros rest.
Defined.

(** A wait of the demonstration transaction, whose answer named its signer. *)
Definition demoWait : PendingTransaction :=
  {| pt_CertReqID := -1; pt_RecipNonce := "again"; pt_ResponseSigner := Some Demo.root; CheckAfter := 5; pt_RequestNonce := "" |}.

Definition waitWorld : World := resumeWorld polling "pollrep".
Definition waitLabels : Labels := enrollmentMetricLabels issuer request.

(** A write that succeeds there. *)
Lemma written_ok (m : M World error CMPTransaction) w : is_ok (m w).1 = true → ∃ answered, m w = (Ok answered, (m w).2).
Proof. destruct (m w) as [[answered|e|] w']; [by exists answered|done..]. Qed.

Lemma recorded_wait_resumes_witness :
  (∃ written, w_log (recordPending polling demoWait waitWorld).2 = EvUpdateStatus written :: w_log waitWorld ∧
     exchange Demo.request written demoLimits waitWorld =
     continues demoLimits demoWait 0 (nextPoll Demo.request demoWait None "nonce") waitWorld) ∧
  (∃ written, w_log (recordConfirming polling [Demo.leaf] demoWait waitWorld).2 = EvUpdateStatus written :: w_log waitWorld ∧
     resumeConfirmation waitLabels written Demo.request demoLimits "csr" 40 waitWorld =
     confirmsLater waitLabels written Demo.request demoLimits [Demo.leaf] demoWait None 40 waitWorld).
Proof.
  destruct (recorded_wait_resumes polling demoWait None Demo.request demoLimits eq_refl) as [Hpending Hconfirming];
    [intros signer [= <-]; by split|]. split.
  - destruct (written_ok (recordPending polling demoWait) waitWorld) as [answered Ha]; [vm_compute; reflexivity|].
    destruct (Hpending _ _ _ Ha) as (written & Hw & He). exists written. split; [exact Hw|]. apply He. vm_compute. reflexivity.
  - destruct (written_ok (recordConfirming polling [Demo.leaf] demoWait) waitWorld) as [answered Ha]; [vm_compute; reflexivity|].
    destruct (Hconfirming _ _ _ _ _ Ha) as (written & Hw & _ & _ & He); [by repeat constructor|by repeat constructor|].
    exists written. split; [exact Hw|]. apply (He waitLabels "csr"%string Demo.csr); vm_compute; reflexivity.
Defined.
End Records.
