(* ===== verification/Crash.v ===== *)
(** * Crashes: what survives a controller that stops anywhere

    A reconcile may be cut after any of its events and the next one starts from
    what the API server holds.  The durable record is followed over any number
    of complete and cut reconciles of one CertificateRequest. *)

From S2P Require Import Prelude GoString Types Demo Api Runtime TransactionStore Workload DemoRuntime ProtocolClient ClientLaws Lifecycle Signer SignerTrace History.
Import Api TransactionStore Workload DemoRuntime ProtocolClient ClientLaws Lifecycle Signing SignerTrace History.

Module Crash.

(** ** The durable record *)

(** What the API server holds for the CertificateRequest: the transaction's
    identifier and the part of its status that decides how it continues. *)
Definition durable : Type := option (bytes * view).
Definition durableOf (t : CMPTransaction) : bytes * view := (idOf t, viewOfTx t).

Section durable.
Context `{Runtime}.

(** What an event does to the record.  The status is a subresource, so a create
    stores none; a create needs the record absent and an update needs it
    present; an uncached read returns the record; a request to delete may fail. *)
Definition durableStep (d : durable) (ev : event) (d' : durable) : Prop :=
  match ev with
  | EvCreate t => d = None ∧ d' = Some (idOf t, viewOf CMPTransactionStatus_zero)
  | EvUpdateStatus t => is_Some d ∧ d' = Some (durableOf t)
  | EvDelete _ _ => d' = None ∨ d' = d
  | EvLoaded o => durableOf <$> o = d ∧ d' = d
  | _ => d' = d
  end.

Fixpoint durably (d : durable) (l : list event) (d' : durable) : Prop :=
  match l with
  | [] => d' = d
  | ev :: l => ∃ d1, durableStep d ev d1 ∧ durably d1 l d'
  end.

(** The same as a function, on events that are not deletions. *)
#[global] Instance view_eq_dec : EqDecision view.
Proof. solve_decision. Defined.

Definition durableNext (d : durable) (ev : event) : option durable :=
  match ev, d with
  | EvCreate t, None => Some (Some (idOf t, viewOf CMPTransactionStatus_zero))
  | EvUpdateStatus t, Some _ => Some (Some (durableOf t))
  | EvLoaded o, _ => if decide (durableOf <$> o = d) then Some d else None
  | (EvCreate _ | EvUpdateStatus _ | EvDelete _ _), _ => None
  | _, _ => Some d
  end.
Definition durableRun (d : durable) (l : list event) : option durable := foldl (λ r ev, r ≫= λ d, durableNext d ev) (Some d) l.

Lemma durableNext_step d ev d' : durableNext d ev = Some d' → durableStep d ev d'.
Proof. destruct ev, d as [[id v]|]; simpl; intros; repeat (case_decide || simplify_eq); eauto. Qed.

Lemma durableRun_durably d l d' : durableRun d l = Some d' → durably d l d'.
Proof.
  unfold durableRun. revert d. induction l as [|ev l IH]; intros d Hr; simpl in *; [by simplify_eq|].
  destruct (durableNext d ev) as [d1|] eqn:E; [exists d1; split; [by apply durableNext_step|by apply IH]|].
  exfalso. clear -Hr. induction l; [done|by apply IHl].
Qed.

(** ** The course of a transaction *)

(** How far a phase is: not asked yet or asked, waiting, to be confirmed, issued. *)
Definition rank (phase : string) : nat :=
  if bool_decide (phase = TransactionPhasePolling) then 1
  else if bool_decide (phase = TransactionPhaseConfirming) then 2
  else if bool_decide (phase = TransactionPhaseIssued) then 3 else 0.
Definition durableRank (d : durable) : nat := match d with Some (_, v) => rank (v_Phase v) | None => 0 end.

(** The stage a message or a record belongs to. *)
Definition stage (ev : event) : option nat :=
  match ev with
  | EvCreate _ | EvEnroll _ _ => Some 0
  | EvPoll _ => Some 1
  | EvConfirm _ => Some 2
  | EvUpdateStatus t | EvLoaded (Some t) => Some (rank (Phase (tx_Status t)))
  | _ => None
  end.

(** The transaction a message or a record belongs to. *)
Definition transactionOf (ev : event) : option bytes :=
  match ev with
  | EvCreate t | EvUpdateStatus t | EvLoaded (Some t) => Some (idOf t)
  | EvEnroll _ r => Some (er_TransactionID r)
  | EvPoll p => Some (er_TransactionID (poll_Enrollment p))
  | EvConfirm c => Some (er_TransactionID (cf_Enrollment c))
  | _ => None
  end.

Definition isDelete (ev : event) : bool := match ev with EvDelete _ _ => true | _ => false end.
Definition isCreate (ev : event) : bool := match ev with EvCreate _ => true | _ => false end.

(** The record behind a state of the lifecycle. *)
Definition agrees (s : state) (d : durable) : Prop :=
  match s with
  | Start | Gone => True
  | NoRecord => d = None
  | Fresh id => ∃ v, d = Some (id, v) ∧ rank (v_Phase v) = 0
  | Open id v _ | Done id v => d = Some (id, v)
  end.

(** Stages from [k] to [k'] that never go back. *)
Fixpoint ascends (k : nat) (l : list event) (k' : nat) : Prop :=
  match l with
  | [] => k ≤ k'
  | ev :: l => match stage ev with None => ascends k l k' | Some k1 => k ≤ k1 ∧ ascends k1 l k' end
  end.

Lemma ascends_mono k0 k l k' : k0 ≤ k → ascends k l k' → ascends k0 l k'.
Proof. revert k. induction l as [|ev l IH]; intros k Hk; simpl; [lia|]. destruct (stage ev); [intuition lia|by apply IH]. Qed.

Lemma ascends_app k l1 k1 l2 k2 : ascends k l1 k1 → ascends k1 l2 k2 → ascends k (l1 ++ l2) k2.
Proof.
  revert k. induction l1 as [|ev l1 IH]; intros k; simpl; [intros; by eapply ascends_mono|].
  destruct (stage ev); [intros [? ?]|]; eauto.
Qed.

Lemma ascends_sorted k l k' : ascends k l k' → StronglySorted le (k :: omap stage l ++ [k']).
Proof.
  revert k. induction l as [|ev l IH]; intros k Ha; simpl in *; [repeat constructor; lia|].
  destruct (stage ev) as [k1|]; [|by apply IH]. destruct Ha as [Hk Ha]. apply IH in Ha.
  constructor; [done|]. constructor; [done|]. apply StronglySorted_inv in Ha as [_ Hf].
  eapply Forall_impl; [done|]. simpl. lia.
Qed.

Lemma rank_early v : v_Phase v ∉ [TransactionPhasePolling; TransactionPhaseConfirming; TransactionPhaseIssued] → rank (v_Phase v) = 0.
Proof. intros Hp. unfold rank. rewrite !bool_decide_false by set_solver. done. Qed.
Lemma rank_waiting v : v_Phase v ∉ [TransactionPhaseConfirming; TransactionPhaseIssued] → rank (v_Phase v) ≤ 1.
Proof. intros Hp. unfold rank. case_bool_decide; [lia|]. rewrite !bool_decide_false by set_solver. lia. Qed.
Lemma rank_max phase : rank phase ≤ 3.
Proof. unfold rank. repeat case_bool_decide; lia. Qed.

Lemma transition_rank v v' : transition v v' → rank (v_Phase v) ≤ rank (v_Phase v').
Proof. intros [Hp -> | -> -> | _ -> ]; [by apply rank_waiting|done|apply rank_max]. Qed.
Lemma confirming_rank v v' : confirming v v' → rank (v_Phase v) ≤ rank (v_Phase v').
Proof. intros [Hp -> _ _ _ _]. apply rank_waiting in Hp. change (rank TransactionPhaseConfirming) with 2. lia. Qed.

(** ** One event *)

(** Both sides after one event that is not a deletion: the state agrees with the
    record, the stage does not go back, and the event belongs to the recorded
    transaction, or creates the record. *)
Lemma step_durable n s ev s' d d' :
  Lifecycle.step n s ev s' → agrees s d → durableStep d ev d' → isDelete ev = false →
  agrees s' d' ∧ ascends (durableRank d) [ev] (durableRank d') ∧
  match d with
  | Some (id, _) => fst <$> d' = Some id ∧ isCreate ev = false ∧ (∀ id', transactionOf ev = Some id' → id' = id)
  | None => if isCreate ev then fst <$> d' = transactionOf ev else d' = None ∧ transactionOf ev = None
  end.
Proof.
  intros Hs Ha Hd Hev.
  destruct Hs as [s ev Hn| | |t|t|t Hp|v operation r Hp|v poll Hp|v confirm leaf Hp| |v t Hc|v t Ht|]; simpl in *; try done;
    destruct_and?; simplify_eq/=.
  - destruct ev; simpl in *; try done; subst; destruct d as [[]|]; simpl; by split_and!.
  - done.
  - naive_solver.
  - naive_solver.
  - destruct Ha as (v & -> & Hr). simpl. rewrite Hp, Hr. naive_solver.
  - rewrite (rank_early v Hp). naive_solver.
  - rewrite Hp. naive_solver.
  - rewrite Hp. naive_solver.
  - naive_solver.
  - apply confirming_rank in Hc. simpl in Hc. naive_solver.
  - apply transition_rank in Ht. simpl in Ht. naive_solver.
Qed.

(** ** One reconcile, complete or cut *)

Definition within (id : bytes) (l : list event) : Prop := Forall (λ ev, ∀ id', transactionOf ev = Some id' → id' = id) l.

(** The events [l] belong to the recorded transaction, to the one transaction
    they create, or to none. *)
Definition oneTransaction (d : durable) (l : list event) (d' : durable) : Prop :=
  match d with
  | Some (id, _) => fst <$> d' = Some id ∧ count isCreate l = 0 ∧ within id l
  | None =>
      (d' = None ∧ count isCreate l = 0 ∧ ∀ id, within id l) ∨
      (∃ id, fst <$> d' = Some id ∧ count isCreate l = 1 ∧ within id l)
  end.

Lemma count_app (p : event → bool) l1 l2 : count p (l1 ++ l2) = count p l1 + count p l2.
Proof. unfold count. by rewrite List.filter_app, length_app. Qed.

Lemma within_app id l1 l2 : within id l1 → within id l2 → within id (l1 ++ l2).
Proof. apply Forall_app_2. Qed.

Lemma oneTransaction_app d l1 d1 l2 d2 : oneTransaction d l1 d1 → oneTransaction d1 l2 d2 → oneTransaction d (l1 ++ l2) d2.
Proof.
  unfold oneTransaction. intros H1 H2. rewrite count_app. destruct d as [[id v]|].
  - destruct H1 as (Hd1 & Hc & Hw). destruct d1 as [[id1 v1]|]; simplify_eq/=. destruct H2 as (? & -> & ?).
    rewrite Hc. auto using within_app.
  - destruct H1 as [(-> & Hc & Hw)|(id & Hd1 & Hc & Hw)]; rewrite Hc.
    + destruct H2 as [(-> & Hc2 & Hw2)|(id & Hd2 & Hc2 & Hw2)]; [left|right; exists id]; auto using within_app.
    + destruct d1 as [[id1 v1]|]; simplify_eq/=. destruct H2 as (? & -> & ?). right. exists id. auto using within_app.
Qed.

Lemma step_oneTransaction n s ev s' d d' :
  Lifecycle.step n s ev s' → agrees s d → durableStep d ev d' → isDelete ev = false → oneTransaction d [ev] d'.
Proof.
  intros Hs Ha Hd Hev. destruct (step_durable _ _ _ _ _ _ Hs Ha Hd Hev) as (_ & _ & Ht). unfold oneTransaction, within, count.
  destruct d as [[id v]|]; simpl.
  - destruct Ht as (? & -> & ?). by repeat constructor.
  - destruct (isCreate ev) eqn:Ec; simpl.
    + right. destruct ev as [| |t| | | | | | | | | | | | ]; try done. simpl in *. destruct Hd as [_ ->]. exists (idOf t). split_and!; [done..|].
      constructor; [|constructor]. naive_solver.
    + left. destruct Ht as [-> Ht]. split_and!; try done. intros id. repeat constructor. by rewrite Ht.
Qed.

Lemma nothing_durable d : ascends (durableRank d) [] (durableRank d) ∧ oneTransaction d [] d.
Proof. split; [simpl; lia|]. destruct d as [[id v]|]; simpl; [|left]; split_and!; try done; intros; apply Forall_nil_2. Qed.

Lemma accepts_durable n s l s' d d' :
  accepts n s l s' → agrees s d → durably d l d' → Forall (λ ev, isDelete ev = false) l →
  ascends (durableRank d) l (durableRank d') ∧ oneTransaction d l d'.
Proof.
  intros Ha. revert d. induction Ha as [s|s1 ev s2 l s3 Hs Ha IH]; intros d Hag Hd Hnd.
  - simpl in Hd. subst d'. apply nothing_durable.
  - apply Forall_cons in Hnd as [Hev Hnd]. destruct Hd as (d1 & Hd1 & Hd).
    destruct (step_durable _ _ _ _ _ _ Hs Hag Hd1 Hev) as (Hag' & Hasc & _). destruct (IH _ Hag' Hd Hnd) as [Hasc' Hone].
    change (ev :: l) with ([ev] ++ l). split; [by eapply ascends_app|].
    eapply oneTransaction_app; [by eapply step_oneTransaction|done].
Qed.
End durable.

(** ** Any number of reconciles *)

Section crash.
Context `{Runtime} `{CertManager} {client : Client} `{!KubeLaws} `{!ProtocolClient.ClientLaws client}.
Context (ClusterResourceNamespace : string) (request : CertificateRequestObject).

(** The reconciles of one CertificateRequest, with any issuer configuration:
    each runs to its end or stops after some of its events, an update that took
    effect although it reported a failure being such a stop, and starts from
    the record as it was left.  Others may delete the record. *)
Inductive course : durable → list event → durable → Prop :=
| course_end d : course d [] d
| course_reconcile d issuer w trace lost d' l d'' :
    reconciles ClusterResourceNamespace request issuer w (trace ++ lost) → durably d trace d' → course d' l d'' →
    course d (trace ++ l) d''
| course_removed d key uid l d' : course None l d' → course d (EvDelete key uid :: l) d'.

Lemma course_durable d l d' :
  course d l d' → Forall (λ ev, isDelete ev = false) l →
  ascends (durableRank d) l (durableRank d') ∧ oneTransaction d l d'.
Proof.
  induction 1 as [d|d issuer w trace lost d' l d'' Hr Hd Hc IH|d key uid l d' Hc IH]; intros Hnd.
  - apply nothing_durable.
  - apply Forall_app in Hnd as [Hnd1 Hnd2]. destruct (IH Hnd2) as [Hasc Hone].
    apply reconciles_accepted in Hr as [final Ha]. apply accepts_app_inv in Ha as (s & Ha & _).
    destruct (accepts_durable _ _ _ _ _ _ Ha I Hd Hnd1) as [Hasc1 Hone1].
    split; [by eapply ascends_app|by eapply oneTransaction_app].
  - by apply Forall_cons in Hnd as [? _].
Qed.

(** C8: Crashes never start a second transaction: over any sequence of complete and interrupted reconciles of a
    CertificateRequest in which the record is not deleted, at most one transaction is created, none when one
    was recorded, and every message and every record carries the one transaction ID. *)
Theorem crash_one_transaction d l d' :
  course d l d' → Forall (λ ev, isDelete ev = false) l → oneTransaction d l d'.
Proof. intros Hc Hnd. by destruct (course_durable _ _ _ Hc Hnd). Qed.

(** C9: Crashes never take a transaction back: over any sequence of complete and interrupted reconciles without a
    deletion, the stages of messages and records only ascend, from enrollment over polling and confirmation to
    issued.  No enrollment request follows a record in phase Polling, Confirming or Issued, no poll for the
    certificate a record in phase Confirming or Issued, and no confirmation a record in phase Issued. *)
Theorem crash_monotone d l d' :
  course d l d' → Forall (λ ev, isDelete ev = false) l → StronglySorted le (durableRank d :: omap stage l ++ [durableRank d']).
Proof. intros Hc Hnd. destruct (course_durable _ _ _ Hc Hnd) as [Hasc _]. by apply ascends_sorted. Qed.
End crash.

#[local] Existing Instances Demo.demoLibs CMPClient CMPClient_laws demoKube.

(** A poll answered with waiting, stopped before the answer is recorded, and
    repeated by the next reconcile. *)
Definition demoTrace : list event := events polling "pollrep".
Definition demoLeft : durable := Some (durableOf (incrementPolls polling)).

Lemma demo_course : course "" request (Some (durableOf polling)) (take 5 demoTrace ++ demoTrace ++ []) demoLeft.
Proof.
  eapply (course_reconcile _ _ _ issuer (resumeWorld polling "pollrep") _ (drop 5 demoTrace) (Some (durableOf polling))).
  - rewrite take_drop. exact (eventsOf_reconciles "" request issuer (resumeWorld polling "pollrep")).
  - apply durableRun_durably. vm_compute. reflexivity.
  - eapply (course_reconcile _ _ _ issuer (resumeWorld polling "pollrep") _ [] demoLeft); [|apply durableRun_durably; vm_compute; reflexivity|constructor].
    rewrite app_nil_r. exact (eventsOf_reconciles "" request issuer (resumeWorld polling "pollrep")).
Qed.

Lemma demo_undeleted : Forall (λ ev, isDelete ev = false) (take 5 demoTrace ++ demoTrace ++ []).
Proof.
  assert (Hb : forallb (λ ev, negb (isDelete ev)) (take 5 demoTrace ++ demoTrace ++ []) = true) by (vm_compute; reflexivity).
  rewrite forallb_forall in Hb. apply List.Forall_forall. intros ev Hin. by apply negb_true_iff, Hb.
Qed.

Lemma crash_one_transaction_witness :
  count isPoll (take 5 demoTrace ++ demoTrace ++ []) = 2 ∧
  oneTransaction (Some (durableOf polling)) (take 5 demoTrace ++ demoTrace ++ []) demoLeft.
Proof.
  split; [vm_compute; reflexivity|]. exact (crash_one_transaction "" request _ _ _ demo_course demo_undeleted).
Defined.

Lemma crash_monotone_witness :
  omap stage (take 5 demoTrace ++ demoTrace ++ []) = [1; 1; 1; 1; 1] ∧
  StronglySorted le (durableRank (Some (durableOf polling)) :: omap stage (take 5 demoTrace ++ demoTrace ++ []) ++ [durableRank demoLeft]).
Proof.
  split; [vm_compute; reflexivity|]. exact (crash_monotone "" request _ _ _ demo_course demo_undeleted).
Defined.
End Crash.
